(** * A model of the WebGPU mesh-deformation application

    The development follows the JavaScript sources:
    - [StlOperations.js]: the WGSL compute kernel [COMPUTE_SHADER], the table
      [OP_MAP], and the class [StlOperations] (mesh generation, buffers,
      [processOperation], [getProcessedVertices]);
    - [GpuUtils.js]: [GPUManager.init] and [GPUManager.readBuffer];
    - [Renderer.js]: the class [Renderer] ([init], [resizeCanvas],
      [setupControls], [buildMVP], [mat4Mul], [updateMesh],
      [resetIndexBuffer], [render]) and the two stages of [RENDER_SHADER];
    - [app.js]: the start-up sequence, the listeners of the Process and the
      Reset button, and the animation loop.

    The kernel is written once, over an interface of scalar arithmetic, and
    is then read in two ways: over the real numbers (exact arithmetic) and
    over IEEE-754 binary32 with round-to-nearest-even (the [f32] of WGSL),
    the latter being executable.  The [cos] and [sin] of the device are
    parameters, with their accuracy an assumption where it matters.  A
    kernel invocation keeps a journal of its buffer accesses and faults on
    an access out of bounds.  The camera matrix and the stages
    of the render shader are written over the same interface and read over
    the real numbers; the camera controls are in binary64, as the host
    computes them.

    The host is a state monad over array buffers, device buffers and the
    [stlOps] singleton, with exceptions; the renderer is a record of its
    fields with a log of what it hands to the device; its clock is in
    binary64.  The listener of the Process button is also read await by
    await, with the Reset listener running in between.  Limits of the device
    are outside the model. *)

From Stdlib Require Import ZArith QArith Qround Reals Lra Lia.
From Stdlib Require Import Floats.SpecFloat.
From stdpp Require Import base list strings gmap.

Set Default Proof Using "Type".

(** ** Scalars of the shader language *)

(** The operations the kernel applies to [f32] values.  [lit] interprets a
    decimal literal of the shader text; [flt] is the comparison [<]. *)
Class Scalar (F : Type) := {
  lit : Q → F;
  fadd : F → F → F;
  fsub : F → F → F;
  fmul : F → F → F;
  fdiv : F → F → F;
  fneg : F → F;
  fsqrt : F → F;
  fcos : F → F;
  fsin : F → F;
  flt : F → F → bool;
}.

Declare Scope scalar_scope.
Delimit Scope scalar_scope with sc.
Infix "+" := fadd : scalar_scope.
Infix "-" := fsub : scalar_scope.
Infix "*" := fmul : scalar_scope.
Infix "/" := fdiv : scalar_scope.
Notation "- x" := (fneg x) : scalar_scope.

(** WGSL built-ins: [max(e1,e2)] is [e2] if [e1 < e2] and [e1] otherwise,
    [min(e1,e2)] is [e2] if [e2 < e1] and [e1] otherwise, and
    [clamp(e,low,high)] is [min(max(e,low),high)]. *)
Definition fmax {F} `{Scalar F} (e1 e2 : F) : F := if flt e1 e2 then e2 else e1.
Definition fmin {F} `{Scalar F} (e1 e2 : F) : F := if flt e2 e1 then e2 else e1.
Definition clamp {F} `{Scalar F} (e low high : F) : F := fmin (fmax e low) high.

(** Unsigned 32-bit arithmetic of the shader ([u32]), with its wrap-around. *)
Definition u32_modulus : Z := 2 ^ 32.
Definition u32_add (a b : Z) : Z := ((a + b) mod u32_modulus)%Z.
Definition u32_mul (a b : Z) : Z := ((a * b) mod u32_modulus)%Z.

(** ** The compute kernel [COMPUTE_SHADER] *)

(** An access to one of the two storage buffers: a load from [input_verts] or
    a store to [output_verts], at an element index. *)
Inductive access := LoadInput (i : Z) | StoreOutput (i : Z).

Global Instance access_eq_dec : EqDecision access.
Proof. solve_decision. Defined.

Section Kernel.
Context {F : Type} `{Scalar F}.

(** [struct Params] of the shader. *)
Record Params := {
  operation : Z;
  param_value : F;
  vertex_count : Z;
  _pad : Z;
}.

(** The state an invocation acts on: the read-write buffer [output_verts]
    and the journal of the accesses made so far, oldest first. *)
Record Mem := { output_verts : list F; journal : list access }.

(** Kernel code runs in a state monad over [Mem]; an access outside the
    bounds of a buffer is a fault ([None]). *)
Definition Kern (A : Type) : Type := Mem → option (A * Mem).

Global Instance Kern_ret : MRet Kern := λ A a m, Some (a, m).
Global Instance Kern_bind : MBind Kern := λ A B f k m,
  match k m with
  | Some (a, m') => f a m'
  | None => None
  end.

Definition load (input_verts : list F) (i : Z) : Kern F := λ m,
  match input_verts !! Z.to_nat i with
  | Some v => Some (v, {| output_verts := output_verts m;
                          journal := journal m ++ [LoadInput i] |})
  | None => None
  end.

Definition store (i : Z) (v : F) : Kern unit := λ m,
  if decide (Z.to_nat i < length (output_verts m))%nat
  then Some (tt, {| output_verts := <[Z.to_nat i := v]> (output_verts m);
                    journal := journal m ++ [StoreOutput i] |})
  else None.

(** The branch on [params.operation]: from the vertex [(x, y, z)] to the
    values of [ox], [oy], [oz] at the end of the chain of [if]s. *)
Definition deform (params : Params) (x y z : F) : F * F * F :=
  let ox := x in
  let oy := y in
  let oz := z in
  if (operation params =? 0)%Z then
    ((x * param_value params)%sc,
     (y * param_value params)%sc,
     (z * param_value params)%sc)
  else if (operation params =? 1)%Z then
    let angle := (param_value params * lit 3.14159265)%sc in
    let c := fcos angle in
    let s := fsin angle in
    ((x * c + z * s)%sc, oy, (- x * s + z * c)%sc)
  else if (operation params =? 2)%Z then
    (ox, (y + (param_value params - lit 1.0) * lit 0.5)%sc, oz)
  else if (operation params =? 3)%Z then
    let len := fsqrt (x * x + y * y + z * z)%sc in
    if flt (lit 0.001) len then
      let nx := (x / len)%sc in
      let ny := (y / len)%sc in
      let nz := (z / len)%sc in
      let r := lit 0.5 in
      let t := (clamp (param_value params) (lit 0.0) (lit 2.0) - lit 1.0)%sc in
      ((x + (nx * r - x) * t)%sc,
       (y + (ny * r - y) * t)%sc,
       (z + (nz * r - z) * t)%sc)
    else (ox, oy, oz)
  else (ox, oy, oz).

(** [fn main]: one invocation, for the global invocation id [gid.x]. *)
Definition main (input_verts : list F) (params : Params) (gid_x : Z) : Kern unit :=
  let idx := gid_x in
  if (idx >=? vertex_count params)%Z then mret tt
  else
    let base := u32_mul idx 3 in
    x ← load input_verts base;
    y ← load input_verts (u32_add base 1);
    z ← load input_verts (u32_add base 2);
    let '(ox, oy, oz) := deform params x y z in
    store base ox;;
    store (u32_add base 1) oy;;
    store (u32_add base 2) oz.

(** A dispatch of [workgroups] workgroups of [@workgroup_size(64)] along
    one axis runs the invocations [0 .. 64*workgroups - 1].  They are run
    here one after the other, in increasing order; another order gives the
    same output ([compute_pass_any_order]). *)
Definition workgroup_size : Z := 64.

Definition invocations (workgroups : Z) : list Z :=
  seqZ 0 (workgroups * workgroup_size).

Fixpoint run_invocations (input_verts : list F) (params : Params)
    (gids : list Z) : Kern unit :=
  match gids with
  | [] => mret tt
  | gid :: gids' =>
      main input_verts params gid;;
      run_invocations input_verts params gids'
  end.

Definition dispatchWorkgroups (input_verts : list F) (params : Params)
    (workgroups : Z) : Kern unit :=
  run_invocations input_verts params (invocations workgroups).

End Kernel.

Arguments Params F : clear implicits.
Arguments Mem F : clear implicits.
Arguments Kern F A : clear implicits.

(** ** Exact arithmetic: the kernel over the real numbers *)

Definition Rlt_bool (a b : R) : bool := if Rlt_dec a b then true else false.

Global Instance R_scalar : Scalar R := {|
  lit := Q2R;
  fadd := Rplus;
  fsub := Rminus;
  fmul := Rmult;
  fdiv := Rdiv;
  fneg := Ropp;
  fsqrt := sqrt;
  fcos := cos;
  fsin := sin;
  flt := Rlt_bool;
|}.

(** ** Machine arithmetic: IEEE-754 binary32 *)

(** An [f32] is a [spec_float] with a 24-bit significand and exponents up to
    128; the operations round to nearest, ties to even. *)
Definition prec32 : Z := 24.
Definition emax32 : Z := 128.
Definition f32 : Type := spec_float.

Definition f32_valid (x : f32) : bool := valid_binary prec32 emax32 x.

(** A binary64 ([number], the numbers of JavaScript and the abstract floats
    of shader literals).  A decimal literal [n/d] denotes the correctly
    rounded quotient. *)
Definition prec64 : Z := 53.
Definition emax64 : Z := 1024.
Definition number : Type := spec_float.

Definition number_lit (q : Q) : number :=
  match Qnum q with
  | Z0 => S754_zero false
  | Zpos n => SFdiv prec64 emax64 (S754_finite false n 0) (S754_finite false (Qden q) 0)
  | Zneg n => SFdiv prec64 emax64 (S754_finite true n 0) (S754_finite false (Qden q) 0)
  end.

(** The conversion of a binary64 to binary32, as done when a number is
    stored into a [Float32Array] or through [setFloat32], and when an
    abstract float meets an [f32] operand: round to nearest, ties to even. *)
Definition f32_of_number (x : number) : f32 :=
  match x with
  | S754_finite s m e => binary_round prec32 emax32 s m e
  | _ => x
  end.

(** A decimal literal of the shader, as an [f32]. *)
Definition f32_lit (q : Q) : f32 := f32_of_number (number_lit q).

Section F32.
(** The built-ins [cos] and [sin] of the device are not fixed by the
    shader language beyond an accuracy bound; they are parameters. *)
Variables gpu_cos gpu_sin : f32 → f32.

Definition f32_scalar : Scalar f32 := {|
  lit := f32_lit;
  fadd := SFadd prec32 emax32;
  fsub := SFsub prec32 emax32;
  fmul := SFmul prec32 emax32;
  fdiv := SFdiv prec32 emax32;
  fneg := SFopp;
  fsqrt := SFsqrt prec32 emax32;
  fcos := gpu_cos;
  fsin := gpu_sin;
  flt := SFltb;
|}.
End F32.

(** ** The value of a binary32 *)

(** The real number a finite binary32 stands for; zero for the zeros, and
    for infinities and NaN, which stand for none. *)
Definition f32_value (x : f32) : R :=
  match x with
  | S754_finite s m e => ((if s then -1 else 1) * IZR (Zpos m) * powerRZ 2 e)%R
  | _ => 0%R
  end.

(** A zero, a subnormal or a normal number. *)
Definition f32_finite (x : f32) : bool :=
  match x with
  | S754_zero _ | S754_finite _ _ _ => true
  | _ => false
  end.

(** The [cos] and [sin] of a device at [angle] are finite and within [ε] of
    the cosine and the sine of the angle. *)
Definition trig_within (gpu_cos gpu_sin : f32 → f32) (ε : R) (angle : f32) : Prop :=
  f32_finite angle = true
  ∧ f32_valid (gpu_cos angle) = true ∧ f32_finite (gpu_cos angle) = true
  ∧ f32_valid (gpu_sin angle) = true ∧ f32_finite (gpu_sin angle) = true
  ∧ (Rabs (f32_value (gpu_cos angle) - cos (f32_value angle)) <= ε)%R
  ∧ (Rabs (f32_value (gpu_sin angle) - sin (f32_value angle)) <= ε)%R.

(** A device that knows one angle: its [cos] is the binary32 nearest to the
    cosine of an eighth of a turn, its [sin] the same with the sign of the
    angle. *)
Definition eighth_turn_cos (a : f32) : f32 := f32_lit 0.70710678.

Definition eighth_turn_sin (a : f32) : f32 :=
  match a with
  | S754_finite true _ _ => SFopp (f32_lit 0.70710678)
  | _ => f32_lit 0.70710678
  end.

(** ** Vocabulary for statements about the kernel *)

Section KernelVocabulary.
Context {F : Type} `{Scalar F}.

(** The six accesses of an invocation that passes the bounds guard. *)
Definition vertex_accesses (idx : Z) : list access :=
  [LoadInput (3 * idx); LoadInput (3 * idx + 1); LoadInput (3 * idx + 2);
   StoreOutput (3 * idx); StoreOutput (3 * idx + 1); StoreOutput (3 * idx + 2)]%Z.

(** The vertex triple at [idx] of a packed position array. *)
Definition vertex_at (verts : list F) (idx : Z) : option (F * F * F) :=
  x ← verts !! Z.to_nat (3 * idx);
  y ← verts !! Z.to_nat (3 * idx + 1);
  z ← verts !! Z.to_nat (3 * idx + 2);
  Some (x, y, z).

Definition put_vertex (verts : list F) (idx : Z) (v : F * F * F) : list F :=
  <[Z.to_nat (3 * idx + 2) := v.2]>
    (<[Z.to_nat (3 * idx + 1) := v.1.2]>
      (<[Z.to_nat (3 * idx) := v.1.1]> verts)).

(** The journal of a dispatch: the accesses of the invocations that pass
    the guard, in order. *)
Definition dispatch_accesses (first : Z) (count : Z) : list access :=
  mjoin (vertex_accesses <$> seqZ first count).

Definition deform_vertex params (v : F * F * F) : F * F * F :=
  deform params v.1.1 v.1.2 v.2.

(** A packed array transformed vertex by vertex. *)
Fixpoint map_vertices (g : F * F * F → F * F * F) (verts : list F) : list F :=
  match verts with
  | x :: y :: z :: verts' =>
      let v := g (x, y, z) in
      v.1.1 :: v.1.2 :: v.2 :: map_vertices g verts'
  | _ => []
  end.

End KernelVocabulary.

(** ** Host side: bytes and [DataView] *)

(** The binary32 interchange format: sign (1 bit), biased exponent (8 bits),
    trailing significand (23 bits). *)
Definition sign_bit (s : bool) : Z := if s then 2 ^ 31 else 0.

Definition f32_bits (x : f32) : Z :=
  match x with
  | S754_zero s => sign_bit s
  | S754_infinity s => sign_bit s + 255 * 2 ^ 23
  | S754_nan => 255 * 2 ^ 23 + 2 ^ 22
  | S754_finite s m e =>
      if (Zpos m <? 2 ^ 23)%Z then sign_bit s + Zpos m
      else sign_bit s + (e + 150) * 2 ^ 23 + (Zpos m - 2 ^ 23)
  end%Z.

Definition f32_of_bits (w : Z) : f32 :=
  let s := Z.testbit w 31 in
  let e := ((w / 2 ^ 23) mod 2 ^ 8)%Z in
  let m := (w mod 2 ^ 23)%Z in
  if (e =? 0)%Z then
    if (m =? 0)%Z then S754_zero s else S754_finite s (Z.to_pos m) (-149)
  else if (e =? 255)%Z then
    if (m =? 0)%Z then S754_infinity s else S754_nan
  else S754_finite s (Z.to_pos (m + 2 ^ 23)) (e - 150).

(** A byte is an integer in [0, 256); an [ArrayBuffer] is a list of bytes. *)
Definition le32 (w : Z) : list Z :=
  [w mod 256; (w / 2 ^ 8) mod 256; (w / 2 ^ 16) mod 256; (w / 2 ^ 24) mod 256]%Z.

Definition le32_decode (bs : list Z) : Z :=
  match bs with
  | [b0; b1; b2; b3] => b0 + b1 * 2 ^ 8 + b2 * 2 ^ 16 + b3 * 2 ^ 24
  | _ => 0
  end%Z.

(** The bytes of [buf] from offset [off] on are replaced by [bs]; the result
    is [None] when [bs] does not fit, where a [DataView] setter throws a
    [RangeError]. *)
Definition write_bytes (buf : list Z) (off : nat) (bs : list Z) : option (list Z) :=
  if decide (off + length bs ≤ length buf)%nat
  then Some (take off buf ++ bs ++ drop (off + length bs) buf)
  else None.

Definition read_bytes (buf : list Z) (off len : nat) : list Z :=
  take len (drop off buf).

(** The device reads the uniform [Params] at the offsets of its members:
    0, 4, 8 and 12 (all members have size and alignment 4). *)
Definition uniform_word (bytes : list Z) (off : nat) : Z :=
  le32_decode (read_bytes bytes off 4).

Definition decode_Params (bytes : list Z) : Params f32 :=
  {| operation := uniform_word bytes 0;
     param_value := f32_of_bits (uniform_word bytes 4);
     vertex_count := uniform_word bytes 8;
     _pad := uniform_word bytes 12 |}.

(** ** Host objects: array buffers, device buffers, the [stlOps] singleton *)

Definition loc : Type := nat.

(** The contents of an [ArrayBuffer] or of a device buffer, kept as the
    element list of the typed view the program uses on it.  An [ArrayBuffer]
    obtained from [getMappedRange] is detached by [unmap]. *)
Inductive storage :=
  | Floats (data : list f32)
  | Words (data : list Z)
  | Bytes (data : list Z)
  | Detached.

Definition byteLength (s : storage) : nat :=
  match s with
  | Floats d | Words d => 4 * length d
  | Bytes d => length d
  | Detached => 0
  end.

Record GPUBuffer := {
  gpu_size : nat;
  gpu_data : storage;
  gpu_destroyed : bool;
}.

(** [meshData]: the typed arrays [vertices] and [indices] are references to
    their array buffers. *)
Record Mesh := { vertices : loc; indices : loc; vertexCount : Z }.

Record BindGroup := { binding0 : loc; binding1 : loc; binding2 : loc }.

Record StlOperations := {
  meshData : option Mesh;
  computePipeline : option unit;
  inputBuffer : option loc;
  outputBuffer : option loc;
  uniformBuffer : option loc;
  bindGroup : option BindGroup;
}.

(** Work handed to [device.queue]. *)
Inductive command :=
  | CmdWriteBuffer (dst : loc) (data : list Z)
  | CmdDispatch (bg : BindGroup) (workgroups : Z)
  | CmdCopyBufferToBuffer (src dst : loc) (size : nat).

Record World := {
  arraybuffers : gmap loc storage;
  gpubuffers : gmap loc GPUBuffer;
  submitted : list command;
  stlOps : StlOperations;
}.

(** Host code runs in a state monad over [World] with exceptions; the state
    reached when an exception is thrown is kept.  A failed validation or a
    fault of the kernel model is reported as [GPUError] and ends the call. *)
Inductive error := TypeError | RangeError | GPUError.
Inductive result (A : Type) := Ok (a : A) | Throw (e : error).
Arguments Ok {A} a.
Arguments Throw {A} e.

Definition Host (A : Type) : Type := World → result A * World.

Global Instance Host_ret : MRet Host := λ A a w, (Ok a, w).
Global Instance Host_bind : MBind Host := λ A B f k w,
  match k w with
  | (Ok a, w') => f a w'
  | (Throw e, w') => (Throw e, w')
  end.

Definition throw {A} (e : error) : Host A := λ w, (Throw e, w).

(** Reading a property of [null] throws a [TypeError]. *)
Definition nonnull {A} (o : option A) : Host A :=
  match o with Some a => mret a | None => throw TypeError end.

Definition this : Host StlOperations := λ w, (Ok (stlOps w), w).

Definition set_this (s : StlOperations) : Host unit := λ w,
  (Ok tt, {| arraybuffers := arraybuffers w; gpubuffers := gpubuffers w;
             submitted := submitted w; stlOps := s |}).

Definition new_ArrayBuffer (s : storage) : Host loc := λ w,
  let l := fresh (dom (arraybuffers w)) in
  (Ok l, {| arraybuffers := <[l := s]> (arraybuffers w); gpubuffers := gpubuffers w;
            submitted := submitted w; stlOps := stlOps w |}).

Definition set_ArrayBuffer (l : loc) (s : storage) : Host unit := λ w,
  (Ok tt, {| arraybuffers := <[l := s]> (arraybuffers w); gpubuffers := gpubuffers w;
             submitted := submitted w; stlOps := stlOps w |}).

Definition get_ArrayBuffer (l : loc) : Host storage := λ w,
  match arraybuffers w !! l with
  | Some s => (Ok s, w)
  | None => (Throw TypeError, w)
  end.

Definition device_createBuffer (size : nat) (init : storage) : Host loc := λ w,
  let h := fresh (dom (gpubuffers w)) in
  (Ok h, {| arraybuffers := arraybuffers w;
            gpubuffers := <[h := {| gpu_size := size; gpu_data := init;
                                    gpu_destroyed := false |}]> (gpubuffers w);
            submitted := submitted w; stlOps := stlOps w |}).

Definition get_GPUBuffer (h : loc) : Host GPUBuffer := λ w,
  match gpubuffers w !! h with
  | Some b => if gpu_destroyed b then (Throw GPUError, w) else (Ok b, w)
  | None => (Throw GPUError, w)
  end.

Definition set_GPUBuffer (h : loc) (b : GPUBuffer) : Host unit := λ w,
  (Ok tt, {| arraybuffers := arraybuffers w; gpubuffers := <[h := b]> (gpubuffers w);
             submitted := submitted w; stlOps := stlOps w |}).

Definition buffer_destroy (h : loc) : Host unit := λ w,
  match gpubuffers w !! h with
  | Some b => set_GPUBuffer h {| gpu_size := gpu_size b; gpu_data := Detached;
                                 gpu_destroyed := true |} w
  | None => (Ok tt, w)
  end.

Definition queue_log (c : command) : Host unit := λ w,
  (Ok tt, {| arraybuffers := arraybuffers w; gpubuffers := gpubuffers w;
             submitted := submitted w ++ [c]; stlOps := stlOps w |}).

(** [if (b) b.destroy()]. *)
Definition destroy_if_set (o : option loc) : Host unit :=
  match o with Some h => buffer_destroy h | None => mret tt end.

Definition update_this (f : StlOperations → StlOperations) : Host unit :=
  s ← this; set_this (f s).

Definition with_meshData (v : option Mesh) (s : StlOperations) : StlOperations :=
  {| meshData := v; computePipeline := computePipeline s;
     inputBuffer := inputBuffer s; outputBuffer := outputBuffer s;
     uniformBuffer := uniformBuffer s; bindGroup := bindGroup s |}.
Definition with_computePipeline (v : option unit) (s : StlOperations) : StlOperations :=
  {| meshData := meshData s; computePipeline := v;
     inputBuffer := inputBuffer s; outputBuffer := outputBuffer s;
     uniformBuffer := uniformBuffer s; bindGroup := bindGroup s |}.
Definition with_inputBuffer (v : option loc) (s : StlOperations) : StlOperations :=
  {| meshData := meshData s; computePipeline := computePipeline s;
     inputBuffer := v; outputBuffer := outputBuffer s;
     uniformBuffer := uniformBuffer s; bindGroup := bindGroup s |}.
Definition with_outputBuffer (v : option loc) (s : StlOperations) : StlOperations :=
  {| meshData := meshData s; computePipeline := computePipeline s;
     inputBuffer := inputBuffer s; outputBuffer := v;
     uniformBuffer := uniformBuffer s; bindGroup := bindGroup s |}.
Definition with_uniformBuffer (v : option loc) (s : StlOperations) : StlOperations :=
  {| meshData := meshData s; computePipeline := computePipeline s;
     inputBuffer := inputBuffer s; outputBuffer := outputBuffer s;
     uniformBuffer := v; bindGroup := bindGroup s |}.
Definition with_bindGroup (v : option BindGroup) (s : StlOperations) : StlOperations :=
  {| meshData := meshData s; computePipeline := computePipeline s;
     inputBuffer := inputBuffer s; outputBuffer := outputBuffer s;
     uniformBuffer := uniformBuffer s; bindGroup := v |}.

(** *** [OP_MAP] and property lookup *)

Definition OP_MAP : gmap string Z :=
  <["scale" := 0%Z]> (<["rotate" := 1%Z]> (<["translate" := 2%Z]> (<["inflate" := 3%Z]> ∅))).

(** [OP_MAP] is an object literal, so a lookup that misses its own
    properties continues in [Object.prototype], whose properties are
    functions or objects, never numbers. *)
Inductive js_value := JSNumber (n : Z) | JSObject.

Definition Object_prototype : list string :=
  ["constructor"; "__defineGetter__"; "__defineSetter__"; "hasOwnProperty";
   "__lookupGetter__"; "__lookupSetter__"; "isPrototypeOf";
   "propertyIsEnumerable"; "toString"; "valueOf"; "__proto__";
   "toLocaleString"].

Definition get_property (o : gmap string Z) (key : string) : option js_value :=
  match o !! key with
  | Some n => Some (JSNumber n)
  | None => if bool_decide (key ∈ Object_prototype) then Some JSObject else None
  end.

(** [ToUint32]: a function or object converts to [NaN] and then to [0]. *)
Definition ToUint32 (v : js_value) : Z :=
  match v with
  | JSNumber n => (n mod 2 ^ 32)%Z
  | JSObject => 0%Z
  end.

(** [Math.ceil], on the exact quotient. *)
Definition Math_ceil (q : Q) : Z := Qceiling q.

(** *** [DataView] setters

    The 16-byte [ArrayBuffer] of [processOperation] is local to the call; the
    setters take and return its bytes. *)

Definition setUint32 (view : list Z) (off : nat) (v : js_value) : Host (list Z) :=
  match write_bytes view off (le32 (ToUint32 v)) with
  | Some view' => mret view'
  | None => throw RangeError
  end.

Definition setFloat32 (view : list Z) (off : nat) (x : number) : Host (list Z) :=
  match write_bytes view off (le32 (f32_bits (f32_of_number x))) with
  | Some view' => mret view'
  | None => throw RangeError
  end.

(** *** The mesh *)

Definition cube_positions : list Q :=
  [ -0.5; -0.5; -0.5;
     0.5; -0.5; -0.5;
     0.5;  0.5; -0.5;
    -0.5;  0.5; -0.5;
    -0.5; -0.5;  0.5;
     0.5; -0.5;  0.5;
     0.5;  0.5;  0.5;
    -0.5;  0.5;  0.5 ]%Q.

Definition cube_indices : list Z :=
  [ 4; 5; 6; 4; 6; 7;
    1; 0; 3; 1; 3; 2;
    5; 1; 2; 5; 2; 6;
    0; 4; 7; 0; 7; 3;
    7; 6; 2; 7; 2; 3;
    0; 1; 5; 0; 5; 4 ]%Z.

Definition new_Float32Array (xs : list number) : Host loc :=
  new_ArrayBuffer (Floats (f32_of_number <$> xs)).

Definition new_Uint32Array (xs : list Z) : Host loc :=
  new_ArrayBuffer (Words ((λ x, x mod 2 ^ 32)%Z <$> xs)).

(** [positions.length / 3]; the length is a multiple of 3. *)
Definition generateCubeMesh : Host unit :=
  let xs := number_lit <$> cube_positions in
  positions ← new_Float32Array xs;
  indices ← new_Uint32Array cube_indices;
  update_this (with_meshData
    (Some {| vertices := positions; indices := indices;
             vertexCount := Z.of_nat (length xs) / 3 |})).

Definition initComputePipeline : Host unit :=
  update_this (with_computePipeline (Some tt)).

Definition f32_zero : f32 := S754_zero false.

(** [device.createBuffer] with [mappedAtCreation], the copy of [data] into
    the mapped range, and [unmap]. *)
Definition createBuffer_mapped (data : storage) : Host loc :=
  h ← device_createBuffer (byteLength data) Detached;
  range ← new_ArrayBuffer data;
  b ← get_GPUBuffer h;
  set_GPUBuffer h {| gpu_size := gpu_size b; gpu_data := data;
                     gpu_destroyed := false |};;
  set_ArrayBuffer range Detached;;
  mret h.

Definition createBuffers : Host unit :=
  s ← this;
  mesh ← nonnull (meshData s);
  vertexData ← get_ArrayBuffer (vertices mesh);
  destroy_if_set (inputBuffer s);;
  destroy_if_set (outputBuffer s);;
  destroy_if_set (uniformBuffer s);;
  inb ← createBuffer_mapped vertexData;
  update_this (with_inputBuffer (Some inb));;
  outb ← device_createBuffer (byteLength vertexData)
           (Floats (replicate (byteLength vertexData / 4) f32_zero));
  update_this (with_outputBuffer (Some outb));;
  ub ← device_createBuffer 16 (Bytes (replicate 16 0%Z));
  update_this (with_uniformBuffer (Some ub)).

Definition setupBindGroup : Host unit :=
  s ← this;
  _ ← nonnull (computePipeline s);
  b0 ← nonnull (inputBuffer s);
  b1 ← nonnull (outputBuffer s);
  b2 ← nonnull (uniformBuffer s);
  update_this (with_bindGroup
    (Some {| binding0 := b0; binding1 := b1; binding2 := b2 |})).

(** *** The queue *)

(** [device.queue.writeBuffer(buffer, 0, data)]. *)
Definition queue_writeBuffer (buffer : option loc) (data : list Z) : Host unit :=
  h ← nonnull buffer;
  b ← get_GPUBuffer h;
  match gpu_data b with
  | Bytes old =>
      if decide (length data ≤ length old)%nat then
        set_GPUBuffer h {| gpu_size := gpu_size b;
                           gpu_data := Bytes (data ++ drop (length data) old);
                           gpu_destroyed := false |};;
        queue_log (CmdWriteBuffer h data)
      else throw GPUError
  | _ => throw GPUError
  end.

(** [encoder.copyBufferToBuffer(src, 0, dst, 0, size)] followed by the
    submission of the encoder. *)
Definition queue_copyBufferToBuffer (src dst : loc) (size : nat) : Host unit :=
  sb ← get_GPUBuffer src;
  db ← get_GPUBuffer dst;
  match gpu_data sb with
  | Floats d =>
      if decide (size ≤ gpu_size sb ∧ size ≤ gpu_size db)%nat then
        set_GPUBuffer dst {| gpu_size := gpu_size db;
                             gpu_data := Floats (take (size / 4) d);
                             gpu_destroyed := false |};;
        queue_log (CmdCopyBufferToBuffer src dst size)
      else throw GPUError
  | _ => throw GPUError
  end.

Section Device.
(** The [cos] and [sin] of the device that runs the kernel. *)
Variables gpu_cos gpu_sin : f32 → f32.

(** The submission of a compute pass with one dispatch: the kernel runs on
    the buffers of the bind group, with [Params] read from binding 2. *)
Definition queue_submit_compute (bg : BindGroup) (workgroups : Z) : Host unit :=
  inb ← get_GPUBuffer (binding0 bg);
  outb ← get_GPUBuffer (binding1 bg);
  ub ← get_GPUBuffer (binding2 bg);
  match gpu_data inb, gpu_data outb, gpu_data ub with
  | Floats input_verts, Floats output, Bytes uniform =>
      match dispatchWorkgroups (H := f32_scalar gpu_cos gpu_sin) input_verts
              (decode_Params uniform) workgroups
              {| output_verts := output; journal := [] |} with
      | Some (_, m) =>
          set_GPUBuffer (binding1 bg)
            {| gpu_size := gpu_size outb; gpu_data := Floats (output_verts m);
               gpu_destroyed := false |};;
          queue_log (CmdDispatch bg workgroups)
      | None => throw GPUError
      end
  | _, _, _ => throw GPUError
  end.

(** [StlOperations.processOperation]; the elapsed time it returns is not
    part of the model. *)
Definition processOperation (operation : string) (param : number) : Host unit :=
  s ← this;
  let opIndex := default (JSNumber 0) (get_property OP_MAP operation) in
  mesh ← nonnull (meshData s);
  let vertexCount := vertexCount mesh in
  let uniformData := replicate 16 0%Z in
  view ← setUint32 uniformData 0 opIndex;
  view ← setFloat32 view 4 param;
  view ← setUint32 view 8 (JSNumber vertexCount);
  view ← setUint32 view 12 (JSNumber 0);
  queue_writeBuffer (uniformBuffer s) view;;
  let workgroups := Math_ceil (inject_Z vertexCount / 64) in
  _ ← nonnull (computePipeline s);
  bg ← nonnull (bindGroup s);
  queue_submit_compute bg workgroups.

End Device.

(** [GPUManager.readBuffer]: the result is the [Float32Array] made by
    [slice()], referred to by its own array buffer. *)
Definition readBuffer (srcBuffer : option loc) (size : nat) : Host loc :=
  stagingBuffer ← device_createBuffer size (Floats (replicate (size / 4) f32_zero));
  src ← nonnull srcBuffer;
  queue_copyBufferToBuffer src stagingBuffer size;;
  sb ← get_GPUBuffer stagingBuffer;
  range ← new_ArrayBuffer (gpu_data sb);
  mapped ← get_ArrayBuffer range;
  result ← new_ArrayBuffer mapped;
  set_ArrayBuffer range Detached;;
  buffer_destroy stagingBuffer;;
  mret result.

(** [StlOperations.getProcessedVertices]. *)
Definition getProcessedVertices : Host loc :=
  s ← this;
  mesh ← nonnull (meshData s);
  v ← get_ArrayBuffer (vertices mesh);
  readBuffer (outputBuffer s) (byteLength v).

(** The state in which the module is loaded, and the start-up sequence of
    [initApp] as far as [stlOps] is concerned. *)
Definition initial_World : World :=
  {| arraybuffers := ∅; gpubuffers := ∅; submitted := [];
     stlOps := {| meshData := None; computePipeline := None; inputBuffer := None;
                  outputBuffer := None; uniformBuffer := None; bindGroup := None |} |}.

Definition initApp : Host unit :=
  generateCubeMesh;;
  initComputePipeline;;
  createBuffers;;
  setupBindGroup.

(** A stand-in for the [cos] and [sin] of a device, for runs that never
    evaluate them. *)
Definition no_trig (x : f32) : f32 := S754_nan.

(** The handler of the Process button, up to the hand-over to the renderer,
    when no other listener runs at its awaits: [processOperation] and then
    [getProcessedVertices].  The handler with its awaits is [do_step]. *)
Definition process_click (gpu_cos gpu_sin : f32 → f32)
    (operation : string) (param : number) : Host loc :=
  processOperation gpu_cos gpu_sin operation param;;
  getProcessedVertices.

(** The contents of the typed array a handler returns. *)
Definition contents_of (h : Host loc) : Host storage :=
  l ← h; get_ArrayBuffer l.

(** The positions of the cube as stored in a [Float32Array]. *)
Definition cube_f32 : list f32 := f32_of_number <$> (number_lit <$> cube_positions).

(** The sixteen bytes of the parameter payload, field by field. *)
Definition uniform_payload (opIndex : js_value) (param : number) (vertexCount : Z)
    : list Z :=
  le32 (ToUint32 opIndex) ++ le32 (f32_bits (f32_of_number param)) ++
  le32 (ToUint32 (JSNumber vertexCount)) ++ le32 (ToUint32 (JSNumber 0)).

(** The operation code [processOperation] uses for a name. *)
Definition opIndex_of (operation : string) : js_value :=
  default (JSNumber 0) (get_property OP_MAP operation).

(** The code of each operation in the kernel's chain of branches. *)
Definition operation_code (operation : string) : Z :=
  if decide (operation = "scale") then 0
  else if decide (operation = "rotate") then 1
  else if decide (operation = "translate") then 2
  else if decide (operation = "inflate") then 3
  else 0.

(** The parameters the kernel is to receive for a request. *)
Definition kernel_params (name : string) (param : number) (vertexCount : Z)
    : Params f32 :=
  {| operation := operation_code name; param_value := f32_of_number param;
     vertex_count := vertexCount; _pad := 0 |}.

(** A world in which [stlOps] holds the mesh [mesh] with positions [input],
    a pipeline, and a bind group [bg] over live buffers: a copy of the
    positions, results [output], and a 16-byte uniform buffer. *)
Record ready (w : World) (mesh : Mesh) (bg : BindGroup)
    (input output : list f32) : Prop := {
  ready_meshData : meshData (stlOps w) = Some mesh;
  ready_vertices : arraybuffers w !! vertices mesh = Some (Floats input);
  ready_pipeline : computePipeline (stlOps w) = Some tt;
  ready_outputBuffer : outputBuffer (stlOps w) = Some (binding1 bg);
  ready_uniformBuffer : uniformBuffer (stlOps w) = Some (binding2 bg);
  ready_bindGroup : bindGroup (stlOps w) = Some bg;
  ready_distinct :
    binding0 bg ≠ binding1 bg ∧ binding0 bg ≠ binding2 bg ∧ binding1 bg ≠ binding2 bg;
  ready_input :
    gpubuffers w !! binding0 bg =
      Some {| gpu_size := 4 * length input; gpu_data := Floats input;
              gpu_destroyed := false |};
  ready_output :
    gpubuffers w !! binding1 bg =
      Some {| gpu_size := 4 * length output; gpu_data := Floats output;
              gpu_destroyed := false |};
  ready_uniform :
    ∃ old, length old = 16%nat ∧
      gpubuffers w !! binding2 bg =
        Some {| gpu_size := 16; gpu_data := Bytes old; gpu_destroyed := false |};
  ready_input_length : Z.of_nat (length input) = (3 * vertexCount mesh)%Z;
  ready_output_length : Z.of_nat (length output) = (3 * vertexCount mesh)%Z;
}.

(** The world once [initApp] has run, with its mesh and bind group. *)
Definition app_World : World := snd (initApp initial_World).
Definition app_mesh : Mesh := {| vertices := 0; indices := 1; vertexCount := 8 |}.
Definition app_bindGroup : BindGroup := {| binding0 := 0; binding1 := 1; binding2 := 2 |}.

(** Calls into [stlOps] between two resets, and a run of such calls; a call
    that throws ends, and the next call finds the state it left. *)
Inductive call :=
  | CallProcessOperation (operation : string) (param : number)
  | CallGetProcessedVertices.

Definition do_call (gpu_cos gpu_sin : f32 → f32) (c : call) : Host (option loc) :=
  match c with
  | CallProcessOperation operation param =>
      processOperation gpu_cos gpu_sin operation param;; mret None
  | CallGetProcessedVertices =>
      processed ← getProcessedVertices; mret (Some processed)
  end.

Fixpoint do_calls (gpu_cos gpu_sin : f32 → f32) (cs : list call) (w : World)
    : list (result (option loc)) * World :=
  match cs with
  | [] => ([], w)
  | c :: cs' =>
      let (r, w1) := do_call gpu_cos gpu_sin c w in
      let (rs, w2) := do_calls gpu_cos gpu_sin cs' w1 in
      (r :: rs, w2)
  end.

(** ** The renderer: surface size and the frame *)

(** The canvas element: the size of its box on the page ([clientWidth],
    [clientHeight], set by layout) and the size of its drawing buffer
    ([width], [height], set by the program). *)
Record Canvas := {
  clientWidth : Z;
  clientHeight : Z;
  width : Z;
  height : Z;
}.

Section Renderer.
(** The camera matrix is computed by [buildMVP] from the renderer; its
    entries play no role in what follows. *)
Context {Matrix : Type}.

(** What the renderer hands to the device. *)
Inductive gpu_call :=
  | CreateDepthTexture (w h : Z)
  | DestroyDepthTexture (w h : Z)
  | WriteMVP (mvp : Matrix)
  | SubmitRenderPass (draw : option Z).

(** The fields of a [Renderer]; a buffer is kept by its size in bytes, the
    depth texture by its size in pixels.  Times are the binary64 values of
    [performance.now()].  [fpsCounter] is the element of that id in the
    document, when there is one, with the frame count it shows once one has
    been written to it. *)
Record Renderer := {
  canvas : Canvas;
  device : option unit;
  rotation : Q * Q;
  zoom : Q;
  vertexBuffer : option nat;
  indexBuffer : option nat;
  indexCount : Z;
  depthTexture : option (Z * Z);
  frameCount : Z;
  lastFpsTime : number;
  fpsCounter : option (option Z);
  gpu_calls : list gpu_call;
}.

Variable buildMVP : Renderer → Matrix.

(** [new Renderer(canvas)], at time [now] of [performance.now()], in a
    document that has an element of id [fpsCounter] or has none. *)
Definition new_Renderer (c : Canvas) (fpsEl : bool) (now : number) : Renderer :=
  {| canvas := c; device := None; rotation := (-0.4, 0.6)%Q; zoom := 2.5%Q;
     vertexBuffer := None; indexBuffer := None; indexCount := 0;
     depthTexture := None; frameCount := 0; lastFpsTime := now;
     fpsCounter := if fpsEl then Some None else None; gpu_calls := [] |}.

Definition with_canvas (c : Canvas) (r : Renderer) : Renderer :=
  {| canvas := c; device := device r; rotation := rotation r; zoom := zoom r;
     vertexBuffer := vertexBuffer r; indexBuffer := indexBuffer r;
     indexCount := indexCount r; depthTexture := depthTexture r;
     frameCount := frameCount r; lastFpsTime := lastFpsTime r;
     fpsCounter := fpsCounter r; gpu_calls := gpu_calls r |}.

Definition with_device (d : option unit) (r : Renderer) : Renderer :=
  {| canvas := canvas r; device := d; rotation := rotation r; zoom := zoom r;
     vertexBuffer := vertexBuffer r; indexBuffer := indexBuffer r;
     indexCount := indexCount r; depthTexture := depthTexture r;
     frameCount := frameCount r; lastFpsTime := lastFpsTime r;
     fpsCounter := fpsCounter r; gpu_calls := gpu_calls r |}.

Definition with_depthTexture (t : option (Z * Z)) (calls : list gpu_call)
    (r : Renderer) : Renderer :=
  {| canvas := canvas r; device := device r; rotation := rotation r; zoom := zoom r;
     vertexBuffer := vertexBuffer r; indexBuffer := indexBuffer r;
     indexCount := indexCount r; depthTexture := t;
     frameCount := frameCount r; lastFpsTime := lastFpsTime r;
     fpsCounter := fpsCounter r; gpu_calls := gpu_calls r ++ calls |}.

Definition with_buffers (vb ib : option nat) (count : Z) (r : Renderer) : Renderer :=
  {| canvas := canvas r; device := device r; rotation := rotation r; zoom := zoom r;
     vertexBuffer := vb; indexBuffer := ib; indexCount := count;
     depthTexture := depthTexture r;
     frameCount := frameCount r; lastFpsTime := lastFpsTime r;
     fpsCounter := fpsCounter r; gpu_calls := gpu_calls r |}.

Definition with_frame (frames : Z) (last : number) (fps : option (option Z))
    (calls : list gpu_call) (r : Renderer) : Renderer :=
  {| canvas := canvas r; device := device r; rotation := rotation r; zoom := zoom r;
     vertexBuffer := vertexBuffer r; indexBuffer := indexBuffer r;
     indexCount := indexCount r; depthTexture := depthTexture r;
     frameCount := frames; lastFpsTime := last;
     fpsCounter := fps; gpu_calls := gpu_calls r ++ calls |}.

(** Layout gives the canvas box a new size; the [resize] listener then
    calls [resizeCanvas]. *)
Definition layout (w h : Z) (r : Renderer) : Renderer :=
  with_canvas {| clientWidth := w; clientHeight := h;
                 width := width (canvas r); height := height (canvas r) |} r.

(** [Renderer.resizeCanvas]; [inl e] is a thrown exception:
    [this.device.createTexture] on a renderer whose [device] is [null]. *)
Definition resizeCanvas (r : Renderer) : error + Renderer :=
  let w := clientWidth (canvas r) in
  let h := clientHeight (canvas r) in
  if ((w =? 0) || (h =? 0))%Z then inr r
  else
    let r := with_canvas {| clientWidth := w; clientHeight := h;
                            width := w; height := h |} r in
    let destroyed :=
      match depthTexture r with
      | Some (w0, h0) => [DestroyDepthTexture w0 h0]
      | None => []
      end in
    match device r with
    | Some _ =>
        inr (with_depthTexture (Some (w, h)) (destroyed ++ [CreateDepthTexture w h]) r)
    | None => inl TypeError
    end.

(** [Renderer.init], as far as the surface is concerned: the device is
    taken from the GPU manager and the canvas is sized. *)
Definition init (r : Renderer) : error + Renderer :=
  resizeCanvas (with_device (Some tt) r).

(** [Renderer.updateMesh(vertices)], for vertices of [byteLength] bytes;
    [indices] is the length of [stlOps.meshData.indices] when there is a
    mesh. *)
Definition updateMesh (byteLength : nat) (indices : option nat) (r : Renderer)
    : error + Renderer :=
  match device r with
  | None => inl TypeError
  | Some _ =>
      match indexBuffer r, indices with
      | None, Some n =>
          inr (with_buffers (Some byteLength) (Some (4 * n)%nat) (Z.of_nat n) r)
      | _, _ =>
          inr (with_buffers (Some byteLength) (indexBuffer r) (indexCount r) r)
      end
  end.

(** [Renderer.resetIndexBuffer]. *)
Definition resetIndexBuffer (r : Renderer) : Renderer :=
  with_buffers (vertexBuffer r) None (indexCount r) r.

(** [a >= b] on numbers: false when either is [NaN]. *)
Definition number_ge (a b : number) : bool :=
  match SFcompare a b with
  | Some Gt | Some Eq => true
  | _ => false
  end.

(** [now - this.lastFpsTime >= 1000]: the difference is rounded to
    binary64 before it is compared. *)
Definition fps_due (now last : number) : bool :=
  number_ge (SFsub prec64 emax64 now last) (number_lit 1000).

(** [fpsEl.textContent = this.frameCount], under [if (fpsEl)]. *)
Definition show_frames (frames : Z) (fpsEl : option (option Z)) : option (option Z) :=
  match fpsEl with
  | Some _ => Some (Some frames)
  | None => None
  end.

(** [Renderer.render], at time [now] of [performance.now()]. *)
Definition render (now : number) (r : Renderer) : error + Renderer :=
  if bool_decide (depthTexture r = None) || (width (canvas r) =? 0)%Z then inr r
  else
    match device r with
    | None => inl TypeError
    | Some _ =>
        let mvp := buildMVP r in
        let draw :=
          match vertexBuffer r, indexBuffer r with
          | Some _, Some _ => Some (indexCount r)
          | _, _ => None
          end in
        let calls := [WriteMVP mvp; SubmitRenderPass draw] in
        let frames := (frameCount r + 1)%Z in
        if fps_due now (lastFpsTime r) then
          inr (with_frame 0 now (show_frames frames (fpsCounter r)) calls r)
        else
          inr (with_frame frames (lastFpsTime r) (fpsCounter r) calls r)
    end.

(** What happens to a renderer: the surface is resized, a frame is due, the
    mesh is replaced, or the index buffer is dropped by a reset. *)
Inductive event :=
  | SurfaceResized (w h : Z)
  | FrameDue (now : number)
  | MeshUpdated (byteLength : nat) (indices : option nat)
  | IndexBufferReset.

Definition handle (e : event) (r : Renderer) : error + Renderer :=
  match e with
  | SurfaceResized w h => resizeCanvas (layout w h r)
  | FrameDue now => render now r
  | MeshUpdated byteLength indices => updateMesh byteLength indices r
  | IndexBufferReset => inr (resetIndexBuffer r)
  end.

Fixpoint handle_all (es : list event) (r : Renderer) : error + Renderer :=
  match es with
  | [] => inr r
  | e :: es' =>
      match handle e r with
      | inr r' => handle_all es' r'
      | inl err => inl err
      end
  end.

(** Events other than a resize to a size with non-zero area. *)
Definition no_area (e : event) : bool :=
  match e with
  | SurfaceResized w h => ((w =? 0) || (h =? 0))%Z
  | _ => true
  end.

(** What events without area leave as it is: no depth texture, the log of
    device calls, the size of the drawing buffer, the frame count. *)
Definition idle_since (r r' : Renderer) : Prop :=
  depthTexture r' = None
  ∧ device r' = device r
  ∧ gpu_calls r' = gpu_calls r
  ∧ width (canvas r') = width (canvas r)
  ∧ height (canvas r') = height (canvas r)
  ∧ frameCount r' = frameCount r.

End Renderer.

Arguments gpu_call Matrix : clear implicits.
Arguments Renderer Matrix : clear implicits.

(** ** The buttons: Process and Reset *)

(** The handler of the Reset button, as far as [stlOps] is concerned: a new
    cube, new buffers for it, and a bind group over them. *)
Definition reset_click : Host unit :=
  generateCubeMesh;;
  createBuffers;;
  setupBindGroup.

(** Clicks on the two buttons; a handler that throws ends, and the next
    click finds the state it left. *)
Inductive click :=
  | ClickProcess (operation : string) (param : number)
  | ClickReset.

Definition do_click (gpu_cos gpu_sin : f32 → f32) (c : click) : Host (option loc) :=
  match c with
  | ClickProcess operation param =>
      processed ← process_click gpu_cos gpu_sin operation param;
      mret (Some processed)
  | ClickReset => reset_click;; mret None
  end.

Fixpoint do_clicks (gpu_cos gpu_sin : f32 → f32) (cs : list click) (w : World)
    : list (result (option loc)) * World :=
  match cs with
  | [] => ([], w)
  | c :: cs' =>
      let (r, w1) := do_click gpu_cos gpu_sin c w in
      let (rs, w2) := do_clicks gpu_cos gpu_sin cs' w1 in
      (r :: rs, w2)
  end.

(** The device buffers that have not been destroyed. *)
Definition live_buffers (w : World) : list loc :=
  (map_to_list (gpubuffers w)) ≫= λ hb, if gpu_destroyed hb.2 then [] else [hb.1].

(** A ready world in which [stlOps] also holds the input buffer of the bind
    group, and no device buffer is live besides the three of the bind
    group. *)
Definition settled (w : World) (mesh : Mesh) (bg : BindGroup)
    (input output : list f32) : Prop :=
  ready w mesh bg input output
  ∧ inputBuffer (stlOps w) = Some (binding0 bg)
  ∧ ∀ h, h ∈ live_buffers w → h ∈ [binding0 bg; binding1 bg; binding2 bg].

(** The device buffers once [destroy()] has been called on [o], when set. *)
Definition destroy_in (o : option loc) (G : gmap loc GPUBuffer) : gmap loc GPUBuffer :=
  match o with
  | Some h =>
      match G !! h with
      | Some b => <[h := {| gpu_size := gpu_size b; gpu_data := Detached;
                            gpu_destroyed := true |}]> G
      | None => G
      end
  | None => G
  end.

(** Whether a reset is among the clicks. *)
Definition has_reset (cs : list click) : bool :=
  existsb (λ c, match c with ClickReset => true | _ => false end) cs.

(** ** The Process listener and its awaits *)

(** The listener of the Process button is suspended twice: at
    [await device.queue.onSubmittedWorkDone()] inside [processOperation],
    once the dispatch is submitted, and at
    [await stagingBuffer.mapAsync(...)] inside [readBuffer], once the copy
    is submitted.  Other listeners run at these two points; the Process
    button is disabled meanwhile, the Reset button is not. *)

(** [GPUManager.readBuffer] up to [mapAsync]. *)
Definition readBuffer_submit (srcBuffer : option loc) (size : nat) : Host loc :=
  stagingBuffer ← device_createBuffer size (Floats (replicate (size / 4) f32_zero));
  src ← nonnull srcBuffer;
  queue_copyBufferToBuffer src stagingBuffer size;;
  mret stagingBuffer.

(** [GPUManager.readBuffer] from [mapAsync] on. *)
Definition readBuffer_finish (stagingBuffer : loc) : Host loc :=
  sb ← get_GPUBuffer stagingBuffer;
  range ← new_ArrayBuffer (gpu_data sb);
  mapped ← get_ArrayBuffer range;
  result ← new_ArrayBuffer mapped;
  set_ArrayBuffer range Detached;;
  buffer_destroy stagingBuffer;;
  mret result.

(** [StlOperations.getProcessedVertices] up to the [mapAsync] of
    [readBuffer]. *)
Definition getProcessedVertices_submit : Host loc :=
  s ← this;
  mesh ← nonnull (meshData s);
  v ← get_ArrayBuffer (vertices mesh);
  readBuffer_submit (outputBuffer s) (byteLength v).

(** Where the Process listener is: not running (the button is enabled),
    suspended at its first or at its second await (with the staging buffer
    of [readBuffer]), or ended by an exception, which leaves the button
    disabled. *)
Inductive phase :=
  | Idle
  | AwaitingWork
  | AwaitingMap (stagingBuffer : loc)
  | Stopped.

(** What the event loop runs next: a click on Process, the continuation of
    the Process listener at its first or second await, a click on Reset. *)
Inductive step :=
  | StepProcessClick (operation : string) (param : number)
  | StepWorkDone
  | StepMapped
  | StepResetClick.

(** One step.  The first component is what a listener that ends in this
    step returns or throws: the Process listener the array it hands to the
    renderer.  A click on the disabled Process button does nothing. *)
Definition do_step (gpu_cos gpu_sin : f32 → f32) (s : step) (st : phase * World)
    : option (result loc) * (phase * World) :=
  let (ph, w) := st in
  match s, ph with
  | StepProcessClick operation param, Idle =>
      match processOperation gpu_cos gpu_sin operation param w with
      | (Ok _, w') => (None, (AwaitingWork, w'))
      | (Throw e, w') => (Some (Throw e), (Stopped, w'))
      end
  | StepWorkDone, AwaitingWork =>
      match getProcessedVertices_submit w with
      | (Ok stagingBuffer, w') => (None, (AwaitingMap stagingBuffer, w'))
      | (Throw e, w') => (Some (Throw e), (Stopped, w'))
      end
  | StepMapped, AwaitingMap stagingBuffer =>
      match readBuffer_finish stagingBuffer w with
      | (Ok processed, w') => (Some (Ok processed), (Idle, w'))
      | (Throw e, w') => (Some (Throw e), (Stopped, w'))
      end
  | StepResetClick, _ =>
      match reset_click w with
      | (Ok _, w') => (None, (ph, w'))
      | (Throw e, w') => (Some (Throw e), (ph, w'))
      end
  | _, _ => (None, st)
  end.

Fixpoint do_steps (gpu_cos gpu_sin : f32 → f32) (sched : list step)
    (st : phase * World) : list (result loc) * (phase * World) :=
  match sched with
  | [] => ([], st)
  | s :: sched' =>
      let (r, st1) := do_step gpu_cos gpu_sin s st in
      let (rs, st2) := do_steps gpu_cos gpu_sin sched' st1 in
      (match r with Some r => r :: rs | None => rs end, st2)
  end.

(** Whether a click on Reset is among the steps. *)
Definition resets (sched : list step) : bool :=
  existsb (λ s, match s with StepResetClick => true | _ => false end) sched.

(** What holds between the steps: [stlOps] is ready over its bind group,
    and the only device buffers not destroyed are those of the bind group
    and, at the second await, the staging buffer, which holds floats. *)
Definition listening (ph : phase) (w : World) (mesh : Mesh) (bg : BindGroup)
    (input output : list f32) : Prop :=
  ready w mesh bg input output
  ∧ inputBuffer (stlOps w) = Some (binding0 bg)
  ∧ match ph with
    | Idle | AwaitingWork =>
        ∀ h, h ∈ live_buffers w → h ∈ [binding0 bg; binding1 bg; binding2 bg]
    | AwaitingMap stagingBuffer =>
        (stagingBuffer ∉ [binding0 bg; binding1 bg; binding2 bg])
        ∧ (∃ size data,
             gpubuffers w !! stagingBuffer =
               Some {| gpu_size := size; gpu_data := Floats data;
                       gpu_destroyed := false |})
        ∧ (∀ h, h ∈ live_buffers w →
             h ∈ [binding0 bg; binding1 bg; binding2 bg; stagingBuffer])
    | Stopped => False
    end.

(** ** Vocabulary for statements about the renderer *)

Section RendererVocabulary.
Context {Matrix : Type}.

(** The depth texture, when there is one, has the size of the drawing
    buffer, and that size has an area. *)
Definition surface_ok (r : Renderer Matrix) : Prop :=
  ∀ w h, depthTexture r = Some (w, h) →
    width (canvas r) = w ∧ height (canvas r) = h ∧ w ≠ 0%Z ∧ h ≠ 0%Z.

(** The index buffer, when there is one, holds [indexCount] indices of four
    bytes. *)
Definition indices_ok (r : Renderer Matrix) : Prop :=
  ∀ size, indexBuffer r = Some size → Z.of_nat size = (4 * indexCount r)%Z.

(** Depth textures created and not destroyed, by the log of device calls. *)
Fixpoint live_depth_textures (calls : list (gpu_call Matrix)) : Z :=
  match calls with
  | [] => 0
  | CreateDepthTexture _ _ :: calls' => live_depth_textures calls' + 1
  | DestroyDepthTexture _ _ :: calls' => live_depth_textures calls' - 1
  | _ :: calls' => live_depth_textures calls'
  end.

(** Render passes submitted, by the log of device calls. *)
Fixpoint passes_submitted (calls : list (gpu_call Matrix)) : Z :=
  match calls with
  | [] => 0
  | SubmitRenderPass _ :: calls' => passes_submitted calls' + 1
  | _ :: calls' => passes_submitted calls'
  end.

(** What every handler keeps, once the renderer has a device. *)
Definition renderer_inv (r : Renderer Matrix) : Prop :=
  is_Some (device r)
  ∧ surface_ok r
  ∧ indices_ok r
  ∧ live_depth_textures (gpu_calls r)
    = match depthTexture r with Some _ => 1%Z | None => 0%Z end.

(** A renderer that draws: it has a device, a depth texture, and a drawing
    buffer of non-zero width. *)
Definition visible (r : Renderer Matrix) : Prop :=
  is_Some (device r) ∧ is_Some (depthTexture r) ∧ width (canvas r) ≠ 0%Z.

End RendererVocabulary.

(** ** The page: [stlOps] and the renderer together *)

(** The number of elements of a typed array over a buffer. *)
Definition elements (s : storage) : nat :=
  match s with
  | Floats d => length d
  | Words d => length d
  | Bytes d => length d
  | Detached => 0
  end.

Section Page.
Context {Matrix : Type}.
Variable buildMVP : Renderer Matrix → Matrix.
Variables gpu_cos gpu_sin : f32 → f32.

(** [renderer.updateMesh(vertices)] for the typed array [vertices]: the
    renderer reads its byte length and, while it has no index buffer,
    [stlOps.meshData.indices]. *)
Definition renderer_updateMesh (vertices : loc) (w : World) (r : Renderer Matrix)
    : error + Renderer Matrix :=
  match arraybuffers w !! vertices with
  | None => inl TypeError
  | Some v =>
      let indices :=
        mesh ← meshData (stlOps w);
        idx ← arraybuffers w !! indices mesh;
        Some (elements idx) in
      updateMesh (byteLength v) indices r
  end.

(** What the user and the browser do to the page once [initApp] has set it
    up: the two buttons, a resize of the window, an animation frame. *)
Inductive action :=
  | ProcessClicked (operation : string) (param : number)
  | ResetClicked
  | WindowResized (w h : Z)
  | AnimationFrame (now : number).

(** The listeners of [initApp].  An exception ends the listener; it is
    reported, and the run of actions ends with it. *)
Definition on_action (a : action) (p : World * Renderer Matrix)
    : error + World * Renderer Matrix :=
  let (w, r) := p in
  match a with
  | ProcessClicked operation param =>
      match process_click gpu_cos gpu_sin operation param w with
      | (Ok processed, w') =>
          match renderer_updateMesh processed w' r with
          | inr r' => inr (w', r')
          | inl e => inl e
          end
      | (Throw e, _) => inl e
      end
  | ResetClicked =>
      match reset_click w with
      | (Ok _, w') =>
          let r := resetIndexBuffer r in
          match meshData (stlOps w') with
          | Some mesh =>
              match renderer_updateMesh (vertices mesh) w' r with
              | inr r' => inr (w', r')
              | inl e => inl e
              end
          | None => inl TypeError
          end
      | (Throw e, _) => inl e
      end
  | WindowResized width height =>
      match resizeCanvas (layout width height r) with
      | inr r' => inr (w, r')
      | inl e => inl e
      end
  | AnimationFrame now =>
      match render buildMVP now r with
      | inr r' => inr (w, r')
      | inl e => inl e
      end
  end.

Fixpoint on_actions (acts : list action) (p : World * Renderer Matrix)
    : error + World * Renderer Matrix :=
  match acts with
  | [] => inr p
  | a :: acts' =>
      match on_action a p with
      | inr p' => on_actions acts' p'
      | inl e => inl e
      end
  end.

(** [initApp] with the renderer: the set-up of [stlOps], then
    [new Renderer(canvas)], [renderer.init()] and
    [renderer.updateMesh(stlOps.meshData.vertices)]. *)
Definition start_page (c : Canvas) (fpsEl : bool) (t0 : number)
    : option (World * Renderer Matrix) :=
  match initApp initial_World with
  | (Ok _, w) =>
      match init (new_Renderer c fpsEl t0) with
      | inr r =>
          match meshData (stlOps w) with
          | Some mesh =>
              match renderer_updateMesh (vertices mesh) w r with
              | inr r' => Some (w, r')
              | inl _ => None
              end
          | None => None
          end
      | inl _ => None
      end
  | (Throw _, _) => None
  end.

(** The renderer holds the mesh of [stlOps]: a vertex buffer of the size of
    the position array, and an index buffer with the indices of the mesh. *)
Definition shows_the_mesh (p : World * Renderer Matrix) : Prop :=
  ∃ mesh v idx,
    meshData (stlOps p.1) = Some mesh
    ∧ arraybuffers p.1 !! vertices mesh = Some v
    ∧ arraybuffers p.1 !! indices mesh = Some idx
    ∧ vertexBuffer p.2 = Some (byteLength v)
    ∧ indexBuffer p.2 = Some (4 * elements idx)%nat
    ∧ indexCount p.2 = Z.of_nat (elements idx).

(** What the listeners keep. *)
Definition page_inv (p : World * Renderer Matrix) : Prop :=
  ∃ mesh bg input output idx,
    settled p.1 mesh bg input output
    ∧ (0 <= vertexCount mesh)%Z
    ∧ (3 * vertexCount mesh <= u32_modulus)%Z
    ∧ arraybuffers p.1 !! indices mesh = Some (Words idx)
    ∧ vertexBuffer p.2 = Some (4 * length input)%nat
    ∧ indexBuffer p.2 = Some (4 * length idx)%nat
    ∧ indexCount p.2 = Z.of_nat (length idx)
    ∧ renderer_inv p.2.

End Page.

(** ** Numbers of the host language *)

Definition number_valid (x : number) : bool := valid_binary prec64 emax64 x.

(** [Math.max] and [Math.min] of two numbers: [NaN] if either is [NaN];
    [+0] counts as larger than [-0]. *)
Definition Math_max (a b : number) : number :=
  match SFcompare a b with
  | None => S754_nan
  | Some Gt => a
  | Some Lt => b
  | Some Eq => match a with S754_zero true => b | _ => a end
  end.

Definition Math_min (a b : number) : number :=
  match SFcompare a b with
  | None => S754_nan
  | Some Lt => a
  | Some Gt => b
  | Some Eq => match a with S754_zero false => b | _ => a end
  end.

(** ** The camera controls of [Renderer.setupControls] *)

Module Controls.

(** The state the listeners share: the local [dragging] and the fields
    [rotation] and [zoom] of the renderer. *)
Record state := {
  dragging : bool;
  rotation_x : number;
  rotation_y : number;
  zoom : number;
}.

(** The state when [setupControls] returns, in a renderer just made. *)
Definition initial : state :=
  {| dragging := false; rotation_x := number_lit (-0.4);
     rotation_y := number_lit 0.6; zoom := number_lit 2.5 |}.

Inductive input :=
  | contextmenu
  | mousedown (button : Z)
  | mouseup
  | mousemove (movementX movementY : number)
  | wheel (deltaY : number).

Definition listener (e : input) (s : state) : state :=
  match e with
  | contextmenu => s
  | mousedown button =>
      if ((button =? 0) || (button =? 2))%Z
      then {| dragging := true; rotation_x := rotation_x s;
              rotation_y := rotation_y s; zoom := zoom s |}
      else s
  | mouseup =>
      {| dragging := false; rotation_x := rotation_x s;
         rotation_y := rotation_y s; zoom := zoom s |}
  | mousemove movementX movementY =>
      if negb (dragging s) then s
      else
        let y := SFadd prec64 emax64 (rotation_y s)
                   (SFmul prec64 emax64 movementX (number_lit 0.005)) in
        let x := SFadd prec64 emax64 (rotation_x s)
                   (SFmul prec64 emax64 movementY (number_lit 0.005)) in
        {| dragging := dragging s; rotation_x := x; rotation_y := y;
           zoom := zoom s |}
  | wheel deltaY =>
      let z := SFmul prec64 emax64 (zoom s)
                 (if SFltb (number_lit 0) deltaY
                  then number_lit 1.08 else number_lit 0.92) in
      let z := Math_max (number_lit 0.5) (Math_min (number_lit 10) z) in
      {| dragging := dragging s; rotation_x := rotation_x s;
         rotation_y := rotation_y s; zoom := z |}
  end.

Definition listeners (es : list input) (s : state) : state :=
  foldl (λ s e, listener e s) s es.

(** A press of the left or the right button. *)
Definition starts_drag (e : input) : bool :=
  match e with
  | mousedown button => ((button =? 0) || (button =? 2))%Z
  | _ => false
  end.

(** The zoom factors the wheel handler leaves: valid numbers from 0.5 to 10. *)
Definition zoom_in_range (z : number) : bool :=
  number_valid z && SFleb (number_lit 0.5) z && SFleb z (number_lit 10).

End Controls.

(** ** The camera: [Renderer.buildMVP], [Renderer.mat4Mul] and the vertex
    stage of [RENDER_SHADER] *)

Module Camera.
Section Camera.
Context {F : Type} `{Scalar F}.

(** [Math.PI] and [Math.tan]; the rounding of a store into a
    [Float32Array]; and the value of an arithmetic expression that reads
    [undefined], which is what an index outside a typed array yields. *)
Variables (Math_PI : F) (Math_tan : F → F) (fround : F → F) (NaN : F).

(** [new Float32Array(n)]: [n] zeros. *)
Definition Float32Array (n : nat) : list F := replicate n (lit 0).

(** [a[k]] in an arithmetic expression, and [a[k] = v]; a store outside
    the array is ignored. *)
Definition read (a : list F) (k : nat) : F := default NaN (a !! k).
Definition write (a : list F) (k : nat) (v : F) : list F := <[k := fround v]> a.

(** [Renderer.mat4Mul]. *)
Definition mat4Mul (a b : list F) : list F :=
  let r := Float32Array 16 in
  foldl (λ r i,
    foldl (λ r j,
      write r (i * 4 + j)
        (read a (i * 4 + 0) * read b (0 * 4 + j) +
         read a (i * 4 + 1) * read b (1 * 4 + j) +
         read a (i * 4 + 2) * read b (2 * 4 + j) +
         read a (i * 4 + 3) * read b (3 * 4 + j))%sc)
      r (seq 0 4))
    r (seq 0 4).

(** [Renderer.buildMVP]. *)
Definition buildMVP (r : Renderer (list F)) : list F :=
  let aspect := (lit (inject_Z (width (canvas r))) /
                 lit (inject_Z (height (canvas r))))%sc in
  let fov := (Math_PI / lit 4)%sc in
  let f := (lit 1 / Math_tan (fov / lit 2))%sc in
  let near := lit 0.1 in
  let far := lit 100 in
  let proj := Float32Array 16 in
  let proj := write proj 0 (f / aspect)%sc in
  let proj := write proj 5 f in
  let proj := write proj 10 ((far + near) / (near - far))%sc in
  let proj := write proj 11 (- lit 1)%sc in
  let proj := write proj 14 ((lit 2 * far * near) / (near - far))%sc in
  let view := Float32Array 16 in
  let view := write view 0 (lit 1) in
  let view := write view 5 (lit 1) in
  let view := write view 10 (lit 1) in
  let view := write view 15 (lit 1) in
  let view := write view 14 (- lit (zoom r))%sc in
  let cx := fcos (lit (rotation r).1) in
  let sx := fsin (lit (rotation r).1) in
  let cy := fcos (lit (rotation r).2) in
  let sy := fsin (lit (rotation r).2) in
  let rotY := Float32Array 16 in
  let rotY := write rotY 0 cy in
  let rotY := write rotY 2 sy in
  let rotY := write rotY 5 (lit 1) in
  let rotY := write rotY 8 (- sy)%sc in
  let rotY := write rotY 10 cy in
  let rotY := write rotY 15 (lit 1) in
  let rotX := Float32Array 16 in
  let rotX := write rotX 0 (lit 1) in
  let rotX := write rotX 5 cx in
  let rotX := write rotX 6 (- sx)%sc in
  let rotX := write rotX 9 sx in
  let rotX := write rotX 10 cx in
  let rotX := write rotX 15 (lit 1) in
  let model := mat4Mul rotX rotY in
  let viewModel := mat4Mul view model in
  mat4Mul proj viewModel.

(** The product [m * v] of the shader, for the [mat4x4f] whose sixteen
    floats are [m]: the matrix is laid out by columns, and the product is
    the sum of the columns scaled by the components of [v]. *)
Definition mat4x4_mul_vec4 (m : list F) (v : F * F * F * F) : F * F * F * F :=
  let '(v0, v1, v2, v3) := v in
  let row k := (read m (0 * 4 + k) * v0 + read m (1 * 4 + k) * v1 +
                read m (2 * 4 + k) * v2 + read m (3 * 4 + k) * v3)%sc in
  (row 0%nat, row 1%nat, row 2%nat, row 3%nat).

(** [fn vs]: the clip position and the world position of a vertex. *)
Definition vs (mvp : list F) (position : F * F * F) : (F * F * F * F) * (F * F * F) :=
  let '(x, y, z) := position in
  (mat4x4_mul_vec4 mvp (x, y, z, lit 1.0), position).

End Camera.
End Camera.

(** The camera over the real numbers. *)
Definition mat4Mul_R : list R → list R → list R := Camera.mat4Mul (λ x, x) 0%R.
Definition buildMVP_R : Renderer (list R) → list R :=
  Camera.buildMVP PI tan (λ x, x) 0%R.
Definition vs_R : list R → R * R * R → (R * R * R * R) * (R * R * R) := Camera.vs 0%R.
Definition mat4x4_mul_vec4_R : list R → R * R * R * R → R * R * R * R :=
  Camera.mat4x4_mul_vec4 0%R.

(** ** The fragment stage of [RENDER_SHADER] *)

Module Shading.
Section Shading.
Context {F : Type} `{Scalar F}.

Definition vec3 : Type := F * F * F.

Definition dot (e1 e2 : vec3) : F :=
  (e1.1.1 * e2.1.1 + e1.1.2 * e2.1.2 + e1.2 * e2.2)%sc.

Definition cross (e1 e2 : vec3) : vec3 :=
  ((e1.1.2 * e2.2 - e1.2 * e2.1.2)%sc,
   (e1.2 * e2.1.1 - e1.1.1 * e2.2)%sc,
   (e1.1.1 * e2.1.2 - e1.1.2 * e2.1.1)%sc).

Definition length (e : vec3) : F := fsqrt (dot e e).

Definition normalize (e : vec3) : vec3 :=
  ((e.1.1 / length e)%sc, (e.1.2 / length e)%sc, (e.2 / length e)%sc).

Definition scale (e : vec3) (k : F) : vec3 :=
  ((e.1.1 * k)%sc, (e.1.2 * k)%sc, (e.2 * k)%sc).

(** [fn fs], for the values [dx] and [dy] of [dpdx(input.world_pos)] and
    [dpdy(input.world_pos)]. *)
Definition fs (dx dy : vec3) : F * F * F * F :=
  let normal := normalize (cross dx dy) in
  let light_dir := normalize (lit 0.6, lit 0.8, lit 0.5) in
  let diffuse := fmax (dot normal light_dir) (lit 0.0) in
  let ambient := lit 0.18 in
  let base_color := (lit 0.25, lit 0.65, lit 0.9) in
  let color := scale base_color (ambient + diffuse * lit 0.82)%sc in
  (color.1.1, color.1.2, color.2, lit 1.0).

End Shading.
End Shading.

(** ** [GPUManager.init] *)

Module GpuUtils.

(** What the browser offers.  [navigator.gpu] is absent where WebGPU is not
    supported; [requestAdapter] resolves to an adapter or to [null]; the
    promises of [requestDevice] and [requestAdapterInfo] resolve or
    reject. *)
Record GPUAdapterInfo := { info_device : string; info_description : string }.

Record GPUAdapter := {
  requestDevice : option unit;
  requestAdapterInfo : option GPUAdapterInfo;
}.

Record Navigator := { gpu : option (option GPUAdapter) }.

Record GPUManager := {
  device : option unit;
  queue : option unit;
  adapter : option GPUAdapter;
}.

(** [new GPUManager()]. *)
Definition new_GPUManager : GPUManager :=
  {| device := None; queue := None; adapter := None |}.

(** What [init] throws: an [Error] with its message, or the reason of a
    rejected promise. *)
Inductive thrown := Error (message : string) | Rejection.

(** [a || b] on strings: the empty string is the one that is falsy. *)
Definition or_else (a b : string) : string := if decide (a = "") then b else a.

Definition init (navigator : Navigator) (this : GPUManager)
    : (thrown + string) * GPUManager :=
  match gpu navigator with
  | None =>
      (inl (Error "WebGPU is not supported in this browser. Please use Chrome 113+ or Edge 113+."),
       this)
  | Some requested =>
      let this := {| device := device this; queue := queue this;
                     adapter := requested |} in
      match adapter this with
      | None =>
          (inl (Error "Could not request WebGPU adapter. Check GPU drivers."), this)
      | Some a =>
          match requestDevice a with
          | None => (inl Rejection, this)
          | Some d =>
              let this := {| device := Some d; queue := Some d;
                             adapter := adapter this |} in
              match requestAdapterInfo a with
              | None => (inl Rejection, this)
              | Some adapterInfo =>
                  (inr (or_else (info_device adapterInfo)
                          (or_else (info_description adapterInfo) "WebGPU Active")),
                   this)
              end
          end
      end
  end.

End GpuUtils.

(** * Properties *)

(** ** Properties of one invocation and of a dispatch *)

Section KernelFacts.
Context {F : Type} `{Scalar F}.
Implicit Types (input : list F) (params : Params F) (m : Mem F).

Lemma main_guard input params idx m :
  (vertex_count params <= idx)%Z →
  main input params idx m = Some (tt, m).
Proof.
  intros Hge. unfold main.
  destruct (idx >=? vertex_count params)%Z eqn:E; [done|].
  rewrite Z.geb_leb in E. apply Z.leb_gt in E. lia.
Qed.

Lemma vertex_at_is_Some (verts : list F) idx :
  (0 <= idx)%Z → (3 * idx + 2 < Z.of_nat (length verts))%Z →
  is_Some (vertex_at verts idx).
Proof.
  intros H0 Hlen. unfold vertex_at.
  destruct (lookup_lt_is_Some_2 verts (Z.to_nat (3 * idx))) as [x ->]; [lia|].
  destruct (lookup_lt_is_Some_2 verts (Z.to_nat (3 * idx + 1))) as [y ->]; [lia|].
  destruct (lookup_lt_is_Some_2 verts (Z.to_nat (3 * idx + 2))) as [z ->]; [lia|].
  by eexists.
Qed.

Lemma main_vertex input params idx m x y z :
  (0 <= idx < vertex_count params)%Z →
  (3 * idx + 2 < u32_modulus)%Z →
  (3 * idx + 2 < Z.of_nat (length (output_verts m)))%Z →
  vertex_at input idx = Some (x, y, z) →
  main input params idx m =
    Some (tt, {| output_verts := put_vertex (output_verts m) idx (deform params x y z);
                 journal := journal m ++ vertex_accesses idx |}).
Proof.
  intros Hidx Hwrap Hout Hv. unfold main.
  destruct (idx >=? vertex_count params)%Z eqn:E.
  { rewrite Z.geb_leb in E. apply Z.leb_le in E. lia. }
  assert (Hb : u32_mul idx 3 = (3 * idx)%Z).
  { unfold u32_mul. rewrite Z.mod_small; unfold u32_modulus in *; lia. }
  assert (Hb1 : u32_add (3 * idx) 1 = (3 * idx + 1)%Z).
  { unfold u32_add. rewrite Z.mod_small; unfold u32_modulus in *; lia. }
  assert (Hb2 : u32_add (3 * idx) 2 = (3 * idx + 2)%Z).
  { unfold u32_add. rewrite Z.mod_small; unfold u32_modulus in *; lia. }
  rewrite Hb, Hb1, Hb2.
  unfold vertex_at in Hv.
  destruct (input !! Z.to_nat (3 * idx)) as [x'|] eqn:Ex; [|done].
  destruct (input !! Z.to_nat (3 * idx + 1)) as [y'|] eqn:Ey; [|done].
  destruct (input !! Z.to_nat (3 * idx + 2)) as [z'|] eqn:Ez; [|done].
  simpl in Hv. injection Hv as -> -> ->.
  unfold mbind, Kern_bind, load. rewrite Ex. simpl. rewrite Ey. simpl. rewrite Ez. simpl.
  destruct (deform params x y z) as [[ox oy] oz]. unfold store. simpl.
  rewrite decide_True by lia. simpl.
  rewrite decide_True by (rewrite length_insert; lia). simpl.
  rewrite decide_True by (rewrite !length_insert; lia). simpl.
  unfold put_vertex, vertex_accesses. simpl.
  by rewrite <- !app_assoc.
Qed.

Lemma length_put_vertex (verts : list F) idx v :
  length (put_vertex verts idx v) = length verts.
Proof. unfold put_vertex. by rewrite !length_insert. Qed.

Lemma lookup_put_vertex_ne (verts : list F) idx v (j : nat) :
  (0 <= idx)%Z →
  (Z.of_nat j < 3 * idx ∨ 3 * idx + 3 <= Z.of_nat j)%Z →
  put_vertex verts idx v !! j = verts !! j.
Proof.
  intros H0 Hj. unfold put_vertex.
  rewrite !list_lookup_insert_ne by lia. done.
Qed.

Lemma vertex_at_put_vertex (verts : list F) idx v :
  (0 <= idx)%Z → (3 * idx + 2 < Z.of_nat (length verts))%Z →
  vertex_at (put_vertex verts idx v) idx = Some v.
Proof.
  intros H0 Hlen. unfold vertex_at, put_vertex.
  destruct v as [[vx vy] vz]. simpl.
  set (l1 := <[Z.to_nat (3 * idx) := vx]> verts).
  set (l2 := <[Z.to_nat (3 * idx + 1) := vy]> l1).
  assert (H1 : length l1 = length verts) by apply length_insert.
  assert (H2 : length l2 = length verts) by (unfold l2; by rewrite length_insert).
  assert (Ex : <[Z.to_nat (3 * idx + 2) := vz]> l2 !! Z.to_nat (3 * idx) = Some vx).
  { rewrite list_lookup_insert_ne by lia. unfold l2.
    rewrite list_lookup_insert_ne by lia. apply list_lookup_insert_eq. lia. }
  assert (Ey : <[Z.to_nat (3 * idx + 2) := vz]> l2 !! Z.to_nat (3 * idx + 1) = Some vy).
  { rewrite list_lookup_insert_ne by lia. apply list_lookup_insert_eq. lia. }
  assert (Ez : <[Z.to_nat (3 * idx + 2) := vz]> l2 !! Z.to_nat (3 * idx + 2) = Some vz).
  { apply list_lookup_insert_eq. lia. }
  rewrite Ex, Ey, Ez. done.
Qed.

Lemma vertex_at_ext (l1 l2 : list F) idx :
  (0 <= idx)%Z →
  (∀ j : nat, (3 * idx <= Z.of_nat j < 3 * idx + 3)%Z → l1 !! j = l2 !! j) →
  vertex_at l1 idx = vertex_at l2 idx.
Proof.
  intros H0 Hext. unfold vertex_at.
  rewrite !Hext by lia. done.
Qed.

Lemma run_invocations_spec input params (n : nat) : ∀ (a : Z) m,
  (0 <= a)%Z →
  (3 * vertex_count params <= u32_modulus)%Z →
  (3 * vertex_count params <= Z.of_nat (length input))%Z →
  (3 * vertex_count params <= Z.of_nat (length (output_verts m)))%Z →
  let stop := Z.min (a + Z.of_nat n) (Z.max a (vertex_count params)) in
  ∃ out',
    run_invocations input params (seqZ a (Z.of_nat n)) m =
      Some (tt, {| output_verts := out';
                   journal := journal m ++ dispatch_accesses a (stop - a) |})
    ∧ length out' = length (output_verts m)
    ∧ (∀ j : nat, (Z.of_nat j < 3 * a ∨ 3 * stop <= Z.of_nat j)%Z →
         out' !! j = output_verts m !! j)
    ∧ (∀ idx, (a <= idx < stop)%Z →
         vertex_at out' idx = deform_vertex params <$> vertex_at input idx).
Proof.
  induction n as [|n IH]; intros a m Ha Hwrap Hin Hout; cbv zeta.
  - exists (output_verts m). change (Z.of_nat 0) with 0%Z.
    replace (Z.min (a + 0) (Z.max a (vertex_count params)) - a)%Z with 0%Z by lia.
    unfold dispatch_accesses. simpl. rewrite app_nil_r.
    destruct m as [out jn]. simpl.
    split; [done|]. split; [done|]. split; [done|].
    intros idx Hidx. lia.
  - rewrite Nat2Z.inj_succ, seqZ_cons by lia.
    replace (Z.pred (Z.succ (Z.of_nat n))) with (Z.of_nat n) by lia.
    simpl. unfold mbind at 1, Kern_bind at 1.
    set (stop := Z.min (a + Z.succ (Z.of_nat n)) (Z.max a (vertex_count params))).
    assert (Hstop : stop = Z.min (a + Z.succ (Z.of_nat n)) (Z.max a (vertex_count params)))
      by reflexivity.
    clearbody stop.
    destruct (decide (a < vertex_count params)%Z) as [Hlt|Hge].
    + destruct (vertex_at_is_Some input a) as [[[x y] z] Hv]; [lia..|].
      rewrite (main_vertex input params a m x y z) by (unfold u32_modulus in *; lia || done).
      set (m1 := {| output_verts := put_vertex (output_verts m) a (deform params x y z);
                    journal := journal m ++ vertex_accesses a |}).
      destruct (IH (Z.succ a) m1) as (out' & Hrun & Hlen & Hfar & Hnear);
        [lia| done | done | simpl; rewrite length_put_vertex; lia |].
      cbv zeta in *.
      replace (Z.min (Z.succ a + Z.of_nat n) (Z.max (Z.succ a) (vertex_count params)))
        with stop in * by lia.
      exists out'. rewrite Hrun. simpl in *.
      split; [|split; [|split]].
      * f_equal. f_equal. f_equal. rewrite <- app_assoc. f_equal.
        unfold dispatch_accesses.
        rewrite (seqZ_cons a (stop - a)) by lia. simpl.
        by replace (Z.pred (stop - a)) with (stop - Z.succ a)%Z by lia.
      * by rewrite Hlen, length_put_vertex.
      * intros j Hj. rewrite Hfar by lia. apply lookup_put_vertex_ne; lia.
      * intros idx Hidx. destruct (decide (idx = a)) as [->|Hne].
        -- rewrite Hv. simpl. unfold deform_vertex. simpl.
           rewrite <- (vertex_at_put_vertex (output_verts m) a (deform params x y z)) by lia.
           apply vertex_at_ext; [lia|]. intros j Hj. apply Hfar. lia.
        -- apply Hnear. lia.
    + rewrite main_guard by lia.
      destruct (IH (Z.succ a) m) as (out' & Hrun & Hlen & Hfar & Hnear); [lia|done..|].
      cbv zeta in *.
      replace (Z.min (Z.succ a + Z.of_nat n) (Z.max (Z.succ a) (vertex_count params)))
        with (Z.succ a) in * by lia.
      replace stop with a by lia.
      exists out'. rewrite Hrun.
      rewrite !Z.sub_diag. unfold dispatch_accesses. simpl.
      split; [done|]. split; [done|]. split.
      * intros j Hj. apply Hfar. lia.
      * intros idx Hidx. lia.
Qed.

End KernelFacts.

(** ** The number of workgroups *)

Lemma Math_ceil_div64 (vc : Z) :
  Math_ceil (inject_Z vc / 64) = ((vc + 63) / 64)%Z.
Proof.
  unfold Math_ceil, Qceiling, Qfloor, inject_Z, Qdiv, Qmult, Qinv, Qopp. simpl.
  rewrite Z.mul_1_r. change (Z.pos (1 * 64)) with 64%Z.
  pose proof (Z.div_mod (- vc) 64 ltac:(lia)) as H1.
  pose proof (Z.mod_pos_bound (- vc) 64 ltac:(lia)) as H2.
  pose proof (Z.div_mod (vc + 63) 64 ltac:(lia)) as H3.
  pose proof (Z.mod_pos_bound (vc + 63) 64 ltac:(lia)) as H4.
  lia.
Qed.

Lemma Math_ceil_div64_least (vc : Z) :
  let wg := Math_ceil (inject_Z vc / 64) in
  (vc <= wg * 64 ∧ (wg - 1) * 64 < vc)%Z.
Proof.
  cbv zeta. rewrite Math_ceil_div64.
  pose proof (Z.div_mod (vc + 63) 64 ltac:(lia)) as H3.
  pose proof (Z.mod_pos_bound (vc + 63) 64 ltac:(lia)) as H4.
  lia.
Qed.

(** ** The dispatch as a whole *)

Section DispatchFacts.
Context {F : Type} `{Scalar F}.
Implicit Types (input : list F) (params : Params F) (m : Mem F).

Lemma dispatchWorkgroups_spec input params m (workgroups : Z) :
  (0 <= vertex_count params <= workgroups * 64)%Z →
  (3 * vertex_count params <= u32_modulus)%Z →
  (3 * vertex_count params <= Z.of_nat (length input))%Z →
  (3 * vertex_count params <= Z.of_nat (length (output_verts m)))%Z →
  ∃ out',
    dispatchWorkgroups input params workgroups m =
      Some (tt, {| output_verts := out';
                   journal := journal m ++ dispatch_accesses 0 (vertex_count params) |})
    ∧ length out' = length (output_verts m)
    ∧ (∀ j : nat, (3 * vertex_count params <= Z.of_nat j)%Z →
         out' !! j = output_verts m !! j)
    ∧ (∀ idx, (0 <= idx < vertex_count params)%Z →
         vertex_at out' idx = deform_vertex params <$> vertex_at input idx).
Proof.
  intros Hvc Hwrap Hin Hout.
  destruct (run_invocations_spec input params (Z.to_nat (workgroups * 64)) 0 m)
    as (out' & Hrun & Hlen & Hfar & Hnear); [lia|done..|].
  cbv zeta in *. rewrite Z2Nat.id in * by lia.
  replace (Z.min (0 + workgroups * 64) (Z.max 0 (vertex_count params)))
    with (vertex_count params) in * by lia.
  rewrite Z.sub_0_r in Hrun.
  exists out'. split; [exact Hrun|]. split; [done|]. split.
  - intros j Hj. apply Hfar. lia.
  - done.
Qed.

Lemma elem_of_dispatch_accesses (a : access) (first count : Z) :
  a ∈ dispatch_accesses first count ↔
  ∃ idx, (first <= idx < first + count)%Z ∧ a ∈ vertex_accesses idx.
Proof.
  unfold dispatch_accesses. rewrite list_elem_of_join. split.
  - intros (l & Ha & Hl). apply list_elem_of_fmap in Hl as (idx & -> & Hidx).
    apply elem_of_seqZ in Hidx. eauto.
  - intros (idx & Hidx & Ha). exists (vertex_accesses idx). split; [done|].
    apply list_elem_of_fmap. exists idx. split; [done|]. by apply elem_of_seqZ.
Qed.

(** The elements stored by a dispatch are exactly those of the first
    [count] triples, and every access stays below [3 * count]. *)
Lemma stores_of_dispatch (count j : Z) :
  StoreOutput j ∈ dispatch_accesses 0 count ↔ (0 <= j < 3 * count)%Z.
Proof.
  rewrite elem_of_dispatch_accesses. unfold vertex_accesses. split.
  - intros (idx & Hidx & Ha).
    repeat (apply elem_of_cons in Ha as [Ha|Ha]; [try discriminate; injection Ha as ->; lia|]).
    by apply elem_of_nil in Ha.
  - intros Hj. exists (j / 3)%Z.
    pose proof (Z.div_mod j 3 ltac:(lia)) as H1.
    pose proof (Z.mod_pos_bound j 3 ltac:(lia)) as H2.
    split; [lia|].
    assert (j mod 3 = 0 ∨ j mod 3 = 1 ∨ j mod 3 = 2)%Z as [E|[E|E]] by lia.
    + replace j with (3 * (j / 3))%Z at 1 by lia. rewrite !elem_of_cons. tauto.
    + replace j with (3 * (j / 3) + 1)%Z at 1 by lia. rewrite !elem_of_cons. tauto.
    + replace j with (3 * (j / 3) + 2)%Z at 1 by lia. rewrite !elem_of_cons. tauto.
Qed.

Lemma loads_of_dispatch (count j : Z) :
  LoadInput j ∈ dispatch_accesses 0 count ↔ (0 <= j < 3 * count)%Z.
Proof.
  rewrite elem_of_dispatch_accesses. unfold vertex_accesses. split.
  - intros (idx & Hidx & Ha).
    repeat (apply elem_of_cons in Ha as [Ha|Ha]; [try discriminate; injection Ha as ->; lia|]).
    by apply elem_of_nil in Ha.
  - intros Hj. exists (j / 3)%Z.
    pose proof (Z.div_mod j 3 ltac:(lia)) as H1.
    pose proof (Z.mod_pos_bound j 3 ltac:(lia)) as H2.
    split; [lia|].
    assert (j mod 3 = 0 ∨ j mod 3 = 1 ∨ j mod 3 = 2)%Z as [E|[E|E]] by lia.
    + replace j with (3 * (j / 3))%Z at 1 by lia. rewrite !elem_of_cons. tauto.
    + replace j with (3 * (j / 3) + 1)%Z at 1 by lia. rewrite !elem_of_cons. tauto.
    + replace j with (3 * (j / 3) + 2)%Z at 1 by lia. rewrite !elem_of_cons. tauto.
Qed.

End DispatchFacts.

(** ** Packed arrays, vertex by vertex *)

Section PackedArrays.
Context {F : Type}.
Implicit Types (l : list F).

Lemma vertex_at_Some l idx x y z :
  vertex_at l idx = Some (x, y, z) ↔
  l !! Z.to_nat (3 * idx) = Some x ∧
  l !! Z.to_nat (3 * idx + 1) = Some y ∧
  l !! Z.to_nat (3 * idx + 2) = Some z.
Proof.
  unfold vertex_at. split.
  - destruct (l !! Z.to_nat (3 * idx)) as [x'|]; [|done].
    destruct (l !! Z.to_nat (3 * idx + 1)) as [y'|]; [|done].
    destruct (l !! Z.to_nat (3 * idx + 2)) as [z'|]; [|done].
    simpl. by intros [= -> -> ->].
  - by intros (-> & -> & ->).
Qed.

Lemma list_eq_of_vertex_at l1 l2 (n : Z) :
  Z.of_nat (length l1) = (3 * n)%Z →
  Z.of_nat (length l2) = (3 * n)%Z →
  (∀ idx, (0 <= idx < n)%Z → vertex_at l1 idx = vertex_at l2 idx) →
  l1 = l2.
Proof.
  intros H1 H2 Hv. apply list_eq. intros j.
  destruct (decide (j < length l1)%nat) as [Hlt|Hge].
  - set (idx := (Z.of_nat j / 3)%Z).
    pose proof (Z.div_mod (Z.of_nat j) 3 ltac:(lia)) as Hd.
    pose proof (Z.mod_pos_bound (Z.of_nat j) 3 ltac:(lia)) as Hm.
    fold idx in Hd.
    assert (Hidx : (0 <= idx < n)%Z) by (unfold idx; lia).
    specialize (Hv idx Hidx).
    destruct (vertex_at_is_Some l1 idx) as [[[x y] z] E1]; [lia..|].
    rewrite E1 in Hv. symmetry in Hv.
    apply vertex_at_Some in E1 as (Ex & Ey & Ez).
    apply vertex_at_Some in Hv as (Ex' & Ey' & Ez').
    assert (Z.of_nat j mod 3 = 0 ∨ Z.of_nat j mod 3 = 1 ∨ Z.of_nat j mod 3 = 2)%Z
      as [E|[E|E]] by lia.
    + replace j with (Z.to_nat (3 * idx)) by lia. congruence.
    + replace j with (Z.to_nat (3 * idx + 1)) by lia. congruence.
    + replace j with (Z.to_nat (3 * idx + 2)) by lia. congruence.
  - rewrite !lookup_ge_None_2 by lia. done.
Qed.

Lemma vertex_at_fmap (g : F → F) l idx :
  vertex_at (g <$> l) idx =
  (λ v : F * F * F, (g v.1.1, g v.1.2, g v.2)) <$> vertex_at l idx.
Proof.
  unfold vertex_at. rewrite !list_lookup_fmap.
  destruct (l !! Z.to_nat (3 * idx)) as [x|]; [|done].
  destruct (l !! Z.to_nat (3 * idx + 1)) as [y|]; [|done].
  destruct (l !! Z.to_nat (3 * idx + 2)) as [z|]; done.
Qed.

End PackedArrays.

Section MapVertices.
Context {F : Type}.
Implicit Types (l : list F) (g : F * F * F → F * F * F).

Lemma vertex_at_cons3 (a b c : F) l idx :
  (0 < idx)%Z →
  vertex_at (a :: b :: c :: l) idx = vertex_at l (idx - 1).
Proof.
  intros Hidx. unfold vertex_at.
  replace (Z.to_nat (3 * idx)) with (S (S (S (Z.to_nat (3 * (idx - 1)))))) by lia.
  replace (Z.to_nat (3 * idx + 1)) with (S (S (S (Z.to_nat (3 * (idx - 1) + 1))))) by lia.
  replace (Z.to_nat (3 * idx + 2)) with (S (S (S (Z.to_nat (3 * (idx - 1) + 2))))) by lia.
  done.
Qed.

Lemma length_map_vertices g (n : nat) : ∀ l,
  length l = (3 * n)%nat → length (map_vertices g l) = (3 * n)%nat.
Proof.
  induction n as [|n IH]; intros l Hl.
  - by destruct l.
  - destruct l as [|a [|b [|c l]]]; simpl in Hl; try lia.
    simpl. rewrite (IH l) by lia. lia.
Qed.

Lemma vertex_at_map_vertices g (n : nat) : ∀ l idx,
  length l = (3 * n)%nat → (0 <= idx < Z.of_nat n)%Z →
  vertex_at (map_vertices g l) idx = g <$> vertex_at l idx.
Proof.
  induction n as [|n IH]; intros l idx Hl Hidx; [lia|].
  destruct l as [|a [|b [|c l]]]; simpl in Hl; try lia.
  destruct (decide (idx = 0%Z)) as [->|Hne].
  - simpl. unfold vertex_at. simpl. by destruct (g (a, b, c)) as [[??]?].
  - simpl. rewrite !vertex_at_cons3 by lia. apply IH; lia.
Qed.

Lemma map_vertices_pointwise (h : F → F) (n : nat) : ∀ l,
  length l = (3 * n)%nat →
  map_vertices (λ v, (h v.1.1, h v.1.2, h v.2)) l = h <$> l.
Proof.
  induction n as [|n IH]; intros l Hl.
  - by destruct l.
  - destruct l as [|a [|b [|c l]]]; simpl in Hl; try lia.
    simpl. do 3 f_equal. apply IH. lia.
Qed.

End MapVertices.

Lemma map_vertices_ext {F : Type} (g1 g2 : F * F * F → F * F * F) (l : list F) :
  (∀ v, g1 v = g2 v) → map_vertices g1 l = map_vertices g2 l.
Proof.
  intros Hg. remember (length l) as n eqn:Hn.
  revert l Hn. induction (lt_wf n) as [n _ IH]. intros l Hn.
  destruct l as [|a [|b [|c l]]]; try done.
  simpl. rewrite Hg. do 3 f_equal.
  apply (IH (length l)); [simpl in Hn; lia | done].
Qed.

Section MapVerticesCompose.
Context {F : Type}.
Implicit Types (l : list F) (g : F * F * F → F * F * F).

Lemma map_vertices_compose g1 g2 l :
  map_vertices g2 (map_vertices g1 l) = map_vertices (λ v, g2 (g1 v)) l.
Proof.
  remember (length l) as n eqn:Hn.
  revert l Hn. induction (lt_wf n) as [n _ IH]. intros l Hn.
  destruct l as [|a [|b [|c l]]]; try done.
  simpl. destruct (g1 (a, b, c)) as [[a' b'] c']. simpl. do 3 f_equal.
  apply (IH (length l)); [simpl in Hn; lia | done].
Qed.

Lemma map_vertices_id g (n : nat) : ∀ l,
  length l = (3 * n)%nat → (∀ v, g v = v) → map_vertices g l = l.
Proof.
  induction n as [|n IH]; intros l Hl Hg.
  - by destruct l.
  - destruct l as [|a [|b [|c l]]]; simpl in Hl; try lia.
    simpl. rewrite Hg. simpl. do 3 f_equal. apply IH; [lia|done].
Qed.

End MapVerticesCompose.

(** ** One compute pass over a whole position array *)

Section ComputePass.
Context {F : Type} `{Scalar F}.
Implicit Types (input : list F) (params : Params F).

Lemma compute_pass input params (out0 : list F) :
  (0 <= vertex_count params)%Z →
  (3 * vertex_count params <= u32_modulus)%Z →
  Z.of_nat (length input) = (3 * vertex_count params)%Z →
  Z.of_nat (length out0) = (3 * vertex_count params)%Z →
  ∃ out',
    dispatchWorkgroups input params
        (Math_ceil (inject_Z (vertex_count params) / 64))
        {| output_verts := out0; journal := [] |} =
      Some (tt, {| output_verts := out';
                   journal := dispatch_accesses 0 (vertex_count params) |})
    ∧ length out' = length input
    ∧ (∀ idx, (0 <= idx < vertex_count params)%Z →
         vertex_at out' idx = deform_vertex params <$> vertex_at input idx).
Proof.
  intros Hvc Hwrap Hin Hout.
  pose proof (Math_ceil_div64_least (vertex_count params)) as [Hwg _].
  destruct (dispatchWorkgroups_spec input params
              {| output_verts := out0; journal := [] |}
              (Math_ceil (inject_Z (vertex_count params) / 64)))
    as (out' & Hrun & Hlen & _ & Hnear); simpl; [lia..|].
  exists out'. simpl in *. split; [done|]. split; [lia|done].
Qed.

(** A compute pass maps [deform] over the vertices of the input. *)
Lemma compute_pass_map_vertices input params (out0 : list F) :
  (0 <= vertex_count params)%Z →
  (3 * vertex_count params <= u32_modulus)%Z →
  Z.of_nat (length input) = (3 * vertex_count params)%Z →
  Z.of_nat (length out0) = (3 * vertex_count params)%Z →
  dispatchWorkgroups input params
      (Math_ceil (inject_Z (vertex_count params) / 64))
      {| output_verts := out0; journal := [] |} =
    Some (tt, {| output_verts := map_vertices (deform_vertex params) input;
                 journal := dispatch_accesses 0 (vertex_count params) |}).
Proof.
  intros Hvc Hwrap Hin Hout.
  destruct (compute_pass input params out0) as (out' & Hrun & Hlen & Hv); [done..|].
  rewrite Hrun. do 3 f_equal.
  assert (Hn : length input = (3 * Z.to_nat (vertex_count params))%nat) by lia.
  apply (list_eq_of_vertex_at _ _ (vertex_count params)); [lia| |].
  - rewrite (length_map_vertices _ _ _ Hn). lia.
  - intros idx Hidx. rewrite Hv by done. symmetry.
    apply (vertex_at_map_vertices _ (Z.to_nat (vertex_count params))); [done|lia].
Qed.

(** When the operation acts coordinate by coordinate through [g], the
    output array is the image of the input array under [g]. *)
Lemma compute_pass_pointwise (g : F → F) input params (out0 : list F) :
  (0 <= vertex_count params)%Z →
  (3 * vertex_count params <= u32_modulus)%Z →
  Z.of_nat (length input) = (3 * vertex_count params)%Z →
  Z.of_nat (length out0) = (3 * vertex_count params)%Z →
  (∀ x y z, x ∈ input → y ∈ input → z ∈ input →
     deform params x y z = (g x, g y, g z)) →
  dispatchWorkgroups input params
      (Math_ceil (inject_Z (vertex_count params) / 64))
      {| output_verts := out0; journal := [] |} =
    Some (tt, {| output_verts := g <$> input;
                 journal := dispatch_accesses 0 (vertex_count params) |}).
Proof.
  intros Hvc Hwrap Hin Hout Hg.
  destruct (compute_pass input params out0) as (out' & Hrun & Hlen & Hv); [done..|].
  rewrite Hrun. do 3 f_equal.
  apply (list_eq_of_vertex_at _ _ (vertex_count params)); [lia| rewrite length_fmap; lia |].
  intros idx Hidx. rewrite Hv by done. rewrite vertex_at_fmap.
  destruct (vertex_at input idx) as [[[x y] z]|] eqn:E; [|done].
  apply vertex_at_Some in E as (Ex & Ey & Ez).
  simpl. unfold deform_vertex. simpl. f_equal.
  apply Hg; eapply list_elem_of_lookup_2; eauto.
Qed.

(** The invocations of a dispatch may run in any order: an invocation reads
    only [input_verts] and writes only the triple of its own vertex. *)
Lemma run_invocations_any_order input params (gids : list Z) : ∀ m : Mem F,
  Forall (λ gid, 0 <= gid)%Z gids →
  (3 * vertex_count params <= u32_modulus)%Z →
  (3 * vertex_count params <= Z.of_nat (length input))%Z →
  (3 * vertex_count params <= Z.of_nat (length (output_verts m)))%Z →
  ∃ out' accesses,
    run_invocations input params gids m =
      Some (tt, {| output_verts := out'; journal := journal m ++ accesses |})
    ∧ length out' = length (output_verts m)
    ∧ (∀ a, a ∈ accesses ↔
         ∃ idx, idx ∈ gids ∧ (idx < vertex_count params)%Z ∧ a ∈ vertex_accesses idx)
    ∧ (∀ idx, (0 <= idx < vertex_count params)%Z → idx ∈ gids →
         vertex_at out' idx = deform_vertex params <$> vertex_at input idx)
    ∧ (∀ idx, (0 <= idx)%Z → idx ∉ gids →
         vertex_at out' idx = vertex_at (output_verts m) idx).
Proof.
  induction gids as [|gid gids IH]; intros m Hpos Hwrap Hin Hout.
  - exists (output_verts m), []. simpl. rewrite app_nil_r. destruct m as [out jn].
    split; [done|]. split; [done|]. split; [|split].
    + intros a. split; [by intros ?%elem_of_nil|].
      by intros (idx & ?%elem_of_nil & _).
    + by intros idx _ ?%elem_of_nil.
    + done.
  - apply Forall_cons in Hpos as [Hgid Hpos]. simpl.
    unfold mbind at 1, Kern_bind at 1.
    destruct (decide (gid < vertex_count params)%Z) as [Hlt|Hge].
    + destruct (vertex_at_is_Some input gid) as [[[x y] z] Hv]; [lia..|].
      rewrite (main_vertex input params gid m x y z)
        by (unfold u32_modulus in *; lia || done).
      set (m1 := {| output_verts := put_vertex (output_verts m) gid (deform params x y z);
                    journal := journal m ++ vertex_accesses gid |}).
      destruct (IH m1 Hpos Hwrap Hin) as (out' & acc & Hrun & Hlen & Hacc & Hin' & Hout');
        [simpl; rewrite length_put_vertex; lia|].
      exists out', (vertex_accesses gid ++ acc). rewrite Hrun.
      unfold m1 in *. cbn [journal output_verts] in *.
      split; [by rewrite app_assoc|]. split; [by rewrite Hlen, length_put_vertex|].
      split; [|split].
      * intros a. rewrite elem_of_app, Hacc. split.
        -- intros [Ha|(idx & Hidx & ? & ?)].
           ++ exists gid. split; [apply list_elem_of_here|done].
           ++ exists idx. split; [by apply list_elem_of_further|done].
        -- intros (idx & Hidx & ? & ?). apply elem_of_cons in Hidx as [->|Hidx]; [by left|].
           right. by exists idx.
      * intros idx Hidx Hmem.
        destruct (decide (idx ∈ gids)) as [Hgids|Hgids]; [by apply Hin'|].
        apply elem_of_cons in Hmem as [->|Hmem]; [|done].
        rewrite Hout' by (done || lia).
        rewrite vertex_at_put_vertex by lia. by rewrite Hv.
      * intros idx Hidx Hmem. apply not_elem_of_cons in Hmem as [Hne Hmem].
        rewrite Hout' by done.
        apply vertex_at_ext; [done|]. intros j Hj.
        apply lookup_put_vertex_ne; lia.
    + rewrite main_guard by lia.
      destruct (IH m Hpos Hwrap Hin Hout) as (out' & acc & Hrun & Hlen & Hacc & Hin' & Hout').
      exists out', acc. rewrite Hrun.
      split; [done|]. split; [done|]. split; [|split].
      * intros a. rewrite Hacc. split.
        -- intros (idx & Hidx & ? & ?). exists idx. split; [by apply list_elem_of_further|done].
        -- intros (idx & Hidx & ? & ?). apply elem_of_cons in Hidx as [->|Hidx]; [lia|].
           by exists idx.
      * intros idx Hidx Hmem. apply elem_of_cons in Hmem as [->|Hmem]; [lia|].
        by apply Hin'.
      * intros idx Hidx Hmem. apply not_elem_of_cons in Hmem as [_ Hmem]. by apply Hout'.
Qed.

(** Whatever the order of the invocations, a dispatch over whole arrays ends
    with the same output and has made the same accesses. *)
Lemma compute_pass_any_order input params (out0 : list F) (gids : list Z) :
  gids ≡ₚ invocations (Math_ceil (inject_Z (vertex_count params) / 64)) →
  (0 <= vertex_count params)%Z →
  (3 * vertex_count params <= u32_modulus)%Z →
  Z.of_nat (length input) = (3 * vertex_count params)%Z →
  Z.of_nat (length out0) = (3 * vertex_count params)%Z →
  ∃ accesses,
    run_invocations input params gids {| output_verts := out0; journal := [] |} =
      Some (tt, {| output_verts := map_vertices (deform_vertex params) input;
                   journal := accesses |})
    ∧ (∀ a, a ∈ accesses ↔ a ∈ dispatch_accesses 0 (vertex_count params)).
Proof.
  intros Hperm Hvc Hwrap Hin Hout.
  pose proof (Math_ceil_div64_least (vertex_count params)) as [Hwg _].
  set (workgroups := Math_ceil (inject_Z (vertex_count params) / 64)) in *.
  assert (Hmem : ∀ idx, idx ∈ gids ↔ (0 <= idx < workgroups * 64)%Z).
  { intros idx. rewrite Hperm. unfold invocations, workgroup_size.
    rewrite elem_of_seqZ. lia. }
  assert (Hpos : Forall (λ gid, 0 <= gid)%Z gids).
  { apply Forall_forall. intros idx Hidx. apply Hmem in Hidx. lia. }
  destruct (run_invocations_any_order input params gids
              {| output_verts := out0; journal := [] |} Hpos Hwrap)
    as (out' & acc & Hrun & Hlen & Hacc & Hin' & _); simpl; [lia..|].
  simpl in *. exists acc. split.
  - rewrite Hrun. do 3 f_equal.
    assert (Hn : length input = (3 * Z.to_nat (vertex_count params))%nat) by lia.
    apply (list_eq_of_vertex_at _ _ (vertex_count params)); [lia| |].
    + rewrite (length_map_vertices _ _ _ Hn). lia.
    + intros idx Hidx. rewrite Hin' by (done || apply Hmem; lia). symmetry.
      apply (vertex_at_map_vertices _ (Z.to_nat (vertex_count params))); [done|lia].
  - intros a. rewrite Hacc, elem_of_dispatch_accesses. split.
    + intros (idx & Hidx & Hlt & Ha). exists idx. apply Hmem in Hidx. split; [lia|done].
    + intros (idx & Hidx & Ha). exists idx. split; [apply Hmem; lia|]. split; [lia|done].
Qed.

End ComputePass.

(** ** Binary32 facts *)

Lemma f32_lit_one : f32_lit 1.0 = S754_finite false 8388608 (-23).
Proof. reflexivity. Qed.

Lemma digits2_pos_shift23 (m : positive) :
  Zpos (digits2_pos (Pos.iter xO m 23)) = (Zpos (digits2_pos m) + 23)%Z.
Proof. simpl. lia. Qed.

Lemma SFmul_one_r (x : f32) :
  f32_valid x = true → SFmul prec32 emax32 x (f32_lit 1.0) = x.
Proof.
  intros Hv. rewrite f32_lit_one.
  destruct x as [s|s| |s m e]; simpl; [by destruct s..|done|].
  unfold f32_valid, valid_binary, bounded, canonical_mantissa in Hv.
  apply andb_true_iff in Hv as [Hc He].
  apply Z.eqb_eq in Hc. apply Z.leb_le in He.
  replace (m * 8388608)%positive with (Pos.iter xO m 23)
    by (simpl; rewrite !Pos.mul_xO_r, Pos.mul_1_r; done).
  unfold binary_round_aux, shr_fexp, Zdigits2.
  rewrite digits2_pos_shift23.
  replace (Z.pos (digits2_pos m) + 23 + (e + -23))%Z
    with (Z.pos (digits2_pos m) + e)%Z by lia.
  rewrite Hc.
  replace (e - (e + -23))%Z with 23%Z by lia.
  change (shr (shr_record_of_loc (Z.pos (Pos.iter xO m 23)) loc_Exact) (e + -23) 23)
    with ({| shr_m := Z.pos m; shr_r := false; shr_s := false |}, (e + -23 + 23)%Z).
  cbv beta iota zeta.
  change (round_nearest_even _ _) with (Z.pos m).
  replace (e + -23 + 23)%Z with e by lia.
  rewrite Hc, Z.sub_diag. simpl.
  apply Z.leb_le in He. rewrite He. by destruct s.
Qed.

(** ** The binary32 interchange format *)

Lemma digits2_pos_bounds (m : positive) :
  (2 ^ (Zpos (digits2_pos m) - 1) <= Zpos m < 2 ^ Zpos (digits2_pos m))%Z.
Proof.
  induction m as [m IH|m IH|]; simpl digits2_pos.
  - rewrite Pos2Z.inj_succ.
    replace (Z.succ (Z.pos (digits2_pos m)) - 1)%Z with (Z.succ (Z.pos (digits2_pos m) - 1)) by lia.
    rewrite !Z.pow_succ_r by lia. lia.
  - rewrite Pos2Z.inj_succ.
    replace (Z.succ (Z.pos (digits2_pos m)) - 1)%Z with (Z.succ (Z.pos (digits2_pos m) - 1)) by lia.
    rewrite !Z.pow_succ_r by lia. lia.
  - simpl. lia.
Qed.

(** A valid finite binary32 is normal (24 significant bits) or subnormal
    (exponent -149 and fewer bits). *)
Lemma f32_valid_finite (s : bool) (m : positive) (e : Z) :
  f32_valid (S754_finite s m e) = true →
  ((2 ^ 23 <= Zpos m < 2 ^ 24 ∧ -149 <= e <= 104) ∨
   (Zpos m < 2 ^ 23 ∧ e = -149))%Z.
Proof.
  intros Hv.
  unfold f32_valid, valid_binary, bounded, canonical_mantissa in Hv.
  apply andb_true_iff in Hv as [Hc He].
  apply Z.eqb_eq in Hc. apply Z.leb_le in He.
  unfold fexp, emin, prec32, emax32 in *.
  pose proof (digits2_pos_bounds m) as [Hlo Hhi].
  set (d := Zpos (digits2_pos m)) in *.
  assert (Hd : (0 < d)%Z) by (unfold d; lia).
  destruct (Z.max_spec (d + e - 24) (3 - 128 - 24)) as [[Hlt Hmax]|[Hge Hmax]];
    rewrite Hmax in Hc.
  - right. split; [|lia].
    assert (d <= 23)%Z by lia.
    eapply Z.lt_le_trans; [exact Hhi|].
    apply Z.pow_le_mono_r; lia.
  - left. assert (d = 24)%Z as Hd24 by lia. rewrite Hd24 in *.
    change (24 - 1)%Z with 23%Z in Hlo. lia.
Qed.

Lemma testbit31 (s : bool) (r : Z) :
  (0 <= r < 2 ^ 31)%Z → Z.testbit (sign_bit s + r) 31 = s.
Proof.
  intros Hr. rewrite Z.testbit_odd, Z.shiftr_div_pow2 by lia.
  destruct s; unfold sign_bit.
  - replace ((2 ^ 31 + r) / 2 ^ 31)%Z with 1%Z; [done|].
    apply (Z.div_unique _ _ 1 r); lia.
  - rewrite Z.add_0_l, Z.div_small by lia. done.
Qed.

(** Decoding the encoding of a valid binary32 gives it back. *)
Lemma f32_of_bits_f32_bits (x : f32) :
  f32_valid x = true → f32_of_bits (f32_bits x) = x.
Proof.
  intros Hv. destruct x as [s|s| |s m e].
  - by destruct s.
  - by destruct s.
  - done.
  - apply f32_valid_finite in Hv as [[Hm He]|[Hm ->]]; unfold f32_bits.
    + destruct (Z.ltb_spec (Zpos m) (2 ^ 23)) as [Hlt|_]; [lia|].
      set (w := (sign_bit s + (e + 150) * 2 ^ 23 + (Z.pos m - 2 ^ 23))%Z).
      assert (Hs : Z.testbit w 31 = s).
      { unfold w. rewrite <- Z.add_assoc. apply testbit31.
        change (2 ^ 31)%Z with (256 * 2 ^ 23)%Z. nia. }
      assert (Hq : (w / 2 ^ 23 = (if s then 256 else 0) + (e + 150))%Z).
      { unfold w, sign_bit. symmetry.
        apply (Z.div_unique _ _ _ (Z.pos m - 2 ^ 23)); [lia|].
        destruct s; change (2 ^ 31)%Z with (256 * 2 ^ 23)%Z; ring. }
      assert (Hr : (w mod 2 ^ 23 = Z.pos m - 2 ^ 23)%Z).
      { unfold w, sign_bit. symmetry.
        apply (Z.mod_unique _ _ ((if s then 256 else 0) + (e + 150))); [lia|].
        destruct s; change (2 ^ 31)%Z with (256 * 2 ^ 23)%Z; ring. }
      assert (He' : ((w / 2 ^ 23) mod 2 ^ 8 = e + 150)%Z).
      { rewrite Hq. change (2 ^ 8)%Z with 256%Z.
        destruct s; [rewrite <- (Z.mul_1_l 256) at 1; rewrite Z.add_comm, Z_mod_plus_full|];
          apply Z.mod_small; lia. }
      unfold f32_of_bits. rewrite Hs, He', Hr.
      destruct (Z.eqb_spec (e + 150) 0) as [?|_]; [lia|].
      destruct (Z.eqb_spec (e + 150) 255) as [?|_]; [lia|].
      f_equal; lia.
    + destruct (Z.ltb_spec (Zpos m) (2 ^ 23)) as [_|Hge]; [|lia].
      set (w := (sign_bit s + Z.pos m)%Z).
      assert (Hs : Z.testbit w 31 = s).
      { unfold w. apply testbit31. change (2 ^ 31)%Z with (256 * 2 ^ 23)%Z. lia. }
      assert (Hq : (w / 2 ^ 23 = (if s then 256 else 0))%Z).
      { unfold w, sign_bit. symmetry.
        apply (Z.div_unique _ _ _ (Z.pos m)); [lia|].
        destruct s; change (2 ^ 31)%Z with (256 * 2 ^ 23)%Z; ring. }
      assert (Hr : (w mod 2 ^ 23 = Z.pos m)%Z).
      { unfold w, sign_bit. symmetry.
        apply (Z.mod_unique _ _ (if s then 256 else 0)); [lia|].
        destruct s; change (2 ^ 31)%Z with (256 * 2 ^ 23)%Z; ring. }
      unfold f32_of_bits. rewrite Hs, Hq, Hr.
      replace ((if s then 256 else 0) mod 2 ^ 8)%Z with 0%Z by (by destruct s).
      simpl. done.
Qed.

Lemma f32_bits_range (x : f32) :
  f32_valid x = true → (0 <= f32_bits x < 2 ^ 32)%Z.
Proof.
  intros Hv. destruct x as [s|s| |s m e].
  - destruct s; simpl; lia.
  - destruct s; simpl; lia.
  - simpl. lia.
  - apply f32_valid_finite in Hv as [[Hm He]|[Hm ->]]; unfold f32_bits.
    + destruct (Z.ltb_spec (Zpos m) (2 ^ 23)) as [Hlt|_]; [lia|].
      destruct s; unfold sign_bit;
        change (2 ^ 31)%Z with (256 * 2 ^ 23)%Z; change (2 ^ 32)%Z with (512 * 2 ^ 23)%Z; nia.
    + destruct (Z.ltb_spec (Zpos m) (2 ^ 23)) as [_|Hge]; [|lia].
      destruct s; unfold sign_bit;
        change (2 ^ 31)%Z with (256 * 2 ^ 23)%Z; change (2 ^ 32)%Z with (512 * 2 ^ 23)%Z; lia.
Qed.

(** ** Rounding to binary32 yields a binary32 *)

Lemma fexp32 (k : Z) : fexp prec32 emax32 k = Z.max (k - 24) (-149).
Proof. reflexivity. Qed.

Lemma Zdigits2_nonneg (m : Z) : (0 <= Zdigits2 m)%Z.
Proof. destruct m; simpl; lia. Qed.

Lemma Zdigits2_bounds (m : Z) :
  (0 < m)%Z → (2 ^ (Zdigits2 m - 1) <= m < 2 ^ Zdigits2 m)%Z.
Proof. destruct m as [|p|p]; try lia. intros _. apply digits2_pos_bounds. Qed.

Lemma Zdigits2_unique (m d : Z) :
  (2 ^ (d - 1) <= m < 2 ^ d)%Z → (0 < m)%Z → (0 < d)%Z → Zdigits2 m = d.
Proof.
  intros [Hlo Hhi] Hm Hd.
  pose proof (Zdigits2_bounds m Hm) as [Hlo' Hhi'].
  assert (Hd' : (0 < Zdigits2 m)%Z) by (destruct m; simpl in *; lia).
  assert (d - 1 < Zdigits2 m)%Z.
  { apply (Z.pow_lt_mono_r_iff 2%Z); lia. }
  assert (Zdigits2 m - 1 < d)%Z.
  { apply (Z.pow_lt_mono_r_iff 2%Z); lia. }
  lia.
Qed.

Lemma Zdigits2_div_pow2 (m n : Z) :
  (0 <= m)%Z → (0 <= n)%Z →
  Zdigits2 (m / 2 ^ n) = Z.max (Zdigits2 m - n) 0.
Proof.
  intros Hm Hn.
  assert (Hpow : (0 < 2 ^ n)%Z) by (apply Z.pow_pos_nonneg; lia).
  destruct (Z.eq_dec m 0%Z) as [->|Hne].
  { rewrite Z.div_0_l by lia. simpl. lia. }
  pose proof (Zdigits2_bounds m ltac:(lia)) as [Hlo Hhi].
  set (d := Zdigits2 m) in *.
  assert (Hd : (0 < d)%Z) by (unfold d; destruct m; simpl in *; lia).
  destruct (Z_lt_le_dec n d) as [Hlt|Hge].
  - rewrite Z.max_l by lia.
    apply Zdigits2_unique; [split| |lia].
    + apply Z.div_le_lower_bound; [lia|].
      rewrite <- Z.pow_add_r by lia.
      replace (n + (d - n - 1))%Z with (d - 1)%Z by lia. done.
    + apply Z.div_lt_upper_bound; [lia|].
      rewrite <- Z.pow_add_r by lia.
      replace (n + (d - n))%Z with d by lia. done.
    + apply Z.div_str_pos. split; [lia|].
      eapply Z.le_trans; [|exact Hlo]. apply Z.pow_le_mono_r; lia.
  - rewrite Z.max_r by lia.
    rewrite Z.div_small; [done|]. split; [lia|].
    eapply Z.lt_le_trans; [exact Hhi|]. apply Z.pow_le_mono_r; lia.
Qed.

Lemma Zdigits2_succ (m : Z) :
  (0 <= m)%Z → (Zdigits2 m <= Zdigits2 (m + 1) <= Zdigits2 m + 1)%Z.
Proof.
  intros Hm.
  destruct (Z.eq_dec m 0%Z) as [->|Hne]; [simpl; lia|].
  pose proof (Zdigits2_bounds m ltac:(lia)) as [Hlo Hhi].
  pose proof (Zdigits2_bounds (m + 1) ltac:(lia)) as [Hlo' Hhi'].
  pose proof (Zdigits2_nonneg m). pose proof (Zdigits2_nonneg (m + 1)).
  assert (Zdigits2 m - 1 < Zdigits2 (m + 1))%Z.
  { apply (Z.pow_lt_mono_r_iff 2%Z); lia. }
  assert (Zdigits2 (m + 1) - 1 < Zdigits2 m + 1)%Z.
  { destruct (Z.eq_dec (Zdigits2 (m + 1)) 0%Z) as [E|E]; [lia|].
    apply (Z.pow_lt_mono_r_iff 2%Z); [lia|lia|].
    rewrite Z.pow_add_r by lia. lia. }
  lia.
Qed.

Lemma shr_1_m (mrs : shr_record) :
  (0 <= shr_m mrs)%Z → shr_m (shr_1 mrs) = (shr_m mrs / 2)%Z.
Proof.
  destruct mrs as [m r s]. simpl. intros Hm.
  destruct m as [|[p|p|]|p]; simpl; try lia.
  - reflexivity.
  - apply (Z.div_unique _ _ _ 1%Z); lia.
  - apply (Z.div_unique _ _ _ 0%Z); lia.
  - reflexivity.
Qed.

Lemma iter_pos_shr_m (p : positive) : ∀ mrs : shr_record,
  (0 <= shr_m mrs)%Z →
  shr_m (SpecFloat.iter_pos shr_1 p mrs) = (shr_m mrs / 2 ^ Zpos p)%Z.
Proof.
  induction p as [p IH|p IH|]; intros mrs Hm; simpl SpecFloat.iter_pos.
  - assert (H1 : (0 <= shr_m (shr_1 mrs))%Z).
    { rewrite shr_1_m by done. apply Z.div_pos; lia. }
    assert (H2 : (0 <= shr_m (SpecFloat.iter_pos shr_1 p (shr_1 mrs)))%Z).
    { rewrite IH by done. apply Z.div_pos; [done|]. apply Z.pow_pos_nonneg; lia. }
    rewrite IH, IH, shr_1_m by done.
    rewrite !Z.div_div by (try apply Z.pow_nonneg; lia).
    f_equal.
    replace (Z.pos p~1) with (1 + Z.pos p + Z.pos p)%Z by lia.
    rewrite !Z.pow_add_r by lia. lia.
  - assert (H2 : (0 <= shr_m (SpecFloat.iter_pos shr_1 p mrs))%Z).
    { rewrite IH by done. apply Z.div_pos; [done|]. apply Z.pow_pos_nonneg; lia. }
    rewrite IH, IH by done.
    rewrite !Z.div_div by (try apply Z.pow_nonneg; lia).
    f_equal.
    replace (Z.pos p~0) with (Z.pos p + Z.pos p)%Z by lia.
    rewrite !Z.pow_add_r by lia. lia.
  - rewrite shr_1_m by done. done.
Qed.

Lemma shr_m_record_of_loc (m : Z) (l : location) :
  shr_m (shr_record_of_loc m l) = m.
Proof. by destruct l as [|[]]. Qed.

Lemma shr_fexp_spec (m e : Z) (l : location) :
  (0 <= m)%Z →
  (e <= fexp prec32 emax32 (Zdigits2 m + e))%Z →
  let n := (fexp prec32 emax32 (Zdigits2 m + e) - e)%Z in
  shr_m (shr_fexp prec32 emax32 m e l).1 = (m / 2 ^ n)%Z
  ∧ (shr_fexp prec32 emax32 m e l).2 = (e + n)%Z.
Proof.
  intros Hm Hle n. unfold shr_fexp, shr. fold n.
  destruct n as [|p|p] eqn:En; simpl fst; simpl snd.
  - rewrite shr_m_record_of_loc, Z.div_1_r. split; [done|lia].
  - rewrite iter_pos_shr_m by (rewrite shr_m_record_of_loc; done).
    by rewrite shr_m_record_of_loc.
  - lia.
Qed.

Lemma round_nearest_even_cases (m : Z) (l : location) :
  round_nearest_even m l = m ∨ round_nearest_even m l = (m + 1)%Z.
Proof.
  destruct l as [|[]]; simpl; auto.
  destruct (Z.even m); auto.
Qed.

Lemma binary_round_aux_valid (s : bool) (mx ex : Z) (lx : location) :
  (0 <= mx)%Z →
  (ex <= fexp prec32 emax32 (Zdigits2 mx + ex))%Z →
  f32_valid (binary_round_aux prec32 emax32 s mx ex lx) = true.
Proof.
  intros Hmx Hex. unfold binary_round_aux.
  pose proof (shr_fexp_spec mx ex lx Hmx Hex) as [Hm1 He1]. cbv zeta in Hm1, He1.
  destruct (shr_fexp prec32 emax32 mx ex lx) as [mrs1 e1]. simpl in Hm1, He1.
  set (n1 := (fexp prec32 emax32 (Zdigits2 mx + ex) - ex)%Z) in *.
  assert (Hn1 : (0 <= n1)%Z) by (unfold n1; lia).
  set (m1 := shr_m mrs1) in *.
  assert (Hm1pos : (0 <= m1)%Z).
  { rewrite Hm1. apply Z.div_pos; [done|]. apply Z.pow_pos_nonneg; lia. }
  assert (Hd1 : Zdigits2 m1 = Z.max (Zdigits2 mx - n1) 0).
  { rewrite Hm1. by apply Zdigits2_div_pow2. }
  assert (Hcanon1 : fexp prec32 emax32 (Zdigits2 m1 + e1) = e1).
  { rewrite Hd1, He1. unfold n1. rewrite !fexp32. pose proof (Zdigits2_nonneg mx). lia. }
  set (m2 := round_nearest_even m1 (loc_of_shr_record mrs1)).
  assert (Hm2 : (m2 = m1 ∨ m2 = m1 + 1)%Z) by apply round_nearest_even_cases.
  assert (Hm2pos : (0 <= m2)%Z) by lia.
  assert (Hd2 : (Zdigits2 m1 <= Zdigits2 m2 <= Zdigits2 m1 + 1)%Z).
  { destruct Hm2 as [->| ->]; [lia|]. by apply Zdigits2_succ. }
  assert (Hex2 : (e1 <= fexp prec32 emax32 (Zdigits2 m2 + e1))%Z).
  { rewrite fexp32 in *. lia. }
  pose proof (shr_fexp_spec m2 e1 loc_Exact Hm2pos Hex2) as [Hm3 He3].
  cbv zeta in Hm3, He3.
  destruct (shr_fexp prec32 emax32 m2 e1 loc_Exact) as [mrs2 e2]. simpl in Hm3, He3.
  set (n2 := (fexp prec32 emax32 (Zdigits2 m2 + e1) - e1)%Z) in *.
  assert (Hn2 : (0 <= n2 <= 1)%Z) by (unfold n2; rewrite fexp32 in *; lia).
  assert (Hd3 : Zdigits2 (shr_m mrs2) = Z.max (Zdigits2 m2 - n2) 0).
  { rewrite Hm3. apply Zdigits2_div_pow2; lia. }
  destruct (shr_m mrs2) as [|m3|m3] eqn:Em3; [done| |done].
  destruct (Z.leb_spec e2 (emax32 - prec32)) as [Hle|Hgt]; [|done].
  unfold f32_valid, valid_binary, bounded, canonical_mantissa.
  apply andb_true_iff. split; [|by apply Z.leb_le].
  apply Z.eqb_eq.
  change (Z.pos (digits2_pos m3)) with (Zdigits2 (Z.pos m3)).
  assert (Hpos3 : (0 < Zdigits2 (Z.pos m3))%Z) by (simpl; lia).
  rewrite Hd3 in *. rewrite He3. unfold n2 in *. rewrite !fexp32 in *. lia.
Qed.

Lemma digits2_pos_iter_xO (m d : positive) :
  Zpos (digits2_pos (Pos.iter xO m d)) = (Zpos (digits2_pos m) + Zpos d)%Z.
Proof.
  induction d as [|d IH] using Pos.peano_ind.
  - simpl. lia.
  - rewrite Pos.iter_succ. simpl digits2_pos. lia.
Qed.

Lemma binary_round_valid (s : bool) (m : positive) (e : Z) :
  f32_valid (binary_round prec32 emax32 s m e) = true.
Proof.
  unfold binary_round, shl_align.
  destruct (fexp prec32 emax32 (Z.pos (digits2_pos m) + e) - e)%Z as [|p|p] eqn:E.
  - apply binary_round_aux_valid; [lia|]. simpl Zdigits2. lia.
  - apply binary_round_aux_valid; [lia|]. simpl Zdigits2. lia.
  - apply binary_round_aux_valid; [lia|]. simpl Zdigits2.
    rewrite digits2_pos_iter_xO.
    replace (Z.pos (digits2_pos m) + Z.pos p +
             fexp prec32 emax32 (Z.pos (digits2_pos m) + e))%Z
      with (Z.pos (digits2_pos m) + e)%Z by lia.
    lia.
Qed.

(** Every number is stored as a valid binary32. *)
Lemma f32_of_number_valid (x : number) : f32_valid (f32_of_number x) = true.
Proof.
  destruct x as [s|s| |s m e]; try done.
  apply binary_round_valid.
Qed.

(** *** Rounding, for any precision *)

Section Rounding.
Variables prec emax : Z.
Hypothesis Hprec : (0 < prec)%Z.
Hypothesis Hemax : (prec < emax)%Z.

Lemma fexp_max (k : Z) : fexp prec emax k = Z.max (k - prec) (3 - emax - prec).
Proof. reflexivity. Qed.

Lemma shr_fexp_m (m e : Z) (l : location) :
  (0 <= m)%Z →
  let n := Z.max (fexp prec emax (Zdigits2 m + e) - e) 0 in
  shr_m (shr_fexp prec emax m e l).1 = (m / 2 ^ n)%Z
  ∧ (shr_fexp prec emax m e l).2 = (e + n)%Z.
Proof.
  intros Hm n. unfold shr_fexp, shr.
  destruct (fexp prec emax (Zdigits2 m + e) - e)%Z as [|p|p] eqn:En;
    unfold n; simpl fst; simpl snd.
  - rewrite shr_m_record_of_loc. simpl. rewrite Z.div_1_r. split; [done|lia].
  - rewrite iter_pos_shr_m by (rewrite shr_m_record_of_loc; done).
    rewrite shr_m_record_of_loc. rewrite Z.max_l by lia. done.
  - rewrite shr_m_record_of_loc. rewrite Z.max_r by lia.
    simpl. rewrite Z.div_1_r. split; [done|lia].
Qed.

Lemma binary_round_aux_bounded (s : bool) (mx ex : Z) (lx : location) :
  (0 <= mx)%Z →
  (ex <= fexp prec emax (Zdigits2 mx + ex))%Z →
  valid_binary prec emax (binary_round_aux prec emax s mx ex lx) = true.
Proof using Hprec Hemax.
  intros Hmx Hex. unfold binary_round_aux.
  pose proof (shr_fexp_m mx ex lx Hmx) as [Hm1 He1]. cbv zeta in Hm1, He1.
  destruct (shr_fexp prec emax mx ex lx) as [mrs1 e1]. simpl in Hm1, He1.
  rewrite Z.max_l in Hm1, He1 by lia.
  set (n1 := (fexp prec emax (Zdigits2 mx + ex) - ex)%Z) in *.
  assert (Hn1 : (0 <= n1)%Z) by (unfold n1; lia).
  set (m1 := shr_m mrs1) in *.
  assert (Hm1pos : (0 <= m1)%Z).
  { rewrite Hm1. apply Z.div_pos; [done|]. apply Z.pow_pos_nonneg; lia. }
  assert (Hd1 : Zdigits2 m1 = Z.max (Zdigits2 mx - n1) 0).
  { rewrite Hm1. by apply Zdigits2_div_pow2. }
  assert (Hcanon1 : fexp prec emax (Zdigits2 m1 + e1) = e1).
  { rewrite Hd1, He1. unfold n1. rewrite !fexp_max.
    pose proof (Zdigits2_nonneg mx). lia. }
  set (m2 := round_nearest_even m1 (loc_of_shr_record mrs1)).
  assert (Hm2 : (m2 = m1 ∨ m2 = m1 + 1)%Z) by apply round_nearest_even_cases.
  assert (Hm2pos : (0 <= m2)%Z) by lia.
  assert (Hd2 : (Zdigits2 m1 <= Zdigits2 m2 <= Zdigits2 m1 + 1)%Z).
  { destruct Hm2 as [->| ->]; [lia|]. by apply Zdigits2_succ. }
  assert (Hex2 : (e1 <= fexp prec emax (Zdigits2 m2 + e1))%Z).
  { rewrite fexp_max in *. lia. }
  pose proof (shr_fexp_m m2 e1 loc_Exact Hm2pos) as [Hm3 He3].
  cbv zeta in Hm3, He3.
  destruct (shr_fexp prec emax m2 e1 loc_Exact) as [mrs2 e2]. simpl in Hm3, He3.
  rewrite Z.max_l in Hm3, He3 by lia.
  set (n2 := (fexp prec emax (Zdigits2 m2 + e1) - e1)%Z) in *.
  assert (Hn2 : (0 <= n2 <= 1)%Z) by (unfold n2; rewrite fexp_max in *; lia).
  assert (Hd3 : Zdigits2 (shr_m mrs2) = Z.max (Zdigits2 m2 - n2) 0).
  { rewrite Hm3. apply Zdigits2_div_pow2; lia. }
  destruct (shr_m mrs2) as [|m3|m3] eqn:Em3; [done| |done].
  destruct (Z.leb_spec e2 (emax - prec)) as [Hle|Hgt]; [|done].
  unfold valid_binary, bounded, canonical_mantissa.
  apply andb_true_iff. split; [|by apply Z.leb_le].
  apply Z.eqb_eq.
  change (Z.pos (digits2_pos m3)) with (Zdigits2 (Z.pos m3)).
  assert (Hpos3 : (0 < Zdigits2 (Z.pos m3))%Z) by (simpl; lia).
  rewrite Hd3 in *. rewrite He3. unfold n2 in *. rewrite !fexp_max in *. lia.
Qed.

Lemma Zdigits2_mul (m1 m2 : positive) :
  (Zdigits2 (Zpos m1) + Zdigits2 (Zpos m2) - 1 <= Zdigits2 (Zpos (m1 * m2)))%Z.
Proof.
  pose proof (Zdigits2_bounds (Zpos m1) ltac:(lia)) as [Hlo1 _].
  pose proof (Zdigits2_bounds (Zpos m2) ltac:(lia)) as [Hlo2 _].
  pose proof (Zdigits2_bounds (Zpos (m1 * m2)) ltac:(lia)) as [_ Hhi].
  set (d1 := Zdigits2 (Zpos m1)) in *. set (d2 := Zdigits2 (Zpos m2)) in *.
  set (d := Zdigits2 (Zpos (m1 * m2))) in *.
  assert (Hd1 : (0 < d1)%Z) by (unfold d1; simpl; lia).
  assert (Hd2 : (0 < d2)%Z) by (unfold d2; simpl; lia).
  assert (Hd : (0 < d)%Z) by (unfold d; simpl; lia).
  destruct (Z_lt_le_dec d (d1 + d2 - 1)) as [Hlt|]; [|lia].
  exfalso.
  assert (Hprod : (2 ^ (d1 - 1) * 2 ^ (d2 - 1) <= Zpos m1 * Zpos m2)%Z).
  { apply Z.mul_le_mono_nonneg; try lia; apply Z.pow_nonneg; lia. }
  rewrite <- Z.pow_add_r in Hprod by lia.
  assert (Hmono : (2 ^ d <= 2 ^ (d1 - 1 + (d2 - 1)))%Z)
    by (apply Z.pow_le_mono_r; lia).
  rewrite Pos2Z.inj_mul in Hhi. lia.
Qed.

Lemma SFmul_valid (x y : spec_float) :
  valid_binary prec emax x = true → valid_binary prec emax y = true →
  valid_binary prec emax (SFmul prec emax x y) = true.
Proof using Hprec Hemax.
  intros Hx Hy.
  destruct x as [sx|sx| |sx mx ex], y as [sy|sy| |sy my ey]; try done.
  simpl. apply binary_round_aux_bounded; [lia|].
  unfold valid_binary, bounded, canonical_mantissa in Hx, Hy.
  apply andb_true_iff in Hx as [Hcx Hex]. apply andb_true_iff in Hy as [Hcy Hey].
  apply Z.eqb_eq in Hcx, Hcy. apply Z.leb_le in Hex, Hey.
  pose proof (Zdigits2_mul mx my) as Hd.
  change (Zdigits2 (Zpos mx)) with (Zpos (digits2_pos mx)) in Hd.
  change (Zdigits2 (Zpos my)) with (Zpos (digits2_pos my)) in Hd.
  rewrite fexp_max in *. lia.
Qed.

End Rounding.

(** ** Exact arithmetic *)

Lemma Q2R_lit_one : Q2R 1.0 = 1%R.
Proof. unfold Q2R. simpl. lra. Qed.

Lemma Q2R_lit_half : Q2R 0.5 = (1 / 2)%R.
Proof. unfold Q2R. simpl. lra. Qed.

Lemma Q2R_lit_three : Q2R 3.0 = 3%R.
Proof. unfold Q2R. simpl. lra. Qed.

Lemma Rlt_bool_true (a b : R) : (a < b)%R → Rlt_bool a b = true.
Proof. intros Hlt. unfold Rlt_bool. by destruct (Rlt_dec a b). Qed.

Lemma Rlt_bool_false (a b : R) : (b <= a)%R → Rlt_bool a b = false.
Proof. intros Hle. unfold Rlt_bool. destruct (Rlt_dec a b); [lra|done]. Qed.

Lemma Q2R_lit_zero : Q2R 0.0 = 0%R.
Proof. unfold Q2R. simpl. lra. Qed.

Lemma Q2R_lit_two : Q2R 2.0 = 2%R.
Proof. unfold Q2R. simpl. lra. Qed.

Lemma Q2R_lit_eps : Q2R 0.001 = (1 / 1000)%R.
Proof. unfold Q2R. simpl. lra. Qed.

(** [clamp(e, 0.0, 2.0)] over the reals. *)
Lemma clamp_R (e : R) :
  clamp e (lit 0.0) (lit 2.0) = Rmin (Rmax e 0) 2.
Proof.
  unfold clamp, fmin, fmax. simpl. rewrite Q2R_lit_zero, Q2R_lit_two.
  unfold Rlt_bool, Rmin, Rmax.
  destruct (Rlt_dec e 0), (Rle_dec e 0); try lra;
    repeat match goal with
           | |- context [Rlt_dec ?a ?b] => destruct (Rlt_dec a b)
           | |- context [Rle_dec ?a ?b] => destruct (Rle_dec a b)
           end; lra.
Qed.

(** The Inflate branch over the reals, once the guard is passed. *)
Lemma deform_inflate_R (param x y z : R) (vc pad : Z) :
  let len := sqrt (x * x + y * y + z * z) in
  let t := (Rmin (Rmax param 0) 2 - 1)%R in
  (1 / 1000 < len)%R →
  deform {| operation := 3; param_value := param; vertex_count := vc; _pad := pad |} x y z
  = ((x + (x / len * (1 / 2) - x) * t)%R,
     (y + (y / len * (1 / 2) - y) * t)%R,
     (z + (z / len * (1 / 2) - z) * t)%R).
Proof.
  intros len t Hlen. unfold deform. simpl.
  rewrite Q2R_lit_eps. fold len. rewrite (Rlt_bool_true _ _ Hlen).
  change (clamp param (Q2R 0.0) (Q2R 2.0)) with (clamp param (lit 0.0) (lit 2.0)).
  rewrite clamp_R, Q2R_lit_one, Q2R_lit_half. reflexivity.
Qed.

Lemma deform_inflate_R_guarded (param x y z : R) (vc pad : Z) :
  (sqrt (x * x + y * y + z * z) <= 1 / 1000)%R →
  deform {| operation := 3; param_value := param; vertex_count := vc; _pad := pad |} x y z
  = (x, y, z).
Proof.
  intros Hlen. unfold deform. simpl.
  rewrite Q2R_lit_eps. by rewrite (Rlt_bool_false _ _ Hlen).
Qed.

Lemma sqrt_scaled (k x y z : R) :
  (0 <= k)%R →
  sqrt (k * x * (k * x) + k * y * (k * y) + k * z * (k * z))
  = (k * sqrt (x * x + y * y + z * z))%R.
Proof.
  intros Hk.
  replace (k * x * (k * x) + k * y * (k * y) + k * z * (k * z))%R
    with ((k * k) * (x * x + y * y + z * z))%R by ring.
  rewrite sqrt_mult_alt by nra.
  by rewrite sqrt_square.
Qed.

Lemma Rmin_Rmax_one : Rmin (Rmax 1 0) 2 = 1%R.
Proof. unfold Rmin, Rmax. repeat destruct Rle_dec; lra. Qed.

Lemma Rmin_Rmax_two : Rmin (Rmax 2 0) 2 = 2%R.
Proof. unfold Rmin, Rmax. repeat destruct Rle_dec; lra. Qed.

Lemma Rmin_Rmax_zero : Rmin (Rmax 0 0) 2 = 0%R.
Proof. unfold Rmin, Rmax. repeat destruct Rle_dec; lra. Qed.

Lemma rotate_R (param x y z : R) (vc pad : Z) :
  let angle := (param * Q2R 3.14159265)%R in
  deform {| operation := 1; param_value := param; vertex_count := vc; _pad := pad |} x y z
  = ((x * cos angle + z * sin angle)%R, y, (- x * sin angle + z * cos angle)%R).
Proof. reflexivity. Qed.

Lemma rotate_back_R (a x y z : R) (vc : Z) :
  deform_vertex {| operation := 1; param_value := (- a)%R; vertex_count := vc; _pad := 0 |}
    (deform_vertex {| operation := 1; param_value := a; vertex_count := vc; _pad := 0 |}
       (x, y, z))
  = (x, y, z).
Proof.
  unfold deform_vertex. simpl. rewrite !rotate_R. simpl.
  set (t := (a * Q2R 3.14159265)%R).
  replace (- a * Q2R 3.14159265)%R with (- t)%R by (unfold t; ring).
  rewrite cos_neg, sin_neg.
  pose proof (sin2_cos2 t) as Hsc. unfold Rsqr in Hsc.
  f_equal; [f_equal|].
  - replace ((x * cos t + z * sin t) * cos t + (- x * sin t + z * cos t) * - sin t)%R
      with (x * (sin t * sin t + cos t * cos t))%R by ring.
    rewrite Hsc. ring.
  - replace (- (x * cos t + z * sin t) * - sin t + (- x * sin t + z * cos t) * cos t)%R
      with (z * (sin t * sin t + cos t * cos t))%R by ring.
    rewrite Hsc. ring.
Qed.

(** ** Operation names *)

Lemma OP_MAP_lookup (operation : string) :
  OP_MAP !! operation =
    if decide (operation = "scale") then Some 0%Z
    else if decide (operation = "rotate") then Some 1%Z
    else if decide (operation = "translate") then Some 2%Z
    else if decide (operation = "inflate") then Some 3%Z
    else None.
Proof.
  unfold OP_MAP.
  repeat (case_decide; [subst; by simplify_map_eq|]).
  by simplify_map_eq.
Qed.

Lemma ToUint32_opIndex_of (operation : string) :
  ToUint32 (opIndex_of operation) = operation_code operation.
Proof.
  unfold opIndex_of, get_property, operation_code. rewrite OP_MAP_lookup.
  repeat (case_decide; [done|]).
  by case_bool_decide.
Qed.

Lemma setUint32_ToUint32 (view : list Z) (off : nat) (v1 v2 : js_value) :
  ToUint32 v1 = ToUint32 v2 → setUint32 view off v1 = setUint32 view off v2.
Proof. intros Heq. unfold setUint32. by rewrite Heq. Qed.

(** ** The parameter payload *)

Lemma le32_decode_le32 (w : Z) :
  (0 <= w < 2 ^ 32)%Z → le32_decode (le32 w) = w.
Proof.
  intros Hw. unfold le32, le32_decode.
  change (2 ^ 8)%Z with 256%Z. change (2 ^ 16)%Z with 65536%Z.
  change (2 ^ 24)%Z with 16777216%Z. change (2 ^ 32)%Z with 4294967296%Z in Hw.
  Z.div_mod_to_equations. lia.
Qed.

Lemma ToUint32_range (v : js_value) : (0 <= ToUint32 v < 2 ^ 32)%Z.
Proof.
  destruct v as [n|]; simpl; [|lia].
  apply Z.mod_pos_bound. lia.
Qed.

Lemma dataview_writes {A} opIndex param vertexCount (k : list Z → Host A) w :
  (view ← setUint32 (replicate 16 0%Z) 0 opIndex;
   view ← setFloat32 view 4 param;
   view ← setUint32 view 8 (JSNumber vertexCount);
   view ← setUint32 view 12 (JSNumber 0);
   k view) w
  = k (uniform_payload opIndex param vertexCount) w.
Proof. reflexivity. Qed.

Lemma length_uniform_payload opIndex param vertexCount :
  length (uniform_payload opIndex param vertexCount) = 16%nat.
Proof. reflexivity. Qed.

Lemma decode_uniform_payload (name : string) param vertexCount :
  (0 <= vertexCount < 2 ^ 32)%Z →
  decode_Params (uniform_payload (opIndex_of name) param vertexCount)
  = kernel_params name param vertexCount.
Proof.
  intros Hvc. unfold decode_Params, kernel_params.
  change (uniform_word (uniform_payload (opIndex_of name) param vertexCount) 0)
    with (le32_decode (le32 (ToUint32 (opIndex_of name)))).
  change (uniform_word (uniform_payload (opIndex_of name) param vertexCount) 4)
    with (le32_decode (le32 (f32_bits (f32_of_number param)))).
  change (uniform_word (uniform_payload (opIndex_of name) param vertexCount) 8)
    with (le32_decode (le32 (ToUint32 (JSNumber vertexCount)))).
  change (uniform_word (uniform_payload (opIndex_of name) param vertexCount) 12)
    with (le32_decode (le32 (ToUint32 (JSNumber 0)))).
  rewrite !le32_decode_le32
    by (apply ToUint32_range || apply f32_bits_range, f32_of_number_valid).
  rewrite f32_of_bits_f32_bits by apply f32_of_number_valid.
  rewrite ToUint32_opIndex_of. cbn [ToUint32].
  rewrite (Z.mod_small vertexCount) by done. reflexivity.
Qed.

(** ** [processOperation] in a ready world *)

Section ProcessOperation.
Variables gpu_cos gpu_sin : f32 → f32.

Lemma processOperation_unfold operation param w :
  processOperation gpu_cos gpu_sin operation param w =
    match meshData (stlOps w) with
    | None => (Throw TypeError, w)
    | Some mesh =>
        (queue_writeBuffer (uniformBuffer (stlOps w))
           (uniform_payload (opIndex_of operation) param (vertexCount mesh));;
         _ ← nonnull (computePipeline (stlOps w));
         bg ← nonnull (bindGroup (stlOps w));
         queue_submit_compute gpu_cos gpu_sin bg
           (Math_ceil (inject_Z (vertexCount mesh) / 64))) w
    end.
Proof.
  unfold processOperation, mbind at 1, Host_bind at 1, this at 1.
  unfold mbind at 1, Host_bind at 1.
  destruct (meshData (stlOps w)) as [mesh|]; [|done].
  unfold nonnull at 1, mret at 1, Host_ret at 1.
  by rewrite dataview_writes.
Qed.

Lemma processOperation_ready w mesh bg input output name param :
  ready w mesh bg input output →
  (0 <= vertexCount mesh)%Z →
  (3 * vertexCount mesh <= u32_modulus)%Z →
  let payload := uniform_payload (opIndex_of name) param (vertexCount mesh) in
  let workgroups := Math_ceil (inject_Z (vertexCount mesh) / 64) in
  processOperation gpu_cos gpu_sin name param w =
    (Ok tt,
     {| arraybuffers := arraybuffers w;
        gpubuffers :=
          <[binding1 bg :=
              {| gpu_size := 4 * length output;
                 gpu_data :=
                   Floats (map_vertices
                             (deform_vertex (H := f32_scalar gpu_cos gpu_sin)
                                (kernel_params name param (vertexCount mesh)))
                             input);
                 gpu_destroyed := false |}]>
            (<[binding2 bg :=
                 {| gpu_size := 16; gpu_data := Bytes payload;
                    gpu_destroyed := false |}]> (gpubuffers w));
        submitted :=
          submitted w ++ [CmdWriteBuffer (binding2 bg) payload;
                          CmdDispatch bg workgroups];
        stlOps := stlOps w |}).
Proof.
  intros Hready Hvc Hwrap payload workgroups.
  pose proof (ready_meshData _ _ _ _ _ Hready) as Hmesh.
  pose proof (ready_pipeline _ _ _ _ _ Hready) as Hpipe.
  pose proof (ready_uniformBuffer _ _ _ _ _ Hready) as Hub.
  pose proof (ready_bindGroup _ _ _ _ _ Hready) as Hbg.
  pose proof (ready_distinct _ _ _ _ _ Hready) as (Hd01 & Hd02 & Hd12).
  pose proof (ready_input _ _ _ _ _ Hready) as Hin.
  pose proof (ready_output _ _ _ _ _ Hready) as Hout.
  pose proof (ready_uniform _ _ _ _ _ Hready) as (old & Hold & Hu).
  pose proof (ready_input_length _ _ _ _ _ Hready) as Hlin.
  pose proof (ready_output_length _ _ _ _ _ Hready) as Hlout.
  rewrite processOperation_unfold, Hmesh. fold payload. fold workgroups.
  rewrite Hub, Hpipe, Hbg.
  assert (Hparams : decode_Params payload
                    = kernel_params name param (vertexCount mesh)).
  { apply decode_uniform_payload. unfold u32_modulus in Hwrap. lia. }
  pose proof (compute_pass_map_vertices (H := f32_scalar gpu_cos gpu_sin)
                input (kernel_params name param (vertexCount mesh)) output
                Hvc Hwrap Hlin Hlout) as Hrun.
  cbn [kernel_params vertex_count] in Hrun. fold workgroups in Hrun.
  assert (Hplen : length payload = 16%nat) by reflexivity.
  clearbody payload workgroups.
  unfold queue_writeBuffer, queue_submit_compute, get_GPUBuffer, set_GPUBuffer,
    queue_log, nonnull, mbind, Host_bind, mret, Host_ret, throw. simpl.
  rewrite Hu. simpl.
  rewrite decide_True by lia. simpl.
  rewrite lookup_insert_ne by done. rewrite Hin. simpl.
  rewrite lookup_insert_ne by done. rewrite Hout. simpl.
  rewrite lookup_insert_eq. simpl.
  replace (drop (length payload) old) with (@nil Z)
    by (symmetry; apply drop_ge; lia).
  rewrite app_nil_r, Hparams.
  rewrite Hrun. simpl.
  by rewrite <- app_assoc.
Qed.

End ProcessOperation.

(** ** The application after start-up *)

Lemma initApp_ok : fst (initApp initial_World) = Ok tt.
Proof. vm_compute. reflexivity. Qed.

Lemma app_World_ready :
  ready app_World app_mesh app_bindGroup cube_f32 (replicate 24 f32_zero).
Proof.
  split; try (vm_compute; reflexivity).
  - vm_compute. repeat split; discriminate.
  - exists (replicate 16 0%Z). split; vm_compute; reflexivity.
Qed.

(** ** The mesh is not written to *)

Section Frame.
Variables gpu_cos gpu_sin : f32 → f32.

(** [processOperation] leaves every array buffer and [stlOps] as they
    are, whether it returns or throws. *)
Lemma processOperation_frame operation param w r w' :
  processOperation gpu_cos gpu_sin operation param w = (r, w') →
  arraybuffers w' = arraybuffers w ∧ stlOps w' = stlOps w.
Proof.
  rewrite processOperation_unfold.
  destruct (meshData (stlOps w)) as [mesh|]; [|by intros [= <- <-]].
  generalize (uniform_payload (opIndex_of operation) param (vertexCount mesh)).
  intros payload.
  unfold queue_writeBuffer, queue_submit_compute, get_GPUBuffer, set_GPUBuffer,
    queue_log, nonnull, mbind, Host_bind, mret, Host_ret, throw.
  intros Hrun.
  repeat (case_match; simplify_eq/=; try done).
Qed.

(** [readBuffer] either throws, with the array buffers as they were, or
    returns a new array buffer: the mapped range is allocated first, its
    contents are copied into a second new buffer (the result of
    [slice()]), and the range is then detached. *)
Lemma readBuffer_spec srcBuffer size w r w' :
  readBuffer srcBuffer size w = (r, w') →
  stlOps w' = stlOps w
  ∧ ((∃ e, r = Throw e ∧ arraybuffers w' = arraybuffers w)
     ∨ (∃ data,
          let range := fresh (dom (arraybuffers w)) in
          let result := fresh (dom (<[range := Floats data]> (arraybuffers w))) in
          r = Ok result
          ∧ arraybuffers w' =
              <[range := Detached]>
                (<[result := Floats data]>
                   (<[range := Floats data]> (arraybuffers w))))).
Proof.
  unfold readBuffer, queue_copyBufferToBuffer, device_createBuffer,
    new_ArrayBuffer, get_ArrayBuffer, set_ArrayBuffer, buffer_destroy,
    get_GPUBuffer, set_GPUBuffer, queue_log, nonnull, mbind, Host_bind,
    mret, Host_ret, throw.
  intros Hrun.
  repeat (case_match; simplify_eq/=; try (split; [done|left; eauto; done])).
  - repeat match goal with
           | H : <[?k := _]> _ !! ?k = _ |- _ => rewrite lookup_insert_eq in H
           end.
    simplify_eq/=.
    split; [done|]. right. eexists. split; reflexivity.
  - repeat match goal with
           | H : <[?k := _]> _ !! ?k = _ |- _ => rewrite lookup_insert_eq in H
           end.
    simplify_eq/=.
Qed.

Lemma getProcessedVertices_spec w r w' :
  getProcessedVertices w = (r, w') →
  stlOps w' = stlOps w
  ∧ ((∃ e, r = Throw e ∧ arraybuffers w' = arraybuffers w)
     ∨ (∃ data,
          let range := fresh (dom (arraybuffers w)) in
          let result := fresh (dom (<[range := Floats data]> (arraybuffers w))) in
          r = Ok result
          ∧ arraybuffers w' =
              <[range := Detached]>
                (<[result := Floats data]>
                   (<[range := Floats data]> (arraybuffers w))))).
Proof.
  unfold getProcessedVertices, this, nonnull, get_ArrayBuffer.
  unfold mbind at 1 2 3, Host_bind at 1 2 3, mret, Host_ret, throw.
  destruct (meshData (stlOps w)) as [mesh|]; [|intros [= <- <-]; eauto].
  destruct (arraybuffers w !! vertices mesh) as [v|]; [|intros [= <- <-]; eauto].
  apply readBuffer_spec.
Qed.

Lemma fresh_lookup_None {A} (m : gmap loc A) : m !! fresh (dom m) = None.
Proof. apply not_elem_of_dom. apply is_fresh. Qed.

(** A call keeps [stlOps] and every array buffer that exists; the array it
    returns is backed by a buffer that did not exist before the call. *)
Lemma do_call_kept c w r w' :
  do_call gpu_cos gpu_sin c w = (r, w') →
  stlOps w' = stlOps w
  ∧ (∀ l s, arraybuffers w !! l = Some s → arraybuffers w' !! l = Some s)
  ∧ (∀ l, r = Ok (Some l) →
       arraybuffers w !! l = None
       ∧ ∃ data, arraybuffers w' !! l = Some (Floats data)).
Proof.
  destruct c as [operation param|]; unfold do_call, mbind, Host_bind.
  - destruct (processOperation gpu_cos gpu_sin operation param w) as [r0 w0] eqn:E.
    apply processOperation_frame in E as [Ha Hs].
    destruct r0; intros [= <- <-]; rewrite Ha; by repeat split.
  - destruct (getProcessedVertices w) as [r0 w0] eqn:E.
    apply getProcessedVertices_spec in E as [Hs [(e & -> & Ha)|(data & Hr & Ha)]].
    + intros [= <- <-]. rewrite Ha. by repeat split.
    + cbv zeta in Hr, Ha. subst r0. intros [= <- <-].
      set (range := fresh (dom (arraybuffers w))) in *.
      set (result := fresh (dom (<[range := Floats data]> (arraybuffers w)))) in *.
      assert (Hrange : arraybuffers w !! range = None) by apply fresh_lookup_None.
      assert (Hresult : <[range := Floats data]> (arraybuffers w) !! result = None)
        by apply fresh_lookup_None.
      apply lookup_insert_None in Hresult as [Hresult Hne].
      split; [done|]. rewrite Ha. split.
      * intros l s Hl.
        rewrite !lookup_insert_ne by congruence. done.
      * intros l' [= <-]. split; [done|]. exists data.
        rewrite lookup_insert_ne by done. apply lookup_insert_eq.
Qed.

Lemma do_calls_kept (cs : list call) : ∀ w,
  stlOps (do_calls gpu_cos gpu_sin cs w).2 = stlOps w
  ∧ (∀ l s, arraybuffers w !! l = Some s →
       arraybuffers (do_calls gpu_cos gpu_sin cs w).2 !! l = Some s)
  ∧ (∀ l, Ok (Some l) ∈ (do_calls gpu_cos gpu_sin cs w).1 →
       arraybuffers w !! l = None
       ∧ ∃ data, arraybuffers (do_calls gpu_cos gpu_sin cs w).2 !! l
                 = Some (Floats data)).
Proof.
  induction cs as [|c cs IH]; intros w; simpl.
  - split; [done|]. split; [done|]. intros l Hl. by apply elem_of_nil in Hl.
  - destruct (do_call gpu_cos gpu_sin c w) as [r w1] eqn:E1.
    apply do_call_kept in E1 as (Hs1 & Hk1 & Hr1).
    specialize (IH w1) as (Hs2 & Hk2 & Hr2).
    destruct (do_calls gpu_cos gpu_sin cs w1) as [rs w2]. simpl in *.
    split; [congruence|]. split; [auto|].
    intros l Hl. apply elem_of_cons in Hl as [Hl|Hl].
    + destruct (Hr1 l) as (Hnone & data & Hdata); [done|].
      split; [done|]. exists data. by apply Hk2.
    + destruct (Hr2 l Hl) as (Hnone & data & Hdata).
      split; [|eauto].
      destruct (arraybuffers w !! l) as [s|] eqn:El; [|done].
      apply Hk1 in El. congruence.
Qed.

(** In a ready world [getProcessedVertices] returns a copy of the output
    buffer, in a new array buffer; the mapped range it was copied from is
    detached and the staging buffer destroyed. *)
Lemma getProcessedVertices_ready w mesh bg input output :
  ready w mesh bg input output →
  let range := fresh (dom (arraybuffers w)) in
  let result := fresh (dom (<[range := Floats output]> (arraybuffers w))) in
  ∃ w',
    getProcessedVertices w = (Ok result, w')
    ∧ arraybuffers w' =
        <[range := Detached]>
          (<[result := Floats output]>
             (<[range := Floats output]> (arraybuffers w)))
    ∧ gpubuffers w' !! fresh (dom (gpubuffers w)) =
        Some {| gpu_size := 4 * length output; gpu_data := Detached;
                gpu_destroyed := true |}
    ∧ gpubuffers w' !! binding1 bg = gpubuffers w !! binding1 bg.
Proof.
  intros Hready range result.
  pose proof (ready_meshData _ _ _ _ _ Hready) as Hmesh.
  pose proof (ready_vertices _ _ _ _ _ Hready) as Hv.
  pose proof (ready_outputBuffer _ _ _ _ _ Hready) as Hob.
  pose proof (ready_output _ _ _ _ _ Hready) as Hout.
  pose proof (ready_input_length _ _ _ _ _ Hready) as Hlin.
  pose proof (ready_output_length _ _ _ _ _ Hready) as Hlout.
  assert (Hlen : length input = length output) by lia.
  set (staging := fresh (dom (gpubuffers w))).
  assert (Hstaging : gpubuffers w !! staging = None) by apply fresh_lookup_None.
  assert (Hne : staging ≠ binding1 bg) by congruence.
  unfold getProcessedVertices, this, nonnull, get_ArrayBuffer.
  unfold mbind at 1 2 3, Host_bind at 1 2 3, mret, Host_ret, throw.
  rewrite Hmesh, Hv, Hob.
  replace (byteLength (Floats input)) with (4 * length input)%nat by reflexivity.
  unfold readBuffer, queue_copyBufferToBuffer, device_createBuffer,
    new_ArrayBuffer, get_ArrayBuffer, set_ArrayBuffer, buffer_destroy,
    get_GPUBuffer, set_GPUBuffer, queue_log, nonnull, mbind, Host_bind,
    mret, Host_ret, throw.
  fold staging. fold range.
  repeat first
    [ rewrite lookup_insert_eq
    | rewrite lookup_insert_ne by done
    | rewrite Hout
    | rewrite decide_True by (cbn [gpu_size]; lia)
    | progress cbn [gpubuffers arraybuffers submitted stlOps
                    gpu_destroyed gpu_data gpu_size fst snd] ].
  replace (4 * length input / 4)%nat with (length input)
    by (rewrite Nat.mul_comm, Nat.div_mul; done).
  rewrite Hlen, firstn_all. fold result.
  eexists. split; [reflexivity|].
  cbn [gpubuffers arraybuffers]. split; [done|]. split.
  - by rewrite lookup_insert_eq.
  - by rewrite !lookup_insert_ne by done.
Qed.

(** [processOperation] leaves a ready world ready, with the deformed
    positions in the output buffer. *)
Lemma processOperation_keeps_ready w mesh bg input output name param :
  ready w mesh bg input output →
  (0 <= vertexCount mesh)%Z →
  (3 * vertexCount mesh <= u32_modulus)%Z →
  ∃ w',
    processOperation gpu_cos gpu_sin name param w = (Ok tt, w')
    ∧ ready w' mesh bg input
        (map_vertices
           (deform_vertex (H := f32_scalar gpu_cos gpu_sin)
              (kernel_params name param (vertexCount mesh)))
           input).
Proof.
  intros Hready Hvc Hwrap.
  pose proof (processOperation_ready gpu_cos gpu_sin w mesh bg input output name param
                Hready Hvc Hwrap) as Hrun.
  cbv zeta in Hrun. eexists. split; [exact Hrun|].
  pose proof (ready_distinct _ _ _ _ _ Hready) as (Hd01 & Hd02 & Hd12).
  pose proof (ready_input_length _ _ _ _ _ Hready) as Hlin.
  pose proof (ready_output_length _ _ _ _ _ Hready) as Hlout.
  assert (Hn : length input = (3 * Z.to_nat (vertexCount mesh))%nat) by lia.
  assert (Hlen : length (map_vertices
                   (deform_vertex (H := f32_scalar gpu_cos gpu_sin)
                      (kernel_params name param (vertexCount mesh))) input)
                 = length output).
  { rewrite (length_map_vertices _ _ _ Hn). lia. }
  destruct Hready. split; cbn [arraybuffers gpubuffers stlOps]; try done.
  - by rewrite !lookup_insert_ne by done.
  - rewrite lookup_insert_eq. by rewrite Hlen.
  - eexists. split; [|rewrite lookup_insert_ne by done; apply lookup_insert_eq].
    reflexivity.
  - lia.
Qed.

(** The Process handler in a ready world: the array handed to the renderer
    holds the positions of the mesh, deformed vertex by vertex. *)
Lemma process_click_ready w mesh bg input output name param :
  ready w mesh bg input output →
  (0 <= vertexCount mesh)%Z →
  (3 * vertexCount mesh <= u32_modulus)%Z →
  (contents_of (process_click gpu_cos gpu_sin name param) w).1
  = Ok (Floats (map_vertices
                  (deform_vertex (H := f32_scalar gpu_cos gpu_sin)
                     (kernel_params name param (vertexCount mesh)))
                  input)).
Proof.
  intros Hready Hvc Hwrap.
  destruct (processOperation_keeps_ready w mesh bg input output name param
              Hready Hvc Hwrap) as (w1 & Hrun1 & Hready1).
  destruct (getProcessedVertices_ready w1 mesh bg input _ Hready1)
    as (w2 & Hrun2 & Ha & _).
  unfold contents_of, process_click, mbind, Host_bind.
  rewrite Hrun1, Hrun2. unfold get_ArrayBuffer. rewrite Ha.
  set (range := fresh (dom (arraybuffers w1))) in *.
  set (result := fresh (dom (<[range := _]> (arraybuffers w1)))) in *.
  assert (Hresult : <[range := Floats (map_vertices
                       (deform_vertex (H := f32_scalar gpu_cos gpu_sin)
                          (kernel_params name param (vertexCount mesh))) input)]>
                      (arraybuffers w1) !! result = None)
    by apply fresh_lookup_None.
  apply lookup_insert_None in Hresult as [_ Hne].
  rewrite lookup_insert_ne by done. by rewrite lookup_insert_eq.
Qed.

End Frame.

(** ** The surface and the frame *)

Section RendererFacts.
Context {Matrix : Type}.
Variable buildMVP : Renderer Matrix → Matrix.

Lemma render_idle (now : number) (r : Renderer Matrix) :
  depthTexture r = None ∨ width (canvas r) = 0%Z →
  render buildMVP now r = inr r.
Proof.
  intros [Hd|Hw]; unfold render.
  - rewrite bool_decide_eq_true_2 by done. done.
  - rewrite Hw. simpl. by rewrite orb_true_r.
Qed.

Lemma resizeCanvas_zero (w h : Z) (r : Renderer Matrix) :
  (w = 0 ∨ h = 0)%Z →
  resizeCanvas (layout w h r) = inr (layout w h r).
Proof.
  intros [-> | ->]; unfold resizeCanvas; simpl; [done|].
  by rewrite orb_true_r.
Qed.

Lemma handle_all_idle (es : list event) : ∀ r : Renderer Matrix,
  forallb no_area es = true →
  depthTexture r = None →
  is_Some (device r) →
  ∃ r', handle_all buildMVP es r = inr r' ∧ idle_since r r'.
Proof.
  induction es as [|e es IH]; intros r Hes Hd Hdev; simpl in *.
  - exists r. by repeat split.
  - apply andb_true_iff in Hes as [He Hes].
    destruct e as [w h|now|byteLength indices|]; simpl in *.
    + apply orb_true_iff in He.
      rewrite resizeCanvas_zero by (destruct He as [He|He]; apply Z.eqb_eq in He; auto).
      destruct (IH (layout w h r) Hes Hd Hdev) as (r' & Hrun & ? & ? & ? & ? & ? & ?).
      exists r'. by repeat split.
    + rewrite render_idle by auto. by apply IH.
    + unfold updateMesh. destruct Hdev as [d Hdev]. rewrite Hdev.
      destruct (indexBuffer r), indices;
        match goal with
        | |- ∃ r', handle_all _ _ ?r1 = _ ∧ _ =>
            destruct (IH r1 Hes Hd ltac:(by eexists))
              as (r' & Hrun & ? & ? & ? & ? & ? & ?)
        end; exists r'; by repeat split.
    + destruct (IH (resetIndexBuffer r) Hes Hd Hdev)
        as (r' & Hrun & ? & ? & ? & ? & ? & ?).
      exists r'. by repeat split.
Qed.

(** Resizes to zero area, any number of them, keep a sized surface as it
    is: the depth texture, the drawing buffer, the buffers and the log. *)
Lemma zero_area_resizes_keep (zs : list (Z * Z)) : ∀ r : Renderer Matrix,
  Forall (λ z, z.1 = 0 ∨ z.2 = 0)%Z zs →
  ∃ r',
    handle_all buildMVP ((λ z, SurfaceResized z.1 z.2) <$> zs) r = inr r'
    ∧ depthTexture r' = depthTexture r
    ∧ width (canvas r') = width (canvas r)
    ∧ height (canvas r') = height (canvas r)
    ∧ device r' = device r
    ∧ vertexBuffer r' = vertexBuffer r
    ∧ indexBuffer r' = indexBuffer r
    ∧ indexCount r' = indexCount r
    ∧ gpu_calls r' = gpu_calls r.
Proof.
  induction zs as [|[w h] zs IH]; intros r Hzs.
  - exists r. by repeat split.
  - apply Forall_cons in Hzs as [Hz Hzs].
    cbn [fmap list_fmap handle_all handle fst snd] in *.
    rewrite resizeCanvas_zero by exact Hz.
    destruct (IH (layout w h r) Hzs) as (r' & Hrun & ? & ? & ? & ? & ? & ? & ? & ?).
    exists r'. by repeat split.
Qed.

End RendererFacts.

(** ** Binary32 values outside the exact reading *)

(** Three inputs on which binary32 departs from exact arithmetic in the
    Inflate branch: a NaN [param] makes the factor [t] a NaN and with it the
    result; an infinite coordinate has no direction; and a coordinate -0 may
    come back as +0. *)
Lemma inflate_f32_nan_param :
  deform (H := f32_scalar no_trig no_trig)
    {| operation := 3; param_value := S754_nan; vertex_count := 1; _pad := 0 |}
    (f32_lit 0.5) (f32_lit 0.0) (f32_lit 0.0)
  = (S754_nan, S754_nan, S754_nan).
Proof. vm_compute. reflexivity. Qed.

Lemma inflate_f32_infinite_vertex :
  deform (H := f32_scalar no_trig no_trig)
    {| operation := 3; param_value := f32_lit 1.0; vertex_count := 1; _pad := 0 |}
    (S754_infinity false) (f32_lit 0.0) (f32_lit 0.0)
  = (S754_nan, S754_zero false, S754_zero false).
Proof. vm_compute. reflexivity. Qed.

Lemma inflate_f32_negative_zero :
  deform (H := f32_scalar no_trig no_trig)
    {| operation := 3; param_value := f32_lit 1.0; vertex_count := 1; _pad := 0 |}
    (f32_lit 1.0) (S754_zero true) (f32_lit 0.0)
  = (f32_lit 1.0, S754_zero false, S754_zero false).
Proof. vm_compute. reflexivity. Qed.

(** ** Rotation in binary32 *)

(** *** The error of one rounding *)

(** The mantissa and exponent [binary_round_aux] arrives at: the exponent is
    the canonical one of the input or one more, and the result is within one
    unit of that canonical exponent of the input. *)
Lemma binary_round_aux_int (s : bool) (mx ex : Z) (lx : location) :
  (0 < mx)%Z →
  (ex <= fexp prec32 emax32 (Zdigits2 mx + ex))%Z →
  let e1 := fexp prec32 emax32 (Zdigits2 mx + ex) in
  ∃ m3 e2 : Z,
    (0 <= m3 < 2 ^ 24)%Z
    ∧ (e1 <= e2 <= e1 + 1)%Z
    ∧ (Z.abs (m3 * 2 ^ (e2 - ex) - mx) <= 2 ^ (e1 - ex))%Z
    ∧ binary_round_aux prec32 emax32 s mx ex lx =
        match m3 with
        | Z0 => S754_zero s
        | Zpos m => if (e2 <=? 104)%Z then S754_finite s m e2 else S754_infinity s
        | Zneg _ => S754_nan
        end.
Proof.
  intros Hmx Hex e1. unfold binary_round_aux.
  pose proof (shr_fexp_spec mx ex lx ltac:(lia) Hex) as [Hm1 He1]. cbv zeta in Hm1, He1.
  destruct (shr_fexp prec32 emax32 mx ex lx) as [mrs1 e1']. simpl in Hm1, He1.
  set (n1 := (fexp prec32 emax32 (Zdigits2 mx + ex) - ex)%Z) in *.
  assert (Hn1 : (0 <= n1)%Z) by (unfold n1; lia).
  assert (He1' : e1' = e1) by (unfold e1, n1 in *; lia).
  clearbody e1. subst e1.
  set (m1 := shr_m mrs1) in *.
  assert (Hpow1 : (0 < 2 ^ n1)%Z) by (apply Z.pow_pos_nonneg; lia).
  assert (Hm1pos : (0 <= m1)%Z).
  { rewrite Hm1. apply Z.div_pos; lia. }
  assert (Hdiv1 : (m1 * 2 ^ n1 <= mx < (m1 + 1) * 2 ^ n1)%Z).
  { rewrite Hm1. pose proof (Z.div_mod mx (2 ^ n1) ltac:(lia)) as Hdm.
    pose proof (Z.mod_pos_bound mx (2 ^ n1) Hpow1). nia. }
  assert (Hd1 : Zdigits2 m1 = Z.max (Zdigits2 mx - n1) 0).
  { rewrite Hm1. apply Zdigits2_div_pow2; lia. }
  assert (Hdmx : (0 < Zdigits2 mx)%Z) by (destruct mx; simpl; lia).
  assert (Hcanon1 : fexp prec32 emax32 (Zdigits2 m1 + e1') = e1').
  { rewrite Hd1, He1. unfold n1 in *. rewrite !fexp32 in *. lia. }
  assert (Hd1le : (Zdigits2 m1 <= 24)%Z).
  { rewrite fexp32 in Hcanon1. lia. }
  assert (Hm1lt : (m1 < 2 ^ 24)%Z).
  { destruct (Z.eq_dec m1 0%Z) as [->|Hne]; [lia|].
    pose proof (Zdigits2_bounds m1 ltac:(lia)) as [_ Hhi].
    eapply Z.lt_le_trans; [exact Hhi|]. apply Z.pow_le_mono_r; lia. }
  set (m2 := round_nearest_even m1 (loc_of_shr_record mrs1)).
  assert (Hm2 : (m2 = m1 ∨ m2 = m1 + 1)%Z) by apply round_nearest_even_cases.
  assert (Hm2pos : (0 <= m2)%Z) by lia.
  assert (Hd2 : (Zdigits2 m1 <= Zdigits2 m2 <= Zdigits2 m1 + 1)%Z).
  { destruct Hm2 as [->| ->]; [lia|]. by apply Zdigits2_succ. }
  assert (Hex2 : (e1' <= fexp prec32 emax32 (Zdigits2 m2 + e1'))%Z).
  { rewrite fexp32 in *. lia. }
  pose proof (shr_fexp_spec m2 e1' loc_Exact Hm2pos Hex2) as [Hm3 He3].
  cbv zeta in Hm3, He3.
  destruct (shr_fexp prec32 emax32 m2 e1' loc_Exact) as [mrs2 e2]. simpl in Hm3, He3.
  set (n2 := (fexp prec32 emax32 (Zdigits2 m2 + e1') - e1')%Z) in *.
  assert (Hn2 : (0 <= n2 <= 1)%Z) by (unfold n2; rewrite fexp32 in *; lia).
  set (m3 := shr_m mrs2) in *.
  (* when the second shift is by one, the rounded mantissa is 2^24 *)
  assert (Hexact : (m3 * 2 ^ n2 = m2)%Z).
  { destruct (Z.eq_dec n2 0%Z) as [E0|E1].
    - rewrite Hm3, E0. simpl. rewrite Z.div_1_r. lia.
    - assert (En2 : n2 = 1%Z) by lia.
      assert (Hd25 : Zdigits2 m2 = 25%Z).
      { unfold n2 in En2. rewrite fexp32 in *. lia. }
      assert (Hm2ge : (2 ^ 24 <= m2)%Z).
      { destruct (Z.eq_dec m2 0%Z) as [E|E]; [rewrite E in Hd25; simpl in Hd25; lia|].
        pose proof (Zdigits2_bounds m2 ltac:(lia)) as [Hlo _].
        rewrite Hd25 in Hlo. exact Hlo. }
      assert (Em2 : m2 = (2 ^ 24)%Z) by lia.
      rewrite Hm3, En2, Em2. reflexivity. }
  assert (Hm3pos : (0 <= m3)%Z).
  { rewrite Hm3. apply Z.div_pos; [lia|]. apply Z.pow_pos_nonneg; lia. }
  assert (Hd3 : Zdigits2 m3 = Z.max (Zdigits2 m2 - n2) 0).
  { rewrite Hm3. apply Zdigits2_div_pow2; lia. }
  assert (Hm3lt : (m3 < 2 ^ 24)%Z).
  { destruct (Z.eq_dec m3 0%Z) as [->|Hne]; [lia|].
    pose proof (Zdigits2_bounds m3 ltac:(lia)) as [_ Hhi].
    eapply Z.lt_le_trans; [exact Hhi|]. apply Z.pow_le_mono_r; [lia|].
    rewrite Hd3. unfold n2. rewrite fexp32 in *. lia. }
  exists m3, e2. split; [lia|]. split; [lia|]. split.
  - replace (e2 - ex)%Z with (n2 + n1)%Z by lia.
    replace (e1' - ex)%Z with n1 by lia.
    rewrite Z.pow_add_r by lia.
    replace (m3 * (2 ^ n2 * 2 ^ n1))%Z with (m2 * 2 ^ n1)%Z by (rewrite <- Hexact; ring).
    apply Z.abs_le. destruct Hm2 as [-> | ->]; nia.
  - change (emax32 - prec32)%Z with 104%Z. reflexivity.
Qed.

Lemma IZR_pow2 (n : Z) : (0 <= n)%Z → IZR (2 ^ n) = powerRZ 2 n.
Proof.
  intros Hn. rewrite <- (Z2Nat.id n Hn).
  by rewrite <- pow_IZR, <- pow_powerRZ.
Qed.

Lemma bpow_pos (e : Z) : (0 < powerRZ 2 e)%R.
Proof. apply powerRZ_lt. lra. Qed.

Lemma bpow_add (a b : Z) : powerRZ 2 (a + b) = (powerRZ 2 a * powerRZ 2 b)%R.
Proof. apply powerRZ_add. lra. Qed.

Lemma bpow_shift (e n : Z) :
  (0 <= n)%Z → powerRZ 2 (e + n) = (powerRZ 2 e * IZR (2 ^ n))%R.
Proof. intros Hn. by rewrite bpow_add, IZR_pow2. Qed.

Lemma bpow_le (a b : Z) : (a <= b)%Z → (powerRZ 2 a <= powerRZ 2 b)%R.
Proof.
  intros H. replace b with (a + (b - a))%Z by lia.
  rewrite bpow_shift by lia.
  assert (H1 : (1 <= IZR (2 ^ (b - a)))%R).
  { apply IZR_le. pose proof (Z.pow_pos_nonneg 2 (b - a)). lia. }
  pose proof (bpow_pos a). nra.
Qed.

Lemma IZR_ge_bpow_digits (m : Z) :
  (0 < m)%Z → (powerRZ 2 (Zdigits2 m - 1) <= IZR m)%R.
Proof.
  intros Hm. pose proof (Zdigits2_bounds m Hm) as [Hlo _].
  assert (Hd : (0 < Zdigits2 m)%Z) by (destruct m; simpl; lia).
  rewrite <- IZR_pow2 by lia. by apply IZR_le.
Qed.

(** One rounding of [mx * 2^ex], when that is below [2^127]: the result is a
    finite binary32 within [2^-23] of it, relatively, or within [2^-149]. *)
Lemma binary_round_aux_error (s : bool) (mx ex : Z) (lx : location) :
  (0 < mx)%Z →
  (ex <= fexp prec32 emax32 (Zdigits2 mx + ex))%Z →
  (Zdigits2 mx + ex <= 127)%Z →
  let v := (IZR mx * powerRZ 2 ex)%R in
  let r := binary_round_aux prec32 emax32 s mx ex lx in
  f32_finite r = true
  ∧ (Rabs (f32_value r - (if s then -1 else 1) * v)
     <= powerRZ 2 (-23) * v + powerRZ 2 (-149))%R.
Proof.
  intros Hmx Hex Hmag v r.
  destruct (binary_round_aux_int s mx ex lx Hmx Hex)
    as (m3 & e2 & Hm3 & He2 & Herr & Hr).
  cbv zeta in He2, Herr. fold r in Hr.
  set (e1 := fexp prec32 emax32 (Zdigits2 mx + ex)) in *.
  assert (He1 : (e1 = Z.max (Zdigits2 mx + ex - 24) (-149))%Z) by apply fexp32.
  assert (Hle : (e2 <= 104)%Z) by lia.
  assert (Hval : f32_value r = ((if s then -1 else 1) * (IZR m3 * powerRZ 2 e2))%R).
  { rewrite Hr. destruct m3 as [|p|p]; [simpl; lra| |lia].
    apply Z.leb_le in Hle. rewrite Hle. simpl. ring. }
  split.
  { rewrite Hr. destruct m3 as [|p|p]; [done| |lia].
    apply Z.leb_le in Hle. by rewrite Hle. }
  rewrite Hval.
  replace ((if s then -1 else 1) * (IZR m3 * powerRZ 2 e2) - (if s then -1 else 1) * v)%R
    with ((if s then -1 else 1) * (IZR m3 * powerRZ 2 e2 - v))%R by ring.
  rewrite Rabs_mult.
  replace (Rabs (if s then -1 else 1)) with 1%R
    by (destruct s; [rewrite Rabs_left|rewrite Rabs_right]; lra).
  rewrite Rmult_1_l.
  assert (Hdiff : (IZR m3 * powerRZ 2 e2 - v
                   = powerRZ 2 ex * IZR (m3 * 2 ^ (e2 - ex) - mx))%R).
  { unfold v. replace e2 with (ex + (e2 - ex))%Z at 1 by lia.
    rewrite bpow_shift by lia. rewrite minus_IZR, mult_IZR. ring. }
  rewrite Hdiff, Rabs_mult, (Rabs_right (powerRZ 2 ex))
    by (apply Rle_ge, Rlt_le, bpow_pos).
  rewrite <- abs_IZR.
  apply Rle_trans with (powerRZ 2 ex * IZR (2 ^ (e1 - ex)))%R.
  { apply Rmult_le_compat_l; [apply Rlt_le, bpow_pos|]. by apply IZR_le. }
  rewrite <- bpow_shift by lia.
  replace (ex + (e1 - ex))%Z with e1 by lia.
  pose proof (bpow_pos (-149)) as H149.
  assert (Hv : (0 <= powerRZ 2 (-23) * v)%R).
  { apply Rmult_le_pos; [apply Rlt_le, bpow_pos|].
    unfold v. apply Rmult_le_pos; [apply IZR_le; lia|apply Rlt_le, bpow_pos]. }
  destruct (Z.max_spec (Zdigits2 mx + ex - 24) (-149)) as [[_ Hmax]|[_ Hmax]];
    rewrite He1, Hmax.
  - lra.
  - replace (Zdigits2 mx + ex - 24)%Z with (-23 + ((Zdigits2 mx - 1) + ex))%Z by lia.
    rewrite !bpow_add.
    assert (powerRZ 2 (-23) * (powerRZ 2 (Zdigits2 mx - 1) * powerRZ 2 ex)
            <= powerRZ 2 (-23) * v)%R; [|lra].
    apply Rmult_le_compat_l; [apply Rlt_le, bpow_pos|].
    unfold v. apply Rmult_le_compat_r; [apply Rlt_le, bpow_pos|].
    by apply IZR_ge_bpow_digits.
Qed.

Lemma Pos_iter_xO (m d : positive) :
  Zpos (Pos.iter xO m d) = (Zpos m * 2 ^ Zpos d)%Z.
Proof.
  induction d as [|d IH] using Pos.peano_ind.
  - simpl. lia.
  - rewrite Pos.iter_succ, Pos2Z.inj_xO, IH, Pos2Z.inj_succ, Z.pow_succ_r by lia. ring.
Qed.

(** [shl_align] keeps the value and the position of the leading bit. *)
Lemma shl_align_value (m : positive) (e e0 : Z) :
  let m' := (shl_align m e e0).1 in
  let e' := (shl_align m e e0).2 in
  (IZR (Zpos m') * powerRZ 2 e' = IZR (Zpos m) * powerRZ 2 e)%R
  ∧ (Zpos (digits2_pos m') + e' = Zpos (digits2_pos m) + e)%Z
  ∧ e' = Z.min e e0.
Proof.
  unfold shl_align. destruct (e0 - e)%Z as [|d|d] eqn:E; cbn [fst snd].
  - split; [done|]. split; [done|lia].
  - split; [done|]. split; [done|lia].
  - rewrite digits2_pos_iter_xO, Pos_iter_xO.
    assert (He : e = (e0 + Zpos d)%Z) by lia.
    split; [|split; lia].
    rewrite He, bpow_shift, mult_IZR by lia. ring.
Qed.

Lemma binary_round_error (s : bool) (m : positive) (e : Z) :
  (Zpos (digits2_pos m) + e <= 127)%Z →
  let v := (IZR (Zpos m) * powerRZ 2 e)%R in
  let r := binary_round prec32 emax32 s m e in
  f32_finite r = true
  ∧ (Rabs (f32_value r - (if s then -1 else 1) * v)
     <= powerRZ 2 (-23) * v + powerRZ 2 (-149))%R.
Proof.
  intros Hmag v r. unfold r, binary_round.
  pose proof (shl_align_value m e (fexp prec32 emax32 (Z.pos (digits2_pos m) + e)))
    as (Hv & Hd & He).
  cbv zeta in Hv, Hd, He.
  destruct (shl_align m e (fexp prec32 emax32 (Z.pos (digits2_pos m) + e)))
    as [mz ez]. cbn [fst snd] in *.
  unfold v. rewrite <- Hv.
  apply binary_round_aux_error; [lia| |].
  - simpl Zdigits2. rewrite Hd. lia.
  - simpl Zdigits2. lia.
Qed.

Lemma f32_value_sign (s : bool) (m : positive) (e : Z) :
  Rabs (f32_value (S754_finite s m e)) = (IZR (Zpos m) * powerRZ 2 e)%R.
Proof.
  simpl. pose proof (bpow_pos e). assert (0 < IZR (Zpos m))%R by (apply IZR_lt; lia).
  rewrite !Rabs_mult, (Rabs_right (powerRZ 2 e)), (Rabs_right (IZR (Zpos m))) by lra.
  destruct s; [rewrite Rabs_left|rewrite Rabs_right]; lra.
Qed.

(** A value below [2^127] has its leading bit below position 127. *)
Lemma digits_of_magnitude (m : positive) (e : Z) :
  (IZR (Zpos m) * powerRZ 2 e < powerRZ 2 127)%R →
  (Zpos (digits2_pos m) + e <= 127)%Z.
Proof.
  intros Hlt. destruct (Z_le_gt_dec (Zpos (digits2_pos m) + e) 127) as [|Hgt]; [done|].
  exfalso.
  pose proof (IZR_ge_bpow_digits (Zpos m) ltac:(lia)) as Hm. simpl Zdigits2 in Hm.
  pose proof (bpow_pos e) as He.
  assert (Hle : (powerRZ 2 127 <= powerRZ 2 (Zpos (digits2_pos m) - 1 + e))%R)
    by (apply bpow_le; lia).
  rewrite bpow_add in Hle.
  assert (powerRZ 2 (Z.pos (digits2_pos m) - 1) * powerRZ 2 e
          <= IZR (Z.pos m) * powerRZ 2 e)%R by (apply Rmult_le_compat_r; lra).
  lra.
Qed.

(** The product of two finite binary32 numbers, when it is below [2^127]
    in magnitude. *)
Lemma f32_mul_error (x y : f32) :
  f32_valid x = true → f32_valid y = true →
  f32_finite x = true → f32_finite y = true →
  (Rabs (f32_value x * f32_value y) < powerRZ 2 127)%R →
  let r := SFmul prec32 emax32 x y in
  f32_finite r = true
  ∧ f32_valid r = true
  ∧ (Rabs (f32_value r - f32_value x * f32_value y)
     <= powerRZ 2 (-23) * Rabs (f32_value x * f32_value y) + powerRZ 2 (-149))%R.
Proof.
  intros Hvx Hvy Hfx Hfy Hmag r.
  assert (Hvalid : f32_valid r = true).
  { apply (SFmul_valid prec32 emax32); done. }
  pose proof (bpow_pos (-149)) as H149. pose proof (bpow_pos (-23)) as H23.
  destruct x as [sx|sx| |sx mx ex], y as [sy|sy| |sy my ey]; try done;
    try (split; [done|split; [done|]]; simpl;
         rewrite ?Rmult_0_l, ?Rmult_0_r, Rminus_0_r, Rabs_R0; lra).
  assert (Hprod : (f32_value (S754_finite sx mx ex) * f32_value (S754_finite sy my ey)
                   = (if xorb sx sy then -1 else 1)
                     * (IZR (Zpos (mx * my)) * powerRZ 2 (ex + ey)))%R).
  { simpl. rewrite bpow_add, Pos2Z.inj_mul, mult_IZR. destruct sx, sy; simpl; ring. }
  assert (Habs : (Rabs (f32_value (S754_finite sx mx ex) * f32_value (S754_finite sy my ey))
                  = IZR (Zpos (mx * my)) * powerRZ 2 (ex + ey))%R).
  { rewrite Hprod.
    replace ((if xorb sx sy then -1 else 1) * (IZR (Zpos (mx * my)) * powerRZ 2 (ex + ey)))%R
      with (f32_value (S754_finite (xorb sx sy) (mx * my) (ex + ey)))
      by (unfold f32_value; ring).
    apply f32_value_sign. }
  rewrite Habs in Hmag |- *. rewrite Hprod.
  unfold r. cbn [SFmul].
  destruct (binary_round_aux_error (xorb sx sy) (Zpos (mx * my)) (ex + ey) loc_Exact)
    as [Hfin Herr]; [lia| | |].
  - unfold f32_valid, valid_binary, bounded, canonical_mantissa in Hvx, Hvy.
    apply andb_true_iff in Hvx as [Hcx Hex]. apply andb_true_iff in Hvy as [Hcy Hey].
    apply Z.eqb_eq in Hcx, Hcy.
    pose proof (Zdigits2_mul mx my) as Hd.
    change (Zdigits2 (Zpos mx)) with (Zpos (digits2_pos mx)) in Hd.
    change (Zdigits2 (Zpos my)) with (Zpos (digits2_pos my)) in Hd.
    rewrite fexp32 in *. lia.
  - simpl Zdigits2. by apply digits_of_magnitude.
  - split; [exact Hfin|]. split; [exact Hvalid|exact Herr].
Qed.

(** The sum of two finite binary32 numbers, when it is below [2^127] in
    magnitude. *)
Lemma f32_add_error (x y : f32) :
  f32_valid x = true → f32_valid y = true →
  f32_finite x = true → f32_finite y = true →
  (Rabs (f32_value x + f32_value y) < powerRZ 2 127)%R →
  let r := SFadd prec32 emax32 x y in
  f32_finite r = true
  ∧ f32_valid r = true
  ∧ (Rabs (f32_value r - (f32_value x + f32_value y))
     <= powerRZ 2 (-23) * Rabs (f32_value x + f32_value y) + powerRZ 2 (-149))%R.
Proof.
  intros Hvx Hvy Hfx Hfy Hmag r.
  pose proof (bpow_pos (-149)) as H149. pose proof (bpow_pos (-23)) as H23.
  assert (Hexact : ∀ v : R, (Rabs (v - v) <= powerRZ 2 (-23) * Rabs v + powerRZ 2 (-149))%R).
  { intros v. replace (v - v)%R with 0%R by ring. rewrite Rabs_R0.
    pose proof (Rabs_pos v). nra. }
  destruct x as [sx|sx| |sx mx ex], y as [sy|sy| |sy my ey]; try done.
  - (* zero + zero *)
    split; [by destruct sx, sy|]. split; [by destruct sx, sy|].
    replace (f32_value r) with 0%R by (by destruct sx, sy).
    simpl. replace (0 - (0 + 0))%R with 0%R by ring.
    rewrite Rplus_0_l, Rabs_R0. lra.
  - (* zero + finite *)
    split; [done|]. split; [done|].
    unfold r. cbn [SFadd]. cbn [f32_value]. rewrite Rplus_0_l. apply Hexact.
  - (* finite + zero *)
    split; [done|]. split; [done|].
    unfold r. cbn [SFadd]. cbn [f32_value]. rewrite Rplus_0_r. apply Hexact.
  - (* finite + finite *)
    unfold r. cbn [SFadd]. cbv zeta.
    set (ez := Z.min ex ey).
    pose proof (shl_align_value mx ex ez) as (Hxv & _ & Hxe).
    pose proof (shl_align_value my ey ez) as (Hyv & _ & Hye).
    cbv zeta in Hxv, Hyv, Hxe, Hye.
    assert (Hxe' : (shl_align mx ex ez).2 = ez) by (unfold ez in *; lia).
    assert (Hye' : (shl_align my ey ez).2 = ez) by (unfold ez in *; lia).
    rewrite Hxe' in Hxv. rewrite Hye' in Hyv.
    set (mx' := (shl_align mx ex ez).1) in *.
    set (my' := (shl_align my ey ez).1) in *.
    set (M := (cond_Zopp sx (Zpos mx') + cond_Zopp sy (Zpos my'))%Z).
    assert (Hsum : (f32_value (S754_finite sx mx ex) + f32_value (S754_finite sy my ey)
                    = IZR M * powerRZ 2 ez)%R).
    { unfold M. rewrite plus_IZR. cbn [f32_value].
      replace (IZR (cond_Zopp sx (Zpos mx'))) with ((if sx then -1 else 1) * IZR (Zpos mx'))%R
        by (destruct sx; simpl; [rewrite opp_IZR|]; ring).
      replace (IZR (cond_Zopp sy (Zpos my'))) with ((if sy then -1 else 1) * IZR (Zpos my'))%R
        by (destruct sy; simpl; [rewrite opp_IZR|]; ring).
      transitivity ((if sx then -1 else 1) * (IZR (Z.pos mx) * powerRZ 2 ex)
                    + (if sy then -1 else 1) * (IZR (Z.pos my) * powerRZ 2 ey))%R;
        [ring|].
      rewrite <- Hxv, <- Hyv. ring. }
    rewrite Hsum in Hmag |- *.
    assert (Hround : ∀ (s : bool) (m : positive),
      (IZR (Zpos m) * powerRZ 2 ez < powerRZ 2 127)%R →
      f32_finite (binary_round prec32 emax32 s m ez) = true
      ∧ f32_valid (binary_round prec32 emax32 s m ez) = true
      ∧ (Rabs (f32_value (binary_round prec32 emax32 s m ez)
               - (if s then -1 else 1) * (IZR (Zpos m) * powerRZ 2 ez))
         <= powerRZ 2 (-23) * (IZR (Zpos m) * powerRZ 2 ez) + powerRZ 2 (-149))%R).
    { intros s m Hlt.
      destruct (binary_round_error s m ez) as [Hfin Herr];
        [by apply digits_of_magnitude|].
      split; [exact Hfin|]. split; [apply binary_round_valid|exact Herr]. }
    pose proof (bpow_pos ez) as Hez.
    destruct M as [|m|m] eqn:EM; cbn [binary_normalize].
    + split; [done|]. split; [done|]. simpl f32_value.
      rewrite Rmult_0_l, Rminus_0_r, Rabs_R0. lra.
    + assert (Hpos : (0 < IZR (Zpos m))%R) by (apply IZR_lt; lia).
      rewrite (Rabs_right (IZR (Zpos m) * powerRZ 2 ez)) in Hmag |- * by nra.
      destruct (Hround false m Hmag) as (Hfin & Hval & Herr).
      split; [exact Hfin|]. split; [exact Hval|].
      rewrite Rmult_1_l in Herr. exact Herr.
    + assert (Hpos : (0 < IZR (Zpos m))%R) by (apply IZR_lt; lia).
      assert (Hneg : IZR (Zneg m) = (- IZR (Zpos m))%R).
      { change (Zneg m) with (- Zpos m)%Z. apply opp_IZR. }
      rewrite Hneg in Hmag |- *.
      replace (- IZR (Zpos m) * powerRZ 2 ez)%R
        with (- (IZR (Zpos m) * powerRZ 2 ez))%R in Hmag |- * by ring.
      rewrite Rabs_Ropp, (Rabs_right (IZR (Zpos m) * powerRZ 2 ez)) in Hmag |- * by nra.
      destruct (Hround true m Hmag) as (Hfin & Hval & Herr).
      split; [exact Hfin|]. split; [exact Hval|].
      replace (-1 * (IZR (Zpos m) * powerRZ 2 ez))%R
        with (- (IZR (Zpos m) * powerRZ 2 ez))%R in Herr by ring.
      exact Herr.
Qed.

(** *** One rotation in binary32 *)

Lemma bpow_m23 : powerRZ 2 (-23) = (/ 8388608)%R.
Proof. unfold powerRZ. simpl. lra. Qed.

Lemma bpow_m149_le_1 : (powerRZ 2 (-149) <= 1)%R.
Proof. change 1%R with (powerRZ 2 0). apply bpow_le. lia. Qed.

Lemma Rabs_mult_le (a b A B : R) :
  (Rabs a <= A)%R → (Rabs b <= B)%R → (Rabs (a * b) <= A * B)%R.
Proof.
  intros Ha Hb. rewrite Rabs_mult.
  pose proof (Rabs_pos a). pose proof (Rabs_pos b).
  apply Rmult_le_compat; lra.
Qed.

Lemma Rabs_le_inv (a b : R) : (Rabs a <= b)%R → (- b <= a <= b)%R.
Proof. unfold Rabs. destruct (Rcase_abs a); lra. Qed.

(** [fl (fl a + fl b)] for two rounded products [fl a] and [fl b]. *)
Lemma sum_of_rounded_error (a b t1 t2 r u η : R) :
  (0 <= u)%R → (0 <= η)%R →
  (Rabs (t1 - a) <= u * Rabs a + η)%R →
  (Rabs (t2 - b) <= u * Rabs b + η)%R →
  (Rabs (r - (t1 + t2)) <= u * Rabs (t1 + t2) + η)%R →
  (Rabs (t1 + t2) <= (1 + u) * (Rabs a + Rabs b) + 2 * η)%R
  ∧ (Rabs (r - (a + b)) <= (2 * u + u * u) * (Rabs a + Rabs b) + (3 + 2 * u) * η)%R.
Proof.
  intros Hu Hη H1 H2 H3.
  pose proof (Rabs_pos a) as Ha. pose proof (Rabs_pos b) as Hb.
  assert (HT : (Rabs (t1 + t2) <= (1 + u) * (Rabs a + Rabs b) + 2 * η)%R).
  { replace (t1 + t2)%R with (a + b + ((t1 - a) + (t2 - b)))%R by ring.
    eapply Rle_trans; [apply Rabs_triang|].
    pose proof (Rabs_triang a b). pose proof (Rabs_triang (t1 - a) (t2 - b)). lra. }
  split; [exact HT|].
  replace (r - (a + b))%R with ((r - (t1 + t2)) + ((t1 - a) + (t2 - b)))%R by ring.
  eapply Rle_trans; [apply Rabs_triang|].
  pose proof (Rabs_triang (t1 - a) (t2 - b)).
  assert (u * Rabs (t1 + t2) <= u * ((1 + u) * (Rabs a + Rabs b) + 2 * η))%R
    by (apply Rmult_le_compat_l; lra).
  lra.
Qed.

(** [x * c + z * s] in binary32, for finite operands with [|x| + |z| <= M]
    and [|c|, |s| <= κ], where [κ * M <= 2^126]. *)
Lemma f32_rotate_step (x z c s : f32) (κ M : R) :
  f32_valid x = true → f32_finite x = true →
  f32_valid z = true → f32_finite z = true →
  f32_valid c = true → f32_finite c = true →
  f32_valid s = true → f32_finite s = true →
  (Rabs (f32_value x) + Rabs (f32_value z) <= M)%R →
  (Rabs (f32_value c) <= κ)%R →
  (Rabs (f32_value s) <= κ)%R →
  (κ * M <= powerRZ 2 126)%R →
  let r := SFadd prec32 emax32 (SFmul prec32 emax32 x c) (SFmul prec32 emax32 z s) in
  let u := powerRZ 2 (-23) in
  let η := powerRZ 2 (-149) in
  f32_finite r = true
  ∧ f32_valid r = true
  ∧ (Rabs (f32_value r - (f32_value x * f32_value c + f32_value z * f32_value s))
     <= (2 * u + u * u) * (κ * M) + (3 + 2 * u) * η)%R.
Proof.
  intros Hvx Hfx Hvz Hfz Hvc Hfc Hvs Hfs HM Hc Hs Hκ r u η.
  set (X := f32_value x) in *. set (Z := f32_value z) in *.
  set (C := f32_value c) in *. set (S := f32_value s) in *.
  pose proof (Rabs_pos X) as HX0. pose proof (Rabs_pos Z) as HZ0.
  pose proof (Rabs_pos C) as HC0. pose proof (Rabs_pos S) as HS0.
  assert (Hu : u = (/ 8388608)%R) by apply bpow_m23.
  assert (Hη0 : (0 < η)%R) by apply bpow_pos.
  assert (Hη1 : (η <= 1)%R) by apply bpow_m149_le_1.
  assert (HQ : (4 <= powerRZ 2 126)%R).
  { replace 4%R with (powerRZ 2 2) by (simpl; lra). apply bpow_le. lia. }
  assert (H127 : powerRZ 2 127 = (2 * powerRZ 2 126)%R).
  { replace 127%Z with (1 + 126)%Z by lia. rewrite bpow_add. simpl. lra. }
  set (Q := powerRZ 2 126) in *.
  assert (HXC : (Rabs (X * C) <= Rabs X * κ)%R) by (apply Rabs_mult_le; lra).
  assert (HZS : (Rabs (Z * S) <= Rabs Z * κ)%R) by (apply Rabs_mult_le; lra).
  assert (Hκ0 : (0 <= κ)%R) by lra.
  assert (Hsum : (Rabs (X * C) + Rabs (Z * S) <= κ * M)%R) by nra.
  pose proof (Rabs_pos (X * C)) as HXC0. pose proof (Rabs_pos (Z * S)) as HZS0.
  destruct (f32_mul_error x c Hvx Hvc Hfx Hfc) as (Hf1 & Hv1 & He1).
  { fold X C. rewrite H127. lra. }
  destruct (f32_mul_error z s Hvz Hvs Hfz Hfs) as (Hf2 & Hv2 & He2).
  { fold Z S. rewrite H127. lra. }
  fold X C u η in He1. fold Z S u η in He2.
  set (t1 := SFmul prec32 emax32 x c) in *.
  set (t2 := SFmul prec32 emax32 z s) in *.
  assert (HT : (Rabs (f32_value t1 + f32_value t2)
                <= (1 + u) * (Rabs (X * C) + Rabs (Z * S)) + 2 * η)%R).
  { replace (f32_value t1 + f32_value t2)%R
      with (X * C + Z * S + ((f32_value t1 - X * C) + (f32_value t2 - Z * S)))%R by ring.
    eapply Rle_trans; [apply Rabs_triang|].
    pose proof (Rabs_triang (X * C) (Z * S)).
    pose proof (Rabs_triang (f32_value t1 - X * C) (f32_value t2 - Z * S)). lra. }
  destruct (f32_add_error t1 t2 Hv1 Hv2 Hf1 Hf2) as (Hf3 & Hv3 & He3).
  { rewrite H127. nra. }
  fold u η in He3.
  split; [exact Hf3|]. split; [exact Hv3|].
  destruct (sum_of_rounded_error (X * C) (Z * S) (f32_value t1) (f32_value t2)
              (f32_value r) u η) as [_ Herr]; [lra|lra|done..|].
  eapply Rle_trans; [exact Herr|]. nra.
Qed.

(** *** There and back *)

(** The products of the cosines and sines of two opposite angles, each off
    by at most [ε]. *)
Lemma trig_product_bounds (C S a1 a2 b1 b2 ε : R) :
  (C * C + S * S = 1)%R →
  (Rabs a1 <= ε)%R → (Rabs a2 <= ε)%R → (Rabs b1 <= ε)%R → (Rabs b2 <= ε)%R →
  (Rabs ((C + a1) * (C + a2) - (S + b1) * (b2 - S) - 1) <= 4 * ε + 2 * (ε * ε))%R
  ∧ (Rabs ((S + b1) * (C + a2) + (C + a1) * (b2 - S)) <= 4 * ε + 2 * (ε * ε))%R.
Proof.
  intros Hcs Ha1 Ha2 Hb1 Hb2.
  assert (HC : (Rabs C <= 1)%R) by (apply Rabs_le; nra).
  assert (HS : (Rabs S <= 1)%R) by (apply Rabs_le; nra).
  pose proof (Rabs_le_inv _ _ (Rabs_mult_le C a1 1 ε HC Ha1)) as P1.
  pose proof (Rabs_le_inv _ _ (Rabs_mult_le C a2 1 ε HC Ha2)) as P2.
  pose proof (Rabs_le_inv _ _ (Rabs_mult_le S b1 1 ε HS Hb1)) as P3.
  pose proof (Rabs_le_inv _ _ (Rabs_mult_le S b2 1 ε HS Hb2)) as P4.
  pose proof (Rabs_le_inv _ _ (Rabs_mult_le a1 a2 ε ε Ha1 Ha2)) as P5.
  pose proof (Rabs_le_inv _ _ (Rabs_mult_le b1 b2 ε ε Hb1 Hb2)) as P6.
  pose proof (Rabs_le_inv _ _ (Rabs_mult_le S a1 1 ε HS Ha1)) as P7.
  pose proof (Rabs_le_inv _ _ (Rabs_mult_le S a2 1 ε HS Ha2)) as P8.
  pose proof (Rabs_le_inv _ _ (Rabs_mult_le C b1 1 ε HC Hb1)) as P9.
  pose proof (Rabs_le_inv _ _ (Rabs_mult_le C b2 1 ε HC Hb2)) as P10.
  pose proof (Rabs_le_inv _ _ (Rabs_mult_le b1 a2 ε ε Hb1 Ha2)) as P11.
  pose proof (Rabs_le_inv _ _ (Rabs_mult_le a1 b2 ε ε Ha1 Hb2)) as P12.
  split; apply Rabs_le.
  - replace ((C + a1) * (C + a2) - (S + b1) * (b2 - S) - 1)%R
      with (C * a1 + C * a2 + S * b1 - S * b2 + a1 * a2 - b1 * b2
            + (C * C + S * S - 1))%R by ring.
    rewrite Hcs. lra.
  - replace ((S + b1) * (C + a2) + (C + a1) * (b2 - S))%R
      with (S * a2 - S * a1 + C * b1 + C * b2 + b1 * a2 + a1 * b2)%R by ring.
    lra.
Qed.

(** A rotation by an angle and then by its opposite, each step off by at
    most [D1], [D2], with cosines and sines off by at most [ε]. *)
Lemma round_trip_algebra (X Z C S c1 s1 c2 s2 x1 z1 x2 z2 ε D1 D2 : R) :
  (C * C + S * S = 1)%R →
  (Rabs (c1 - C) <= ε)%R → (Rabs (s1 - S) <= ε)%R →
  (Rabs (c2 - C) <= ε)%R → (Rabs (s2 + S) <= ε)%R →
  (Rabs (x1 - (X * c1 + Z * s1)) <= D1)%R →
  (Rabs (z1 - (- X * s1 + Z * c1)) <= D1)%R →
  (Rabs (x2 - (x1 * c2 + z1 * s2)) <= D2)%R →
  (Rabs (z2 - (- x1 * s2 + z1 * c2)) <= D2)%R →
  let bound := ((4 * ε + 2 * (ε * ε)) * (Rabs X + Rabs Z) + 2 * (1 + ε) * D1 + D2)%R in
  (Rabs (x2 - X) <= bound)%R ∧ (Rabs (z2 - Z) <= bound)%R.
Proof.
  intros Hcs Hc1 Hs1 Hc2 Hs2 Hx1 Hz1 Hx2 Hz2 bound.
  assert (Hε : (0 <= ε)%R) by (pose proof (Rabs_pos (c1 - C)); lra).
  assert (HC : (Rabs C <= 1)%R) by (apply Rabs_le; nra).
  assert (HS : (Rabs S <= 1)%R) by (apply Rabs_le; nra).
  assert (Hc2' : (Rabs c2 <= 1 + ε)%R).
  { replace c2 with (C + (c2 - C))%R by ring.
    eapply Rle_trans; [apply Rabs_triang|]. lra. }
  assert (Hs2' : (Rabs s2 <= 1 + ε)%R).
  { replace s2 with (- S + (s2 + S))%R by ring.
    eapply Rle_trans; [apply Rabs_triang|]. rewrite Rabs_Ropp. lra. }
  destruct (trig_product_bounds C S (c1 - C) (c2 - C) (s1 - S) (s2 + S) ε
              Hcs Hc1 Hc2 Hs1 Hs2) as [HK1 HK2].
  replace (C + (c1 - C))%R with c1 in HK1, HK2 by ring.
  replace (C + (c2 - C))%R with c2 in HK1, HK2 by ring.
  replace (S + (s1 - S))%R with s1 in HK1, HK2 by ring.
  replace (s2 + S - S)%R with s2 in HK1, HK2 by ring.
  set (K1 := (c1 * c2 - s1 * s2 - 1)%R) in *.
  set (K2 := (s1 * c2 + c1 * s2)%R) in *.
  set (k := (4 * ε + 2 * (ε * ε))%R) in *.
  set (dx := (x1 - (X * c1 + Z * s1))%R) in *.
  set (dz := (z1 - (- X * s1 + Z * c1))%R) in *.
  pose proof (Rabs_pos X) as HX0. pose proof (Rabs_pos Z) as HZ0.
  pose proof (Rabs_pos dx) as Hdx0.
  assert (HXK1 : (Rabs (X * K1) <= Rabs X * k)%R) by (apply Rabs_mult_le; lra).
  assert (HZK2 : (Rabs (Z * K2) <= Rabs Z * k)%R) by (apply Rabs_mult_le; lra).
  assert (HXK2 : (Rabs (X * K2) <= Rabs X * k)%R) by (apply Rabs_mult_le; lra).
  assert (HZK1 : (Rabs (Z * K1) <= Rabs Z * k)%R) by (apply Rabs_mult_le; lra).
  assert (Hdxc : (Rabs (dx * c2) <= D1 * (1 + ε))%R) by (apply Rabs_mult_le; lra).
  assert (Hdzs : (Rabs (dz * s2) <= D1 * (1 + ε))%R) by (apply Rabs_mult_le; lra).
  assert (Hdxs : (Rabs (dx * s2) <= D1 * (1 + ε))%R) by (apply Rabs_mult_le; lra).
  assert (Hdzc : (Rabs (dz * c2) <= D1 * (1 + ε))%R) by (apply Rabs_mult_le; lra).
  apply Rabs_le_inv in HXK1, HZK2, HXK2, HZK1, Hdxc, Hdzs, Hdxs, Hdzc, Hx2, Hz2.
  unfold bound. split; apply Rabs_le.
  - replace (x2 - X)%R
      with ((x2 - (x1 * c2 + z1 * s2)) + (dx * c2 + dz * s2) + (X * K1 + Z * K2))%R
      by (unfold dx, dz, K1, K2; ring).
    lra.
  - replace (z2 - Z)%R
      with ((z2 - (- x1 * s2 + z1 * c2)) + (- (dx * s2) + dz * c2)
            + (- (X * K2) + Z * K1))%R
      by (unfold dx, dz, K1, K2; ring).
    lra.
Qed.

Lemma final_bound (ε M0 η D1 M1 D2 : R) :
  (0 <= ε <= 1 / 8)%R → (0 <= M0)%R → (0 <= η)%R →
  let u := (/ 8388608)%R in
  (D1 = (2 * u + u * u) * ((1 + ε) * M0) + (3 + 2 * u) * η)%R →
  (M1 = 2 * ((1 + ε) * M0) + 2 * D1)%R →
  (D2 = (2 * u + u * u) * ((1 + ε) * M1) + (3 + 2 * u) * η)%R →
  ((4 * ε + 2 * (ε * ε)) * M0 + 2 * (1 + ε) * D1 + D2
   <= (5 * ε + 16 * u) * M0 + 16 * η)%R
  ∧ ((1 + ε) * M1 <= 3 * M0 + 8 * η)%R
  ∧ (0 <= D1)%R.
Proof.
  intros Hε HM Hη u HD1 HM1 HD2.
  set (w := (2 * u + u * u)%R) in *.
  assert (Hw : (0 <= w <= / 4000000)%R) by (unfold w, u; lra).
  assert (Hu : (0 <= u <= / 8000000)%R) by (unfold u; lra).
  assert (HεM : (0 <= ε * M0 <= / 8 * M0)%R) by nra.
  assert (HεεM : (0 <= ε * ε * M0 <= / 8 * (ε * M0))%R) by nra.
  assert (Hκ : (1 <= 1 + ε <= 9 / 8)%R) by lra.
  assert (HκM : (M0 <= (1 + ε) * M0 <= 9 / 8 * M0)%R) by nra.
  assert (HD1b : (0 <= D1 <= w * (9 / 8 * M0) + (3 + 2 * u) * η)%R) by (rewrite HD1; nra).
  assert (HD1c : (D1 <= / 3000000 * M0 + 4 * η)%R) by nra.
  assert (HκD1 : (0 <= (1 + ε) * D1 <= 9 / 8 * D1)%R) by nra.
  assert (HM1b : (0 <= M1 <= 9 / 4 * M0 + 2 * D1)%R) by (rewrite HM1; nra).
  assert (HκM1 : (0 <= (1 + ε) * M1 <= 9 / 8 * M1)%R) by nra.
  assert (HD2b : (D2 <= w * (9 / 8 * M1) + (3 + 2 * u) * η)%R) by (rewrite HD2; nra).
  split; [|split; [nra|lra]].
  assert (Hk : ((4 * ε + 2 * (ε * ε)) * M0 <= 4 * (ε * M0) + / 4 * (ε * M0))%R) by nra.
  assert (HwM0 : (0 <= w * M0 <= / 4000000 * M0)%R) by nra.
  assert (HwM1 : (0 <= w * M1 <= / 4000000 * M1)%R) by nra.
  assert (Huη : (0 <= u * η <= / 8000000 * η)%R) by nra.
  assert (Hw16 : (w <= 2 * u + / 8000000 * u)%R) by (unfold w; nra).
  unfold u in *. nra.
Qed.

Lemma binary_round_aux_opp (s : bool) (m e : Z) (l : location) :
  binary_round_aux prec32 emax32 (negb s) m e l
  = SFopp (binary_round_aux prec32 emax32 s m e l).
Proof.
  unfold binary_round_aux.
  destruct (shr_fexp prec32 emax32 m e l) as [mrs1 e1].
  destruct (shr_fexp prec32 emax32 _ e1 loc_Exact) as [mrs2 e2].
  destruct (shr_m mrs2); [done| |done].
  by destruct (e2 <=? emax32 - prec32)%Z.
Qed.

(** The product with the opposite is the opposite of the product, also
    after rounding. *)
Lemma SFmul_opp_l (x y : f32) :
  SFmul prec32 emax32 (SFopp x) y = SFopp (SFmul prec32 emax32 x y).
Proof.
  destruct x as [sx|sx| |sx mx ex], y as [sy|sy| |sy my ey]; simpl;
    try done; try (by destruct sx, sy).
  replace (xorb (negb sx) sy) with (negb (xorb sx sy)) by (by destruct sx, sy).
  apply binary_round_aux_opp.
Qed.

Lemma f32_value_opp (x : f32) : f32_value (SFopp x) = (- f32_value x)%R.
Proof. destruct x as [s|s| |s m e]; simpl; try lra. destruct s; simpl; ring. Qed.

Lemma f32_valid_opp (x : f32) : f32_valid (SFopp x) = f32_valid x.
Proof. by destruct x. Qed.

Lemma f32_finite_opp (x : f32) : f32_finite (SFopp x) = f32_finite x.
Proof. by destruct x. Qed.

Lemma deform_rotate_f32 (gpu_cos gpu_sin : f32 → f32) (p x y z : f32) (vc : Z) :
  let angle := SFmul prec32 emax32 p (f32_lit 3.14159265) in
  let c := gpu_cos angle in
  let s := gpu_sin angle in
  deform (H := f32_scalar gpu_cos gpu_sin)
    {| operation := 1; param_value := p; vertex_count := vc; _pad := 0 |} x y z
  = (SFadd prec32 emax32 (SFmul prec32 emax32 x c) (SFmul prec32 emax32 z s),
     y,
     SFadd prec32 emax32 (SFmul prec32 emax32 (SFopp x) s) (SFmul prec32 emax32 z c)).
Proof. reflexivity. Qed.

(** Rotate there and back in binary32. *)
Lemma f32_rotate_there_and_back (gpu_cos gpu_sin : f32 → f32) (ε : R)
    (p x y z : f32) (vc : Z) :
  let angle := SFmul prec32 emax32 p (f32_lit 3.14159265) in
  let rotate q := {| operation := 1; param_value := q;
                     vertex_count := vc; _pad := 0 |} in
  f32_valid x = true → f32_finite x = true →
  f32_valid z = true → f32_finite z = true →
  trig_within gpu_cos gpu_sin ε angle →
  trig_within gpu_cos gpu_sin ε (SFopp angle) →
  (ε <= 1 / 8)%R →
  (Rabs (f32_value x) + Rabs (f32_value z) <= powerRZ 2 124)%R →
  ∃ x2 z2 : f32,
    deform_vertex (H := f32_scalar gpu_cos gpu_sin) (rotate (SFopp p))
      (deform_vertex (H := f32_scalar gpu_cos gpu_sin) (rotate p) (x, y, z))
    = (x2, y, z2)
    ∧ f32_finite x2 = true ∧ f32_finite z2 = true
    ∧ (Rabs (f32_value x2 - f32_value x)
       <= (5 * ε + powerRZ 2 (-19)) * (Rabs (f32_value x) + Rabs (f32_value z))
          + powerRZ 2 (-145))%R
    ∧ (Rabs (f32_value z2 - f32_value z)
       <= (5 * ε + powerRZ 2 (-19)) * (Rabs (f32_value x) + Rabs (f32_value z))
          + powerRZ 2 (-145))%R.
Proof.
  intros angle rotate Hvx Hfx Hvz Hfz Hdev1 Hdev2 Hε HM.
  destruct Hdev1 as (Hfa & Hvc1 & Hfc1 & Hvs1 & Hfs1 & Hc1 & Hs1).
  destruct Hdev2 as (_ & Hvc2 & Hfc2 & Hvs2 & Hfs2 & Hc2 & Hs2).
  rewrite f32_value_opp, cos_neg in Hc2. rewrite f32_value_opp, sin_neg in Hs2.
  set (c1 := gpu_cos angle) in *. set (s1 := gpu_sin angle) in *.
  set (c2 := gpu_cos (SFopp angle)) in *. set (s2 := gpu_sin (SFopp angle)) in *.
  set (A := f32_value angle) in *.
  set (x1 := SFadd prec32 emax32 (SFmul prec32 emax32 x c1) (SFmul prec32 emax32 z s1)).
  set (z1 := SFadd prec32 emax32 (SFmul prec32 emax32 (SFopp x) s1)
               (SFmul prec32 emax32 z c1)).
  set (x2 := SFadd prec32 emax32 (SFmul prec32 emax32 x1 c2) (SFmul prec32 emax32 z1 s2)).
  set (z2 := SFadd prec32 emax32 (SFmul prec32 emax32 (SFopp x1) s2)
               (SFmul prec32 emax32 z1 c2)).
  assert (Hrun : deform_vertex (H := f32_scalar gpu_cos gpu_sin) (rotate (SFopp p))
                   (deform_vertex (H := f32_scalar gpu_cos gpu_sin) (rotate p) (x, y, z))
                 = (x2, y, z2)).
  { unfold x2, z2, c2, s2, x1, z1, c1, s1, angle.
    rewrite <- SFmul_opp_l. reflexivity. }
  exists x2, z2. split; [exact Hrun|].
  set (X := f32_value x) in *. set (Z := f32_value z) in *.
  set (M0 := (Rabs X + Rabs Z)%R) in *.
  set (u := powerRZ 2 (-23)). set (η := powerRZ 2 (-149)).
  assert (Hu : u = (/ 8388608)%R) by apply bpow_m23.
  assert (Hη0 : (0 < η)%R) by apply bpow_pos.
  assert (Hη1 : (η <= 1)%R) by apply bpow_m149_le_1.
  assert (Hε0 : (0 <= ε)%R) by (pose proof (Rabs_pos (f32_value c1 - cos A)); lra).
  assert (HM0 : (0 <= M0)%R) by (pose proof (Rabs_pos X); pose proof (Rabs_pos Z); unfold M0; lra).
  assert (HP : (8 <= powerRZ 2 124)%R).
  { replace 8%R with (powerRZ 2 3) by (simpl; lra). apply bpow_le. lia. }
  assert (H126 : powerRZ 2 126 = (4 * powerRZ 2 124)%R).
  { replace 126%Z with (2 + 124)%Z by lia. rewrite bpow_add. simpl. lra. }
  set (P := powerRZ 2 124) in *.
  assert (Hcs : (cos A * cos A + sin A * sin A = 1)%R).
  { pose proof (sin2_cos2 A) as H. unfold Rsqr in H. lra. }
  assert (HC : (Rabs (cos A) <= 1)%R) by (apply Rabs_le; pose proof (COS_bound A); lra).
  assert (HS : (Rabs (sin A) <= 1)%R) by (apply Rabs_le; pose proof (SIN_bound A); lra).
  assert (Hκ : ∀ t T : R, (Rabs T <= 1)%R → (Rabs (t - T) <= ε)%R → (Rabs t <= 1 + ε)%R).
  { intros t T HT Ht. replace t with (T + (t - T))%R by ring.
    eapply Rle_trans; [apply Rabs_triang|]. lra. }
  assert (Hκc1 : (Rabs (f32_value c1) <= 1 + ε)%R) by (by apply (Hκ _ (cos A))).
  assert (Hκs1 : (Rabs (f32_value s1) <= 1 + ε)%R) by (by apply (Hκ _ (sin A))).
  assert (Hκc2 : (Rabs (f32_value c2) <= 1 + ε)%R) by (by apply (Hκ _ (cos A))).
  assert (Hκs2 : (Rabs (f32_value s2) <= 1 + ε)%R).
  { apply (Hκ _ (- sin A)%R); [by rewrite Rabs_Ropp|]. exact Hs2. }
  set (D1 := ((2 * u + u * u) * ((1 + ε) * M0) + (3 + 2 * u) * η)%R).
  set (M1 := (2 * ((1 + ε) * M0) + 2 * D1)%R).
  set (D2 := ((2 * u + u * u) * ((1 + ε) * M1) + (3 + 2 * u) * η)%R).
  destruct (final_bound ε M0 η D1 M1 D2) as (Hfinal & HκM1 & HD10);
    [lra|lra|lra|rewrite <- ?Hu; reflexivity..|].
  rewrite <- Hu in Hfinal.
  assert (HκM0' : ((1 + ε) * M0 <= (1 + 1 / 8) * M0)%R)
    by (apply Rmult_le_compat_r; lra).
  assert (HκM0 : ((1 + ε) * M0 <= powerRZ 2 126)%R).
  { rewrite H126. clear -HκM0' HM HM0 HP. clearbody M0 P. lra. }
  (* the first rotation *)
  destruct (f32_rotate_step x z c1 s1 (1 + ε) M0) as (Hfx1 & Hvx1 & Hex1); try done.
  destruct (f32_rotate_step (SFopp x) z s1 c1 (1 + ε) M0) as (Hfz1 & Hvz1 & Hez1);
    rewrite ?f32_valid_opp, ?f32_finite_opp; try done.
  { rewrite f32_value_opp, Rabs_Ropp. apply Rle_refl. }
  fold x1 in Hfx1, Hvx1, Hex1. fold z1 in Hfz1, Hvz1, Hez1.
  fold u η X Z D1 in Hex1, Hez1. rewrite f32_value_opp in Hez1. fold X in Hez1.
  (* the size of the rotated point *)
  assert (Hx1 : (Rabs (f32_value x1) <= (1 + ε) * M0 + D1)%R).
  { replace (f32_value x1)
      with ((X * f32_value c1 + Z * f32_value s1)
            + (f32_value x1 - (X * f32_value c1 + Z * f32_value s1)))%R by ring.
    eapply Rle_trans; [apply Rabs_triang|].
    pose proof (Rabs_triang (X * f32_value c1) (Z * f32_value s1)).
    pose proof (Rabs_mult_le X (f32_value c1) (Rabs X) (1 + ε) ltac:(lra) Hκc1).
    pose proof (Rabs_mult_le Z (f32_value s1) (Rabs Z) (1 + ε) ltac:(lra) Hκs1).
    unfold M0. lra. }
  assert (Hz1 : (Rabs (f32_value z1) <= (1 + ε) * M0 + D1)%R).
  { replace (f32_value z1)
      with ((- X * f32_value s1 + Z * f32_value c1)
            + (f32_value z1 - (- X * f32_value s1 + Z * f32_value c1)))%R by ring.
    eapply Rle_trans; [apply Rabs_triang|].
    pose proof (Rabs_triang (- X * f32_value s1) (Z * f32_value c1)).
    pose proof (Rabs_mult_le (- X) (f32_value s1) (Rabs X) (1 + ε)
                  ltac:(rewrite Rabs_Ropp; lra) Hκs1).
    pose proof (Rabs_mult_le Z (f32_value c1) (Rabs Z) (1 + ε) ltac:(lra) Hκc1).
    unfold M0. lra. }
  assert (HκM1' : ((1 + ε) * M1 <= powerRZ 2 126)%R) by (rewrite H126; lra).
  (* the second rotation *)
  destruct (f32_rotate_step x1 z1 c2 s2 (1 + ε) M1) as (Hfx2 & Hvx2 & Hex2); try done.
  { unfold M1. lra. }
  destruct (f32_rotate_step (SFopp x1) z1 s2 c2 (1 + ε) M1) as (Hfz2 & Hvz2 & Hez2);
    rewrite ?f32_valid_opp, ?f32_finite_opp; try done.
  { rewrite f32_value_opp, Rabs_Ropp. unfold M1. lra. }
  fold x2 in Hfx2, Hvx2, Hex2. fold z2 in Hfz2, Hvz2, Hez2.
  fold u η D2 in Hex2, Hez2. rewrite f32_value_opp in Hez2.
  split; [exact Hfx2|]. split; [exact Hfz2|].
  destruct (round_trip_algebra X Z (cos A) (sin A)
              (f32_value c1) (f32_value s1) (f32_value c2) (f32_value s2)
              (f32_value x1) (f32_value z1) (f32_value x2) (f32_value z2) ε D1 D2)
    as [Hbx Hbz]; try done.
  { replace (f32_value s2 + sin A)%R with (f32_value s2 - - sin A)%R by ring. exact Hs2. }
  assert (H19 : powerRZ 2 (-19) = (16 * u)%R).
  { unfold u. replace (-19)%Z with (4 + -23)%Z by lia. rewrite bpow_add. simpl. lra. }
  assert (H145 : powerRZ 2 (-145) = (16 * η)%R).
  { unfold η. replace (-145)%Z with (4 + -149)%Z by lia. rewrite bpow_add. simpl. lra. }
  rewrite H19, H145. fold M0 in Hbx, Hbz. cbv zeta in Hbx, Hbz.
  split; lra.
Qed.

(** *** A device at an eighth of a turn *)

Lemma INR_fact_small :
  INR (fact 2) = 2%R ∧ INR (fact 3) = 6%R ∧ INR (fact 4) = 24%R
  ∧ INR (fact 5) = 120%R ∧ INR (fact 6) = 720%R ∧ INR (fact 7) = 5040%R
  ∧ INR (fact 8) = 40320%R ∧ INR (fact 9) = 362880%R.
Proof. repeat split; rewrite INR_IZR_INZ; f_equal. Qed.

(** The cosine and the sine of 13176795 / 2^24, the binary32 product of 0.25
    and 3.14159265, by their Taylor polynomials. *)
Lemma eighth_turn_cos_sin (a : R) :
  a = (13176795 / 16777216)%R →
  (707103 / 1000000 <= cos a <= 707108 / 1000000)%R
  ∧ (707106 / 1000000 <= sin a <= 707108 / 1000000)%R.
Proof.
  intros Ha.
  destruct INR_fact_small as (F2 & F3 & F4 & F5 & F6 & F7 & F8 & F9).
  pose proof (pre_cos_bound a 1 ltac:(lra) ltac:(lra)) as Hc.
  pose proof (pre_sin_bound a 1 ltac:(lra) ltac:(lra)) as Hs.
  cbv [cos_approx sin_approx sum_f_R0 cos_term sin_term Nat.mul Nat.add] in Hc, Hs.
  rewrite F2, F4, F6, F8 in Hc. rewrite F3, F5, F7, F9 in Hs.
  change (fact 0) with 1%nat in Hc. change (fact 1) with 1%nat in Hs.
  change (INR 1) with 1%R in Hc, Hs.
  rewrite Ha in Hc, Hs. rewrite Ha. split; lra.
Qed.

Lemma eighth_turn_within :
  let angle := SFmul prec32 emax32 (f32_lit 0.25) (f32_lit 3.14159265) in
  trig_within eighth_turn_cos eighth_turn_sin (/ 65536) angle
  ∧ trig_within eighth_turn_cos eighth_turn_sin (/ 65536) (SFopp angle).
Proof.
  intros angle.
  assert (Hangle : angle = S754_finite false 13176795 (-24)) by (by vm_compute).
  assert (Hlit : f32_lit 0.70710678 = S754_finite false 11863283 (-24)) by (by vm_compute).
  assert (Hp : powerRZ 2 (-24) = (/ 16777216)%R) by (unfold powerRZ; simpl; lra).
  destruct (eighth_turn_cos_sin (13176795 / 16777216) eq_refl) as [Hc Hs].
  rewrite Hangle. unfold trig_within, eighth_turn_cos, eighth_turn_sin.
  cbn [SFopp negb]. rewrite Hlit. cbn [SFopp negb f32_value f32_finite]. rewrite Hp.
  replace (1 * 13176795 * / 16777216)%R with (13176795 / 16777216)%R by lra.
  replace (-1 * 13176795 * / 16777216)%R with (- (13176795 / 16777216))%R by lra.
  rewrite cos_neg, sin_neg.
  repeat split; try (by vm_compute); apply Rabs_le; lra.
Qed.

(** * Properties of the specification *)

(** ** Scale *)

(** C1: the Scale operation (op 0) writes, for every vertex below
    [vertexCount], the input coordinates times [param]; a [param] of 1.0 is
    the identity, in exact arithmetic and on every binary32 value; and
    Scale(2.0) on the generated cube, run through [processOperation] and
    [getProcessedVertices], returns every input coordinate times 2. *)
Theorem scale_multiplies_coordinates {F : Type} `{Scalar F}
    (input out0 : list F) (param : F) (vc : Z) :
  (0 <= vc)%Z →
  (3 * vc <= u32_modulus)%Z →
  Z.of_nat (length input) = (3 * vc)%Z →
  Z.of_nat (length out0) = (3 * vc)%Z →
  let params := {| operation := 0; param_value := param;
                   vertex_count := vc; _pad := 0 |} in
  dispatchWorkgroups input params (Math_ceil (inject_Z vc / 64))
      {| output_verts := out0; journal := [] |}
    = Some (tt, {| output_verts := (λ v, v * param)%sc <$> input;
                   journal := dispatch_accesses 0 vc |})
  ∧ (∀ x y z : R,
       deform {| operation := 0; param_value := lit 1.0;
                 vertex_count := vc; _pad := 0 |} x y z = (x, y, z))
  ∧ (∀ (gpu_cos gpu_sin : f32 → f32) (x y z : f32),
       f32_valid x = true → f32_valid y = true → f32_valid z = true →
       deform (H := f32_scalar gpu_cos gpu_sin)
         {| operation := 0; param_value := f32_lit 1.0;
            vertex_count := vc; _pad := 0 |} x y z = (x, y, z))
  ∧ (∀ (gpu_cos gpu_sin : f32 → f32) (w : World) (mesh : Mesh) (bg : BindGroup)
       (positions output : list f32) (p : number),
       ready w mesh bg positions output →
       (0 <= vertexCount mesh)%Z →
       (3 * vertexCount mesh <= u32_modulus)%Z →
       (contents_of (process_click gpu_cos gpu_sin "scale" p) w).1
       = Ok (Floats ((λ v, SFmul prec32 emax32 v (f32_of_number p)) <$> positions)))
  ∧ (∀ gpu_cos gpu_sin : f32 → f32,
       fst ((initApp;;
             contents_of (process_click gpu_cos gpu_sin "scale" (number_lit 2.0)))
              initial_World)
       = Ok (Floats ((λ v, SFmul prec32 emax32 v (f32_lit 2.0)) <$> cube_f32))).
Proof.
  intros Hvc Hwrap Hin Hout params. split; [|split; [|split; [|split]]].
  - apply (compute_pass_pointwise (λ v, v * param)%sc input params out0); done.
  - intros x y z. unfold deform. simpl. rewrite Q2R_lit_one.
    f_equal; [f_equal|]; lra.
  - intros gpu_cos gpu_sin x y z Hx Hy Hz. unfold deform. simpl.
    by rewrite !SFmul_one_r.
  - intros gpu_cos gpu_sin w mesh bg positions output p Hready Hvc' Hwrap'.
    rewrite (process_click_ready gpu_cos gpu_sin w mesh bg positions output) by done.
    do 2 f_equal.
    pose proof (ready_input_length _ _ _ _ _ Hready) as Hlin.
    apply (map_vertices_pointwise
             (λ v, SFmul prec32 emax32 v (f32_of_number p))
             (Z.to_nat (vertexCount mesh))).
    unfold f32 in *. lia.
  - intros gpu_cos gpu_sin. vm_compute. reflexivity.
Qed.

Lemma scale_multiplies_coordinates_witness :
  dispatchWorkgroups (H := f32_scalar no_trig no_trig) cube_f32
      {| operation := 0; param_value := f32_lit 2.0; vertex_count := 8; _pad := 0 |}
      (Math_ceil (inject_Z 8 / 64))
      {| output_verts := replicate 24 f32_zero; journal := [] |}
    = Some (tt, {| output_verts :=
                     (λ v, SFmul prec32 emax32 v (f32_lit 2.0)) <$> cube_f32;
                   journal := dispatch_accesses 0 8 |}).
Proof.
  refine (proj1 (scale_multiplies_coordinates (H := f32_scalar no_trig no_trig)
                   cube_f32 (replicate 24 f32_zero) (f32_lit 2.0) 8 _ _ _ _)).
  - lia.
  - unfold u32_modulus. lia.
  - reflexivity.
  - reflexivity.
Defined.

(** ** Translate *)

(** C2: the Translate operation (op 2) leaves x and z of every vertex as
    they are and sets y' = y + (param - 1)*0.5; with a [param] of 3.0 every
    y becomes y + 1.0, in exact arithmetic, on every binary32 value, and on
    the generated cube run through [processOperation] and
    [getProcessedVertices]. *)
Theorem translate_shifts_y {F : Type} `{Scalar F}
    (input out0 : list F) (param : F) (vc : Z) :
  (0 <= vc)%Z →
  (3 * vc <= u32_modulus)%Z →
  Z.of_nat (length input) = (3 * vc)%Z →
  Z.of_nat (length out0) = (3 * vc)%Z →
  let params := {| operation := 2; param_value := param;
                   vertex_count := vc; _pad := 0 |} in
  dispatchWorkgroups input params (Math_ceil (inject_Z vc / 64))
      {| output_verts := out0; journal := [] |}
    = Some (tt, {| output_verts :=
                     map_vertices
                       (λ v, (v.1.1, (v.1.2 + (param - lit 1.0) * lit 0.5)%sc, v.2))
                       input;
                   journal := dispatch_accesses 0 vc |})
  ∧ (∀ x y z : R,
       deform {| operation := 2; param_value := lit 3.0;
                 vertex_count := vc; _pad := 0 |} x y z = (x, (y + 1)%R, z))
  ∧ (∀ (gpu_cos gpu_sin : f32 → f32) (x y z : f32),
       deform (H := f32_scalar gpu_cos gpu_sin)
         {| operation := 2; param_value := f32_lit 3.0;
            vertex_count := vc; _pad := 0 |} x y z
       = (x, SFadd prec32 emax32 y (f32_lit 1.0), z))
  ∧ (∀ (gpu_cos gpu_sin : f32 → f32) (w : World) (mesh : Mesh) (bg : BindGroup)
       (positions output : list f32) (p : number),
       ready w mesh bg positions output →
       (0 <= vertexCount mesh)%Z →
       (3 * vertexCount mesh <= u32_modulus)%Z →
       (contents_of (process_click gpu_cos gpu_sin "translate" p) w).1
       = Ok (Floats (map_vertices
                       (λ v, (v.1.1,
                              SFadd prec32 emax32 v.1.2
                                (SFmul prec32 emax32
                                   (SFsub prec32 emax32 (f32_of_number p) (f32_lit 1.0))
                                   (f32_lit 0.5)),
                              v.2))
                       positions)))
  ∧ (∀ gpu_cos gpu_sin : f32 → f32,
       fst ((initApp;;
             contents_of (process_click gpu_cos gpu_sin "translate" (number_lit 3.0)))
              initial_World)
       = Ok (Floats (map_vertices
                       (λ v, (v.1.1, SFadd prec32 emax32 v.1.2 (f32_lit 1.0), v.2))
                       cube_f32))).
Proof.
  intros Hvc Hwrap Hin Hout params. split; [|split; [|split; [|split]]].
  - rewrite (compute_pass_map_vertices input params out0) by done.
    reflexivity.
  - intros x y z. unfold deform. simpl.
    rewrite Q2R_lit_three, Q2R_lit_one, Q2R_lit_half. do 2 f_equal. lra.
  - intros gpu_cos gpu_sin x y z. reflexivity.
  - intros gpu_cos gpu_sin w mesh bg positions output p Hready Hvc' Hwrap'.
    by rewrite (process_click_ready gpu_cos gpu_sin w mesh bg positions output).
  - intros gpu_cos gpu_sin. vm_compute. reflexivity.
Qed.

Lemma translate_shifts_y_witness :
  dispatchWorkgroups (H := f32_scalar no_trig no_trig) cube_f32
      {| operation := 2; param_value := f32_lit 3.0; vertex_count := 8; _pad := 0 |}
      (Math_ceil (inject_Z 8 / 64))
      {| output_verts := replicate 24 f32_zero; journal := [] |}
    = Some (tt, {| output_verts :=
                     map_vertices
                       (λ v, (v.1.1,
                              SFadd prec32 emax32 v.1.2
                                (SFmul prec32 emax32
                                   (SFsub prec32 emax32 (f32_lit 3.0) (f32_lit 1.0))
                                   (f32_lit 0.5)),
                              v.2))
                       cube_f32;
                   journal := dispatch_accesses 0 8 |}).
Proof.
  refine (proj1 (translate_shifts_y (H := f32_scalar no_trig no_trig)
                   cube_f32 (replicate 24 f32_zero) (f32_lit 3.0) 8 _ _ _ _)).
  - lia.
  - unfold u32_modulus. lia.
  - reflexivity.
  - reflexivity.
Defined.

(** ** Inflate *)

(** C3, as the kernel has it: Inflate (op 3) with [param] 1.0 maps every
    vertex to itself; with [param] 2.0 (not 0.0) it maps every vertex farther
    than 0.001 from the origin to the point at distance 0.5 in the same
    direction; with [param] 0.0 it maps such a vertex [p] to
    [2p - 0.5 p/|p|]; and a vertex within 0.001 of the origin is left as it
    is for every [param].  On the device, Inflate(1.0) returns the cube
    unchanged. *)
Theorem inflate_identity_sphere_guard (x y z : R) (vc : Z) :
  let len := sqrt (x * x + y * y + z * z) in
  let inflate p := {| operation := 3; param_value := p;
                      vertex_count := vc; _pad := 0 |} in
  deform (inflate (lit 1.0)) x y z = (x, y, z)
  ∧ ((1 / 1000 < len)%R →
       let k := (1 / 2 / len)%R in
       deform (inflate (lit 2.0)) x y z = ((k * x)%R, (k * y)%R, (k * z)%R)
       ∧ (0 < k)%R
       ∧ sqrt (k * x * (k * x) + k * y * (k * y) + k * z * (k * z)) = (1 / 2)%R)
  ∧ ((1 / 1000 < len)%R →
       deform (inflate (lit 0.0)) x y z
       = ((2 * x - 1 / 2 * (x / len))%R,
          (2 * y - 1 / 2 * (y / len))%R,
          (2 * z - 1 / 2 * (z / len))%R))
  ∧ (∀ p : R, (len <= 1 / 1000)%R → deform (inflate p) x y z = (x, y, z))
  ∧ (∀ (F : Type) (S : Scalar F) (p a b c : F),
       flt (lit 0.001) (fsqrt (a * a + b * b + c * c)%sc) = false →
       deform {| operation := 3; param_value := p; vertex_count := vc; _pad := 0 |}
         a b c = (a, b, c))
  ∧ (∀ gpu_cos gpu_sin : f32 → f32,
       fst ((initApp;;
             contents_of (process_click gpu_cos gpu_sin "inflate" (number_lit 1.0)))
              initial_World)
       = Ok (Floats cube_f32)).
Proof.
  intros len inflate. split; [|split; [|split; [|split; [|split]]]].
  - destruct (Rlt_le_dec (1 / 1000) len) as [Hlt|Hle].
    + unfold inflate. rewrite deform_inflate_R by exact Hlt.
      simpl. rewrite Q2R_lit_one, Rmin_Rmax_one.
      f_equal; [f_equal|]; ring.
    + by apply deform_inflate_R_guarded.
  - intros Hlt k.
    assert (Hpos : (0 < len)%R) by lra.
    assert (Hk : (0 < k)%R).
    { unfold k. apply Rdiv_lt_0_compat; lra. }
    split; [|split; [done|]].
    + unfold inflate. rewrite deform_inflate_R by exact Hlt.
      simpl. rewrite Q2R_lit_two, Rmin_Rmax_two. fold len. unfold k.
      f_equal; [f_equal|]; field; lra.
    + rewrite sqrt_scaled by lra. fold len. unfold k. field. lra.
  - intros Hlt. unfold inflate. rewrite deform_inflate_R by exact Hlt.
    simpl. rewrite Q2R_lit_zero, Rmin_Rmax_zero. fold len.
    f_equal; [f_equal|]; field; lra.
  - intros p Hle. by apply deform_inflate_R_guarded.
  - intros F S p a b c Hguard. unfold deform. simpl. by rewrite Hguard.
  - intros gpu_cos gpu_sin. vm_compute. reflexivity.
Qed.

Lemma inflate_identity_sphere_guard_witness :
  deform {| operation := 3; param_value := lit 2.0;
            vertex_count := 1; _pad := 0 |} 1%R 0%R 0%R
  = ((1 / 2 / sqrt (1 * 1 + 0 * 0 + 0 * 0) * 1)%R,
     (1 / 2 / sqrt (1 * 1 + 0 * 0 + 0 * 0) * 0)%R,
     (1 / 2 / sqrt (1 * 1 + 0 * 0 + 0 * 0) * 0)%R).
Proof.
  refine (proj1 (proj1 (proj2 (inflate_identity_sphere_guard 1 0 0 1)) _)).
  replace (1 * 1 + 0 * 0 + 0 * 0)%R with 1%R by lra.
  rewrite sqrt_1. lra.
Defined.

(** C3 as stated fails: with [param] 0.0 the vertex (1, 0, 0) is moved to
    (1.5, 0, 0), at distance 1.5 from the origin, in exact arithmetic and in
    binary32. *)
Lemma inflate_param_zero_counterexample :
  ¬ (∀ x y z : R,
       (x, y, z) ≠ (0%R, 0%R, 0%R) →
       let '(ox, oy, oz) :=
         deform {| operation := 3; param_value := lit 0.0;
                   vertex_count := 1; _pad := 0 |} x y z in
       sqrt (ox * ox + oy * oy + oz * oz) = (1 / 2)%R)
  ∧ deform (H := f32_scalar no_trig no_trig)
      {| operation := 3; param_value := f32_lit 0.0; vertex_count := 1; _pad := 0 |}
      (f32_lit 1.0) (f32_lit 0.0) (f32_lit 0.0)
    = (f32_lit 1.5, f32_lit 0.0, f32_lit 0.0).
Proof.
  split; [|vm_compute; reflexivity].
  intros Hclaim. specialize (Hclaim 1%R 0%R 0%R).
  assert (Hlen : sqrt (1 * 1 + 0 * 0 + 0 * 0) = 1%R).
  { replace (1 * 1 + 0 * 0 + 0 * 0)%R with 1%R by lra. apply sqrt_1. }
  rewrite deform_inflate_R in Hclaim by (rewrite Hlen; lra).
  rewrite Hlen in Hclaim. simpl in Hclaim.
  rewrite Q2R_lit_zero, Rmin_Rmax_zero in Hclaim.
  assert (Hne : (1%R, 0%R, 0%R) ≠ (0%R, 0%R, 0%R)).
  { intros [= H1]. lra. }
  specialize (Hclaim Hne).
  replace ((1 + (1 / 1 * (1 / 2) - 1) * (0 - 1)) * (1 + (1 / 1 * (1 / 2) - 1) * (0 - 1)) +
           (0 + (0 / 1 * (1 / 2) - 0) * (0 - 1)) * (0 + (0 / 1 * (1 / 2) - 0) * (0 - 1)) +
           (0 + (0 / 1 * (1 / 2) - 0) * (0 - 1)) * (0 + (0 / 1 * (1 / 2) - 0) * (0 - 1)))%R
    with ((3 / 2) * (3 / 2))%R in Hclaim by lra.
  rewrite sqrt_square in Hclaim by lra. lra.
Qed.

(** C10: for every [param], Inflate (op 3) maps a vertex at distance exactly
    0.5 from the origin to itself: the displacement
    [normalized direction * 0.5 - original] vanishes, whatever the clamped
    factor [t] is.  In binary32 the vertex (0.5, 0, 0) is returned unchanged
    for a range of values of [param]. *)
Theorem inflate_fixes_sphere (param x y z : R) (vc : Z) :
  sqrt (x * x + y * y + z * z) = (1 / 2)%R →
  deform {| operation := 3; param_value := param; vertex_count := vc; _pad := 0 |}
    x y z = (x, y, z)
  ∧ (x / sqrt (x * x + y * y + z * z) * lit 0.5 - x = 0)%R
  ∧ (y / sqrt (x * x + y * y + z * z) * lit 0.5 - y = 0)%R
  ∧ (z / sqrt (x * x + y * y + z * z) * lit 0.5 - z = 0)%R
  ∧ (∀ gpu_cos gpu_sin : f32 → f32,
       Forall
         (λ p, deform (H := f32_scalar gpu_cos gpu_sin)
                 {| operation := 3; param_value := f32_lit p;
                    vertex_count := vc; _pad := 0 |}
                 (f32_lit 0.5) (f32_lit 0.0) (f32_lit 0.0)
               = (f32_lit 0.5, f32_lit 0.0, f32_lit 0.0))
         [0.0; 0.25; 1.0; 2.0; 7.5; -3.0]%Q).
Proof.
  intros Hlen. split; [|split; [|split; [|split]]].
  - rewrite deform_inflate_R by (rewrite Hlen; lra). rewrite Hlen.
    f_equal; [f_equal|]; field.
  - rewrite Hlen. simpl. rewrite Q2R_lit_half. field.
  - rewrite Hlen. simpl. rewrite Q2R_lit_half. field.
  - rewrite Hlen. simpl. rewrite Q2R_lit_half. field.
  - intros gpu_cos gpu_sin. repeat constructor.
Qed.

Lemma inflate_fixes_sphere_witness :
  deform {| operation := 3; param_value := 7%R; vertex_count := 1; _pad := 0 |}
    (1 / 2)%R 0%R 0%R = ((1 / 2)%R, 0%R, 0%R).
Proof.
  refine (proj1 (inflate_fixes_sphere 7 (1 / 2) 0 0 1 _)).
  replace (1 / 2 * (1 / 2) + 0 * 0 + 0 * 0)%R with ((1 / 2) * (1 / 2))%R by lra.
  apply sqrt_square. lra.
Defined.

(** ** Rotate *)

(** The points 1 and 2 are far below the range bound of the round trip. *)
Lemma small_point_in_range :
  (Rabs (f32_value (f32_lit 1)) + Rabs (f32_value (f32_lit 2)) <= powerRZ 2 124)%R.
Proof.
  assert (H1 : f32_value (f32_lit 1) = 1%R).
  { change (f32_lit 1) with (S754_finite false 8388608 (-23)).
    cbn [f32_value]. rewrite bpow_m23. lra. }
  assert (H2 : f32_value (f32_lit 2) = 2%R).
  { change (f32_lit 2) with (S754_finite false 8388608 (-22)).
    cbn [f32_value]. replace (-22)%Z with (1 + -23)%Z by lia.
    rewrite bpow_add, bpow_m23. simpl. lra. }
  rewrite H1, H2, !Rabs_right by lra.
  apply Rle_trans with (powerRZ 2 2); [simpl; lra|]. apply bpow_le. lia.
Qed.

(** C4: Rotate (op 1) has x' = x·cos + z·sin, z' = -x·sin + z·cos and y' = y
    for the angle [param * 3.14159265].  Over the reals, Rotate with [param]
    θ/π followed by Rotate with [param] -θ/π returns every point, and so
    every position array, to where it was.  In binary32, where the second
    [param] is the first with its sign flipped, on a device whose [cos] and
    [sin] are within ε <= 1/8 of the cosine and the sine at the angle and at
    its opposite, a finite point with |x| + |z| <= 2^124 comes back finite,
    with y bit for bit, and with x and z within
    (5ε + 2^-19)·(|x| + |z|) + 2^-145 of where they were. *)
Theorem rotate_round_trip (θ : R) (input out0 out1 : list R) (vc : Z) :
  (0 <= vc)%Z →
  (3 * vc <= u32_modulus)%Z →
  Z.of_nat (length input) = (3 * vc)%Z →
  Z.of_nat (length out0) = (3 * vc)%Z →
  Z.of_nat (length out1) = (3 * vc)%Z →
  let rotate p := {| operation := 1; param_value := p;
                     vertex_count := vc; _pad := 0 |} in
  let workgroups := Math_ceil (inject_Z vc / 64) in
  (∀ p x y z : R,
     deform (rotate p) x y z
     = ((x * cos (p * lit 3.14159265) + z * sin (p * lit 3.14159265))%R,
        y,
        (- x * sin (p * lit 3.14159265) + z * cos (p * lit 3.14159265))%R))
  ∧ (∀ x y z : R,
       deform_vertex (rotate (- θ / PI)%R) (deform_vertex (rotate (θ / PI)%R) (x, y, z))
       = (x, y, z))
  ∧ (∃ rotated : list R,
       dispatchWorkgroups input (rotate (θ / PI)%R) workgroups
           {| output_verts := out0; journal := [] |}
         = Some (tt, {| output_verts := rotated;
                        journal := dispatch_accesses 0 vc |})
       ∧ dispatchWorkgroups rotated (rotate (- θ / PI)%R) workgroups
           {| output_verts := out1; journal := [] |}
         = Some (tt, {| output_verts := input;
                        journal := dispatch_accesses 0 vc |}))
  ∧ (∀ (gpu_cos gpu_sin : f32 → f32) (ε : R) (p x y z : f32),
       let angle := SFmul prec32 emax32 p (f32_lit 3.14159265) in
       let rotate32 q := {| operation := 1; param_value := q;
                            vertex_count := vc; _pad := 0 |} in
       f32_valid x = true → f32_finite x = true →
       f32_valid z = true → f32_finite z = true →
       trig_within gpu_cos gpu_sin ε angle →
       trig_within gpu_cos gpu_sin ε (SFopp angle) →
       (ε <= 1 / 8)%R →
       (Rabs (f32_value x) + Rabs (f32_value z) <= powerRZ 2 124)%R →
       ∃ x2 z2 : f32,
         deform_vertex (H := f32_scalar gpu_cos gpu_sin) (rotate32 (SFopp p))
           (deform_vertex (H := f32_scalar gpu_cos gpu_sin) (rotate32 p) (x, y, z))
         = (x2, y, z2)
         ∧ f32_finite x2 = true ∧ f32_finite z2 = true
         ∧ (Rabs (f32_value x2 - f32_value x)
            <= (5 * ε + powerRZ 2 (-19)) * (Rabs (f32_value x) + Rabs (f32_value z))
               + powerRZ 2 (-145))%R
         ∧ (Rabs (f32_value z2 - f32_value z)
            <= (5 * ε + powerRZ 2 (-19)) * (Rabs (f32_value x) + Rabs (f32_value z))
               + powerRZ 2 (-145))%R).
Proof.
  intros Hvc Hwrap Hin Hout0 Hout1 rotate workgroups.
  assert (Hback : ∀ x y z : R,
    deform_vertex (rotate (- θ / PI)%R) (deform_vertex (rotate (θ / PI)%R) (x, y, z))
    = (x, y, z)).
  { intros x y z. unfold rotate.
    replace (- θ / PI)%R with (- (θ / PI))%R by (unfold Rdiv; ring).
    apply rotate_back_R. }
  split; [|split; [|split]].
  - intros p x y z. reflexivity.
  - exact Hback.
  - assert (Hn : length input = (3 * Z.to_nat vc)%nat) by lia.
    exists (map_vertices (deform_vertex (rotate (θ / PI)%R)) input). split.
    + by apply (compute_pass_map_vertices input (rotate (θ / PI)%R) out0).
    + rewrite (compute_pass_map_vertices _ (rotate (- θ / PI)%R) out1); try done.
      * do 3 f_equal. rewrite map_vertices_compose.
        apply (map_vertices_id _ (Z.to_nat vc)); [done|].
        intros [[x y] z]. apply Hback.
      * simpl. rewrite (length_map_vertices _ _ _ Hn). lia.
  - intros gpu_cos gpu_sin ε p x y z angle rotate32 Hvx Hfx Hvz Hfz Hdev1 Hdev2 Hε HM.
    by apply f32_rotate_there_and_back.
Qed.

Lemma rotate_round_trip_witness :
  (∃ rotated : list R,
     dispatchWorkgroups [1; 2; 3]%R
         {| operation := 1; param_value := (PI / 3 / PI)%R; vertex_count := 1; _pad := 0 |}
         (Math_ceil (inject_Z 1 / 64))
         {| output_verts := [0; 0; 0]%R; journal := [] |}
       = Some (tt, {| output_verts := rotated; journal := dispatch_accesses 0 1 |})
     ∧ dispatchWorkgroups rotated
         {| operation := 1; param_value := (- (PI / 3) / PI)%R; vertex_count := 1; _pad := 0 |}
         (Math_ceil (inject_Z 1 / 64))
         {| output_verts := [0; 0; 0]%R; journal := [] |}
       = Some (tt, {| output_verts := [1; 2; 3]%R; journal := dispatch_accesses 0 1 |}))
  ∧ (∃ x2 z2 : f32,
       deform_vertex (H := f32_scalar eighth_turn_cos eighth_turn_sin)
         {| operation := 1; param_value := SFopp (f32_lit 0.25);
            vertex_count := 1; _pad := 0 |}
         (deform_vertex (H := f32_scalar eighth_turn_cos eighth_turn_sin)
            {| operation := 1; param_value := f32_lit 0.25;
               vertex_count := 1; _pad := 0 |}
            (f32_lit 1, f32_lit 0, f32_lit 2))
       = (x2, f32_lit 0, z2)
       ∧ f32_finite x2 = true ∧ f32_finite z2 = true
       ∧ (Rabs (f32_value x2 - f32_value (f32_lit 1))
          <= (5 * / 65536 + powerRZ 2 (-19))
             * (Rabs (f32_value (f32_lit 1)) + Rabs (f32_value (f32_lit 2)))
             + powerRZ 2 (-145))%R
       ∧ (Rabs (f32_value z2 - f32_value (f32_lit 2))
          <= (5 * / 65536 + powerRZ 2 (-19))
             * (Rabs (f32_value (f32_lit 1)) + Rabs (f32_value (f32_lit 2)))
             + powerRZ 2 (-145))%R).
Proof.
  assert (Hwrap : (3 * 1 <= u32_modulus)%Z) by (unfold u32_modulus; lia).
  destruct (rotate_round_trip (PI / 3) [1; 2; 3]%R [0; 0; 0]%R [0; 0; 0]%R 1
              ltac:(lia) Hwrap eq_refl eq_refl eq_refl)
    as (_ & _ & Hreal & Hf32).
  split; [exact Hreal|].
  destruct eighth_turn_within as [Hdev1 Hdev2].
  apply (Hf32 eighth_turn_cos eighth_turn_sin (/ 65536)%R
           (f32_lit 0.25) (f32_lit 1) (f32_lit 0) (f32_lit 2)).
  - reflexivity.
  - reflexivity.
  - reflexivity.
  - reflexivity.
  - exact Hdev1.
  - exact Hdev2.
  - lra.
  - exact small_point_in_range.
Defined.

(** C4 as stated fails for large coordinates: with the device above and an
    eighth of a turn, the largest finite binary32 in x and z leaves the range in the
    first rotation, and the second rotation returns infinities. *)
Lemma rotate_round_trip_overflow_counterexample :
  let p := f32_lit 0.25 in
  let angle := SFmul prec32 emax32 p (f32_lit 3.14159265) in
  let big := S754_finite false 16777215 104 in
  let rotate32 q := {| operation := 1; param_value := q;
                       vertex_count := 1; _pad := 0 |} in
  f32_valid big = true ∧ f32_finite big = true
  ∧ trig_within eighth_turn_cos eighth_turn_sin (/ 65536) angle
  ∧ trig_within eighth_turn_cos eighth_turn_sin (/ 65536) (SFopp angle)
  ∧ deform_vertex (H := f32_scalar eighth_turn_cos eighth_turn_sin) (rotate32 p)
      (big, f32_lit 0, big)
    = (S754_infinity false, f32_lit 0, S754_zero false)
  ∧ deform_vertex (H := f32_scalar eighth_turn_cos eighth_turn_sin) (rotate32 (SFopp p))
      (deform_vertex (H := f32_scalar eighth_turn_cos eighth_turn_sin) (rotate32 p)
         (big, f32_lit 0, big))
    = (S754_infinity false, f32_lit 0, S754_infinity false)
  ∧ ¬ (∀ (gpu_cos gpu_sin : f32 → f32) (ε : R) (q x y z : f32),
         f32_valid x = true → f32_finite x = true →
         f32_valid z = true → f32_finite z = true →
         trig_within gpu_cos gpu_sin ε (SFmul prec32 emax32 q (f32_lit 3.14159265)) →
         trig_within gpu_cos gpu_sin ε
           (SFopp (SFmul prec32 emax32 q (f32_lit 3.14159265))) →
         (ε <= 1 / 8)%R →
         ∃ x2 z2 : f32,
           deform_vertex (H := f32_scalar gpu_cos gpu_sin) (rotate32 (SFopp q))
             (deform_vertex (H := f32_scalar gpu_cos gpu_sin) (rotate32 q) (x, y, z))
           = (x2, y, z2)
           ∧ f32_finite x2 = true ∧ f32_finite z2 = true).
Proof.
  intros p angle big rotate32.
  destruct eighth_turn_within as [Hdev1 Hdev2].
  assert (Hrun : deform_vertex (H := f32_scalar eighth_turn_cos eighth_turn_sin)
                   (rotate32 (SFopp p))
                   (deform_vertex (H := f32_scalar eighth_turn_cos eighth_turn_sin)
                      (rotate32 p) (big, f32_lit 0, big))
                 = (S754_infinity false, f32_lit 0, S754_infinity false))
    by (by vm_compute).
  split; [reflexivity|]. split; [reflexivity|].
  split; [exact Hdev1|]. split; [exact Hdev2|].
  split; [by vm_compute|]. split; [exact Hrun|].
  intros Hall.
  destruct (Hall eighth_turn_cos eighth_turn_sin (/ 65536)%R p big (f32_lit 0) big
              eq_refl eq_refl eq_refl eq_refl Hdev1 Hdev2 ltac:(lra))
    as (x2 & z2 & Heq & Hfx2 & _).
  pose proof (eq_trans (eq_sym Heq) Hrun) as E.
  injection E as -> _. discriminate Hfx2.
Qed.

(** ** Dispatch size and the bounds guard *)

(** C5: for a mesh of [vertexCount >= 1] vertices, [processOperation]
    submits one dispatch of ceil(vertexCount/64) workgroups of 64
    invocations, and when it returns the output buffer of the bind group
    holds what that dispatch computed: each of the first [vertexCount]
    triples is the deformed vertex of the input, and the input buffer is as
    it was.  An invocation whose index is at least [vertexCount] returns
    with the buffers and the journal of accesses untouched.  A dispatch of
    enough workgroups completes without a fault on any buffers of at least
    [3 * vertexCount] elements, writes the first [vertexCount] triples and
    leaves every element behind them as it was; it stores exactly to the
    elements of the first [vertexCount] triples and loads only below
    [3 * vertexCount], also when [vertexCount] is not a multiple of 64, and
    in whatever order the invocations run. *)
Theorem dispatch_covers_exactly_the_vertices (gpu_cos gpu_sin : f32 → f32)
    (w : World) (mesh : Mesh) (bg : BindGroup) (input output : list f32)
    (name : string) (param : number) :
  ready w mesh bg input output →
  (1 <= vertexCount mesh)%Z →
  (3 * vertexCount mesh <= u32_modulus)%Z →
  let vc := vertexCount mesh in
  let workgroups := Math_ceil (inject_Z vc / 64) in
  let payload := uniform_payload (opIndex_of name) param vc in
  let params := kernel_params name param vc in
  (workgroups = (vc + 63) / 64 ∧ (workgroups - 1) * 64 < vc <= workgroups * 64)%Z
  ∧ (∃ w' out',
       processOperation gpu_cos gpu_sin name param w = (Ok tt, w')
       ∧ submitted w' =
           submitted w ++ [CmdWriteBuffer (binding2 bg) payload;
                           CmdDispatch bg workgroups]
       ∧ decode_Params payload = params
       ∧ dispatchWorkgroups (H := f32_scalar gpu_cos gpu_sin) input params workgroups
           {| output_verts := output; journal := [] |}
         = Some (tt, {| output_verts := out';
                        journal := dispatch_accesses 0 vc |})
       ∧ gpubuffers w' !! binding1 bg =
           Some {| gpu_size := 4 * length output; gpu_data := Floats out';
                   gpu_destroyed := false |}
       ∧ gpubuffers w' !! binding0 bg =
           Some {| gpu_size := 4 * length input; gpu_data := Floats input;
                   gpu_destroyed := false |}
       ∧ length out' = length output
       ∧ (∀ idx, (0 <= idx < vc)%Z →
            ∃ x y z,
              vertex_at input idx = Some (x, y, z)
              ∧ vertex_at out' idx
                = Some (deform (H := f32_scalar gpu_cos gpu_sin) params x y z)))
  ∧ invocations workgroups = seqZ 0 (workgroups * 64)
  ∧ (∀ (F : Type) (S : Scalar F) (verts : list F) (params : Params F) (idx : Z)
       (m : Mem F),
       (vertex_count params <= idx)%Z →
       main verts params idx m = Some (tt, m))
  ∧ (∀ (F : Type) (S : Scalar F) (verts : list F) (params : Params F) (m : Mem F)
       (groups : Z),
       (0 <= vertex_count params <= groups * 64)%Z →
       (3 * vertex_count params <= u32_modulus)%Z →
       (3 * vertex_count params <= Z.of_nat (length verts))%Z →
       (3 * vertex_count params <= Z.of_nat (length (output_verts m)))%Z →
       ∃ out',
         dispatchWorkgroups verts params groups m
           = Some (tt, {| output_verts := out';
                          journal := journal m
                                     ++ dispatch_accesses 0 (vertex_count params) |})
         ∧ length out' = length (output_verts m)
         ∧ (∀ j : nat, (3 * vertex_count params <= Z.of_nat j)%Z →
              out' !! j = output_verts m !! j)
         ∧ (∀ idx, (0 <= idx < vertex_count params)%Z →
              vertex_at out' idx = deform_vertex params <$> vertex_at verts idx))
  ∧ (∀ j : Z, StoreOutput j ∈ dispatch_accesses 0 vc ↔ (0 <= j < 3 * vc)%Z)
  ∧ (∀ j : Z, LoadInput j ∈ dispatch_accesses 0 vc →
       (0 <= j < Z.of_nat (length input))%Z)
  ∧ (∀ j : Z, StoreOutput j ∈ dispatch_accesses 0 vc →
       (0 <= j < Z.of_nat (length output))%Z)
  ∧ (∀ gids : list Z,
       gids ≡ₚ invocations workgroups →
       ∃ out' accesses,
         run_invocations (H := f32_scalar gpu_cos gpu_sin) input params gids
             {| output_verts := output; journal := [] |}
           = Some (tt, {| output_verts := out'; journal := accesses |})
         ∧ dispatchWorkgroups (H := f32_scalar gpu_cos gpu_sin) input params workgroups
             {| output_verts := output; journal := [] |}
           = Some (tt, {| output_verts := out';
                          journal := dispatch_accesses 0 vc |})
         ∧ (∀ a, a ∈ accesses ↔ a ∈ dispatch_accesses 0 vc)).
Proof.
  intros Hready Hvc Hwrap vc workgroups payload params.
  pose proof (Math_ceil_div64_least vc) as [Hle Hgt].
  pose proof (ready_input_length _ _ _ _ _ Hready) as Hlin.
  pose proof (ready_output_length _ _ _ _ _ Hready) as Hlout.
  fold vc in Hlin, Hlout.
  assert (Hn : length input = (3 * Z.to_nat vc)%nat) by lia.
  pose proof (compute_pass_map_vertices (H := f32_scalar gpu_cos gpu_sin)
                input params output) as Hpass.
  cbn [params kernel_params vertex_count] in Hpass.
  specialize (Hpass ltac:(lia) Hwrap Hlin Hlout).
  split; [|split; [|split; [|split; [|split; [|split; [|split; [|split; [|]]]]]]]].
  - split; [apply Math_ceil_div64|]. fold workgroups in Hle, Hgt. lia.
  - pose proof (processOperation_ready gpu_cos gpu_sin w mesh bg input output
                  name param Hready ltac:(lia) Hwrap) as Hrun.
    cbv zeta in Hrun. fold vc payload workgroups params in Hrun.
    pose proof (ready_distinct _ _ _ _ _ Hready) as (Hd01 & Hd02 & Hd12).
    eexists. eexists. split; [exact Hrun|]. cbn [submitted gpubuffers].
    split; [reflexivity|].
    split; [apply decode_uniform_payload; unfold u32_modulus in Hwrap; lia|].
    split; [exact Hpass|].
    split; [apply lookup_insert_eq|].
    split; [rewrite !lookup_insert_ne by done; exact (ready_input _ _ _ _ _ Hready)|].
    split; [rewrite (length_map_vertices _ _ _ Hn); lia|].
    intros idx Hidx.
    destruct (vertex_at_is_Some input idx) as [[[x y] z] Hv]; [lia|lia|].
    exists x, y, z. split; [exact Hv|].
    rewrite (vertex_at_map_vertices _ (Z.to_nat vc)) by (done || lia).
    by rewrite Hv.
  - reflexivity.
  - intros F S verts params0 idx m Hidx. by apply main_guard.
  - intros F S verts params0 m groups H1 H2 H3 H4.
    by apply dispatchWorkgroups_spec.
  - intros j. apply stores_of_dispatch.
  - intros j Hj. apply loads_of_dispatch in Hj. lia.
  - intros j Hj. apply stores_of_dispatch in Hj. lia.
  - intros gids Hperm.
    destruct (compute_pass_any_order (H := f32_scalar gpu_cos gpu_sin)
                input params output gids)
      as (accesses & Hrun & Hacc); [done|simpl; lia|done..|].
    eexists. exists accesses. split; [exact Hrun|]. split; [|exact Hacc].
    exact Hpass.
Qed.

Lemma dispatch_covers_exactly_the_vertices_witness :
  (Math_ceil (inject_Z 8 / 64) = (8 + 63) / 64
   ∧ (Math_ceil (inject_Z 8 / 64) - 1) * 64 < 8 <= Math_ceil (inject_Z 8 / 64) * 64)%Z.
Proof.
  refine (proj1 (dispatch_covers_exactly_the_vertices no_trig no_trig
                   app_World app_mesh app_bindGroup cube_f32
                   (replicate 24 f32_zero) "scale" (number_lit 2.0) _ _ _)).
  - exact app_World_ready.
  - simpl. lia.
  - unfold u32_modulus. simpl. lia.
Defined.

(** ** The payload and the operation names *)

(** C6: [processOperation] writes a payload of exactly 16 bytes to the
    uniform buffer, little-endian: the operation code as a [u32] at offset 0,
    [param] as an [f32] at offset 4, [vertexCount] as a [u32] at offset 8 and
    a zero word at offset 12; the kernel's [Params], read at these offsets,
    has these values in its four members. *)
Theorem parameter_payload_layout (gpu_cos gpu_sin : f32 → f32)
    (w : World) (mesh : Mesh) (bg : BindGroup) (input output : list f32)
    (name : string) (param : number) :
  ready w mesh bg input output →
  (0 <= vertexCount mesh)%Z →
  (3 * vertexCount mesh <= u32_modulus)%Z →
  let vc := vertexCount mesh in
  let payload :=
    le32 (operation_code name) ++ le32 (f32_bits (f32_of_number param)) ++
    le32 vc ++ le32 0 in
  (∃ w',
     processOperation gpu_cos gpu_sin name param w = (Ok tt, w')
     ∧ gpubuffers w' !! binding2 bg =
         Some {| gpu_size := 16; gpu_data := Bytes payload; gpu_destroyed := false |}
     ∧ CmdWriteBuffer (binding2 bg) payload ∈ submitted w')
  ∧ length payload = 16%nat
  ∧ (∀ x : Z, le32 x = [x mod 256; (x / 2 ^ 8) mod 256;
                        (x / 2 ^ 16) mod 256; (x / 2 ^ 24) mod 256]%Z)
  ∧ read_bytes payload 0 4 = le32 (operation_code name)
  ∧ read_bytes payload 4 4 = le32 (f32_bits (f32_of_number param))
  ∧ read_bytes payload 8 4 = le32 vc
  ∧ read_bytes payload 12 4 = le32 0
  ∧ decode_Params payload
    = {| operation := operation_code name; param_value := f32_of_number param;
         vertex_count := vc; _pad := 0 |}
  ∧ f32_of_bits (f32_bits (f32_of_number param)) = f32_of_number param.
Proof.
  intros Hready Hvc Hwrap vc payload.
  assert (Hpayload : payload = uniform_payload (opIndex_of name) param vc).
  { unfold payload, uniform_payload. rewrite ToUint32_opIndex_of.
    cbn [ToUint32]. rewrite (Z.mod_small vc) by (unfold u32_modulus in Hwrap; lia).
    reflexivity. }
  split; [|split; [|split; [|split; [|split; [|split; [|split; [|split]]]]]]].
  - eexists. split; [|split].
    + apply (processOperation_ready gpu_cos gpu_sin w mesh bg input output);
        [done|lia|done].
    + fold vc. rewrite <- Hpayload. cbn [gpubuffers].
      pose proof (ready_distinct _ _ _ _ _ Hready) as (_ & _ & Hne).
      rewrite lookup_insert_ne by done. apply lookup_insert_eq.
    + fold vc. rewrite <- Hpayload. cbn [submitted].
      apply elem_of_app. right. apply list_elem_of_here.
  - reflexivity.
  - reflexivity.
  - reflexivity.
  - reflexivity.
  - reflexivity.
  - reflexivity.
  - rewrite Hpayload. apply decode_uniform_payload.
    unfold u32_modulus in Hwrap. lia.
  - apply f32_of_bits_f32_bits, f32_of_number_valid.
Qed.

Lemma parameter_payload_layout_witness :
  length (le32 (operation_code "rotate") ++
          le32 (f32_bits (f32_of_number (number_lit 2.0))) ++
          le32 8 ++ le32 0) = 16%nat.
Proof.
  refine (proj1 (proj2 (parameter_payload_layout no_trig no_trig
                   app_World app_mesh app_bindGroup cube_f32
                   (replicate 24 f32_zero) "rotate" (number_lit 2.0) _ _ _))).
  - exact app_World_ready.
  - simpl. lia.
  - unfold u32_modulus. simpl. lia.
Defined.

(** C7: an operation name other than the four known ones does not make
    [processOperation] fail.  The call is the call with ["scale"] and the
    same [param], in every state; and in a ready state it returns normally
    with operation code 0 in the first word of the uniform buffer, one
    dispatch submitted, and every coordinate of the input times [param] in
    the output buffer. *)
Theorem unknown_operation_is_scale (gpu_cos gpu_sin : f32 → f32)
    (name : string) (param : number) (w : World) :
  name ≠ "scale" → name ≠ "rotate" →
  name ≠ "translate" → name ≠ "inflate" →
  ToUint32 (opIndex_of name) = 0%Z
  ∧ processOperation gpu_cos gpu_sin name param w
    = processOperation gpu_cos gpu_sin "scale" param w
  ∧ (∀ mesh bg input output,
       ready w mesh bg input output →
       (0 <= vertexCount mesh)%Z →
       (3 * vertexCount mesh <= u32_modulus)%Z →
       ∃ w' payload,
         processOperation gpu_cos gpu_sin name param w = (Ok tt, w')
         ∧ gpubuffers w' !! binding2 bg =
             Some {| gpu_size := 16; gpu_data := Bytes payload;
                     gpu_destroyed := false |}
         ∧ read_bytes payload 0 4 = le32 0
         ∧ operation (decode_Params payload) = 0%Z
         ∧ param_value (decode_Params payload) = f32_of_number param
         ∧ vertex_count (decode_Params payload) = vertexCount mesh
         ∧ submitted w' =
             submitted w ++
               [CmdWriteBuffer (binding2 bg) payload;
                CmdDispatch bg (Math_ceil (inject_Z (vertexCount mesh) / 64))]
         ∧ gpubuffers w' !! binding1 bg =
             Some {| gpu_size := 4 * length output;
                     gpu_data :=
                       Floats ((λ v, SFmul prec32 emax32 v (f32_of_number param))
                                 <$> input);
                     gpu_destroyed := false |}).
Proof.
  intros Hs Hr Ht Hi.
  assert (Hcode : ToUint32 (opIndex_of name) = 0%Z).
  { rewrite ToUint32_opIndex_of. unfold operation_code.
    repeat (case_decide; [done|]). done. }
  assert (Hop : operation_code name = 0%Z).
  { unfold operation_code. repeat (case_decide; [done|]). done. }
  split; [done|]. split.
  - unfold processOperation.
    fold (opIndex_of name). fold (opIndex_of "scale").
    rewrite (setUint32_ToUint32 _ _ (opIndex_of name) (opIndex_of "scale")); [done|].
    rewrite Hcode. reflexivity.
  - intros mesh bg input output Hready Hvc Hwrap.
    pose proof (processOperation_ready gpu_cos gpu_sin w mesh bg input output
                  name param Hready Hvc Hwrap) as Hrun.
    cbv zeta in Hrun.
    pose proof (ready_distinct _ _ _ _ _ Hready) as (Hd01 & Hd02 & Hd12).
    pose proof (ready_input_length _ _ _ _ _ Hready) as Hlin.
    assert (Hdec : decode_Params
                     (uniform_payload (opIndex_of name) param (vertexCount mesh))
                   = kernel_params name param (vertexCount mesh)).
    { apply decode_uniform_payload. unfold u32_modulus in Hwrap. lia. }
    eexists. eexists. split; [exact Hrun|]. cbn [gpubuffers submitted].
    split; [rewrite lookup_insert_ne by done; apply lookup_insert_eq|].
    split; [unfold uniform_payload; rewrite Hcode; reflexivity|].
    rewrite Hdec. cbn [kernel_params operation param_value vertex_count].
    split; [exact Hop|]. split; [reflexivity|]. split; [reflexivity|].
    split; [reflexivity|].
    rewrite lookup_insert_eq. do 3 f_equal.
    assert (Hn : length input = (3 * Z.to_nat (vertexCount mesh))%nat) by lia.
    rewrite <- (map_vertices_pointwise (λ v, SFmul prec32 emax32 v (f32_of_number param))
                  (Z.to_nat (vertexCount mesh)) input Hn).
    apply map_vertices_ext. intros [[x y] z]. unfold deform_vertex, deform.
    cbn [kernel_params operation param_value fst snd].
    rewrite Hop. reflexivity.
Qed.

Lemma unknown_operation_is_scale_witness :
  ToUint32 (opIndex_of "toString") = 0%Z
  ∧ processOperation no_trig no_trig "toString" (number_lit 2.0) app_World
    = processOperation no_trig no_trig "scale" (number_lit 2.0) app_World
  ∧ ∃ w' payload,
      processOperation no_trig no_trig "toString" (number_lit 2.0) app_World
        = (Ok tt, w')
      ∧ gpubuffers w' !! binding2 app_bindGroup =
          Some {| gpu_size := 16; gpu_data := Bytes payload;
                  gpu_destroyed := false |}
      ∧ operation (decode_Params payload) = 0%Z
      ∧ gpubuffers w' !! binding1 app_bindGroup =
          Some {| gpu_size := 4 * length (replicate 24 f32_zero);
                  gpu_data :=
                    Floats ((λ v, SFmul prec32 emax32 v
                                    (f32_of_number (number_lit 2.0)))
                              <$> cube_f32);
                  gpu_destroyed := false |}.
Proof.
  pose proof (unknown_operation_is_scale no_trig no_trig "toString"
                (number_lit 2.0) app_World) as H.
  destruct H as (H1 & H2 & H3); [discriminate..|].
  assert (Hwrap : (3 * vertexCount app_mesh <= u32_modulus)%Z)
    by (unfold u32_modulus; simpl; lia).
  destruct (H3 app_mesh app_bindGroup cube_f32 (replicate 24 f32_zero)
              app_World_ready ltac:(simpl; lia) Hwrap)
    as (w' & payload & Hrun & Hbuf & _ & Hop & _ & _ & _ & Hout).
  split; [exact H1|]. split; [exact H2|].
  exists w', payload. split; [exact Hrun|]. split; [exact Hbuf|].
  split; [exact Hop|exact Hout].
Defined.

(** ** The mesh and the fetched array *)

(** C8: no run of [processOperation] and [getProcessedVertices] calls
    changes [stlOps.meshData] or the contents of an array buffer that
    existed before the run, the vertex and index arrays of the mesh among
    them; every array [getProcessedVertices] returns is backed by an array
    buffer allocated by that call, so it is not the stored position array;
    and in a ready world that array holds a copy of the output buffer while
    the mapped range it was copied from is detached, so it is no view into
    the staging buffer. *)
Theorem mesh_kept_result_fresh (gpu_cos gpu_sin : f32 → f32)
    (cs : list call) (w : World) :
  let rs := (do_calls gpu_cos gpu_sin cs w).1 in
  let w' := (do_calls gpu_cos gpu_sin cs w).2 in
  meshData (stlOps w') = meshData (stlOps w)
  ∧ (∀ mesh v i,
       meshData (stlOps w) = Some mesh →
       arraybuffers w !! vertices mesh = Some v →
       arraybuffers w !! indices mesh = Some i →
       arraybuffers w' !! vertices mesh = Some v
       ∧ arraybuffers w' !! indices mesh = Some i)
  ∧ (∀ processed,
       Ok (Some processed) ∈ rs →
       arraybuffers w !! processed = None
       ∧ (∃ data, arraybuffers w' !! processed = Some (Floats data))
       ∧ (∀ mesh, meshData (stlOps w) = Some mesh →
            is_Some (arraybuffers w !! vertices mesh) →
            processed ≠ vertices mesh))
  ∧ (∀ mesh bg input output,
       ready w mesh bg input output →
       ∃ processed range w1,
         getProcessedVertices w = (Ok processed, w1)
         ∧ processed ≠ vertices mesh
         ∧ processed ≠ range
         ∧ arraybuffers w1 !! processed = Some (Floats output)
         ∧ arraybuffers w1 !! range = Some Detached
         ∧ arraybuffers w1 !! vertices mesh = Some (Floats input)).
Proof.
  intros rs w'.
  destruct (do_calls_kept gpu_cos gpu_sin cs w) as (Hs & Hk & Hr).
  fold rs w' in Hs, Hk, Hr.
  split; [by rewrite Hs|]. split; [|split].
  - intros mesh v i _ Hv Hi. split; by apply Hk.
  - intros processed Hin. destruct (Hr processed Hin) as (Hnone & Hdata).
    split; [done|]. split; [done|].
    intros mesh _ [v Hv] ->. congruence.
  - intros mesh bg input output Hready.
    pose proof (ready_vertices _ _ _ _ _ Hready) as Hv.
    destruct (getProcessedVertices_ready w mesh bg input output Hready)
      as (w1 & Hrun & Ha & _ & _).
    set (range := fresh (dom (arraybuffers w))) in *.
    set (processed := fresh (dom (<[range := Floats output]> (arraybuffers w)))) in *.
    assert (Hrange : arraybuffers w !! range = None) by apply fresh_lookup_None.
    assert (Hprocessed : <[range := Floats output]> (arraybuffers w) !! processed = None)
      by apply fresh_lookup_None.
    apply lookup_insert_None in Hprocessed as [Hprocessed Hne].
    exists processed, range, w1. split; [done|]. rewrite Ha.
    split; [congruence|]. split; [done|]. split; [|split].
    + rewrite lookup_insert_ne by done. apply lookup_insert_eq.
    + apply lookup_insert_eq.
    + rewrite !lookup_insert_ne by congruence. done.
Qed.

Lemma mesh_kept_result_fresh_witness :
  ∃ processed range w1,
    getProcessedVertices app_World = (Ok processed, w1)
    ∧ processed ≠ vertices app_mesh
    ∧ processed ≠ range
    ∧ arraybuffers w1 !! processed = Some (Floats (replicate 24 f32_zero))
    ∧ arraybuffers w1 !! range = Some Detached
    ∧ arraybuffers w1 !! vertices app_mesh = Some (Floats cube_f32).
Proof.
  refine (proj2 (proj2 (proj2 (mesh_kept_result_fresh no_trig no_trig [] app_World)))
            app_mesh app_bindGroup cube_f32 (replicate 24 f32_zero) _).
  exact app_World_ready.
Defined.

(** ** Surfaces without area *)

(** C9, as the code has it: a resize of the surface to zero area returns
    without an exception and changes nothing but the client size: the canvas
    size, the depth texture and the log are kept.  [render] returns with the
    renderer unchanged, no matrix built and nothing submitted, whenever
    there is no depth texture or the canvas width is 0, and with a device it
    writes the matrix and submits a pass otherwise.  So [render] is idle
    through zero-area resizes, frames and mesh updates for a renderer
    initialised on a surface without area, until a resize to a non-zero
    size; but once a resize to a non-zero size has created the depth
    texture, later zero-area resizes keep it, and [render] keeps writing the
    matrix and submitting a pass, on the surface of the last non-zero
    size. *)
Theorem zero_area_resize_keeps_render_idle {Matrix : Type}
    (buildMVP : Renderer Matrix → Matrix) (r : Renderer Matrix)
    (w h : Z) (now : number) :
  (w = 0 ∨ h = 0)%Z →
  (resizeCanvas (layout w h r) = inr (layout w h r)
   ∧ width (canvas (layout w h r)) = width (canvas r)
   ∧ height (canvas (layout w h r)) = height (canvas r)
   ∧ depthTexture (layout w h r) = depthTexture r
   ∧ gpu_calls (layout w h r) = gpu_calls r)
  ∧ (∀ r0 : Renderer Matrix,
       depthTexture r0 = None ∨ width (canvas r0) = 0%Z →
       render buildMVP now r0 = inr r0)
  ∧ (∀ r0 : Renderer Matrix,
       is_Some (device r0) →
       depthTexture r0 ≠ None →
       width (canvas r0) ≠ 0%Z →
       ∃ r2 draw,
         render buildMVP now r0 = inr r2
         ∧ gpu_calls r2 =
             gpu_calls r0 ++ [WriteMVP (buildMVP r0); SubmitRenderPass draw])
  ∧ (∀ (c : Canvas) (fpsEl : bool) (t0 : number) (es : list event),
       (clientWidth c = 0 ∨ clientHeight c = 0)%Z →
       forallb no_area es = true →
       ∃ r0 r',
         init (new_Renderer c fpsEl t0) = inr r0
         ∧ handle_all buildMVP es r0 = inr r'
         ∧ depthTexture r' = None
         ∧ gpu_calls r' = []
         ∧ render buildMVP now r' = inr r')
  ∧ (∀ (w1 h1 : Z) (zs : list (Z * Z)),
       w1 ≠ 0%Z → h1 ≠ 0%Z → is_Some (device r) →
       Forall (λ z, z.1 = 0 ∨ z.2 = 0)%Z zs →
       ∃ r1 r1' r2 draw,
         resizeCanvas (layout w1 h1 r) = inr r1
         ∧ depthTexture r1 = Some (w1, h1)
         ∧ width (canvas r1) = w1
         ∧ height (canvas r1) = h1
         ∧ handle_all buildMVP ((λ z, SurfaceResized z.1 z.2) <$> zs) r1 = inr r1'
         ∧ depthTexture r1' = Some (w1, h1)
         ∧ width (canvas r1') = w1
         ∧ height (canvas r1') = h1
         ∧ gpu_calls r1' = gpu_calls r1
         ∧ render buildMVP now r1' = inr r2
         ∧ gpu_calls r2 =
             gpu_calls r1 ++ [WriteMVP (buildMVP r1'); SubmitRenderPass draw]).
Proof.
  intros Hzero.
  assert (Hdraws : ∀ r0 : Renderer Matrix,
    is_Some (device r0) → depthTexture r0 ≠ None → width (canvas r0) ≠ 0%Z →
    ∃ r2 draw,
      render buildMVP now r0 = inr r2
      ∧ gpu_calls r2 = gpu_calls r0 ++ [WriteMVP (buildMVP r0); SubmitRenderPass draw]).
  { intros r0 [d Hdev] Hd Hw. unfold render. rewrite Hdev.
    rewrite bool_decide_eq_false_2 by done.
    apply Z.eqb_neq in Hw. rewrite Hw. cbn [orb].
    destruct (fps_due now (lastFpsTime r0));
      (eexists; eexists; split; reflexivity). }
  split; [|split; [|split; [|split]]].
  - split; [by apply resizeCanvas_zero|]. by repeat split.
  - intros r0. apply render_idle.
  - exact Hdraws.
  - intros c fpsEl t0 es Hc Hes.
    set (r0 := with_device (Some tt) (new_Renderer (Matrix := Matrix) c fpsEl t0)).
    assert (Hinit : init (new_Renderer c fpsEl t0) = inr r0).
    { unfold init, resizeCanvas. fold r0. cbn [r0 with_device canvas new_Renderer].
      destruct Hc as [-> | ->]; [done|]. by rewrite orb_true_r. }
    destruct (handle_all_idle buildMVP es r0 Hes eq_refl ltac:(by eexists))
      as (r' & Hrun & Hd & _ & Hcalls & _).
    exists r0, r'. split; [done|]. split; [done|]. split; [done|]. split; [done|].
    apply render_idle. by left.
  - intros w1 h1 zs Hw1 Hh1 [d Hdev] Hzs.
    assert (Hresize : ∃ r1, resizeCanvas (layout w1 h1 r) = inr r1
                            ∧ depthTexture r1 = Some (w1, h1)
                            ∧ width (canvas r1) = w1 ∧ height (canvas r1) = h1
                            ∧ device r1 = Some d).
    { unfold resizeCanvas.
      cbn [layout with_canvas canvas clientWidth clientHeight device depthTexture].
      pose proof Hw1 as Hw1'. pose proof Hh1 as Hh1'.
      apply Z.eqb_neq in Hw1'. apply Z.eqb_neq in Hh1'.
      rewrite Hw1', Hh1', Hdev. cbn [orb]. eexists. split; [reflexivity|]. done. }
    destruct Hresize as (r1 & Hr1 & Hd & Hw & Hh & Hdev1).
    destruct (zero_area_resizes_keep buildMVP zs r1 Hzs)
      as (r1' & Hrun & Hd' & Hw' & Hh' & Hdev' & _ & _ & _ & Hcalls').
    destruct (Hdraws r1') as (r2 & draw & Hr2 & Hcalls2).
    { rewrite Hdev', Hdev1. by eexists. }
    { by rewrite Hd', Hd. }
    { by rewrite Hw', Hw. }
    exists r1, r1', r2, draw.
    split; [done|]. split; [done|]. split; [done|]. split; [done|].
    split; [done|]. split; [by rewrite Hd'|]. split; [by rewrite Hw'|].
    split; [by rewrite Hh'|]. split; [done|]. split; [done|].
    by rewrite Hcalls2, Hcalls'.
Qed.

Lemma zero_area_resize_keeps_render_idle_witness :
  resizeCanvas
    (layout 0 150
       (new_Renderer (Matrix := unit)
          {| clientWidth := 300; clientHeight := 150; width := 300; height := 150 |}
          true (number_lit 0)))
  = inr (layout 0 150
           (new_Renderer
              {| clientWidth := 300; clientHeight := 150; width := 300; height := 150 |}
              true (number_lit 0))).
Proof.
  refine (proj1 (proj1 (zero_area_resize_keeps_render_idle (λ _, tt)
                          (new_Renderer {| clientWidth := 300; clientHeight := 150;
                                           width := 300; height := 150 |}
                             true (number_lit 0))
                          0 150 (number_lit 0) _))).
  left. reflexivity.
Defined.

(** C9 as stated fails: a renderer initialised on a canvas of 300 by 150
    has a depth texture; the resize to zero area that follows keeps it, and
    the next [render] writes the matrix and submits a pass.  So a zero-area
    resize does not in general leave [render] without effect. *)
Lemma zero_area_resize_after_sizing_counterexample :
  ¬ (∀ (r r' r'' : Renderer unit) (w h : Z) (now : number),
       (w = 0 ∨ h = 0)%Z →
       is_Some (device r) →
       handle (λ _, tt) (SurfaceResized w h) r = inr r' →
       render (λ _, tt) now r' = inr r'' →
       gpu_calls r'' = gpu_calls r')
  ∧ ∃ r0 : Renderer unit,
      init (new_Renderer {| clientWidth := 300; clientHeight := 150;
                            width := 300; height := 150 |} true (number_lit 0))
        = inr r0
      ∧ gpu_calls r0 = [CreateDepthTexture 300 150]
      ∧ ∃ r1 r2,
          handle_all (λ _, tt) [SurfaceResized 0 0; FrameDue (number_lit 5)] r0 = inr r2
          ∧ handle (λ _, tt) (SurfaceResized 0 0) r0 = inr r1
          ∧ depthTexture r1 = Some (300, 150)%Z
          ∧ gpu_calls r2 =
              [CreateDepthTexture 300 150; WriteMVP tt; SubmitRenderPass None].
Proof.
  set (c := {| clientWidth := 300; clientHeight := 150; width := 300; height := 150 |}).
  set (r0 := with_depthTexture (Some (300, 150)%Z) [CreateDepthTexture 300 150]
               (with_canvas c (with_device (Some tt)
                  (new_Renderer (Matrix := unit) c true (number_lit 0))))).
  assert (Hinit : init (new_Renderer c true (number_lit 0)) = inr r0) by reflexivity.
  assert (Hresize : handle (λ _, tt) (SurfaceResized 0 0) r0 = inr (layout 0 0 r0))
    by reflexivity.
  assert (Hrender : ∃ r2, render (λ _, tt) (number_lit 5) (layout 0 0 r0) = inr r2
            ∧ gpu_calls r2 =
                [CreateDepthTexture 300 150; WriteMVP tt; SubmitRenderPass None]).
  { eexists. split; [vm_compute; reflexivity|]. reflexivity. }
  destruct Hrender as (r2 & Hr2 & Hcalls).
  split.
  - intros Hclaim.
    specialize (Hclaim r0 (layout 0 0 r0) r2 0%Z 0%Z (number_lit 5)
                  (or_introl eq_refl) ltac:(by eexists) Hresize Hr2).
    rewrite Hcalls in Hclaim. discriminate Hclaim.
  - exists r0. split; [exact Hinit|]. split; [reflexivity|].
    exists (layout 0 0 r0), r2. split; [|split; [exact Hresize|split; [reflexivity|exact Hcalls]]].
    cbn [handle_all]. rewrite Hresize. cbn [handle]. by rewrite Hr2.
Qed.

(** * Further properties of the code *)

(** ** More on the kernel *)

(** Helper: the sum of angles. *)
Lemma rotate_plus_R (a b x y z : R) (vc : Z) :
  deform_vertex {| operation := 1; param_value := b; vertex_count := vc; _pad := 0 |}
    (deform_vertex {| operation := 1; param_value := a; vertex_count := vc; _pad := 0 |}
       (x, y, z))
  = deform_vertex {| operation := 1; param_value := (a + b)%R; vertex_count := vc; _pad := 0 |}
      (x, y, z).
Proof.
  unfold deform_vertex. simpl. rewrite !rotate_R. simpl.
  replace ((a + b) * Q2R 3.14159265)%R
    with (a * Q2R 3.14159265 + b * Q2R 3.14159265)%R by ring.
  set (s := (a * Q2R 3.14159265)%R). set (t := (b * Q2R 3.14159265)%R).
  rewrite cos_plus, sin_plus.
  f_equal; [f_equal|]; ring.
Qed.

(** X1: for an operation code above 3 none of the four branches of the
    kernel applies: every vertex is stored as it was loaded, and a dispatch
    copies the position array to the output buffer. *)
Theorem other_operation_codes_copy {F : Type} `{Scalar F}
    (input out0 : list F) (params : Params F) :
  (3 < operation params)%Z →
  (0 <= vertex_count params)%Z →
  (3 * vertex_count params <= u32_modulus)%Z →
  Z.of_nat (length input) = (3 * vertex_count params)%Z →
  Z.of_nat (length out0) = (3 * vertex_count params)%Z →
  (∀ x y z, deform params x y z = (x, y, z))
  ∧ dispatchWorkgroups input params
      (Math_ceil (inject_Z (vertex_count params) / 64))
      {| output_verts := out0; journal := [] |}
    = Some (tt, {| output_verts := input;
                   journal := dispatch_accesses 0 (vertex_count params) |}).
Proof.
  intros Hop Hvc Hwrap Hin Hout.
  assert (Hcopy : ∀ x y z, deform params x y z = (x, y, z)).
  { intros x y z. unfold deform.
    repeat match goal with
           | |- context [(operation params =? ?k)%Z] =>
               destruct (Z.eqb_spec (operation params) k); [lia|]
           end; reflexivity. }
  split; [exact Hcopy|].
  rewrite (compute_pass_pointwise (λ v, v) input params out0) by auto.
  by rewrite list_fmap_id.
Qed.

Lemma other_operation_codes_copy_witness :
  dispatchWorkgroups (H := f32_scalar no_trig no_trig) cube_f32
      {| operation := 7; param_value := f32_lit 2.0; vertex_count := 8; _pad := 0 |}
      (Math_ceil (inject_Z 8 / 64))
      {| output_verts := replicate 24 f32_zero; journal := [] |}
    = Some (tt, {| output_verts := cube_f32; journal := dispatch_accesses 0 8 |}).
Proof.
  refine (proj2 (other_operation_codes_copy (H := f32_scalar no_trig no_trig)
                   cube_f32 (replicate 24 f32_zero)
                   {| operation := 7; param_value := f32_lit 2.0;
                      vertex_count := 8; _pad := 0 |} _ _ _ _ _)).
  - simpl. lia.
  - simpl. lia.
  - unfold u32_modulus. simpl. lia.
  - reflexivity.
  - reflexivity.
Defined.

(** X2: over the reals, Rotate (op 1) leaves the y coordinate of a vertex,
    its distance from the y axis and its distance from the origin as they
    are, for every [param]. *)
Theorem rotate_keeps_height_and_radius (p x y z : R) (vc : Z) :
  let v' := deform {| operation := 1; param_value := p;
                      vertex_count := vc; _pad := 0 |} x y z in
  v'.1.2 = y
  ∧ (v'.1.1 * v'.1.1 + v'.2 * v'.2 = x * x + z * z)%R
  ∧ sqrt (v'.1.1 * v'.1.1 + v'.1.2 * v'.1.2 + v'.2 * v'.2)
    = sqrt (x * x + y * y + z * z).
Proof.
  intros v'. unfold v'. rewrite rotate_R. cbn [fst snd].
  set (t := (p * Q2R 3.14159265)%R).
  pose proof (sin2_cos2 t) as Hsc. unfold Rsqr in Hsc.
  assert (Hxz : ((x * cos t + z * sin t) * (x * cos t + z * sin t) +
                 (- x * sin t + z * cos t) * (- x * sin t + z * cos t)
                 = x * x + z * z)%R).
  { replace ((x * cos t + z * sin t) * (x * cos t + z * sin t) +
             (- x * sin t + z * cos t) * (- x * sin t + z * cos t))%R
      with ((x * x + z * z) * (sin t * sin t + cos t * cos t))%R by ring.
    rewrite Hsc. ring. }
  split; [done|]. split; [exact Hxz|].
  f_equal.
  replace ((x * cos t + z * sin t) * (x * cos t + z * sin t) + y * y +
           (- x * sin t + z * cos t) * (- x * sin t + z * cos t))%R
    with (((x * cos t + z * sin t) * (x * cos t + z * sin t) +
           (- x * sin t + z * cos t) * (- x * sin t + z * cos t)) + y * y)%R by ring.
  rewrite Hxz. ring.
Qed.

(** X3: over the reals, Rotate with [param] 0 is the identity, and Rotate
    with [param] p followed by Rotate with [param] q is Rotate with
    [param] p + q, on a vertex and on a position array run through two
    dispatches. *)
Theorem rotations_add_up (p q : R) (input out0 out1 : list R) (vc : Z) :
  (0 <= vc)%Z →
  (3 * vc <= u32_modulus)%Z →
  Z.of_nat (length input) = (3 * vc)%Z →
  Z.of_nat (length out0) = (3 * vc)%Z →
  Z.of_nat (length out1) = (3 * vc)%Z →
  let rotate p := {| operation := 1; param_value := p;
                     vertex_count := vc; _pad := 0 |} in
  let workgroups := Math_ceil (inject_Z vc / 64) in
  (∀ x y z : R, deform (rotate 0%R) x y z = (x, y, z))
  ∧ (∀ x y z : R,
       deform_vertex (rotate q) (deform_vertex (rotate p) (x, y, z))
       = deform_vertex (rotate (p + q)%R) (x, y, z))
  ∧ (∃ once twice : list R,
       dispatchWorkgroups input (rotate p) workgroups
           {| output_verts := out0; journal := [] |}
         = Some (tt, {| output_verts := once; journal := dispatch_accesses 0 vc |})
       ∧ dispatchWorkgroups once (rotate q) workgroups
           {| output_verts := out1; journal := [] |}
         = Some (tt, {| output_verts := twice; journal := dispatch_accesses 0 vc |})
       ∧ dispatchWorkgroups input (rotate (p + q)%R) workgroups
           {| output_verts := out0; journal := [] |}
         = Some (tt, {| output_verts := twice; journal := dispatch_accesses 0 vc |})).
Proof.
  intros Hvc Hwrap Hin Hout0 Hout1 rotate workgroups.
  split; [|split].
  - intros x y z. unfold rotate. rewrite rotate_R. cbn zeta.
    rewrite Rmult_0_l, cos_0, sin_0. f_equal; [f_equal|]; ring.
  - intros x y z. apply rotate_plus_R.
  - assert (Hn : length input = (3 * Z.to_nat vc)%nat) by lia.
    exists (map_vertices (deform_vertex (rotate p)) input),
           (map_vertices (deform_vertex (rotate (p + q)%R)) input).
    split; [|split].
    + by apply (compute_pass_map_vertices input (rotate p) out0).
    + rewrite (compute_pass_map_vertices _ (rotate q) out1); try done.
      * do 3 f_equal. rewrite map_vertices_compose.
        apply map_vertices_ext. intros [[x y] z]. apply rotate_plus_R.
      * simpl. rewrite (length_map_vertices _ _ _ Hn). lia.
    + by apply (compute_pass_map_vertices input (rotate (p + q)%R) out0).
Qed.

Lemma rotations_add_up_witness :
  ∃ once twice : list R,
    dispatchWorkgroups [1; 2; 3]%R
        {| operation := 1; param_value := (1 / 4)%R; vertex_count := 1; _pad := 0 |}
        (Math_ceil (inject_Z 1 / 64))
        {| output_verts := [0; 0; 0]%R; journal := [] |}
      = Some (tt, {| output_verts := once; journal := dispatch_accesses 0 1 |})
    ∧ dispatchWorkgroups once
        {| operation := 1; param_value := (1 / 2)%R; vertex_count := 1; _pad := 0 |}
        (Math_ceil (inject_Z 1 / 64))
        {| output_verts := [0; 0; 0]%R; journal := [] |}
      = Some (tt, {| output_verts := twice; journal := dispatch_accesses 0 1 |})
    ∧ dispatchWorkgroups [1; 2; 3]%R
        {| operation := 1; param_value := (1 / 4 + 1 / 2)%R; vertex_count := 1;
           _pad := 0 |}
        (Math_ceil (inject_Z 1 / 64))
        {| output_verts := [0; 0; 0]%R; journal := [] |}
      = Some (tt, {| output_verts := twice; journal := dispatch_accesses 0 1 |}).
Proof.
  refine (proj2 (proj2 (rotations_add_up (1 / 4) (1 / 2) [1; 2; 3]%R [0; 0; 0]%R
                          [0; 0; 0]%R 1 _ _ _ _ _))).
  - lia.
  - unfold u32_modulus. lia.
  - reflexivity.
  - reflexivity.
  - reflexivity.
Defined.

(** Inflate *)

Lemma Rmin_Rmax_bounds (p : R) : (0 <= Rmin (Rmax p 0) 2 <= 2)%R.
Proof. unfold Rmin, Rmax. repeat destruct Rle_dec; lra. Qed.

Lemma Rmin_Rmax_above (p : R) : (2 <= p)%R → Rmin (Rmax p 0) 2 = 2%R.
Proof. intros Hp. unfold Rmin, Rmax. repeat destruct Rle_dec; lra. Qed.

Lemma Rmin_Rmax_below (p : R) : (p <= 0)%R → Rmin (Rmax p 0) 2 = 0%R.
Proof. intros Hp. unfold Rmin, Rmax. repeat destruct Rle_dec; lra. Qed.

Lemma Rmin_Rmax_between (p : R) : (0 <= p <= 2)%R → Rmin (Rmax p 0) 2 = p.
Proof. intros Hp. unfold Rmin, Rmax. repeat destruct Rle_dec; lra. Qed.

(** X4: over the reals, Inflate (op 3) moves a vertex farther than 0.001
    from the origin along the line through the origin: the result is the
    vertex times k, with k*len = len + (0.5 - len)*t for
    t = clamp(param, 0, 2) - 1; for [param] at least 1 the factor k is
    positive and the distance of the vertex to the sphere of radius 0.5 is
    multiplied by 1 - t, so it does not grow. *)
Theorem inflate_moves_along_the_ray (param x y z : R) (vc : Z) :
  let len := sqrt (x * x + y * y + z * z) in
  let t := (Rmin (Rmax param 0) 2 - 1)%R in
  let k := (1 + (1 / 2 / len - 1) * t)%R in
  let v' := deform {| operation := 3; param_value := param;
                      vertex_count := vc; _pad := 0 |} x y z in
  let len' := sqrt (v'.1.1 * v'.1.1 + v'.1.2 * v'.1.2 + v'.2 * v'.2) in
  (1 / 1000 < len)%R →
  v' = ((k * x)%R, (k * y)%R, (k * z)%R)
  ∧ (k * len = len + (1 / 2 - len) * t)%R
  ∧ (-1 <= t <= 1)%R
  ∧ ((1 <= param)%R →
       (0 < k)%R
       ∧ (len' - 1 / 2 = (len - 1 / 2) * (1 - t))%R
       ∧ (Rabs (len' - 1 / 2) <= Rabs (len - 1 / 2))%R).
Proof.
  intros len t k v' len' Hlen.
  assert (Hpos : (0 < len)%R) by lra.
  assert (Hv : v' = ((k * x)%R, (k * y)%R, (k * z)%R)).
  { unfold v'. rewrite deform_inflate_R by exact Hlen. fold len. fold t. unfold k.
    f_equal; [f_equal|]; field; lra. }
  assert (Hk : (k * len = len + (1 / 2 - len) * t)%R).
  { unfold k. field. lra. }
  pose proof (Rmin_Rmax_bounds param) as Hb.
  split; [exact Hv|]. split; [exact Hk|]. split; [unfold t; lra|].
  intros Hp.
  assert (Ht : (0 <= t <= 1)%R).
  { unfold t. unfold Rmin, Rmax in *. repeat destruct Rle_dec; lra. }
  assert (Hkpos : (0 < k)%R).
  { assert (Hkl : (0 < k * len)%R) by (rewrite Hk; nra).
    destruct (Rlt_le_dec 0 k) as [|Hle]; [done|]. nra. }
  assert (Hlen' : len' = (k * len)%R).
  { unfold len'. rewrite Hv. cbn [fst snd]. unfold len.
    apply sqrt_scaled. lra. }
  split; [exact Hkpos|].
  assert (Heq : (len' - 1 / 2 = (len - 1 / 2) * (1 - t))%R).
  { rewrite Hlen', Hk. ring. }
  split; [exact Heq|].
  rewrite Heq, Rabs_mult. rewrite (Rabs_right (1 - t)) by lra.
  pose proof (Rabs_pos (len - 1 / 2)). nra.
Qed.

Lemma inflate_moves_along_the_ray_witness :
  deform {| operation := 3; param_value := (3 / 2)%R;
            vertex_count := 1; _pad := 0 |} 1%R 0%R 0%R
  = (((1 + (1 / 2 / sqrt (1 * 1 + 0 * 0 + 0 * 0) - 1) * (Rmin (Rmax (3 / 2) 0) 2 - 1)) * 1)%R,
     ((1 + (1 / 2 / sqrt (1 * 1 + 0 * 0 + 0 * 0) - 1) * (Rmin (Rmax (3 / 2) 0) 2 - 1)) * 0)%R,
     ((1 + (1 / 2 / sqrt (1 * 1 + 0 * 0 + 0 * 0) - 1) * (Rmin (Rmax (3 / 2) 0) 2 - 1)) * 0)%R).
Proof.
  refine (proj1 (inflate_moves_along_the_ray (3 / 2) 1 0 0 1 _)).
  replace (1 * 1 + 0 * 0 + 0 * 0)%R with 1%R by lra.
  rewrite sqrt_1. lra.
Defined.

Lemma SFltb_two_positive (p : f32) :
  SFltb (f32_lit 2.0) p = true → SFltb p (f32_lit 0.0) = false.
Proof.
  destruct p as [s|s| |s m e]; try done.
  - by destruct s.
  - destruct s; [done|]. done.
Qed.

(** X5: Inflate clamps its parameter: every [param] of 2 or more acts as 2
    and every [param] of 0 or less acts as 0, over the reals and in binary32
    (there for [param] above 2.0, +infinity included, and below 0.0). *)
Theorem inflate_saturates (p : R) (q : f32) (gpu_cos gpu_sin : f32 → f32) (vc : Z) :
  let inflate {F} (v : F) : Params F :=
    {| operation := 3; param_value := v; vertex_count := vc; _pad := 0 |} in
  ((2 <= p)%R → ∀ x y z : R,
     deform (inflate p) x y z = deform (inflate (lit 2.0)) x y z)
  ∧ ((p <= 0)%R → ∀ x y z : R,
       deform (inflate p) x y z = deform (inflate (lit 0.0)) x y z)
  ∧ (SFltb (f32_lit 2.0) q = true → ∀ x y z : f32,
       deform (H := f32_scalar gpu_cos gpu_sin) (inflate q) x y z
       = deform (H := f32_scalar gpu_cos gpu_sin) (inflate (f32_lit 2.0)) x y z)
  ∧ (SFltb q (f32_lit 0.0) = true → ∀ x y z : f32,
       deform (H := f32_scalar gpu_cos gpu_sin) (inflate q) x y z
       = deform (H := f32_scalar gpu_cos gpu_sin) (inflate (f32_lit 0.0)) x y z).
Proof.
  intros inflate. split; [|split; [|split]].
  - intros Hp x y z. unfold inflate.
    destruct (Rlt_le_dec (1 / 1000) (sqrt (x * x + y * y + z * z))) as [Hlt|Hle].
    + rewrite !deform_inflate_R by exact Hlt.
      simpl. rewrite Q2R_lit_two, Rmin_Rmax_two, Rmin_Rmax_above by done. done.
    + by rewrite !deform_inflate_R_guarded.
  - intros Hp x y z. unfold inflate.
    destruct (Rlt_le_dec (1 / 1000) (sqrt (x * x + y * y + z * z))) as [Hlt|Hle].
    + rewrite !deform_inflate_R by exact Hlt.
      simpl. rewrite Q2R_lit_zero, Rmin_Rmax_zero, Rmin_Rmax_below by done. done.
    + by rewrite !deform_inflate_R_guarded.
  - intros Hq x y z. unfold inflate, deform. cbn [operation param_value].
    change (3 =? 0)%Z with false. change (3 =? 1)%Z with false.
    change (3 =? 2)%Z with false. change (3 =? 3)%Z with true. cbv iota.
    assert (Hc : @clamp f32 (f32_scalar gpu_cos gpu_sin) q
                   (@lit f32 (f32_scalar gpu_cos gpu_sin) 0.0)
                   (@lit f32 (f32_scalar gpu_cos gpu_sin) 2.0)
                 = @clamp f32 (f32_scalar gpu_cos gpu_sin) (f32_lit 2.0)
                     (f32_lit 0.0) (f32_lit 2.0)).
    { unfold clamp, fmin, fmax. cbn [flt lit f32_scalar].
      rewrite (SFltb_two_positive q Hq). rewrite Hq. reflexivity. }
    cbv zeta. rewrite Hc. reflexivity.
  - intros Hq x y z. unfold inflate, deform. cbn [operation param_value].
    change (3 =? 0)%Z with false. change (3 =? 1)%Z with false.
    change (3 =? 2)%Z with false. change (3 =? 3)%Z with true. cbv iota.
    assert (Hc : @clamp f32 (f32_scalar gpu_cos gpu_sin) q
                   (@lit f32 (f32_scalar gpu_cos gpu_sin) 0.0)
                   (@lit f32 (f32_scalar gpu_cos gpu_sin) 2.0)
                 = @clamp f32 (f32_scalar gpu_cos gpu_sin) (f32_lit 0.0)
                     (f32_lit 0.0) (f32_lit 2.0)).
    { unfold clamp, fmin, fmax. cbn [flt lit f32_scalar].
      rewrite Hq. reflexivity. }
    cbv zeta. rewrite Hc. reflexivity.
Qed.

(** ** Clicks on Process and Reset *)

Lemma elem_of_live_buffers (w : World) (h : loc) :
  h ∈ live_buffers w ↔
  ∃ b, gpubuffers w !! h = Some b ∧ gpu_destroyed b = false.
Proof.
  unfold live_buffers. rewrite list_elem_of_bind. split.
  - intros ([h' b] & Hin & Hhb). apply elem_of_map_to_list in Hhb.
    simpl in Hin. destruct (gpu_destroyed b) eqn:E.
    + by apply elem_of_nil in Hin.
    + apply list_elem_of_singleton in Hin as ->. eauto.
  - intros (b & Hb & Hd). exists (h, b). split.
    + simpl. rewrite Hd. apply list_elem_of_singleton. done.
    + by apply elem_of_map_to_list.
Qed.

Lemma generateCubeMesh_run (w : World) :
  let positions := fresh (dom (arraybuffers w)) in
  let indices := fresh (dom (<[positions := Floats cube_f32]> (arraybuffers w))) in
  generateCubeMesh w =
    (Ok tt,
     {| arraybuffers :=
          <[indices := Words cube_indices]>
            (<[positions := Floats cube_f32]> (arraybuffers w));
        gpubuffers := gpubuffers w;
        submitted := submitted w;
        stlOps := with_meshData
                    (Some {| vertices := positions; indices := indices;
                             vertexCount := 8 |}) (stlOps w) |}).
Proof. reflexivity. Qed.

Lemma destroy_if_set_run (o : option loc) (w : World) :
  destroy_if_set o w =
    (Ok tt, {| arraybuffers := arraybuffers w;
               gpubuffers := destroy_in o (gpubuffers w);
               submitted := submitted w; stlOps := stlOps w |}).
Proof.
  destruct w as [A G sub s]. destruct o as [h|]; [|done].
  unfold destroy_if_set, buffer_destroy, destroy_in. simpl.
  by destruct (G !! h).
Qed.

Lemma dom_destroy_in (o : option loc) (G : gmap loc GPUBuffer) :
  dom (destroy_in o G) = dom G.
Proof.
  destruct o as [h|]; [|done]. unfold destroy_in.
  destruct (G !! h) as [b|] eqn:E; [|done].
  rewrite dom_insert_L. apply elem_of_dom_2 in E.
  apply subseteq_union_1_L. by apply singleton_subseteq_l.
Qed.

Lemma createBuffers_run (w : World) (mesh : Mesh) (vertexData : storage) :
  meshData (stlOps w) = Some mesh →
  arraybuffers w !! vertices mesh = Some vertexData →
  let G3 := destroy_in (uniformBuffer (stlOps w))
              (destroy_in (outputBuffer (stlOps w))
                 (destroy_in (inputBuffer (stlOps w)) (gpubuffers w))) in
  let size := byteLength vertexData in
  let h0 := fresh (dom G3) in
  let G4 := <[h0 := {| gpu_size := size; gpu_data := vertexData;
                       gpu_destroyed := false |}]> G3 in
  let range := fresh (dom (arraybuffers w)) in
  let h1 := fresh (dom G4) in
  let G5 := <[h1 := {| gpu_size := size;
                       gpu_data := Floats (replicate (size / 4) f32_zero);
                       gpu_destroyed := false |}]> G4 in
  let h2 := fresh (dom G5) in
  let G6 := <[h2 := {| gpu_size := 16; gpu_data := Bytes (replicate 16 0%Z);
                       gpu_destroyed := false |}]> G5 in
  createBuffers w =
    (Ok tt,
     {| arraybuffers := <[range := Detached]> (arraybuffers w);
        gpubuffers := G6;
        submitted := submitted w;
        stlOps := with_uniformBuffer (Some h2)
                    (with_outputBuffer (Some h1)
                       (with_inputBuffer (Some h0) (stlOps w))) |}).
Proof.
  intros Hmesh Hv. cbv zeta.
  destruct w as [A G sub s]. simpl in *.
  unfold createBuffers.
  unfold mbind at 1, Host_bind at 1, this at 1. cbn [stlOps].
  rewrite Hmesh.
  unfold mbind at 1, Host_bind at 1, nonnull at 1, mret at 1, Host_ret at 1.
  unfold mbind at 1, Host_bind at 1, get_ArrayBuffer at 1. cbn [arraybuffers].
  rewrite Hv.
  unfold mbind at 1, Host_bind at 1. rewrite destroy_if_set_run.
  unfold mbind at 1, Host_bind at 1. rewrite destroy_if_set_run.
  unfold mbind at 1, Host_bind at 1. rewrite destroy_if_set_run.
  cbn [arraybuffers gpubuffers submitted stlOps].
  set (G3 := destroy_in (uniformBuffer s) _).
  unfold createBuffer_mapped, device_createBuffer, new_ArrayBuffer,
    get_GPUBuffer, set_GPUBuffer, set_ArrayBuffer, update_this, this, set_this,
    mbind, Host_bind, mret, Host_ret.
  cbn [arraybuffers gpubuffers submitted stlOps].
  rewrite lookup_insert_eq. cbn [gpu_destroyed gpu_size].
  cbn [arraybuffers gpubuffers submitted stlOps].
  rewrite !insert_insert_eq.
  reflexivity.
Qed.

Lemma setupBindGroup_run (w : World) (b0 b1 b2 : loc) :
  computePipeline (stlOps w) = Some tt →
  inputBuffer (stlOps w) = Some b0 →
  outputBuffer (stlOps w) = Some b1 →
  uniformBuffer (stlOps w) = Some b2 →
  setupBindGroup w =
    (Ok tt,
     {| arraybuffers := arraybuffers w; gpubuffers := gpubuffers w;
        submitted := submitted w;
        stlOps := with_bindGroup
                    (Some {| binding0 := b0; binding1 := b1; binding2 := b2 |})
                    (stlOps w) |}).
Proof.
  intros Hp H0 H1 H2. destruct w as [A G sub s]. simpl in *.
  unfold setupBindGroup, update_this, this, set_this, nonnull,
    mbind, Host_bind, mret, Host_ret. simpl.
  by rewrite Hp, H0, H1, H2.
Qed.

Lemma lookup_destroy_in_live (o : option loc) (G : gmap loc GPUBuffer) h b :
  destroy_in o G !! h = Some b → gpu_destroyed b = false →
  G !! h = Some b ∧ o ≠ Some h.
Proof.
  destruct o as [k|]; [|done]. unfold destroy_in.
  destruct (G !! k) as [bk|] eqn:E.
  - destruct (decide (k = h)) as [->|Hne].
    + rewrite lookup_insert_eq. intros [= <-]. done.
    + rewrite lookup_insert_ne by done. intros Hb _. split; [done|congruence].
  - intros Hb _. split; [done|]. intros [= ->]. congruence.
Qed.

Lemma lookup_destroy_in_dead (G : gmap loc GPUBuffer) h b :
  G !! h = Some b →
  destroy_in (Some h) G !! h =
    Some {| gpu_size := gpu_size b; gpu_data := Detached; gpu_destroyed := true |}.
Proof. intros Hb. unfold destroy_in. rewrite Hb. apply lookup_insert_eq. Qed.

Lemma lookup_destroy_in_ne (G : gmap loc GPUBuffer) k h :
  k ≠ h → destroy_in (Some k) G !! h = G !! h.
Proof.
  intros Hne. unfold destroy_in. destruct (G !! k); [|done].
  by rewrite lookup_insert_ne.
Qed.

Lemma reset_click_settled w mesh bg input output :
  settled w mesh bg input output →
  let positions := fresh (dom (arraybuffers w)) in
  let indices := fresh (dom (<[positions := Floats cube_f32]> (arraybuffers w))) in
  let mesh' := {| vertices := positions; indices := indices; vertexCount := 8 |} in
  ∃ w' bg',
    reset_click w = (Ok tt, w')
    ∧ settled w' mesh' bg' cube_f32 (replicate 24 f32_zero)
    ∧ (∀ l s, arraybuffers w !! l = Some s → arraybuffers w' !! l = Some s)
    ∧ arraybuffers w !! positions = None
    ∧ arraybuffers w !! indices = None
    ∧ arraybuffers w' !! indices = Some (Words cube_indices)
    ∧ (∀ h, h ∈ [binding0 bg; binding1 bg; binding2 bg] →
         ∃ b, gpubuffers w' !! h = Some b ∧ gpu_destroyed b = true)
    ∧ (∀ h, h ∈ [binding0 bg'; binding1 bg'; binding2 bg'] →
         gpubuffers w !! h = None)
    ∧ submitted w' = submitted w.
Proof.
  intros (Hready & Hib & Hlive) l1 l2 mesh'.
  pose proof (ready_pipeline _ _ _ _ _ Hready) as Hpipe.
  pose proof (ready_outputBuffer _ _ _ _ _ Hready) as Hob.
  pose proof (ready_uniformBuffer _ _ _ _ _ Hready) as Hub.
  pose proof (ready_distinct _ _ _ _ _ Hready) as (Hd01 & Hd02 & Hd12).
  pose proof (ready_input _ _ _ _ _ Hready) as Hin.
  pose proof (ready_output _ _ _ _ _ Hready) as Hout.
  pose proof (ready_uniform _ _ _ _ _ Hready) as (old & Hold & Hu).
  assert (Hl1 : arraybuffers w !! l1 = None) by apply fresh_lookup_None.
  assert (Hl2 : <[l1 := Floats cube_f32]> (arraybuffers w) !! l2 = None)
    by apply fresh_lookup_None.
  apply lookup_insert_None in Hl2 as [Hl2 Hl12].
  unfold reset_click. unfold mbind at 1, Host_bind at 1.
  rewrite generateCubeMesh_run. fold l1 l2 mesh'.
  unfold mbind at 1, Host_bind at 1.
  rewrite (createBuffers_run _ mesh' (Floats cube_f32));
    [|done
     |cbn [stlOps arraybuffers with_meshData meshData vertices mesh'];
      rewrite lookup_insert_ne by done; apply lookup_insert_eq].
  cbn [stlOps arraybuffers gpubuffers submitted with_meshData
       inputBuffer outputBuffer uniformBuffer].
  rewrite Hib, Hob, Hub.
  set (A1 := <[l2 := Words cube_indices]> (<[l1 := Floats cube_f32]> (arraybuffers w))).
  set (G3 := destroy_in (Some (binding2 bg))
               (destroy_in (Some (binding1 bg))
                  (destroy_in (Some (binding0 bg)) (gpubuffers w)))).
  set (range := fresh (dom A1)).
  set (h0 := fresh (dom G3)).
  set (G4 := <[h0 := _]> G3).
  set (h1 := fresh (dom G4)).
  set (G5 := <[h1 := _]> G4).
  set (h2 := fresh (dom G5)).
  set (G6 := <[h2 := _]> G5).
  assert (Hrange : A1 !! range = None) by apply fresh_lookup_None.
  unfold A1 in Hrange.
  apply lookup_insert_None in Hrange as [Hrange Hr2].
  apply lookup_insert_None in Hrange as [Hrange Hr1].
  assert (Hh0 : G3 !! h0 = None) by apply fresh_lookup_None.
  assert (Hh1 : G4 !! h1 = None) by apply fresh_lookup_None.
  assert (Hh2 : G5 !! h2 = None) by apply fresh_lookup_None.
  unfold G5 in Hh2. apply lookup_insert_None in Hh2 as [Hh2 Hh12].
  unfold G4 in Hh1, Hh2.
  apply lookup_insert_None in Hh1 as [Hh1 Hh01].
  apply lookup_insert_None in Hh2 as [Hh2 Hh02].
  assert (HG3 : ∀ h, G3 !! h = None → gpubuffers w !! h = None).
  { intros h Hh. apply not_elem_of_dom. apply not_elem_of_dom in Hh.
    unfold G3 in Hh. by rewrite !dom_destroy_in in Hh. }
  rewrite (setupBindGroup_run _ h0 h1 h2) by done.
  eexists. exists {| binding0 := h0; binding1 := h1; binding2 := h2 |}.
  split; [reflexivity|].
  cbn [arraybuffers gpubuffers submitted stlOps].
  split; [|split; [|split; [|split; [|split; [|split; [|split]]]]]].
  - split; [|split].
    + split; cbn [arraybuffers gpubuffers stlOps binding0 binding1 binding2
                  with_bindGroup with_uniformBuffer with_outputBuffer
                  with_inputBuffer with_meshData meshData computePipeline
                  outputBuffer uniformBuffer bindGroup vertices vertexCount mesh'];
        try done.
      * unfold A1. rewrite !lookup_insert_ne by done. apply lookup_insert_eq.
      * unfold G6, G5, G4. rewrite !lookup_insert_ne by done.
        apply lookup_insert_eq.
      * unfold G6, G5. rewrite lookup_insert_ne by done. apply lookup_insert_eq.
      * exists (replicate 16 0%Z). split; [done|]. unfold G6. apply lookup_insert_eq.
    + done.
    + intros h Hh. apply elem_of_live_buffers in Hh as (b & Hb & Hd).
      cbn [gpubuffers] in Hb. cbn [binding0 binding1 binding2].
      destruct (decide (h = h2)) as [->|Hn2]; [rewrite !elem_of_cons; tauto|].
      destruct (decide (h = h1)) as [->|Hn1]; [rewrite !elem_of_cons; tauto|].
      destruct (decide (h = h0)) as [->|Hn0]; [rewrite !elem_of_cons; tauto|].
      unfold G6, G5, G4 in Hb. rewrite !lookup_insert_ne in Hb by done.
      unfold G3 in Hb.
      apply lookup_destroy_in_live in Hb as [Hb Hne2]; [|done].
      apply lookup_destroy_in_live in Hb as [Hb Hne1]; [|done].
      apply lookup_destroy_in_live in Hb as [Hb Hne0]; [|done].
      assert (Hin' : h ∈ live_buffers w) by (apply elem_of_live_buffers; eauto).
      apply Hlive in Hin'. rewrite !elem_of_cons in Hin'.
      destruct Hin' as [->|[->|[->|Hnil]]]; try congruence.
      by apply elem_of_nil in Hnil.
  - intros l s Hl.
    assert (l ≠ range) by congruence.
    assert (l ≠ l1) by congruence. assert (l ≠ l2) by congruence.
    unfold A1. by rewrite !lookup_insert_ne by done.
  - done.
  - done.
  - unfold A1. rewrite lookup_insert_ne by done. apply lookup_insert_eq.
  - intros h Hh. rewrite !elem_of_cons in Hh.
    assert (Hdead : ∃ b, G3 !! h = Some b ∧ gpu_destroyed b = true).
    { unfold G3. destruct Hh as [->|[->|[->|Hnil]]].
      - rewrite !lookup_destroy_in_ne by done.
        rewrite (lookup_destroy_in_dead _ _ _ Hin). eauto.
      - rewrite lookup_destroy_in_ne by done.
        erewrite lookup_destroy_in_dead
          by (rewrite lookup_destroy_in_ne by done; exact Hout). eauto.
      - erewrite lookup_destroy_in_dead
          by (rewrite !lookup_destroy_in_ne by done; exact Hu). eauto.
      - by apply elem_of_nil in Hnil. }
    destruct Hdead as (b & Hb & Hd). exists b. split; [|done].
    unfold G6, G5, G4. rewrite !lookup_insert_ne by congruence. done.
  - intros h Hh. cbn [binding0 binding1 binding2] in Hh.
    rewrite !elem_of_cons in Hh.
    destruct Hh as [->|[->|[->|Hnil]]]; [by apply HG3..|].
    by apply elem_of_nil in Hnil.
  - done.
Qed.

Section Clicks.
Variables gpu_cos gpu_sin : f32 → f32.

Lemma processOperation_keeps_settled w mesh bg input output name param :
  settled w mesh bg input output →
  (0 <= vertexCount mesh)%Z →
  (3 * vertexCount mesh <= u32_modulus)%Z →
  ∃ w',
    processOperation gpu_cos gpu_sin name param w = (Ok tt, w')
    ∧ settled w' mesh bg input
        (map_vertices
           (deform_vertex (H := f32_scalar gpu_cos gpu_sin)
              (kernel_params name param (vertexCount mesh)))
           input).
Proof.
  intros (Hready & Hib & Hlive) Hvc Hwrap.
  destruct (processOperation_keeps_ready gpu_cos gpu_sin w mesh bg input output
              name param Hready Hvc Hwrap) as (w' & Hrun & Hready').
  exists w'. split; [done|]. split; [done|].
  pose proof (processOperation_frame _ _ _ _ _ _ _ Hrun) as [_ Hs].
  split; [by rewrite Hs|].
  intros h Hh. apply elem_of_live_buffers in Hh as (b & Hb & Hd).
  destruct (decide (h = binding1 bg)) as [->|Hn1]; [rewrite !elem_of_cons; tauto|].
  destruct (decide (h = binding2 bg)) as [->|Hn2]; [rewrite !elem_of_cons; tauto|].
  apply Hlive. apply elem_of_live_buffers. exists b. split; [|done].
  rewrite (processOperation_ready gpu_cos gpu_sin w mesh bg input output name param
             Hready Hvc Hwrap) in Hrun.
  cbv zeta in Hrun. injection Hrun as <-. cbn [gpubuffers] in Hb.
  by rewrite !lookup_insert_ne in Hb by done.
Qed.

(** [getProcessedVertices] in a ready world, with the world it leaves. *)
Lemma getProcessedVertices_run w mesh bg input output :
  ready w mesh bg input output →
  let range := fresh (dom (arraybuffers w)) in
  let result := fresh (dom (<[range := Floats output]> (arraybuffers w))) in
  let staging := fresh (dom (gpubuffers w)) in
  getProcessedVertices w =
    (Ok result,
     {| arraybuffers :=
          <[range := Detached]>
            (<[result := Floats output]>
               (<[range := Floats output]> (arraybuffers w)));
        gpubuffers :=
          <[staging := {| gpu_size := 4 * length output; gpu_data := Detached;
                          gpu_destroyed := true |}]> (gpubuffers w);
        submitted :=
          submitted w ++
            [CmdCopyBufferToBuffer (binding1 bg) staging (4 * length output)];
        stlOps := stlOps w |}).
Proof.
  intros Hready range result staging.
  pose proof (ready_meshData _ _ _ _ _ Hready) as Hmesh.
  pose proof (ready_vertices _ _ _ _ _ Hready) as Hv.
  pose proof (ready_outputBuffer _ _ _ _ _ Hready) as Hob.
  pose proof (ready_output _ _ _ _ _ Hready) as Hout.
  pose proof (ready_input_length _ _ _ _ _ Hready) as Hlin.
  pose proof (ready_output_length _ _ _ _ _ Hready) as Hlout.
  assert (Hlen : length input = length output) by lia.
  assert (Hstaging : gpubuffers w !! staging = None) by apply fresh_lookup_None.
  assert (Hne : staging ≠ binding1 bg) by congruence.
  unfold getProcessedVertices, this, nonnull, get_ArrayBuffer.
  unfold mbind at 1 2 3, Host_bind at 1 2 3, mret, Host_ret, throw.
  rewrite Hmesh, Hv, Hob.
  replace (byteLength (Floats input)) with (4 * length input)%nat by reflexivity.
  unfold readBuffer, queue_copyBufferToBuffer, device_createBuffer,
    new_ArrayBuffer, get_ArrayBuffer, set_ArrayBuffer, buffer_destroy,
    get_GPUBuffer, set_GPUBuffer, queue_log, nonnull, mbind, Host_bind,
    mret, Host_ret, throw.
  fold staging. fold range.
  repeat first
    [ rewrite lookup_insert_eq
    | rewrite lookup_insert_ne by done
    | rewrite Hout
    | rewrite decide_True by (cbn [gpu_size]; lia)
    | progress cbn [gpubuffers arraybuffers submitted stlOps
                    gpu_destroyed gpu_data gpu_size fst snd] ].
  replace (4 * length input / 4)%nat with (length input)
    by (rewrite Nat.mul_comm, Nat.div_mul; done).
  rewrite Hlen, firstn_all. fold result.
  rewrite !insert_insert_eq. reflexivity.
Qed.

Lemma getProcessedVertices_keeps_settled w mesh bg input output :
  settled w mesh bg input output →
  ∃ processed w',
    getProcessedVertices w = (Ok processed, w')
    ∧ settled w' mesh bg input output
    ∧ arraybuffers w' !! processed = Some (Floats output).
Proof.
  intros (Hready & Hib & Hlive).
  pose proof (getProcessedVertices_run w mesh bg input output Hready) as Hrun.
  cbv zeta in Hrun.
  set (range := fresh (dom (arraybuffers w))) in *.
  set (result := fresh (dom (<[range := Floats output]> (arraybuffers w)))) in *.
  set (staging := fresh (dom (gpubuffers w))) in *.
  assert (Hrange : arraybuffers w !! range = None) by apply fresh_lookup_None.
  assert (Hresult : <[range := Floats output]> (arraybuffers w) !! result = None)
    by apply fresh_lookup_None.
  apply lookup_insert_None in Hresult as [Hresult Hrr].
  assert (Hstaging : gpubuffers w !! staging = None) by apply fresh_lookup_None.
  eexists _, _. split; [exact Hrun|].
  pose proof (ready_vertices _ _ _ _ _ Hready) as Hv.
  pose proof (ready_input _ _ _ _ _ Hready) as Hin.
  pose proof (ready_output _ _ _ _ _ Hready) as Hout.
  pose proof (ready_uniform _ _ _ _ _ Hready) as (old & Hold & Hu).
  split; [split; [|split]|].
  - destruct Hready. split; cbn [arraybuffers gpubuffers stlOps]; try done.
    + rewrite !lookup_insert_ne by congruence. done.
    + rewrite lookup_insert_ne by congruence. done.
    + rewrite lookup_insert_ne by congruence. done.
    + exists old. split; [done|]. rewrite lookup_insert_ne by congruence. done.
  - done.
  - intros h Hh. apply elem_of_live_buffers in Hh as (b & Hb & Hd).
    cbn [gpubuffers] in Hb.
    destruct (decide (h = staging)) as [->|Hne].
    + rewrite lookup_insert_eq in Hb. injection Hb as <-. done.
    + rewrite lookup_insert_ne in Hb by done.
      apply Hlive. apply elem_of_live_buffers. eauto.
  - cbn [arraybuffers]. rewrite lookup_insert_ne by done. apply lookup_insert_eq.
Qed.

Lemma process_click_settled w mesh bg input output name param :
  settled w mesh bg input output →
  (0 <= vertexCount mesh)%Z →
  (3 * vertexCount mesh <= u32_modulus)%Z →
  let deformed :=
    map_vertices
      (deform_vertex (H := f32_scalar gpu_cos gpu_sin)
         (kernel_params name param (vertexCount mesh))) input in
  ∃ processed w',
    process_click gpu_cos gpu_sin name param w = (Ok processed, w')
    ∧ settled w' mesh bg input deformed
    ∧ arraybuffers w' !! processed = Some (Floats deformed).
Proof.
  intros Hs Hvc Hwrap deformed.
  destruct (processOperation_keeps_settled w mesh bg input output name param
              Hs Hvc Hwrap) as (w1 & Hrun1 & Hs1).
  destruct (getProcessedVertices_keeps_settled w1 mesh bg input _ Hs1)
    as (processed & w2 & Hrun2 & Hs2 & Hp).
  exists processed, w2. split; [|done].
  unfold process_click, mbind, Host_bind. by rewrite Hrun1, Hrun2.
Qed.

Lemma process_click_kept w name param r w' :
  process_click gpu_cos gpu_sin name param w = (r, w') →
  ∀ l s, arraybuffers w !! l = Some s → arraybuffers w' !! l = Some s.
Proof.
  unfold process_click, mbind, Host_bind.
  destruct (processOperation gpu_cos gpu_sin name param w) as [r1 w1] eqn:E1.
  apply processOperation_frame in E1 as [Ha1 _].
  destruct r1 as [[]|e]; [|intros [= <- <-]; by rewrite Ha1].
  intros E2. apply getProcessedVertices_spec in E2 as [_ [(e & _ & Ha)|(data & _ & Ha)]].
  - intros l s Hl. by rewrite Ha, Ha1.
  - cbv zeta in Ha. intros l s Hl. rewrite Ha.
    set (range := fresh (dom (arraybuffers w1))) in *.
    set (result := fresh (dom (<[range := Floats data]> (arraybuffers w1)))) in *.
    assert (Hrange : arraybuffers w1 !! range = None) by apply fresh_lookup_None.
    assert (Hresult : <[range := Floats data]> (arraybuffers w1) !! result = None)
      by apply fresh_lookup_None.
    apply lookup_insert_None in Hresult as [Hresult Hne].
    rewrite Ha1 in *.
    rewrite !lookup_insert_ne by congruence. done.
Qed.

Lemma do_clicks_settled (cs : list click) : ∀ w mesh bg input output,
  settled w mesh bg input output →
  (0 <= vertexCount mesh)%Z →
  (3 * vertexCount mesh <= u32_modulus)%Z →
  ∃ mesh' bg' output',
    settled (do_clicks gpu_cos gpu_sin cs w).2 mesh' bg'
      (if has_reset cs then cube_f32 else input) output'
    ∧ vertexCount mesh' = (if has_reset cs then 8%Z else vertexCount mesh)
    ∧ Forall (λ r, ∃ v, r = Ok v) (do_clicks gpu_cos gpu_sin cs w).1.
Proof.
  induction cs as [|c cs IH]; intros w mesh bg input output Hs Hvc Hwrap.
  - exists mesh, bg, output. simpl. split; [done|]. split; [done|]. constructor.
  - simpl. destruct c as [name param|].
    + destruct (process_click_settled w mesh bg input output name param
                  Hs Hvc Hwrap) as (processed & w1 & Hrun & Hs1 & _).
      unfold do_click, mbind, Host_bind. rewrite Hrun.
      unfold mret, Host_ret.
      destruct (IH w1 mesh bg input _ Hs1 Hvc Hwrap)
        as (mesh' & bg' & output' & Hs' & Hvc' & Hok).
      destruct (do_clicks gpu_cos gpu_sin cs w1) as [rs w2]. simpl in *.
      exists mesh', bg', output'. split; [done|]. split; [done|].
      constructor; [eauto|done].
    + destruct (reset_click_settled w mesh bg input output Hs)
        as (w1 & bg1 & Hrun & Hs1 & _).
      unfold do_click, mbind, Host_bind. rewrite Hrun.
      unfold mret, Host_ret.
      destruct (IH w1 _ bg1 cube_f32 _ Hs1)
        as (mesh' & bg' & output' & Hs' & Hvc' & Hok).
      { simpl. lia. }
      { unfold u32_modulus. simpl. lia. }
      destruct (do_clicks gpu_cos gpu_sin cs w1) as [rs w2]. simpl in *.
      exists mesh', bg', output'.
      split; [by destruct (has_reset cs)|].
      split; [by destruct (has_reset cs)|].
      constructor; [eauto|done].
Qed.

End Clicks.

Lemma app_World_settled :
  settled app_World app_mesh app_bindGroup cube_f32 (replicate 24 f32_zero).
Proof.
  split; [exact app_World_ready|]. split; [vm_compute; reflexivity|].
  intros h Hh.
  assert (Hlive : live_buffers app_World = [2; 1; 0]%nat) by (vm_compute; reflexivity).
  rewrite Hlive in Hh. cbn [app_bindGroup binding0 binding1 binding2].
  rewrite !elem_of_cons in *. tauto.
Qed.

Lemma readBuffer_split (srcBuffer : option loc) (size : nat) (w : World) :
  readBuffer srcBuffer size w =
    match readBuffer_submit srcBuffer size w with
    | (Ok stagingBuffer, w1) => readBuffer_finish stagingBuffer w1
    | (Throw e, w1) => (Throw e, w1)
    end.
Proof.
  unfold readBuffer, readBuffer_submit, readBuffer_finish.
  unfold mbind, Host_bind, mret, Host_ret.
  destruct (device_createBuffer size _ w) as [[h|e] w1]; [|done].
  destruct (nonnull srcBuffer w1) as [[src|e] w2]; [|done].
  destruct (queue_copyBufferToBuffer src h size w2) as [[[]|e] w3]; done.
Qed.

Lemma getProcessedVertices_split (w : World) :
  getProcessedVertices w =
    match getProcessedVertices_submit w with
    | (Ok stagingBuffer, w1) => readBuffer_finish stagingBuffer w1
    | (Throw e, w1) => (Throw e, w1)
    end.
Proof.
  unfold getProcessedVertices, getProcessedVertices_submit.
  unfold mbind, Host_bind.
  destruct (this w) as [[s|e] w1]; [|done].
  destruct (nonnull (meshData s) w1) as [[mesh|e] w2]; [|done].
  destruct (get_ArrayBuffer (vertices mesh) w2) as [[v|e] w3]; [|done].
  apply readBuffer_split.
Qed.

(** A click on Process whose listener runs through both awaits with
    nothing in between is [process_click]. *)
Lemma listener_uninterrupted (gpu_cos gpu_sin : f32 → f32)
    (operation : string) (param : number) (w : World) :
  do_steps gpu_cos gpu_sin [StepProcessClick operation param; StepWorkDone; StepMapped]
    (Idle, w)
  = match process_click gpu_cos gpu_sin operation param w with
    | (Ok processed, w') => ([Ok processed], (Idle, w'))
    | (Throw e, w') => ([Throw e], (Stopped, w'))
    end.
Proof.
  unfold process_click, mbind, Host_bind, do_steps, do_step.
  destruct (processOperation gpu_cos gpu_sin operation param w) as [[[]|e] w1];
    [|reflexivity].
  rewrite getProcessedVertices_split.
  destruct (getProcessedVertices_submit w1) as [[h|e] w2]; [|reflexivity].
  by destruct (readBuffer_finish h w2) as [[processed|e] w3].
Qed.

(** [getProcessedVertices] up to its await, in a ready world. *)
Lemma getProcessedVertices_submit_run w mesh bg input output :
  ready w mesh bg input output →
  let staging := fresh (dom (gpubuffers w)) in
  getProcessedVertices_submit w =
    (Ok staging,
     {| arraybuffers := arraybuffers w;
        gpubuffers :=
          <[staging := {| gpu_size := 4 * length output; gpu_data := Floats output;
                          gpu_destroyed := false |}]> (gpubuffers w);
        submitted :=
          submitted w ++
            [CmdCopyBufferToBuffer (binding1 bg) staging (4 * length output)];
        stlOps := stlOps w |}).
Proof.
  intros Hready staging.
  pose proof (ready_meshData _ _ _ _ _ Hready) as Hmesh.
  pose proof (ready_vertices _ _ _ _ _ Hready) as Hv.
  pose proof (ready_outputBuffer _ _ _ _ _ Hready) as Hob.
  pose proof (ready_output _ _ _ _ _ Hready) as Hout.
  pose proof (ready_input_length _ _ _ _ _ Hready) as Hlin.
  pose proof (ready_output_length _ _ _ _ _ Hready) as Hlout.
  assert (Hlen : length input = length output) by lia.
  assert (Hstaging : gpubuffers w !! staging = None) by apply fresh_lookup_None.
  assert (Hne : staging ≠ binding1 bg) by congruence.
  unfold getProcessedVertices_submit, this, nonnull, get_ArrayBuffer.
  unfold mbind at 1 2 3, Host_bind at 1 2 3, mret, Host_ret, throw.
  rewrite Hmesh, Hv, Hob.
  replace (byteLength (Floats input)) with (4 * length input)%nat by reflexivity.
  unfold readBuffer_submit, queue_copyBufferToBuffer, device_createBuffer,
    get_GPUBuffer, set_GPUBuffer, queue_log, nonnull, mbind, Host_bind,
    mret, Host_ret, throw.
  fold staging.
  repeat first
    [ rewrite lookup_insert_eq
    | rewrite lookup_insert_ne by done
    | rewrite Hout
    | rewrite decide_True by (cbn [gpu_size]; lia)
    | progress cbn [gpubuffers arraybuffers submitted stlOps
                    gpu_destroyed gpu_data gpu_size fst snd] ].
  replace (4 * length input / 4)%nat with (length input)
    by (rewrite Nat.mul_comm, Nat.div_mul; done).
  rewrite Hlen, firstn_all.
  rewrite !insert_insert_eq. reflexivity.
Qed.

(** [readBuffer] from its await on, for a staging buffer that holds
    floats. *)
Lemma readBuffer_finish_run w staging size data :
  gpubuffers w !! staging =
    Some {| gpu_size := size; gpu_data := Floats data; gpu_destroyed := false |} →
  let range := fresh (dom (arraybuffers w)) in
  let result := fresh (dom (<[range := Floats data]> (arraybuffers w))) in
  readBuffer_finish staging w =
    (Ok result,
     {| arraybuffers :=
          <[range := Detached]>
            (<[result := Floats data]>
               (<[range := Floats data]> (arraybuffers w)));
        gpubuffers :=
          <[staging := {| gpu_size := size; gpu_data := Detached;
                          gpu_destroyed := true |}]> (gpubuffers w);
        submitted := submitted w;
        stlOps := stlOps w |}).
Proof.
  intros Hst range result.
  unfold readBuffer_finish, new_ArrayBuffer, get_ArrayBuffer, set_ArrayBuffer,
    buffer_destroy, get_GPUBuffer, set_GPUBuffer, mbind, Host_bind,
    mret, Host_ret, throw.
  rewrite Hst. cbn [gpu_destroyed gpu_data arraybuffers gpubuffers submitted stlOps].
  fold range. rewrite lookup_insert_eq.
  cbn [arraybuffers gpubuffers submitted stlOps].
  fold result. rewrite Hst. cbn [gpu_size].
  reflexivity.
Qed.

(** A click on Reset in a ready world, whatever else is live: a new cube,
    the three buffers destroyed, three new ones in a new bind group, and
    every other device buffer as it was. *)
Lemma reset_click_ready w mesh bg input output :
  ready w mesh bg input output →
  inputBuffer (stlOps w) = Some (binding0 bg) →
  let positions := fresh (dom (arraybuffers w)) in
  let indices := fresh (dom (<[positions := Floats cube_f32]> (arraybuffers w))) in
  let mesh' := {| vertices := positions; indices := indices; vertexCount := 8 |} in
  ∃ w' bg',
    reset_click w = (Ok tt, w')
    ∧ ready w' mesh' bg' cube_f32 (replicate 24 f32_zero)
    ∧ inputBuffer (stlOps w') = Some (binding0 bg')
    ∧ (∀ l s, arraybuffers w !! l = Some s → arraybuffers w' !! l = Some s)
    ∧ (∀ h, h ∈ [binding0 bg; binding1 bg; binding2 bg] →
         ∃ b, gpubuffers w' !! h = Some b ∧ gpu_destroyed b = true)
    ∧ (∀ h, h ∈ [binding0 bg'; binding1 bg'; binding2 bg'] →
         gpubuffers w !! h = None)
    ∧ (∀ h, h ∉ [binding0 bg; binding1 bg; binding2 bg] →
         h ∉ [binding0 bg'; binding1 bg'; binding2 bg'] →
         gpubuffers w' !! h = gpubuffers w !! h)
    ∧ submitted w' = submitted w.
Proof.
  intros Hready Hib l1 l2 mesh'.
  pose proof (ready_pipeline _ _ _ _ _ Hready) as Hpipe.
  pose proof (ready_outputBuffer _ _ _ _ _ Hready) as Hob.
  pose proof (ready_uniformBuffer _ _ _ _ _ Hready) as Hub.
  pose proof (ready_distinct _ _ _ _ _ Hready) as (Hd01 & Hd02 & Hd12).
  pose proof (ready_input _ _ _ _ _ Hready) as Hin.
  pose proof (ready_output _ _ _ _ _ Hready) as Hout.
  pose proof (ready_uniform _ _ _ _ _ Hready) as (old & Hold & Hu).
  assert (Hl1 : arraybuffers w !! l1 = None) by apply fresh_lookup_None.
  assert (Hl2 : <[l1 := Floats cube_f32]> (arraybuffers w) !! l2 = None)
    by apply fresh_lookup_None.
  apply lookup_insert_None in Hl2 as [Hl2 Hl12].
  unfold reset_click. unfold mbind at 1, Host_bind at 1.
  rewrite generateCubeMesh_run. fold l1 l2 mesh'.
  unfold mbind at 1, Host_bind at 1.
  rewrite (createBuffers_run _ mesh' (Floats cube_f32));
    [|done
     |cbn [stlOps arraybuffers with_meshData meshData vertices mesh'];
      rewrite lookup_insert_ne by done; apply lookup_insert_eq].
  cbn [stlOps arraybuffers gpubuffers submitted with_meshData
       inputBuffer outputBuffer uniformBuffer].
  rewrite Hib, Hob, Hub.
  set (A1 := <[l2 := Words cube_indices]> (<[l1 := Floats cube_f32]> (arraybuffers w))).
  set (G3 := destroy_in (Some (binding2 bg))
               (destroy_in (Some (binding1 bg))
                  (destroy_in (Some (binding0 bg)) (gpubuffers w)))).
  set (range := fresh (dom A1)).
  set (h0 := fresh (dom G3)).
  set (G4 := <[h0 := _]> G3).
  set (h1 := fresh (dom G4)).
  set (G5 := <[h1 := _]> G4).
  set (h2 := fresh (dom G5)).
  set (G6 := <[h2 := _]> G5).
  assert (Hrange : A1 !! range = None) by apply fresh_lookup_None.
  unfold A1 in Hrange.
  apply lookup_insert_None in Hrange as [Hrange Hr2].
  apply lookup_insert_None in Hrange as [Hrange Hr1].
  assert (Hh0 : G3 !! h0 = None) by apply fresh_lookup_None.
  assert (Hh1 : G4 !! h1 = None) by apply fresh_lookup_None.
  assert (Hh2 : G5 !! h2 = None) by apply fresh_lookup_None.
  unfold G5 in Hh2. apply lookup_insert_None in Hh2 as [Hh2 Hh12].
  unfold G4 in Hh1, Hh2.
  apply lookup_insert_None in Hh1 as [Hh1 Hh01].
  apply lookup_insert_None in Hh2 as [Hh2 Hh02].
  assert (HG3 : ∀ h, G3 !! h = None → gpubuffers w !! h = None).
  { intros h Hh. apply not_elem_of_dom. apply not_elem_of_dom in Hh.
    unfold G3 in Hh. by rewrite !dom_destroy_in in Hh. }
  rewrite (setupBindGroup_run _ h0 h1 h2) by done.
  eexists. exists {| binding0 := h0; binding1 := h1; binding2 := h2 |}.
  split; [reflexivity|].
  cbn [arraybuffers gpubuffers submitted stlOps].
  split; [|split; [|split; [|split; [|split; [|split]]]]].
  - split; cbn [arraybuffers gpubuffers stlOps binding0 binding1 binding2
                with_bindGroup with_uniformBuffer with_outputBuffer
                with_inputBuffer with_meshData meshData computePipeline
                outputBuffer uniformBuffer bindGroup vertices vertexCount mesh'];
      try done.
    + unfold A1. rewrite !lookup_insert_ne by done. apply lookup_insert_eq.
    + unfold G6, G5, G4. rewrite !lookup_insert_ne by done.
      apply lookup_insert_eq.
    + unfold G6, G5. rewrite lookup_insert_ne by done. apply lookup_insert_eq.
    + exists (replicate 16 0%Z). split; [done|]. unfold G6. apply lookup_insert_eq.
  - done.
  - intros l s Hl.
    assert (l ≠ range) by congruence.
    assert (l ≠ l1) by congruence. assert (l ≠ l2) by congruence.
    unfold A1. by rewrite !lookup_insert_ne by done.
  - intros h Hh. rewrite !elem_of_cons in Hh.
    assert (Hdead : ∃ b, G3 !! h = Some b ∧ gpu_destroyed b = true).
    { unfold G3. destruct Hh as [->|[->|[->|Hnil]]].
      - rewrite !lookup_destroy_in_ne by done.
        rewrite (lookup_destroy_in_dead _ _ _ Hin). eauto.
      - rewrite lookup_destroy_in_ne by done.
        erewrite lookup_destroy_in_dead
          by (rewrite lookup_destroy_in_ne by done; exact Hout). eauto.
      - erewrite lookup_destroy_in_dead
          by (rewrite !lookup_destroy_in_ne by done; exact Hu). eauto.
      - by apply elem_of_nil in Hnil. }
    destruct Hdead as (b & Hb & Hd). exists b. split; [|done].
    unfold G6, G5, G4. rewrite !lookup_insert_ne by congruence. done.
  - intros h Hh. cbn [binding0 binding1 binding2] in Hh.
    rewrite !elem_of_cons in Hh.
    destruct Hh as [->|[->|[->|Hnil]]]; [by apply HG3..|].
    by apply elem_of_nil in Hnil.
  - intros h Hold' Hnew. cbn [binding0 binding1 binding2] in Hnew.
    rewrite !elem_of_cons in Hold', Hnew.
    unfold G6, G5, G4.
    rewrite !lookup_insert_ne by (intros E; apply Hnew; rewrite E; auto).
    unfold G3.
    rewrite (lookup_destroy_in_ne _ (binding2 bg) h)
      by (intros E; apply Hold'; rewrite E; auto).
    rewrite (lookup_destroy_in_ne _ (binding1 bg) h)
      by (intros E; apply Hold'; rewrite E; auto).
    rewrite (lookup_destroy_in_ne _ (binding0 bg) h)
      by (intros E; apply Hold'; rewrite E; auto).
    done.
  - done.
Qed.

Section Steps.
Variables gpu_cos gpu_sin : f32 → f32.

(** Each step keeps [listening], and no listener throws. *)
Lemma do_step_listening (s : step) ph w mesh bg input output :
  listening ph w mesh bg input output →
  (0 <= vertexCount mesh)%Z →
  (3 * vertexCount mesh <= u32_modulus)%Z →
  let reset := match s with StepResetClick => true | _ => false end in
  ∃ r ph' w' mesh' bg' output',
    do_step gpu_cos gpu_sin s (ph, w) = (r, (ph', w'))
    ∧ (∀ e, r ≠ Some (Throw e))
    ∧ listening ph' w' mesh' bg' (if reset then cube_f32 else input) output'
    ∧ vertexCount mesh' = (if reset then 8%Z else vertexCount mesh).
Proof.
  intros (Hready & Hib & Hph) Hvc Hwrap reset.
  destruct s as [name param| | |]; cbn [reset].
  - (* a click on Process *)
    destruct ph as [| |staging|]; [|..].
    + destruct (processOperation_keeps_settled gpu_cos gpu_sin w mesh bg input output
                  name param (conj Hready (conj Hib Hph)) Hvc Hwrap)
        as (w1 & Hrun & Hready1 & Hib1 & Hlive1).
      exists None, AwaitingWork, w1, mesh, bg. eexists.
      cbn [do_step]. rewrite Hrun.
      split; [done|]. split; [done|]. split; [|done].
      split; [exact Hready1|]. split; done.
    + exists None, AwaitingWork, w, mesh, bg, output.
      split; [done|]. split; [done|]. split; [|done]. by split.
    + exists None, (AwaitingMap staging), w, mesh, bg, output.
      split; [done|]. split; [done|]. split; [|done]. by split.
    + done.
  - (* the first await is over *)
    destruct ph as [| |staging|]; [| |..].
    + exists None, Idle, w, mesh, bg, output.
      split; [done|]. split; [done|]. split; [|done]. by split.
    + pose proof (getProcessedVertices_submit_run w mesh bg input output Hready) as Hrun.
      cbv zeta in Hrun. set (staging := fresh (dom (gpubuffers w))) in *.
      assert (Hst : gpubuffers w !! staging = None) by apply fresh_lookup_None.
      pose proof (ready_input _ _ _ _ _ Hready) as Hin.
      pose proof (ready_output _ _ _ _ _ Hready) as Hout.
      pose proof (ready_uniform _ _ _ _ _ Hready) as (old & Hold & Hu).
      eexists None, (AwaitingMap staging), _, mesh, bg, output.
      cbn [do_step]. rewrite Hrun.
      split; [done|]. split; [done|]. split; [|done].
      split; [|split; [done|split; [|split]]].
      * destruct Hready. split; cbn [arraybuffers gpubuffers stlOps]; try done.
        -- rewrite lookup_insert_ne by congruence. done.
        -- rewrite lookup_insert_ne by congruence. done.
        -- exists old. split; [done|]. rewrite lookup_insert_ne by congruence. done.
      * rewrite !elem_of_cons. intros [->|[->|[->|Hnil]]]; try congruence.
        by apply elem_of_nil in Hnil.
      * eexists _, _. cbn [gpubuffers]. apply lookup_insert_eq.
      * intros h Hh. apply elem_of_live_buffers in Hh as (b & Hb & Hd).
        cbn [gpubuffers] in Hb.
        destruct (decide (h = staging)) as [->|Hne]; [rewrite !elem_of_cons; tauto|].
        rewrite lookup_insert_ne in Hb by done.
        assert (Hin' : h ∈ live_buffers w) by (apply elem_of_live_buffers; eauto).
        apply Hph in Hin'. rewrite !elem_of_cons in *. tauto.
    + exists None, (AwaitingMap staging), w, mesh, bg, output.
      split; [done|]. split; [done|]. split; [|done]. by split.
    + done.
  - (* the second await is over *)
    destruct ph as [| |staging|]; [| |..].
    + exists None, Idle, w, mesh, bg, output.
      split; [done|]. split; [done|]. split; [|done]. by split.
    + exists None, AwaitingWork, w, mesh, bg, output.
      split; [done|]. split; [done|]. split; [|done]. by split.
    + destruct Hph as (Hnot & (size & data & Hst) & Hlive).
      pose proof (readBuffer_finish_run w staging size data Hst) as Hrun.
      cbv zeta in Hrun.
      set (range := fresh (dom (arraybuffers w))) in *.
      set (result := fresh (dom (<[range := Floats data]> (arraybuffers w)))) in *.
      assert (Hrange : arraybuffers w !! range = None) by apply fresh_lookup_None.
      assert (Hresult : <[range := Floats data]> (arraybuffers w) !! result = None)
        by apply fresh_lookup_None.
      apply lookup_insert_None in Hresult as [Hresult Hrr].
      rewrite !elem_of_cons in Hnot.
      pose proof (ready_vertices _ _ _ _ _ Hready) as Hv.
      pose proof (ready_uniform _ _ _ _ _ Hready) as (old & Hold & Hu).
      eexists (Some (Ok result)), Idle, _, mesh, bg, output.
      cbn [do_step]. rewrite Hrun.
      split; [done|]. split; [done|]. split; [|done].
      split; [|split; [done|]].
      * destruct Hready. split; cbn [arraybuffers gpubuffers stlOps]; try done.
        -- rewrite !lookup_insert_ne by congruence. done.
        -- rewrite lookup_insert_ne by tauto. done.
        -- rewrite lookup_insert_ne by tauto. done.
        -- exists old. split; [done|]. rewrite lookup_insert_ne by tauto. done.
      * intros h Hh. apply elem_of_live_buffers in Hh as (b & Hb & Hd).
        cbn [gpubuffers] in Hb.
        destruct (decide (h = staging)) as [->|Hne].
        -- rewrite lookup_insert_eq in Hb. injection Hb as <-. done.
        -- rewrite lookup_insert_ne in Hb by done.
           assert (Hin' : h ∈ live_buffers w) by (apply elem_of_live_buffers; eauto).
           apply Hlive in Hin'. rewrite !elem_of_cons in *. tauto.
    + done.
  - (* a click on Reset *)
    destruct (reset_click_ready w mesh bg input output Hready Hib)
      as (w1 & bg1 & Hrun & Hready1 & Hib1 & Hkept & Hdead & Hnew & Hother & Hsub).
    assert (Hlive3 : ∀ h, h ∈ live_buffers w1 →
              h ∈ [binding0 bg1; binding1 bg1; binding2 bg1] ∨ h ∈ live_buffers w).
    { intros h Hh.
      destruct (decide (h ∈ [binding0 bg1; binding1 bg1; binding2 bg1])) as [|Hn1];
        [by left|right].
      apply elem_of_live_buffers in Hh as (b & Hb & Hd).
      destruct (decide (h ∈ [binding0 bg; binding1 bg; binding2 bg])) as [Ho|Hn0].
      - destruct (Hdead h Ho) as (b' & Hb' & Hd'). congruence.
      - rewrite (Hother h Hn0 Hn1) in Hb. apply elem_of_live_buffers. eauto. }
    assert (Hph1 :
      match ph with
      | Idle | AwaitingWork =>
          ∀ h, h ∈ live_buffers w1 → h ∈ [binding0 bg1; binding1 bg1; binding2 bg1]
      | AwaitingMap stagingBuffer =>
          (stagingBuffer ∉ [binding0 bg1; binding1 bg1; binding2 bg1])
          ∧ (∃ size data,
               gpubuffers w1 !! stagingBuffer =
                 Some {| gpu_size := size; gpu_data := Floats data;
                         gpu_destroyed := false |})
          ∧ (∀ h, h ∈ live_buffers w1 →
               h ∈ [binding0 bg1; binding1 bg1; binding2 bg1; stagingBuffer])
      | Stopped => False
      end).
    { destruct ph as [| |staging|]; [| |..].
      + intros h Hh. destruct (Hlive3 h Hh) as [|Hw]; [done|].
        apply Hph in Hw.
        apply elem_of_live_buffers in Hh as (b & Hb & Hd).
        destruct (Hdead h Hw) as (b' & Hb' & Hd'). congruence.
      + intros h Hh. destruct (Hlive3 h Hh) as [|Hw]; [done|].
        apply Hph in Hw.
        apply elem_of_live_buffers in Hh as (b & Hb & Hd).
        destruct (Hdead h Hw) as (b' & Hb' & Hd'). congruence.
      + destruct Hph as (Hnot & (size & data & Hst) & Hlive).
        assert (Hnot1 : staging ∉ [binding0 bg1; binding1 bg1; binding2 bg1]).
        { intros Hin. apply Hnew in Hin. congruence. }
        split; [done|]. split.
        * exists size, data. by rewrite (Hother staging Hnot Hnot1).
        * intros h Hh. destruct (Hlive3 h Hh) as [H1|Hw].
          -- rewrite !elem_of_cons in *. tauto.
          -- apply Hlive in Hw.
             destruct (decide (h = staging)) as [->|Hne];
               [rewrite !elem_of_cons; tauto|].
             assert (Hold : h ∈ [binding0 bg; binding1 bg; binding2 bg])
               by (rewrite !elem_of_cons in *; tauto).
             apply elem_of_live_buffers in Hh as (b & Hb & Hd).
             destruct (Hdead h Hold) as (b' & Hb' & Hd'). congruence.
      + done. }
    eexists None, ph, w1, _, bg1, _. cbn [do_step]. rewrite Hrun.
    split; [reflexivity|]. split; [done|].
    split; [split; [exact Hready1|split; [done|exact Hph1]]|reflexivity].
Qed.

Lemma do_steps_listening (sched : list step) : ∀ ph w mesh bg input output,
  listening ph w mesh bg input output →
  (0 <= vertexCount mesh)%Z →
  (3 * vertexCount mesh <= u32_modulus)%Z →
  ∃ mesh' bg' output',
    listening (do_steps gpu_cos gpu_sin sched (ph, w)).2.1
      (do_steps gpu_cos gpu_sin sched (ph, w)).2.2 mesh' bg'
      (if resets sched then cube_f32 else input) output'
    ∧ vertexCount mesh' = (if resets sched then 8%Z else vertexCount mesh)
    ∧ Forall (λ r, ∃ processed, r = Ok processed)
        (do_steps gpu_cos gpu_sin sched (ph, w)).1.
Proof.
  induction sched as [|s sched IH]; intros ph w mesh bg input output Hl Hvc Hwrap.
  - exists mesh, bg, output. simpl. split; [done|]. split; [done|]. constructor.
  - destruct (do_step_listening s ph w mesh bg input output Hl Hvc Hwrap)
      as (r & ph1 & w1 & mesh1 & bg1 & output1 & Hrun & Hr & Hl1 & Hvc1).
    cbn [do_steps]. rewrite Hrun.
    destruct (IH ph1 w1 mesh1 bg1 _ output1 Hl1) as (mesh' & bg' & output' & Hl' & Hvc' & Hok).
    { rewrite Hvc1. destruct s; lia. }
    { rewrite Hvc1. unfold u32_modulus in *. destruct s; lia. }
    destruct (do_steps gpu_cos gpu_sin sched (ph1, w1)) as [rs st2].
    cbn [fst snd] in *.
    exists mesh', bg', output'.
    assert (Hres : resets (s :: sched)
                   = (match s with StepResetClick => true | _ => false end)
                     || resets sched) by reflexivity.
    rewrite Hres.
    split; [|split].
    + destruct s; cbn [orb]; try done. by destruct (resets sched).
    + rewrite Hvc', Hvc1. destruct s; cbn [orb]; try done. by destruct (resets sched).
    + destruct r as [[processed|e]|]; [|by destruct (Hr e)|done].
      constructor; [by eexists|done].
Qed.

End Steps.

(** X6: deformations do not accumulate.  Take any schedule from a settled
    state: clicks on Process and on Reset, with the Process listener
    resumed at its two awaits at any time, Reset clicks in between
    included.  No listener throws.  And whenever the Process button is
    enabled again, a click on it whose listener then runs through both
    awaits with no Reset in between returns the deformation of the stored
    positions (of the cube, once a Reset has happened), never of an earlier
    result: the kernel reads the input buffer, which only [createBuffers]
    writes. *)
Theorem process_result_ignores_history (gpu_cos gpu_sin : f32 → f32)
    (sched : list step) (w : World) (mesh : Mesh) (bg : BindGroup)
    (input output : list f32) (name : string) (param : number) :
  settled w mesh bg input output →
  (0 <= vertexCount mesh)%Z →
  (3 * vertexCount mesh <= u32_modulus)%Z →
  let rs := (do_steps gpu_cos gpu_sin sched (Idle, w)).1 in
  let st := (do_steps gpu_cos gpu_sin sched (Idle, w)).2 in
  let positions := if resets sched then cube_f32 else input in
  let vc := if resets sched then 8%Z else vertexCount mesh in
  Forall (λ r, ∃ processed, r = Ok processed) rs
  ∧ st.1 ≠ Stopped
  ∧ (st.1 = Idle →
     ∃ processed w',
       do_steps gpu_cos gpu_sin
         [StepProcessClick name param; StepWorkDone; StepMapped] st
       = ([Ok processed], (Idle, w'))
       ∧ arraybuffers w' !! processed
         = Some (Floats (map_vertices
                           (deform_vertex (H := f32_scalar gpu_cos gpu_sin)
                              (kernel_params name param vc))
                           positions))).
Proof.
  intros Hs Hvc Hwrap rs st positions vc.
  destruct (do_steps_listening gpu_cos gpu_sin sched Idle w mesh bg input output
              Hs Hvc Hwrap) as (mesh' & bg' & output' & Hl & Hvc' & Hok).
  fold st rs positions in Hl, Hok. fold vc in Hvc'.
  split; [exact Hok|]. split.
  - intros Hst. rewrite Hst in Hl. by destruct Hl as (_ & _ & []).
  - intros Hidle. destruct st as [ph w1]. cbn [fst snd] in *. subst ph.
    destruct (process_click_settled gpu_cos gpu_sin w1 mesh' bg' positions output'
                name param Hl) as (processed & w2 & Hrun & _ & Hp).
    { rewrite Hvc'. unfold vc. destruct (resets sched); lia. }
    { rewrite Hvc'. unfold vc, u32_modulus in *. destruct (resets sched); lia. }
    exists processed, w2. rewrite listener_uninterrupted, Hrun.
    split; [done|]. cbv zeta in Hp. by rewrite Hvc' in Hp.
Qed.

Lemma process_result_ignores_history_witness :
  ∃ processed w',
    do_steps no_trig no_trig
      [StepProcessClick "translate" (number_lit 3.0); StepWorkDone; StepMapped]
      (do_steps no_trig no_trig
         [StepProcessClick "scale" (number_lit 2.0); StepResetClick; StepWorkDone;
          StepMapped; StepProcessClick "inflate" (number_lit 0.0); StepWorkDone;
          StepResetClick; StepMapped] (Idle, app_World)).2
    = ([Ok processed], (Idle, w'))
    ∧ arraybuffers w' !! processed
      = Some (Floats (map_vertices
                        (deform_vertex (H := f32_scalar no_trig no_trig)
                           (kernel_params "translate" (number_lit 3.0) 8))
                        cube_f32)).
Proof.
  refine (proj2 (proj2 (process_result_ignores_history no_trig no_trig
            [StepProcessClick "scale" (number_lit 2.0); StepResetClick; StepWorkDone;
             StepMapped; StepProcessClick "inflate" (number_lit 0.0); StepWorkDone;
             StepResetClick; StepMapped]
            app_World app_mesh app_bindGroup cube_f32 (replicate 24 f32_zero)
            "translate" (number_lit 3.0) _ _ _)) _).
  - exact app_World_settled.
  - simpl. lia.
  - unfold u32_modulus. simpl. lia.
  - vm_compute. reflexivity.
Defined.

(** X7: no click leaks a device buffer.  From a settled state every click
    on Process or Reset returns without an exception, and afterwards the
    device buffers that are not destroyed are exactly the three of the bind
    group, which [stlOps] holds as its input, output and uniform buffer: the
    staging buffer of [readBuffer] and the buffers replaced by
    [createBuffers] have been destroyed. *)
Theorem clicks_never_leak_buffers (gpu_cos gpu_sin : f32 → f32)
    (cs : list click) (w : World) (mesh : Mesh) (bg : BindGroup)
    (input output : list f32) :
  settled w mesh bg input output →
  (0 <= vertexCount mesh)%Z →
  (3 * vertexCount mesh <= u32_modulus)%Z →
  let rs := (do_clicks gpu_cos gpu_sin cs w).1 in
  let w' := (do_clicks gpu_cos gpu_sin cs w).2 in
  length rs = length cs
  ∧ Forall (λ r, ∃ v, r = Ok v) rs
  ∧ ∃ bg',
      bindGroup (stlOps w') = Some bg'
      ∧ inputBuffer (stlOps w') = Some (binding0 bg')
      ∧ outputBuffer (stlOps w') = Some (binding1 bg')
      ∧ uniformBuffer (stlOps w') = Some (binding2 bg')
      ∧ NoDup [binding0 bg'; binding1 bg'; binding2 bg']
      ∧ ∀ h, h ∈ live_buffers w' ↔ h ∈ [binding0 bg'; binding1 bg'; binding2 bg'].
Proof.
  intros Hs Hvc Hwrap rs w'.
  assert (Hlen : ∀ cs w, length (do_clicks gpu_cos gpu_sin cs w).1 = length cs).
  { clear. induction cs as [|c cs IH]; intros w; [done|]. simpl.
    destruct (do_click gpu_cos gpu_sin c w) as [r w1].
    specialize (IH w1). destruct (do_clicks gpu_cos gpu_sin cs w1). simpl in *.
    by rewrite IH. }
  split; [apply Hlen|].
  destruct (do_clicks_settled gpu_cos gpu_sin cs w mesh bg input output Hs Hvc Hwrap)
    as (mesh' & bg' & output' & (Hready & Hib & Hlive) & _ & Hok).
  fold w' in Hready, Hib, Hlive. fold rs in Hok.
  split; [done|]. exists bg'.
  pose proof (ready_distinct _ _ _ _ _ Hready) as (Hd01 & Hd02 & Hd12).
  split; [by destruct Hready|]. split; [done|].
  split; [by destruct Hready|]. split; [by destruct Hready|].
  split.
  - repeat constructor; rewrite ?elem_of_cons, ?elem_of_nil; tauto.
  - intros h. split; [apply Hlive|].
    rewrite !elem_of_cons, elem_of_nil. rewrite elem_of_live_buffers.
    pose proof (ready_input _ _ _ _ _ Hready) as Hin.
    pose proof (ready_output _ _ _ _ _ Hready) as Hout.
    pose proof (ready_uniform _ _ _ _ _ Hready) as (old & Hold & Hu).
    intros [->|[->|[->|[]]]]; eauto.
Qed.

Lemma clicks_never_leak_buffers_witness :
  length (do_clicks no_trig no_trig
            [ClickProcess "rotate" (number_lit 0.5); ClickReset;
             ClickProcess "scale" (number_lit 2.0)] app_World).1 = 3%nat.
Proof.
  refine (proj1 (clicks_never_leak_buffers no_trig no_trig
                   [ClickProcess "rotate" (number_lit 0.5); ClickReset;
                    ClickProcess "scale" (number_lit 2.0)]
                   app_World app_mesh app_bindGroup cube_f32
                   (replicate 24 f32_zero) _ _ _)).
  - exact app_World_settled.
  - simpl. lia.
  - unfold u32_modulus. simpl. lia.
Defined.

(** X8: the Reset handler makes a new cube in array buffers that did not
    exist before, leaving every existing array buffer as it is; it destroys
    the three device buffers in use and binds three new ones; it submits
    nothing to the queue; and the new output buffer is zero-filled, so
    [getProcessedVertices] right after a Reset returns 24 zeros, not the
    cube. *)
Theorem reset_restores_the_cube (w : World) (mesh : Mesh) (bg : BindGroup)
    (input output : list f32) :
  settled w mesh bg input output →
  ∃ w' mesh' bg',
    reset_click w = (Ok tt, w')
    ∧ meshData (stlOps w') = Some mesh'
    ∧ bindGroup (stlOps w') = Some bg'
    ∧ vertexCount mesh' = 8%Z
    ∧ arraybuffers w !! vertices mesh' = None
    ∧ arraybuffers w !! indices mesh' = None
    ∧ arraybuffers w' !! vertices mesh' = Some (Floats cube_f32)
    ∧ arraybuffers w' !! indices mesh' = Some (Words cube_indices)
    ∧ (∀ l s, arraybuffers w !! l = Some s → arraybuffers w' !! l = Some s)
    ∧ (∀ h, h ∈ [binding0 bg; binding1 bg; binding2 bg] →
         ∃ b, gpubuffers w' !! h = Some b ∧ gpu_destroyed b = true)
    ∧ (∀ h, h ∈ [binding0 bg'; binding1 bg'; binding2 bg'] →
         gpubuffers w !! h = None)
    ∧ submitted w' = submitted w
    ∧ (contents_of getProcessedVertices w').1 = Ok (Floats (replicate 24 f32_zero)).
Proof.
  intros Hs.
  destruct (reset_click_settled w mesh bg input output Hs)
    as (w' & bg' & Hrun & Hs' & Hkept & Hv & Hi & Hi' & Hdead & Hfresh & Hsub).
  destruct Hs' as (Hready & Hib & Hlive).
  eexists w', _, bg'. split; [exact Hrun|].
  split; [exact (ready_meshData _ _ _ _ _ Hready)|].
  split; [exact (ready_bindGroup _ _ _ _ _ Hready)|].
  split; [done|]. split; [exact Hv|]. split; [exact Hi|].
  split; [exact (ready_vertices _ _ _ _ _ Hready)|].
  split; [exact Hi'|]. split; [exact Hkept|]. split; [exact Hdead|].
  split; [exact Hfresh|]. split; [exact Hsub|].
  destruct (getProcessedVertices_keeps_settled w' _ bg' cube_f32 _
              (conj Hready (conj Hib Hlive)))
    as (processed & w2 & Hrun2 & _ & Hp).
  unfold contents_of, mbind, Host_bind. rewrite Hrun2.
  unfold get_ArrayBuffer. by rewrite Hp.
Qed.

Lemma reset_restores_the_cube_witness :
  ∃ w' mesh' bg',
    reset_click app_World = (Ok tt, w')
    ∧ meshData (stlOps w') = Some mesh'
    ∧ bindGroup (stlOps w') = Some bg'
    ∧ vertexCount mesh' = 8%Z.
Proof.
  destruct (reset_restores_the_cube app_World app_mesh app_bindGroup cube_f32
              (replicate 24 f32_zero) app_World_settled)
    as (w' & mesh' & bg' & H1 & H2 & H3 & H4 & _).
  exists w', mesh', bg'. exact (conj H1 (conj H2 (conj H3 H4))).
Defined.



(** X10: with a mesh but without buffers, [processOperation] throws a
    [TypeError] with nothing changed, while [getProcessedVertices] throws
    only after [readBuffer] has created its staging buffer, which is left
    behind undestroyed. *)
Theorem fetch_without_buffers_leaves_staging (w : World) (mesh : Mesh) (v : storage)
    (gpu_cos gpu_sin : f32 → f32) (operation : string) (param : number) :
  meshData (stlOps w) = Some mesh →
  arraybuffers w !! vertices mesh = Some v →
  outputBuffer (stlOps w) = None →
  uniformBuffer (stlOps w) = None →
  let staging := fresh (dom (gpubuffers w)) in
  processOperation gpu_cos gpu_sin operation param w = (Throw TypeError, w)
  ∧ ∃ w',
      getProcessedVertices w = (Throw TypeError, w')
      ∧ arraybuffers w' = arraybuffers w
      ∧ submitted w' = submitted w
      ∧ gpubuffers w !! staging = None
      ∧ gpubuffers w' =
          <[staging := {| gpu_size := byteLength v;
                          gpu_data := Floats (replicate (byteLength v / 4) f32_zero);
                          gpu_destroyed := false |}]> (gpubuffers w)
      ∧ staging ∈ live_buffers w'.
Proof.
  intros Hmesh Hv Hob Hub staging. split.
  - rewrite processOperation_unfold, Hmesh, Hub. reflexivity.
  - unfold getProcessedVertices, this, nonnull, get_ArrayBuffer.
    unfold mbind at 1 2 3, Host_bind at 1 2 3, mret, Host_ret, throw.
    rewrite Hmesh, Hv, Hob.
    unfold readBuffer, device_createBuffer, nonnull, mbind, Host_bind, throw.
    fold staging. eexists. split; [reflexivity|].
    cbn [arraybuffers submitted gpubuffers].
    split; [done|]. split; [done|]. split; [apply fresh_lookup_None|].
    split; [done|].
    apply elem_of_live_buffers. eexists. cbn [gpubuffers]. split.
    + apply lookup_insert_eq.
    + done.
Qed.

Lemma fetch_without_buffers_leaves_staging_witness :
  processOperation no_trig no_trig "scale" (number_lit 2.0)
    (generateCubeMesh initial_World).2
  = (Throw TypeError, (generateCubeMesh initial_World).2).
Proof.
  refine (proj1 (fetch_without_buffers_leaves_staging
                   (generateCubeMesh initial_World).2
                   {| vertices := 0; indices := 1; vertexCount := 8 |}
                   (Floats cube_f32) no_trig no_trig "scale" (number_lit 2.0)
                   _ _ _ _)).
  - vm_compute. reflexivity.
  - vm_compute. reflexivity.
  - reflexivity.
  - reflexivity.
Defined.

(** X23: what a click on Process hands to the queue, and what it fetches.
    From a settled state, a listener that runs through both awaits with
    nothing in between submits the 16-byte write to the uniform buffer, one
    dispatch over the bind group, and the copy of that bind group's output
    buffer into a staging buffer that did not exist before, in this order,
    and returns the deformed positions.  With a click on Reset at the first
    await the copy is taken from the output buffer made by the Reset, and
    the listener returns 24 zeros, not the deformation.  With a click on
    Reset at the second await the copy has been submitted before the Reset
    destroys its source, and the listener returns the deformation, while
    [stlOps] holds the new cube. *)
Theorem process_click_submits_in_order (gpu_cos gpu_sin : f32 → f32)
    (w : World) (mesh : Mesh) (bg : BindGroup) (input output : list f32)
    (name : string) (param : number) :
  settled w mesh bg input output →
  (0 <= vertexCount mesh)%Z →
  (3 * vertexCount mesh <= u32_modulus)%Z →
  let payload := uniform_payload (opIndex_of name) param (vertexCount mesh) in
  let workgroups := Math_ceil (inject_Z (vertexCount mesh) / 64) in
  let deformed :=
    map_vertices
      (deform_vertex (H := f32_scalar gpu_cos gpu_sin)
         (kernel_params name param (vertexCount mesh))) input in
  let staging := fresh (dom (gpubuffers w)) in
  (∃ processed w',
     do_steps gpu_cos gpu_sin
       [StepProcessClick name param; StepWorkDone; StepMapped] (Idle, w)
     = ([Ok processed], (Idle, w'))
     ∧ arraybuffers w' !! processed = Some (Floats deformed)
     ∧ submitted w' =
         submitted w ++
           [CmdWriteBuffer (binding2 bg) payload;
            CmdDispatch bg workgroups;
            CmdCopyBufferToBuffer (binding1 bg) staging (4 * length input)]
     ∧ gpubuffers w !! staging = None
     ∧ length payload = 16%nat
     ∧ Z.of_nat (4 * length input) = (12 * vertexCount mesh)%Z)
  ∧ (∃ processed w' bg' staging',
       do_steps gpu_cos gpu_sin
         [StepProcessClick name param; StepResetClick; StepWorkDone; StepMapped]
         (Idle, w)
       = ([Ok processed], (Idle, w'))
       ∧ arraybuffers w' !! processed = Some (Floats (replicate 24 f32_zero))
       ∧ bindGroup (stlOps w') = Some bg'
       ∧ gpubuffers w !! binding1 bg' = None
       ∧ submitted w' =
           submitted w ++
             [CmdWriteBuffer (binding2 bg) payload;
              CmdDispatch bg workgroups;
              CmdCopyBufferToBuffer (binding1 bg') staging' 96])
  ∧ (∃ processed w' mesh',
       do_steps gpu_cos gpu_sin
         [StepProcessClick name param; StepWorkDone; StepResetClick; StepMapped]
         (Idle, w)
       = ([Ok processed], (Idle, w'))
       ∧ arraybuffers w' !! processed = Some (Floats deformed)
       ∧ submitted w' =
           submitted w ++
             [CmdWriteBuffer (binding2 bg) payload;
              CmdDispatch bg workgroups;
              CmdCopyBufferToBuffer (binding1 bg) staging (4 * length input)]
       ∧ meshData (stlOps w') = Some mesh'
       ∧ arraybuffers w' !! vertices mesh' = Some (Floats cube_f32)
       ∧ (∃ b, gpubuffers w' !! binding1 bg = Some b ∧ gpu_destroyed b = true)).
Proof.
  intros Hs Hvc Hwrap payload workgroups deformed staging.
  pose proof Hs as (Hready & Hib & Hlive).
  pose proof (processOperation_ready gpu_cos gpu_sin w mesh bg input output
                name param Hready Hvc Hwrap) as Hrun1.
  cbv zeta in Hrun1. fold payload workgroups deformed in Hrun1.
  destruct (processOperation_keeps_settled gpu_cos gpu_sin w mesh bg input output
              name param Hs Hvc Hwrap) as (w1 & Hrun1' & Hs1).
  fold deformed in Hs1.
  pose proof Hs1 as (Hready1 & Hib1 & Hlive1).
  assert (Hw1 : w1 = (processOperation gpu_cos gpu_sin name param w).2)
    by (by rewrite Hrun1').
  pose proof (ready_input_length _ _ _ _ _ Hready) as Hlin.
  assert (Hn : length input = (3 * Z.to_nat (vertexCount mesh))%nat)
    by (unfold f32 in *; lia).
  assert (Hlen : length deformed = length input)
    by (unfold deformed; rewrite (length_map_vertices _ _ _ Hn); lia).
  assert (Hdom : dom (gpubuffers w1) = dom (gpubuffers w)).
  { rewrite Hw1, Hrun1. cbn [snd gpubuffers]. rewrite !dom_insert_L.
    pose proof (ready_output _ _ _ _ _ Hready) as Hout.
    pose proof (ready_uniform _ _ _ _ _ Hready) as (old & _ & Hu).
    apply elem_of_dom_2 in Hout. apply elem_of_dom_2 in Hu.
    rewrite (subseteq_union_1_L {[binding2 bg]}) by (by apply singleton_subseteq_l).
    apply subseteq_union_1_L. by apply singleton_subseteq_l. }
  assert (Hsub1 : submitted w1 =
            submitted w ++ [CmdWriteBuffer (binding2 bg) payload;
                            CmdDispatch bg workgroups]).
  { rewrite Hw1, Hrun1. reflexivity. }
  pose proof (getProcessedVertices_submit_run w1 mesh bg input deformed Hready1) as Hrun2.
  cbv zeta in Hrun2. rewrite Hdom in Hrun2. fold staging in Hrun2. rewrite Hlen in Hrun2.
  set (w2 := {| arraybuffers := arraybuffers w1;
                gpubuffers := <[staging := {| gpu_size := 4 * length input;
                                              gpu_data := Floats deformed;
                                              gpu_destroyed := false |}]> (gpubuffers w1);
                submitted := submitted w1 ++
                  [CmdCopyBufferToBuffer (binding1 bg) staging (4 * length input)];
                stlOps := stlOps w1 |}) in *.
  assert (Hstaging : gpubuffers w !! staging = None) by apply fresh_lookup_None.
  assert (Hst2 : gpubuffers w2 !! staging =
            Some {| gpu_size := 4 * length input; gpu_data := Floats deformed;
                    gpu_destroyed := false |}) by apply lookup_insert_eq.
  assert (Hfetch : ∀ (st : loc) (v : World) size data,
    gpubuffers v !! st =
      Some {| gpu_size := size; gpu_data := Floats data; gpu_destroyed := false |} →
    ∃ processed v',
      readBuffer_finish st v = (Ok processed, v')
      ∧ arraybuffers v' !! processed = Some (Floats data)
      ∧ submitted v' = submitted v
      ∧ stlOps v' = stlOps v
      ∧ (∀ l s, arraybuffers v !! l = Some s → arraybuffers v' !! l = Some s)
      ∧ (∀ h, h ≠ st → gpubuffers v' !! h = gpubuffers v !! h)).
  { clear. intros st v size data Hst.
    pose proof (readBuffer_finish_run v st size data Hst) as Hrun.
    cbv zeta in Hrun.
    set (range := fresh (dom (arraybuffers v))) in *.
    set (result := fresh (dom (<[range := Floats data]> (arraybuffers v)))) in *.
    assert (Hrange : arraybuffers v !! range = None) by apply fresh_lookup_None.
    assert (Hresult : <[range := Floats data]> (arraybuffers v) !! result = None)
      by apply fresh_lookup_None.
    apply lookup_insert_None in Hresult as [Hresult Hrr].
    eexists _, _. split; [exact Hrun|]. cbn [arraybuffers submitted stlOps gpubuffers].
    split; [rewrite lookup_insert_ne by done; apply lookup_insert_eq|].
    split; [done|]. split; [done|]. split.
    - intros l s Hl. rewrite !lookup_insert_ne by congruence. done.
    - intros h Hh. by rewrite lookup_insert_ne. }
  split; [|split].
  - (* nothing at the awaits *)
    destruct (Hfetch staging w2 _ _ Hst2) as (processed & w3 & Hrun3 & Hp & Hsub3 & _).
    exists processed, w3. cbn [do_steps do_step].
    rewrite Hrun1'. cbn [do_steps do_step]. rewrite Hrun2.
    cbn [do_steps do_step]. rewrite Hrun3.
    split; [reflexivity|]. split; [exact Hp|].
    split; [|split; [done|split; [reflexivity|unfold f32 in *; lia]]].
    rewrite Hsub3. cbn [w2 submitted]. rewrite Hsub1, <- app_assoc. reflexivity.
  - (* a Reset at the first await *)
    destruct (reset_click_ready w1 mesh bg input deformed Hready1 Hib1)
      as (wr & bg' & Hrunr & Hreadyr & Hibr & _ & _ & Hnew & _ & Hsubr).
    pose proof (getProcessedVertices_submit_run wr _ bg' cube_f32
                  (replicate 24 f32_zero) Hreadyr) as Hrun2r.
    cbv zeta in Hrun2r.
    set (staging' := fresh (dom (gpubuffers wr))) in *.
    match type of Hrun2r with _ = (_, ?v) => set (w2r := v) in * end.
    assert (Hst2r : gpubuffers w2r !! staging' =
              Some {| gpu_size := 4 * length (replicate 24 f32_zero);
                      gpu_data := Floats (replicate 24 f32_zero);
                      gpu_destroyed := false |}) by apply lookup_insert_eq.
    destruct (Hfetch staging' w2r _ _ Hst2r)
      as (processed & w3 & Hrun3 & Hp & Hsub3 & Hops3 & _).
    exists processed, w3, bg', staging'. cbn [do_steps do_step].
    rewrite Hrun1'. cbn [do_steps do_step]. rewrite Hrunr.
    cbn [do_steps do_step]. rewrite Hrun2r. cbn [do_steps do_step]. rewrite Hrun3.
    split; [reflexivity|]. split; [exact Hp|].
    split; [rewrite Hops3; exact (ready_bindGroup _ _ _ _ _ Hreadyr)|].
    split.
    + apply not_elem_of_dom. rewrite <- Hdom. apply not_elem_of_dom.
      apply Hnew. rewrite !elem_of_cons. tauto.
    + rewrite Hsub3. cbn [w2r submitted]. rewrite Hsubr, Hsub1, <- app_assoc.
      reflexivity.
  - (* a Reset at the second await *)
    assert (Hready2 : ready w2 mesh bg input deformed).
    { pose proof (ready_input _ _ _ _ _ Hready1) as Hin.
      pose proof (ready_output _ _ _ _ _ Hready1) as Hout.
      pose proof (ready_uniform _ _ _ _ _ Hready1) as (old & Hold & Hu).
      assert (Hst1 : gpubuffers w1 !! staging = None).
      { apply not_elem_of_dom. rewrite Hdom. by apply not_elem_of_dom. }
      destruct Hready1. split; cbn [w2 arraybuffers gpubuffers stlOps]; try done.
      - rewrite lookup_insert_ne by congruence. done.
      - rewrite lookup_insert_ne by congruence. done.
      - exists old. split; [done|]. rewrite lookup_insert_ne by congruence. done. }
    destruct (reset_click_ready w2 mesh bg input deformed Hready2 Hib1)
      as (wr & bg' & Hrunr & Hreadyr & Hibr & _ & Hdead & Hnew & Hother & Hsubr).
    assert (Hnot : staging ∉ [binding0 bg; binding1 bg; binding2 bg]).
    { rewrite !elem_of_cons. intros [E|[E|[E|E]]].
      - pose proof (ready_input _ _ _ _ _ Hready) as Hin. congruence.
      - pose proof (ready_output _ _ _ _ _ Hready) as Hout. congruence.
      - pose proof (ready_uniform _ _ _ _ _ Hready) as (old & _ & Hu). congruence.
      - by apply elem_of_nil in E. }
    assert (Hnot' : staging ∉ [binding0 bg'; binding1 bg'; binding2 bg']).
    { intros Hin. apply Hnew in Hin. congruence. }
    assert (Hstr : gpubuffers wr !! staging =
              Some {| gpu_size := 4 * length input; gpu_data := Floats deformed;
                      gpu_destroyed := false |}).
    { by rewrite (Hother staging Hnot Hnot'). }
    destruct (Hfetch staging wr _ _ Hstr)
      as (processed & w3 & Hrun3 & Hp & Hsub3 & Hops3 & Hkept3 & Hgpu3).
    eexists processed, w3, _. cbn [do_steps do_step].
    rewrite Hrun1'. cbn [do_steps do_step]. rewrite Hrun2.
    cbn [do_steps do_step]. rewrite Hrunr. cbn [do_steps do_step]. rewrite Hrun3.
    split; [reflexivity|]. split; [exact Hp|].
    split; [rewrite Hsub3, Hsubr; cbn [w2 submitted];
            rewrite Hsub1, <- app_assoc; reflexivity|].
    split; [rewrite Hops3; exact (ready_meshData _ _ _ _ _ Hreadyr)|].
    split; [apply Hkept3; exact (ready_vertices _ _ _ _ _ Hreadyr)|].
    destruct (Hdead (binding1 bg)) as (b & Hb & Hd); [rewrite !elem_of_cons; tauto|].
    exists b. split; [|done]. rewrite Hgpu3; [done|].
    intros E. apply Hnot. rewrite <- E. rewrite !elem_of_cons. tauto.
Qed.

Lemma process_click_submits_in_order_witness :
  ∃ processed w' bg' staging',
    do_steps no_trig no_trig
      [StepProcessClick "scale" (number_lit 2.0); StepResetClick; StepWorkDone;
       StepMapped] (Idle, app_World)
    = ([Ok processed], (Idle, w'))
    ∧ arraybuffers w' !! processed = Some (Floats (replicate 24 f32_zero))
    ∧ bindGroup (stlOps w') = Some bg'
    ∧ gpubuffers app_World !! binding1 bg' = None
    ∧ submitted w' =
        submitted app_World ++
          [CmdWriteBuffer (binding2 app_bindGroup)
             (uniform_payload (opIndex_of "scale") (number_lit 2.0)
                (vertexCount app_mesh));
           CmdDispatch app_bindGroup (Math_ceil (inject_Z (vertexCount app_mesh) / 64));
           CmdCopyBufferToBuffer (binding1 bg') staging' 96].
Proof.
  refine (proj1 (proj2 (process_click_submits_in_order no_trig no_trig
            app_World app_mesh app_bindGroup cube_f32 (replicate 24 f32_zero)
            "scale" (number_lit 2.0) _ _ _))).
  - exact app_World_settled.
  - simpl. lia.
  - unfold u32_modulus. simpl. lia.
Defined.

(** ** The handlers of the renderer *)

Section RendererInvariants.
Context {Matrix : Type}.
Variable buildMVP : Renderer Matrix → Matrix.

Lemma live_depth_textures_app (c1 c2 : list (gpu_call Matrix)) :
  live_depth_textures (c1 ++ c2)
  = (live_depth_textures c1 + live_depth_textures c2)%Z.
Proof.
  induction c1 as [|c c1 IH]; simpl; [lia|].
  destruct c; rewrite ?IH; lia.
Qed.

Lemma passes_submitted_app (c1 c2 : list (gpu_call Matrix)) :
  passes_submitted (c1 ++ c2) = (passes_submitted c1 + passes_submitted c2)%Z.
Proof.
  induction c1 as [|c c1 IH]; simpl; [lia|].
  destruct c; rewrite ?IH; lia.
Qed.

Lemma handle_inv (e : event) (r : Renderer Matrix) :
  renderer_inv r → ∃ r', handle buildMVP e r = inr r' ∧ renderer_inv r'.
Proof.
  intros ([d Hdev] & Hsurf & Hidx & Hlive).
  destruct e as [w h|now|byteLength indices|]; simpl.
  - unfold resizeCanvas.
    cbn [layout with_canvas canvas clientWidth clientHeight device depthTexture].
    destruct ((w =? 0) || (h =? 0))%Z eqn:Ez.
    + eexists. split; [reflexivity|].
      split; [by eexists|]. split; [|split; [done|done]].
      intros w0 h0 Hd. apply Hsurf in Hd. done.
    + apply orb_false_iff in Ez as [Hw Hh].
      apply Z.eqb_neq in Hw. apply Z.eqb_neq in Hh.
      rewrite Hdev. eexists. split; [reflexivity|].
      split; [by eexists|]. split; [|split; [done|]].
      * intros w0 h0 [= <- <-]. done.
      * cbn [with_depthTexture with_canvas layout gpu_calls depthTexture].
        rewrite !live_depth_textures_app, Hlive.
        destruct (depthTexture r) as [[w0 h0]|]; simpl; lia.
  - unfold render.
    destruct (bool_decide (depthTexture r = None) || (width (canvas r) =? 0)%Z).
    + eexists. split; [reflexivity|]. split; [by eexists|]. done.
    + rewrite Hdev.
      destruct (fps_due now (lastFpsTime r));
        (eexists; split; [reflexivity|]; split; [by eexists|];
         split; [done|]; split; [done|];
         cbn [with_frame gpu_calls depthTexture];
         rewrite live_depth_textures_app, Hlive; simpl;
         destruct (depthTexture r); lia).
  - unfold updateMesh. rewrite Hdev.
    destruct (indexBuffer r) as [ib|] eqn:Eib, indices as [n|];
      (eexists; split; [reflexivity|]; split; [by eexists|];
       split; [done|]; split; [|done]).
    + intros size Hsize. cbn [with_buffers indexBuffer indexCount] in *.
      apply Hidx. congruence.
    + intros size Hsize. cbn [with_buffers indexBuffer indexCount] in *.
      apply Hidx. congruence.
    + intros size [= <-]. cbn [with_buffers indexCount]. lia.
    + intros size Hsize. cbn [with_buffers indexBuffer] in Hsize. congruence.
  - eexists. split; [reflexivity|]. split; [by eexists|].
    split; [done|]. split; [|done].
    intros size Hsize. done.
Qed.

Lemma handle_all_inv (es : list event) : ∀ r : Renderer Matrix,
  renderer_inv r → ∃ r', handle_all buildMVP es r = inr r' ∧ renderer_inv r'.
Proof.
  induction es as [|e es IH]; intros r Hinv; simpl.
  - by exists r.
  - destruct (handle_inv e r Hinv) as (r1 & -> & Hinv1). by apply IH.
Qed.

Lemma init_inv (c : Canvas) (fpsEl : bool) (t0 : number) :
  ∃ r0 : Renderer Matrix, init (new_Renderer c fpsEl t0) = inr r0 ∧ renderer_inv r0.
Proof.
  unfold init, resizeCanvas.
  cbn [with_device new_Renderer canvas device depthTexture].
  destruct ((clientWidth c =? 0) || (clientHeight c =? 0))%Z eqn:Ez.
  - eexists. split; [reflexivity|]. split; [by eexists|].
    split; [done|]. split; [done|]. reflexivity.
  - apply orb_false_iff in Ez as [Hw Hh].
    apply Z.eqb_neq in Hw. apply Z.eqb_neq in Hh.
    eexists. split; [reflexivity|]. split; [by eexists|].
    split; [|split; [done|reflexivity]].
    intros w0 h0 [= <- <-]. done.
Qed.

End RendererInvariants.

Section RendererFrames.
Context {Matrix : Type}.
Variable buildMVP : Renderer Matrix → Matrix.

Lemma render_visible (now : number) (r : Renderer Matrix) :
  visible r →
  let draw := match vertexBuffer r, indexBuffer r with
              | Some _, Some _ => Some (indexCount r)
              | _, _ => None
              end in
  let calls := [WriteMVP (buildMVP r); SubmitRenderPass draw] in
  render buildMVP now r =
    inr (if fps_due now (lastFpsTime r)
         then with_frame 0 now (show_frames (frameCount r + 1)%Z (fpsCounter r)) calls r
         else with_frame (frameCount r + 1)%Z (lastFpsTime r) (fpsCounter r) calls r).
Proof.
  intros ([d Hdev] & [t Ht] & Hw) draw calls. unfold render.
  rewrite Ht, Hdev. rewrite bool_decide_eq_false_2 by done.
  apply Z.eqb_neq in Hw. rewrite Hw. cbn [orb].
  by destruct (fps_due now (lastFpsTime r)).
Qed.

Lemma frames_before_the_update (ts : list number) : ∀ r : Renderer Matrix,
  visible r →
  Forall (λ t, fps_due t (lastFpsTime r) = false) ts →
  ∃ r',
    handle_all buildMVP (FrameDue <$> ts) r = inr r'
    ∧ visible r'
    ∧ frameCount r' = (frameCount r + Z.of_nat (length ts))%Z
    ∧ lastFpsTime r' = lastFpsTime r
    ∧ fpsCounter r' = fpsCounter r
    ∧ passes_submitted (gpu_calls r')
      = (passes_submitted (gpu_calls r) + Z.of_nat (length ts))%Z.
Proof.
  induction ts as [|t ts IH]; intros r Hvis Hts.
  - exists r. simpl. split; [done|]. split; [done|].
    split; [lia|]. split; [done|]. split; [done|]. lia.
  - apply Forall_cons in Hts as [Ht Hts].
    cbn [fmap list_fmap handle_all handle].
    rewrite render_visible by done.
    rewrite Ht.
    match goal with
    | |- ∃ r', handle_all _ _ ?r1 = _ ∧ _ =>
        destruct (IH r1) as (r' & Hrun & Hvis' & Hfc & Hlast & Hfps & Hsub)
    end.
    + destruct Hvis as (Hd & Ht' & Hw). split; [done|]. split; done.
    + done.
    + exists r'. split; [done|]. split; [done|].
      cbn [with_frame frameCount lastFpsTime fpsCounter gpu_calls] in *.
      rewrite passes_submitted_app in Hsub. simpl in Hsub.
      split; [simpl length; lia|]. split; [done|]. split; [done|].
      simpl length. lia.
Qed.

End RendererFrames.

(** X11: once [init] has run, no resize, frame, mesh update or index reset
    throws, in any order and number.  On a renderer that has not been
    initialised, a resize to a size with an area and [updateMesh] throw a
    [TypeError] (the device is [null]), and [render] returns at once. *)
Theorem handlers_throw_only_before_init {Matrix : Type}
    (buildMVP : Renderer Matrix → Matrix) (c : Canvas) (fpsEl : bool)
    (t0 : number) (es : list event) :
  (∃ r0 r',
     init (new_Renderer c fpsEl t0) = inr r0
     ∧ handle_all buildMVP es r0 = inr r'
     ∧ is_Some (device r'))
  ∧ (∀ w h : Z, w ≠ 0%Z → h ≠ 0%Z →
       resizeCanvas (layout w h (new_Renderer (Matrix := Matrix) c fpsEl t0)) = inl TypeError)
  ∧ (∀ (byteLength : nat) (indices : option nat),
       updateMesh byteLength indices (new_Renderer (Matrix := Matrix) c fpsEl t0)
       = inl TypeError)
  ∧ (∀ now : number,
       render buildMVP now (new_Renderer c fpsEl t0) = inr (new_Renderer c fpsEl t0)).
Proof.
  split; [|split; [|split]].
  - destruct (init_inv (Matrix := Matrix) c fpsEl t0) as (r0 & Hinit & Hinv).
    destruct (handle_all_inv buildMVP es r0 Hinv) as (r' & Hrun & Hdev & _).
    by exists r0, r'.
  - intros w h Hw Hh. unfold resizeCanvas.
    cbn [layout with_canvas canvas clientWidth clientHeight device new_Renderer].
    apply Z.eqb_neq in Hw. apply Z.eqb_neq in Hh. by rewrite Hw, Hh.
  - intros byteLength indices. reflexivity.
  - intros now. reflexivity.
Qed.

(** X12: after [init] and any events, the depth texture, when there is
    one, has exactly the width and height of the drawing buffer, both
    non-zero; and the device holds one depth texture when the renderer has
    one and none otherwise: each resize destroys the texture it replaces. *)
Theorem depth_texture_fits_the_canvas {Matrix : Type}
    (buildMVP : Renderer Matrix → Matrix) (c : Canvas) (fpsEl : bool)
    (t0 : number) (es : list event) :
  ∃ r0 r',
    init (new_Renderer c fpsEl t0) = inr r0
    ∧ handle_all buildMVP es r0 = inr r'
    ∧ (∀ w h, depthTexture r' = Some (w, h) →
         width (canvas r') = w ∧ height (canvas r') = h ∧ w ≠ 0%Z ∧ h ≠ 0%Z)
    ∧ live_depth_textures (gpu_calls r')
      = match depthTexture r' with Some _ => 1%Z | None => 0%Z end.
Proof.
  destruct (init_inv (Matrix := Matrix) c fpsEl t0) as (r0 & Hinit & Hinv).
  destruct (handle_all_inv buildMVP es r0 Hinv) as (r' & Hrun & _ & Hsurf & _ & Hlive).
  by exists r0, r'.
Qed.

(** X13: after [init] and any events, a frame either submits nothing, or
    writes the matrix and submits a pass without a draw (a buffer is
    missing), or draws [indexCount] indices from an index buffer of exactly
    [4 * indexCount] bytes, with a vertex buffer bound. *)
Theorem draw_count_matches_index_buffer {Matrix : Type}
    (buildMVP : Renderer Matrix → Matrix) (c : Canvas) (fpsEl : bool) (t0 now : number)
    (es : list event) :
  ∃ r0 r' r'',
    init (new_Renderer c fpsEl t0) = inr r0
    ∧ handle_all buildMVP es r0 = inr r'
    ∧ render buildMVP now r' = inr r''
    ∧ (∀ size, indexBuffer r' = Some size → Z.of_nat size = (4 * indexCount r')%Z)
    ∧ (gpu_calls r'' = gpu_calls r'
       ∨ (gpu_calls r'' =
            gpu_calls r' ++ [WriteMVP (buildMVP r'); SubmitRenderPass None]
          ∧ (vertexBuffer r' = None ∨ indexBuffer r' = None))
       ∨ (∃ (n : Z) (size : nat),
            gpu_calls r'' =
              gpu_calls r' ++ [WriteMVP (buildMVP r'); SubmitRenderPass (Some n)]
            ∧ n = indexCount r'
            ∧ indexBuffer r' = Some size
            ∧ Z.of_nat size = (4 * n)%Z
            ∧ is_Some (vertexBuffer r'))).
Proof.
  destruct (init_inv (Matrix := Matrix) c fpsEl t0) as (r0 & Hinit & Hinv).
  destruct (handle_all_inv buildMVP es r0 Hinv)
    as (r' & Hrun & [d Hdev] & _ & Hidx & _).
  assert (Hdraw :
    let draw := match vertexBuffer r', indexBuffer r' with
                | Some _, Some _ => Some (indexCount r')
                | _, _ => None
                end in
    (draw = None ∧ (vertexBuffer r' = None ∨ indexBuffer r' = None))
    ∨ (∃ size, draw = Some (indexCount r') ∧ indexBuffer r' = Some size
               ∧ Z.of_nat size = (4 * indexCount r')%Z
               ∧ is_Some (vertexBuffer r'))).
  { destruct (vertexBuffer r') as [vb|]; [|left; auto].
    destruct (indexBuffer r') as [ib|] eqn:Ei; [|left; auto].
    right. exists ib. split; [done|]. split; [done|]. split; [by apply Hidx|].
    by eexists. }
  cbv zeta in Hdraw.
  assert (Hcalls : ∀ frames last fps calls,
            gpu_calls (with_frame frames last fps calls r') = gpu_calls r' ++ calls)
    by done.
  exists r0, r'.
  assert (Hrender : ∃ r'', render buildMVP now r' = inr r''
    ∧ (gpu_calls r'' = gpu_calls r'
       ∨ gpu_calls r'' =
           gpu_calls r' ++
             [WriteMVP (buildMVP r');
              SubmitRenderPass
                match vertexBuffer r', indexBuffer r' with
                | Some _, Some _ => Some (indexCount r')
                | _, _ => None
                end])).
  { unfold render.
    destruct (bool_decide (depthTexture r' = None) || (width (canvas r') =? 0)%Z).
    { exists r'. split; [done|]. by left. }
    rewrite Hdev.
    destruct (fps_due now (lastFpsTime r'));
      (eexists; split; [reflexivity|]; right; by rewrite Hcalls). }
  destruct Hrender as (r'' & Hr & Hc). exists r''.
  split; [done|]. split; [done|]. split; [done|]. split; [exact Hidx|].
  destruct Hc as [Hc|Hc]; [by left|]. right.
  destruct Hdraw as [[Hd Hnone]|(size & Hd & Hib & Hsize & Hvb)]; rewrite Hd in Hc.
  - left. done.
  - right. exists (indexCount r'), size. done.
Qed.

Lemma handle_all_app {Matrix : Type} (buildMVP : Renderer Matrix → Matrix)
    (es1 es2 : list event) : ∀ r r1 : Renderer Matrix,
  handle_all buildMVP es1 r = inr r1 →
  handle_all buildMVP (es1 ++ es2) r = handle_all buildMVP es2 r1.
Proof.
  induction es1 as [|e es1 IH]; intros r r1; simpl.
  - by intros [= ->].
  - destruct (handle buildMVP e r) as [err|r2]; [done|]. apply IH.
Qed.

(** X14: the frame counter.  The test of [render] is
    [now - this.lastFpsTime >= 1000] in binary64.  On a renderer that draws,
    frames for which it fails leave the display, and the time of the last
    update, as they are and count up; the first frame for which it holds
    writes the number of frames since the last update, itself included, to
    the element of id [fpsCounter] when the document has one, and in any
    case sets the count back to 0 and takes its own time as the time of the
    update.  Every frame submits one pass. *)
Theorem fps_counts_frames_of_the_interval {Matrix : Type}
    (buildMVP : Renderer Matrix → Matrix) (r : Renderer Matrix)
    (ts : list number) (t_last : number) :
  visible r →
  Forall (λ t, fps_due t (lastFpsTime r) = false) ts →
  fps_due t_last (lastFpsTime r) = true →
  let frames := (frameCount r + Z.of_nat (length ts) + 1)%Z in
  (∃ r1,
     handle_all buildMVP (FrameDue <$> ts) r = inr r1
     ∧ fpsCounter r1 = fpsCounter r
     ∧ lastFpsTime r1 = lastFpsTime r
     ∧ frameCount r1 = (frameCount r + Z.of_nat (length ts))%Z)
  ∧ ∃ r',
      handle_all buildMVP (FrameDue <$> (ts ++ [t_last])) r = inr r'
      ∧ (is_Some (fpsCounter r) → fpsCounter r' = Some (Some frames))
      ∧ (fpsCounter r = None → fpsCounter r' = None)
      ∧ frameCount r' = 0%Z
      ∧ lastFpsTime r' = t_last
      ∧ passes_submitted (gpu_calls r')
        = (passes_submitted (gpu_calls r) + Z.of_nat (length ts) + 1)%Z.
Proof.
  intros Hvis Hts Hlast frames.
  destruct (frames_before_the_update buildMVP ts r Hvis Hts)
    as (r1 & Hrun & Hvis1 & Hfc & Hl & Hfps & Hsub).
  split; [by exists r1|].
  rewrite fmap_app, (handle_all_app buildMVP _ _ r r1 Hrun).
  cbn [fmap list_fmap handle_all handle].
  rewrite render_visible by done. rewrite Hl.
  rewrite Hlast.
  eexists. split; [reflexivity|].
  cbn [with_frame fpsCounter frameCount lastFpsTime gpu_calls].
  rewrite passes_submitted_app, Hfps, Hfc. simpl.
  split; [|split; [|split; [done|split; [done|lia]]]].
  - intros [el Hel]. by rewrite Hel.
  - intros Hnone. by rewrite Hnone.
Qed.

Lemma fps_counts_frames_of_the_interval_witness :
  ∃ r',
    handle_all (λ _, tt)
      (FrameDue <$> ([number_lit 500; number_lit 1100] ++ [number_lit 1100.3]))
      {| canvas := {| clientWidth := 300; clientHeight := 150;
                      width := 300; height := 150 |};
         device := Some tt; rotation := (0, 0)%Q; zoom := 1%Q;
         vertexBuffer := None; indexBuffer := None; indexCount := 0;
         depthTexture := Some (300, 150)%Z; frameCount := 0;
         lastFpsTime := number_lit 100.3;
         fpsCounter := Some None; gpu_calls := [] |} = inr r'
    ∧ frameCount r' = 0%Z
    ∧ lastFpsTime r' = number_lit 1100.3.
Proof.
  destruct (fps_counts_frames_of_the_interval (λ _, tt)
              {| canvas := {| clientWidth := 300; clientHeight := 150;
                              width := 300; height := 150 |};
                 device := Some tt; rotation := (0, 0)%Q; zoom := 1%Q;
                 vertexBuffer := None; indexBuffer := None; indexCount := 0;
                 depthTexture := Some (300, 150)%Z; frameCount := 0;
                 lastFpsTime := number_lit 100.3;
                 fpsCounter := Some None; gpu_calls := [] |}
              [number_lit 500; number_lit 1100] (number_lit 1100.3))
    as (_ & r' & H1 & _ & _ & H2 & H3 & _).
  - split; [by eexists|]. split; [by eexists|]. done.
  - repeat constructor.
  - vm_compute. reflexivity.
  - exists r'. exact (conj H1 (conj H2 H3)).
Defined.

(** ** The camera controls *)

Lemma SFcompare_swap (a b : spec_float) :
  SFcompare b a = CompOpp <$> SFcompare a b.
Proof.
  destruct a as [sa|sa| |sa ma ea], b as [sb|sb| |sb mb eb]; simpl;
    try done; try (by destruct sa); try (by destruct sb);
    try (by destruct sa, sb).
  change (PosDef.Pos.compare_cont Eq mb ma) with (Pos.compare mb ma).
  change (PosDef.Pos.compare_cont Eq ma mb) with (Pos.compare ma mb).
  rewrite (Z.compare_antisym ea eb), (Pos.compare_antisym ma mb).
  destruct sa, sb; simpl; try done;
    destruct (ea ?= eb)%Z; simpl; try done; by destruct (ma ?= mb)%positive.
Qed.

Lemma binary_round_aux_not_nan (prec emax : Z) (s : bool) (mx ex : Z) (lx : location) :
  (0 <= mx)%Z → binary_round_aux prec emax s mx ex lx ≠ S754_nan.
Proof.
  intros Hmx. unfold binary_round_aux.
  pose proof (shr_fexp_m prec emax mx ex lx Hmx) as [Hm1 _]. cbv zeta in Hm1.
  destruct (shr_fexp prec emax mx ex lx) as [mrs1 e1]. simpl in Hm1.
  assert (Hm1pos : (0 <= shr_m mrs1)%Z).
  { rewrite Hm1. apply Z.div_pos; [done|]. apply Z.pow_pos_nonneg; lia. }
  set (m2 := round_nearest_even (shr_m mrs1) (loc_of_shr_record mrs1)).
  assert (Hm2 : (m2 = shr_m mrs1 ∨ m2 = shr_m mrs1 + 1)%Z)
    by apply round_nearest_even_cases.
  assert (Hm2pos : (0 <= m2)%Z) by lia.
  pose proof (shr_fexp_m prec emax m2 e1 loc_Exact Hm2pos) as [Hm3 _].
  cbv zeta in Hm3.
  destruct (shr_fexp prec emax m2 e1 loc_Exact) as [mrs2 e2]. simpl in Hm3.
  assert (Hm3pos : (0 <= shr_m mrs2)%Z).
  { rewrite Hm3. apply Z.div_pos; [done|]. apply Z.pow_pos_nonneg; lia. }
  destruct (shr_m mrs2) as [|m3|m3]; [done| |lia].
  by destruct (e2 <=? emax - prec)%Z.
Qed.

Lemma SFcompare_refl (a : spec_float) : a ≠ S754_nan → SFcompare a a = Some Eq.
Proof.
  destruct a as [s|s| |s m e]; simpl; try done; try (by destruct s).
  intros _. rewrite Z.compare_refl.
  change (PosDef.Pos.compare_cont Eq m m) with (Pos.compare m m).
  rewrite Pos.compare_refl. by destruct s.
Qed.

Lemma SFcompare_is_Some (a b : spec_float) :
  a ≠ S754_nan → b ≠ S754_nan → is_Some (SFcompare a b).
Proof. destruct a, b; simpl; try done; by eexists. Qed.

Lemma Math_min_cases (a b : number) :
  a ≠ S754_nan → b ≠ S754_nan →
  (Math_min a b = a ∨ Math_min a b = b) ∧ SFleb (Math_min a b) a = true.
Proof.
  intros Ha Hb. unfold Math_min, SFleb.
  destruct (SFcompare_is_Some a b Ha Hb) as [c Hc]. rewrite Hc.
  pose proof (SFcompare_swap a b) as Hswap. rewrite Hc in Hswap. simpl in Hswap.
  destruct c.
  - destruct a as [[]| | |]; try (split; [by left|by rewrite SFcompare_refl]).
    split; [by right|by rewrite Hswap].
  - split; [by left|by rewrite SFcompare_refl].
  - split; [by right|by rewrite Hswap].
Qed.

Lemma Math_max_cases (a b : number) :
  a ≠ S754_nan → b ≠ S754_nan →
  (Math_max a b = a ∨ Math_max a b = b) ∧ SFleb a (Math_max a b) = true.
Proof.
  intros Ha Hb. unfold Math_max, SFleb.
  destruct (SFcompare_is_Some a b Ha Hb) as [c Hc]. rewrite Hc.
  destruct c.
  - destruct a as [[]| | |]; try (split; [by left|by rewrite SFcompare_refl]).
    split; [by right|by rewrite Hc].
  - split; [by right|by rewrite Hc].
  - split; [by left|by rewrite SFcompare_refl].
Qed.

Lemma SFleb_not_nan (a b : spec_float) :
  SFleb a b = true → a ≠ S754_nan ∧ b ≠ S754_nan.
Proof. unfold SFleb. destruct a, b; simpl; try done. Qed.

Lemma SFmul_not_nan (x k : number) (sk : bool) (mk : positive) (ek : Z) :
  x ≠ S754_nan → k = S754_finite sk mk ek → SFmul prec64 emax64 x k ≠ S754_nan.
Proof.
  intros Hx ->. destruct x as [s|s| |s m e]; simpl; try done.
  apply binary_round_aux_not_nan. lia.
Qed.

(** One turn of the wheel brings any factor that is a number into the
    range. *)
Lemma wheel_zoom_in_range (deltaY : number) (s : Controls.state) :
  number_valid (Controls.zoom s) = true →
  Controls.zoom s ≠ S754_nan →
  Controls.zoom_in_range
    (Controls.zoom (Controls.listener (Controls.wheel deltaY) s)) = true.
Proof.
  intros Hv Hn. cbn [Controls.listener Controls.zoom]. cbv zeta.
  set (k := if SFltb _ deltaY then _ else _).
  assert (Hk : number_valid k = true ∧ ∃ sk mk ek, k = S754_finite sk mk ek).
  { unfold k. destruct (SFltb (number_lit 0) deltaY);
      (split; [vm_compute; reflexivity|]); vm_compute; eauto. }
  destruct Hk as (Hkv & sk & mk & ek & Hk).
  set (x := SFmul prec64 emax64 (Controls.zoom s) k).
  assert (Hxv : number_valid x = true).
  { apply SFmul_valid; [vm_compute; reflexivity..|done|done]. }
  assert (Hxn : x ≠ S754_nan) by (eapply SFmul_not_nan; eauto).
  destruct (Math_min_cases (number_lit 10) x) as [Hmin Hle10]; [done|done|].
  set (m := Math_min (number_lit 10) x) in *.
  assert (Hmv : number_valid m = true).
  { destruct Hmin as [-> | ->]; [vm_compute; reflexivity|done]. }
  assert (Hmn : m ≠ S754_nan) by (by apply SFleb_not_nan in Hle10 as [? ?]).
  destruct (Math_max_cases (number_lit 0.5) m) as [Hmax Hge]; [done|done|].
  unfold Controls.zoom_in_range. rewrite Hge.
  destruct Hmax as [-> | ->].
  - vm_compute. reflexivity.
  - by rewrite Hmv, Hle10.
Qed.

Lemma listener_keeps_zoom_in_range (e : Controls.input) (s : Controls.state) :
  Controls.zoom_in_range (Controls.zoom s) = true →
  Controls.zoom_in_range (Controls.zoom (Controls.listener e s)) = true.
Proof.
  intros Hz. destruct e as [|button| |mx my|deltaY]; try done.
  - simpl. by destruct ((button =? 0) || (button =? 2))%Z.
  - simpl. by destruct (negb (Controls.dragging s)).
  - unfold Controls.zoom_in_range in Hz.
    apply andb_true_iff in Hz as [Hz Hle]. apply andb_true_iff in Hz as [Hv Hge].
    apply wheel_zoom_in_range; [done|]. by apply SFleb_not_nan in Hle as [? ?].
Qed.

(** X15: the zoom factor stays a number between 0.5 and 10 through any
    input from the mouse; one turn of the wheel brings any factor that is a
    number into this range, and leaves a factor that is [NaN] as it is. *)
Theorem zoom_stays_in_range (es : list Controls.input) (deltaY : number) :
  Controls.zoom_in_range (Controls.zoom (Controls.listeners es Controls.initial)) = true
  ∧ (∀ s : Controls.state,
       number_valid (Controls.zoom s) = true →
       Controls.zoom s ≠ S754_nan →
       Controls.zoom_in_range
         (Controls.zoom (Controls.listener (Controls.wheel deltaY) s)) = true)
  ∧ (∀ s : Controls.state,
       Controls.zoom s = S754_nan →
       Controls.zoom (Controls.listener (Controls.wheel deltaY) s) = S754_nan).
Proof.
  split; [|split].
  - assert (Hgen : ∀ s, Controls.zoom_in_range (Controls.zoom s) = true →
              Controls.zoom_in_range
                (Controls.zoom (Controls.listeners es s)) = true).
    { induction es as [|e es IH]; intros s Hs; [done|].
      simpl. apply IH. by apply listener_keeps_zoom_in_range. }
    apply Hgen. vm_compute. reflexivity.
  - intros s. apply wheel_zoom_in_range.
  - intros s Hs. cbn [Controls.listener Controls.zoom]. rewrite Hs.
    by destruct (SFltb (number_lit 0) deltaY).
Qed.

(** X16: after the button is released the rotation stays as it is, whatever
    the mouse does, until the left or the right button is pressed on the
    canvas; the middle button starts no drag and the wheel no rotation. *)
Theorem rotation_changes_only_while_dragging (es : list Controls.input)
    (s : Controls.state) :
  forallb (λ e, negb (Controls.starts_drag e)) es = true →
  let s' := Controls.listeners (Controls.mouseup :: es) s in
  Controls.dragging s' = false
  ∧ Controls.rotation_x s' = Controls.rotation_x s
  ∧ Controls.rotation_y s' = Controls.rotation_y s.
Proof.
  intros Hes s'.
  assert (Hgen : ∀ s0, Controls.dragging s0 = false →
            let s1 := Controls.listeners es s0 in
            Controls.dragging s1 = false
            ∧ Controls.rotation_x s1 = Controls.rotation_x s0
            ∧ Controls.rotation_y s1 = Controls.rotation_y s0).
  { clear s s'. induction es as [|e es IH]; intros s0 Hd; [done|].
    simpl in Hes. apply andb_true_iff in Hes as [He Hes].
    specialize (IH Hes). cbn [Controls.listeners foldl].
    assert (Hstep : Controls.dragging (Controls.listener e s0) = false
                    ∧ Controls.rotation_x (Controls.listener e s0) = Controls.rotation_x s0
                    ∧ Controls.rotation_y (Controls.listener e s0) = Controls.rotation_y s0).
    { destruct e as [|button| |mx my|deltaY]; try done.
      - simpl in *. apply negb_true_iff in He. by rewrite He.
      - simpl. by rewrite Hd. }
    destruct Hstep as (Hd1 & Hx1 & Hy1).
    destruct (IH (Controls.listener e s0) Hd1) as (Hd2 & Hx2 & Hy2).
    unfold Controls.listeners in *. split; [done|]. split; congruence. }
  unfold s'. cbn [Controls.listeners foldl].
  destruct (Hgen (Controls.listener Controls.mouseup s) eq_refl) as (Hd & Hx & Hy).
  unfold Controls.listeners in *. done.
Qed.

Lemma rotation_changes_only_while_dragging_witness :
  Controls.rotation_y
    (Controls.listeners
       [Controls.mouseup; Controls.mousedown 1;
        Controls.mousemove (number_lit 12) (number_lit 5);
        Controls.wheel (number_lit 3)]
       (Controls.listener (Controls.mousedown 0) Controls.initial))
  = Controls.rotation_y (Controls.listener (Controls.mousedown 0) Controls.initial).
Proof.
  refine (proj2 (proj2 (rotation_changes_only_while_dragging
            [Controls.mousedown 1;
             Controls.mousemove (number_lit 12) (number_lit 5);
             Controls.wheel (number_lit 3)]
            (Controls.listener (Controls.mousedown 0) Controls.initial) _))).
  reflexivity.
Defined.

(** ** The camera matrix *)

Lemma list16 {A} (l : list A) :
  length l = 16%nat →
  ∃ a0 a1 a2 a3 a4 a5 a6 a7 a8 a9 a10 a11 a12 a13 a14 a15,
    l = [a0; a1; a2; a3; a4; a5; a6; a7; a8; a9; a10; a11; a12; a13; a14; a15].
Proof.
  intros Hl.
  do 16 (destruct l as [|? l]; [done|]). destruct l; [|done].
  by repeat eexists.
Qed.

Lemma mat4Mul_R_length (a b : list R) : length (mat4Mul_R a b) = 16%nat.
Proof.
  unfold mat4Mul_R, Camera.mat4Mul, Camera.write. cbn [foldl seq].
  by rewrite !length_insert.
Qed.

(** X17: over the reals, the matrix [mat4Mul(a, b)], used by the vertex
    stage as [m * v], maps [v] to [b * (a * v)]: the left factor acts
    first. *)
Theorem mat4Mul_applies_left_factor_first (a b : list R) (v : R * R * R * R) :
  length a = 16%nat → length b = 16%nat →
  mat4x4_mul_vec4_R (mat4Mul_R a b) v
  = mat4x4_mul_vec4_R b (mat4x4_mul_vec4_R a v).
Proof.
  intros Ha Hb.
  destruct (list16 a Ha) as (a0&a1&a2&a3&a4&a5&a6&a7&a8&a9&a10&a11&a12&a13&a14&a15&->).
  destruct (list16 b Hb) as (b0&b1&b2&b3&b4&b5&b6&b7&b8&b9&b10&b11&b12&b13&b14&b15&->).
  destruct v as [[[v0 v1] v2] v3].
  unfold mat4x4_mul_vec4_R, mat4Mul_R, Camera.mat4x4_mul_vec4, Camera.mat4Mul,
    Camera.write, Camera.read, Camera.Float32Array.
  cbn. f_equal; [f_equal; [f_equal|]|]; ring.
Qed.

Lemma mat4Mul_applies_left_factor_first_witness :
  mat4x4_mul_vec4_R (mat4Mul_R (replicate 16 2%R) (replicate 16 3%R)) (1, 0, 0, 1)%R
  = mat4x4_mul_vec4_R (replicate 16 3%R)
      (mat4x4_mul_vec4_R (replicate 16 2%R) (1, 0, 0, 1)%R).
Proof.
  refine (mat4Mul_applies_left_factor_first (replicate 16 2%R) (replicate 16 3%R)
            (1, 0, 0, 1)%R _ _).
  - reflexivity.
  - reflexivity.
Defined.

(** X18: over the reals, [mat4Mul] is associative on arrays of sixteen
    elements. *)
Theorem mat4Mul_is_associative (a b c : list R) :
  length a = 16%nat → length b = 16%nat → length c = 16%nat →
  mat4Mul_R (mat4Mul_R a b) c = mat4Mul_R a (mat4Mul_R b c).
Proof.
  intros Ha Hb Hc.
  destruct (list16 a Ha) as (a0&a1&a2&a3&a4&a5&a6&a7&a8&a9&a10&a11&a12&a13&a14&a15&->).
  destruct (list16 b Hb) as (b0&b1&b2&b3&b4&b5&b6&b7&b8&b9&b10&b11&b12&b13&b14&b15&->).
  destruct (list16 c Hc) as (c0&c1&c2&c3&c4&c5&c6&c7&c8&c9&c10&c11&c12&c13&c14&c15&->).
  unfold mat4Mul_R, Camera.mat4Mul, Camera.write, Camera.read, Camera.Float32Array.
  cbn. repeat (f_equal; [ring|]). f_equal. ring.
Qed.

Lemma mat4Mul_is_associative_witness :
  mat4Mul_R (mat4Mul_R (replicate 16 2%R) (replicate 16 3%R)) (replicate 16 5%R)
  = mat4Mul_R (replicate 16 2%R) (mat4Mul_R (replicate 16 3%R) (replicate 16 5%R)).
Proof.
  refine (mat4Mul_is_associative (replicate 16 2%R) (replicate 16 3%R)
            (replicate 16 5%R) _ _ _).
  - reflexivity.
  - reflexivity.
  - reflexivity.
Defined.

Lemma Q2R_lit_0 : Q2R 0 = 0%R.
Proof. unfold Q2R. simpl. lra. Qed.

Lemma Q2R_lit_1 : Q2R 1 = 1%R.
Proof. unfold Q2R. simpl. lra. Qed.

(** X19: over the reals, the clip position the vertex stage computes with
    the matrix of [buildMVP]: the position goes through the projection
    first, then through the translation by [-zoom] of the view, then through
    the rotation about x and the rotation about y.  Its w component is [-z]
    of the position, whatever the rotation and the zoom.  The world position
    is passed on unchanged. *)
Theorem camera_applies_projection_first (r : Renderer (list R)) (x y z : R) :
  let aspect := (Q2R (inject_Z (width (canvas r))) /
                 Q2R (inject_Z (height (canvas r))))%R in
  let f := (1 / tan (PI / Q2R 4 / Q2R 2))%R in
  let near := Q2R 0.1 in
  let far := Q2R 100 in
  let cx := cos (Q2R (rotation r).1) in
  let sx := sin (Q2R (rotation r).1) in
  let cy := cos (Q2R (rotation r).2) in
  let sy := sin (Q2R (rotation r).2) in
  let px := (f / aspect * x)%R in
  let py := (f * y)%R in
  let pz := ((far + near) / (near - far) * z + Q2R 2 * far * near / (near - far))%R in
  let pw := (- z)%R in
  let tz := (pz - Q2R (zoom r) * pw)%R in
  let ry := (cx * py + sx * tz)%R in
  let rz := (- sx * py + cx * tz)%R in
  vs_R (buildMVP_R r) (x, y, z)
  = (((cy * px - sy * rz)%R, ry, (sy * px + cy * rz)%R, (- z)%R), (x, y, z)).
Proof.
  intros aspect f near far cx sx cy sy px py pz pw tz ry rz.
  unfold vs_R, buildMVP_R, Camera.vs, Camera.buildMVP, Camera.mat4x4_mul_vec4,
    Camera.mat4Mul, Camera.write, Camera.read, Camera.Float32Array.
  cbn -[Q2R inject_Z cos sin tan PI].
  fold aspect. fold near far cx sx cy sy.
  rewrite Q2R_lit_0, Q2R_lit_1, Q2R_lit_one.
  replace (1 / tan (PI / Q2R 4 / Q2R 2))%R with f by done.
  unfold rz, ry, tz, pw, pz, py, px.
  repeat apply (f_equal2 pair); try reflexivity; ring.
Qed.

(** ** Shading *)

Lemma dot_normalize_R (e : R * R * R) :
  (0 < Shading.length e)%R →
  Shading.dot (Shading.normalize e) (Shading.normalize e) = 1%R.
Proof.
  destruct e as [[a b] c]. unfold Shading.normalize, Shading.length, Shading.dot.
  cbn [fst snd fsqrt fmul fadd fdiv R_scalar].
  intros Hpos.
  assert (Hn : (0 <= a * a + b * b + c * c)%R) by nra.
  pose proof (sqrt_sqrt _ Hn) as Hsq.
  set (s := sqrt (a * a + b * b + c * c)) in *.
  assert (Hs : s ≠ 0%R) by lra.
  field_simplify_eq; [|exact Hs].
  transitivity (s * s)%R; [rewrite Hsq; ring|ring].
Qed.

Lemma dot_unit_le_1 (u v : R * R * R) :
  Shading.dot u u = 1%R → Shading.dot v v = 1%R → (Shading.dot u v <= 1)%R.
Proof.
  destruct u as [[a b] c], v as [[d e] f]. unfold Shading.dot.
  cbn [fst snd fmul fadd R_scalar]. intros Hu Hv.
  pose proof (Rle_0_sqr (a - d)) as H1. pose proof (Rle_0_sqr (b - e)) as H2.
  pose proof (Rle_0_sqr (c - f)) as H3. unfold Rsqr in *. lra.
Qed.

(** X20: over the reals, for derivatives [dx], [dy] of the world position
    that are not parallel, every channel of the colour the fragment stage
    returns lies between 0.18 times and 1 time the channel of the base colour
    (0.25, 0.65, 0.9), and alpha is 1. *)
Theorem shaded_colour_stays_within_the_base_colour (dx dy : R * R * R) :
  (0 < Shading.length (Shading.cross dx dy))%R →
  let '(r, g, b, a) := Shading.fs dx dy in
  (0.18 * 0.25 <= r <= 0.25)%R
  ∧ (0.18 * 0.65 <= g <= 0.65)%R
  ∧ (0.18 * 0.9 <= b <= 0.9)%R
  ∧ a = 1%R.
Proof.
  intros Hpos. unfold Shading.fs.
  set (normal := Shading.normalize (Shading.cross dx dy)).
  set (light_dir := Shading.normalize (lit 0.6, lit 0.8, lit 0.5)).
  assert (Hn : Shading.dot normal normal = 1%R) by (by apply dot_normalize_R).
  assert (Hl : Shading.dot light_dir light_dir = 1%R).
  { apply dot_normalize_R. unfold Shading.length, Shading.dot.
    cbn [fst snd fsqrt fmul fadd lit R_scalar].
    apply sqrt_lt_R0. unfold Q2R. simpl. lra. }
  pose proof (dot_unit_le_1 normal light_dir Hn Hl) as Hle.
  set (d := Shading.dot normal light_dir) in *.
  assert (Hdiff : (0 <= fmax d (lit 0.0) <= 1)%R).
  { unfold fmax. cbn [flt lit R_scalar]. rewrite Q2R_lit_zero.
    unfold Rlt_bool. destruct (Rlt_dec d 0); lra. }
  set (diffuse := fmax d (lit 0.0)) in *.
  unfold Shading.scale. cbn [fst snd fmul fadd lit R_scalar].
  unfold Q2R; simpl.
  repeat split; lra.
Qed.

Lemma shaded_colour_stays_within_the_base_colour_witness :
  let '(r, g, b, a) := Shading.fs (1, 0, 0)%R (0, 1, 0)%R in
  (0.18 * 0.25 <= r <= 0.25)%R
  ∧ (0.18 * 0.65 <= g <= 0.65)%R
  ∧ (0.18 * 0.9 <= b <= 0.9)%R
  ∧ a = 1%R.
Proof.
  refine (shaded_colour_stays_within_the_base_colour (1, 0, 0)%R (0, 1, 0)%R _).
  unfold Shading.length, Shading.cross, Shading.dot.
  cbn [fst snd fsqrt fmul fadd fsub R_scalar].
  apply sqrt_lt_R0. lra.
Defined.

(** ** The page as a whole *)

Section PageFacts.
Context {Matrix : Type}.
Variable buildMVP : Renderer Matrix → Matrix.
Variables gpu_cos gpu_sin : f32 → f32.

Lemma page_inv_shows (p : World * Renderer Matrix) :
  page_inv p → shows_the_mesh p.
Proof.
  intros (mesh & bg & input & output & idx & (Hready & _) & _ & _ & Hidx
          & Hvb & Hib & Hic & _).
  exists mesh, (Floats input), (Words idx).
  split; [exact (ready_meshData _ _ _ _ _ Hready)|].
  split; [exact (ready_vertices _ _ _ _ _ Hready)|]. done.
Qed.

Lemma updateMesh_inv (byteLength : nat) (indices : option nat) (r : Renderer Matrix) :
  renderer_inv r →
  ∃ r', updateMesh byteLength indices r = inr r'
        ∧ renderer_inv r'
        ∧ vertexBuffer r' = Some byteLength
        ∧ match indexBuffer r, indices with
          | None, Some n =>
              indexBuffer r' = Some (4 * n)%nat ∧ indexCount r' = Z.of_nat n
          | _, _ => indexBuffer r' = indexBuffer r ∧ indexCount r' = indexCount r
          end.
Proof using buildMVP.
  intros Hinv.
  destruct (handle_inv buildMVP (MeshUpdated byteLength indices) r Hinv)
    as (r' & Hrun & Hinv').
  cbn [handle] in Hrun. exists r'. split; [done|]. split; [done|].
  unfold updateMesh in Hrun. destruct Hinv as ([d Hdev] & _).
  rewrite Hdev in Hrun.
  destruct (indexBuffer r), indices; injection Hrun as <-; done.
Qed.

Lemma surface_events_keep_buffers (e : event) (r r' : Renderer Matrix) :
  match e with SurfaceResized _ _ | FrameDue _ => True | _ => False end →
  handle buildMVP e r = inr r' →
  vertexBuffer r' = vertexBuffer r
  ∧ indexBuffer r' = indexBuffer r
  ∧ indexCount r' = indexCount r.
Proof.
  destruct e as [w h|now| |]; try done; intros _; cbn [handle].
  - unfold resizeCanvas.
    cbn [layout with_canvas canvas clientWidth clientHeight device depthTexture].
    destruct ((w =? 0) || (h =? 0))%Z; [by intros [= <-]|].
    destruct (device r); [|done]. by intros [= <-].
  - unfold render.
    destruct (bool_decide (depthTexture r = None) || (width (canvas r) =? 0)%Z);
      [by intros [= <-]|].
    destruct (device r); [|done].
    destruct (fps_due now (lastFpsTime r)); by intros [= <-].
Qed.

Lemma on_action_inv (a : action) (p : World * Renderer Matrix) :
  page_inv p →
  ∃ p', on_action buildMVP gpu_cos gpu_sin a p = inr p' ∧ page_inv p'.
Proof.
  destruct p as [w r].
  intros (mesh & bg & input & output & idx & Hs & Hvc & Hwrap & Hidx
          & Hvb & Hib & Hic & Hinv).
  cbn [fst snd] in *.
  destruct a as [operation param| |width height|now]; cbn [on_action].
  - destruct (process_click_settled gpu_cos gpu_sin w mesh bg input output
                operation param Hs Hvc Hwrap)
      as (processed & w' & Hrun & Hs' & Hp).
    cbv zeta in Hs', Hp. rewrite Hrun.
    pose proof (process_click_kept _ _ _ _ _ _ _ Hrun _ _ Hidx) as Hidx'.
    unfold renderer_updateMesh. rewrite Hp.
    destruct (updateMesh_inv
                (byteLength (Floats (map_vertices
                   (deform_vertex (H := f32_scalar gpu_cos gpu_sin)
                      (kernel_params operation param (vertexCount mesh))) input)))
                (mesh ← meshData (stlOps w');
                 idx ← arraybuffers w' !! indices mesh; Some (elements idx))
                r Hinv) as (r' & Hup & Hinv' & Hvb' & Hib').
    rewrite Hup. eexists. split; [reflexivity|].
    rewrite Hib in Hib'. destruct Hib' as [Hib' Hic'].
    eexists mesh, bg, input, _, idx. cbn [fst snd].
    split; [exact Hs'|]. split; [done|]. split; [done|]. split; [done|].
    split; [|split; [congruence|split; [congruence|done]]].
    rewrite Hvb'. cbn [byteLength]. do 2 f_equal.
    destruct Hs as (Hready & _).
    pose proof (ready_input_length _ _ _ _ _ Hready) as Hlin.
    assert (Hn : length input = (3 * Z.to_nat (vertexCount mesh))%nat)
      by (unfold f32 in *; lia).
    rewrite (length_map_vertices _ _ _ Hn). by rewrite Hn.
  - destruct (reset_click_settled w mesh bg input output Hs)
      as (w' & bg' & Hrun & Hs' & _ & _ & _ & Hidx' & _).
    cbv zeta in Hs', Hidx'. rewrite Hrun.
    destruct Hs' as (Hready' & Hrest').
    rewrite (ready_meshData _ _ _ _ _ Hready').
    unfold renderer_updateMesh.
    rewrite (ready_vertices _ _ _ _ _ Hready').
    rewrite (ready_meshData _ _ _ _ _ Hready'). cbn [mbind option_bind indices].
    rewrite Hidx'. cbn [mbind option_bind elements byteLength].
    assert (Hinv1 : renderer_inv (resetIndexBuffer r)).
    { destruct (handle_inv buildMVP IndexBufferReset r Hinv) as (r1 & Hr1 & Hinv1).
      cbn [handle] in Hr1. by injection Hr1 as <-. }
    destruct (updateMesh_inv (4 * length cube_f32) (Some (length cube_indices))
                (resetIndexBuffer r) Hinv1) as (r' & Hup & Hinv' & Hvb' & Hib').
    rewrite Hup. eexists. split; [reflexivity|].
    cbn [resetIndexBuffer with_buffers indexBuffer] in Hib'.
    destruct Hib' as [Hib' Hic'].
    eexists _, bg', cube_f32, _, cube_indices. cbn [fst snd].
    split; [exact (conj Hready' Hrest')|].
    split; [simpl; lia|]. split; [unfold u32_modulus; simpl; lia|].
    split; [done|]. done.
  - destruct (handle_inv buildMVP (SurfaceResized width height) r Hinv)
      as (r' & Hrun & Hinv').
    pose proof (surface_events_keep_buffers (SurfaceResized width height) _ _ I Hrun)
      as (Hv & Hi & Hc).
    cbn [handle] in Hrun. rewrite Hrun. eexists. split; [reflexivity|].
    exists mesh, bg, input, output, idx. cbn [fst snd].
    rewrite Hv, Hi, Hc. done.
  - destruct (handle_inv buildMVP (FrameDue now) r Hinv) as (r' & Hrun & Hinv').
    pose proof (surface_events_keep_buffers (FrameDue now) _ _ I Hrun)
      as (Hv & Hi & Hc).
    cbn [handle] in Hrun. rewrite Hrun. eexists. split; [reflexivity|].
    exists mesh, bg, input, output, idx. cbn [fst snd].
    rewrite Hv, Hi, Hc. done.
Qed.

Lemma on_actions_inv (acts : list action) : ∀ p : World * Renderer Matrix,
  page_inv p →
  ∃ p', on_actions buildMVP gpu_cos gpu_sin acts p = inr p' ∧ page_inv p'.
Proof.
  induction acts as [|a acts IH]; intros p Hp; cbn [on_actions].
  - by exists p.
  - destruct (on_action_inv a p Hp) as (p1 & -> & Hp1). by apply IH.
Qed.

Lemma start_page_inv (c : Canvas) (fpsEl : bool) (t0 : number) :
  ∃ p0 : World * Renderer Matrix, start_page c fpsEl t0 = Some p0 ∧ page_inv p0
    ∧ p0.1 = app_World.
Proof using buildMVP.
  unfold start_page.
  assert (Hinit0 : initApp initial_World = (Ok tt, app_World))
    by (vm_compute; reflexivity).
  rewrite Hinit0.
  destruct (init_inv (Matrix := Matrix) c fpsEl t0) as (r0 & Hinit & Hinv).
  rewrite Hinit.
  assert (Hnone : indexBuffer r0 = None).
  { unfold init, resizeCanvas in Hinit.
    cbn [with_device new_Renderer canvas device depthTexture] in Hinit.
    destruct ((clientWidth c =? 0) || (clientHeight c =? 0))%Z;
      by injection Hinit as <-. }
  pose proof app_World_settled as Hs. destruct Hs as (Hready & Hrest).
  rewrite (ready_meshData _ _ _ _ _ Hready).
  unfold renderer_updateMesh.
  rewrite (ready_vertices _ _ _ _ _ Hready).
  rewrite (ready_meshData _ _ _ _ _ Hready). cbn [mbind option_bind].
  assert (Hidx : arraybuffers app_World !! indices app_mesh = Some (Words cube_indices))
    by (vm_compute; reflexivity).
  rewrite Hidx. cbn [mbind option_bind elements byteLength].
  destruct (updateMesh_inv (4 * length cube_f32) (Some (length cube_indices))
              r0 Hinv) as (r' & Hup & Hinv' & Hvb' & Hib').
  rewrite Hup. rewrite Hnone in Hib'. destruct Hib' as [Hib' Hic'].
  eexists. split; [reflexivity|]. split; [|reflexivity].
  exists app_mesh, app_bindGroup, cube_f32, (replicate 24 f32_zero), cube_indices.
  cbn [fst snd]. split; [exact (conj Hready Hrest)|].
  split; [simpl; lia|]. split; [unfold u32_modulus; simpl; lia|].
  split; [exact Hidx|]. split; [exact Hvb'|]. split; [exact Hib'|].
  split; [exact Hic'|]. exact Hinv'.
Qed.

End PageFacts.

(** X22: the page after [initApp] and any clicks on Process and Reset,
    resizes and animation frames: no listener throws, and the renderer holds
    a vertex buffer of the byte length of the position array of [stlOps] and
    an index buffer with as many indices as the mesh has.  The next frame
    then either does nothing, the surface having no area yet, or writes the
    camera matrix and submits one pass that draws every index of the mesh. *)
Theorem page_shows_the_mesh {Matrix : Type} (buildMVP : Renderer Matrix → Matrix)
    (gpu_cos gpu_sin : f32 → f32) (c : Canvas) (fpsEl : bool) (t0 : number)
    (acts : list action) :
  ∃ p0 p',
    start_page c fpsEl t0 = Some p0
    ∧ on_actions buildMVP gpu_cos gpu_sin acts p0 = inr p'
    ∧ shows_the_mesh p'
    ∧ ∀ now, ∃ r'',
        render buildMVP now p'.2 = inr r''
        ∧ (gpu_calls r'' = gpu_calls p'.2
           ∨ gpu_calls r'' =
               gpu_calls p'.2 ++
                 [WriteMVP (buildMVP p'.2); SubmitRenderPass (Some (indexCount p'.2))]).
Proof.
  destruct (start_page_inv (Matrix := Matrix) buildMVP c fpsEl t0) as (p0 & Hstart & Hinv & _).
  destruct (on_actions_inv buildMVP gpu_cos gpu_sin acts p0 Hinv) as (p' & Hrun & Hinv').
  exists p0, p'. split; [done|]. split; [done|].
  split; [by apply (page_inv_shows)|].
  destruct Hinv' as (mesh & bg & input & output & idx & _ & _ & _ & _
                     & Hvb & Hib & _ & ([d Hdev] & _)).
  intros now. unfold render. rewrite Hdev, Hvb, Hib.
  destruct (bool_decide (depthTexture p'.2 = None) || (width (canvas p'.2) =? 0)%Z).
  - eexists. split; [reflexivity|]. by left.
  - destruct (fps_due now (lastFpsTime p'.2));
      (eexists; split; [reflexivity|]; by right).
Qed.

(** ** Start-up of the GPU manager *)

(** X21: [GPUManager.init] returns only with an adapter, a device and a
    queue in place, and the label it returns is never empty: the device name
    of the adapter, else its description, else ["WebGPU Active"].  Without
    [navigator.gpu] it throws its first message with the manager unchanged;
    without an adapter it throws its second message with no device set; a
    rejected request for the device leaves no device, a rejected request for
    the adapter information leaves the device in place. *)
Theorem init_reports_or_labels (navigator : GpuUtils.Navigator)
    (this : GpuUtils.GPUManager) :
  let r := (GpuUtils.init navigator this).1 in
  let this' := (GpuUtils.init navigator this).2 in
  (∀ info, r = inr info →
     info ≠ ""
     ∧ is_Some (GpuUtils.device this')
     ∧ is_Some (GpuUtils.queue this')
     ∧ ∃ a adapterInfo,
         GpuUtils.gpu navigator = Some (Some a)
         ∧ GpuUtils.adapter this' = Some a
         ∧ GpuUtils.requestAdapterInfo a = Some adapterInfo
         ∧ (GpuUtils.info_device adapterInfo ≠ "" →
              info = GpuUtils.info_device adapterInfo)
         ∧ (GpuUtils.info_device adapterInfo = "" →
              GpuUtils.info_description adapterInfo ≠ "" →
              info = GpuUtils.info_description adapterInfo)
         ∧ (GpuUtils.info_device adapterInfo = "" →
              GpuUtils.info_description adapterInfo = "" →
              info = "WebGPU Active"))
  ∧ (GpuUtils.gpu navigator = None →
       r = inl (GpuUtils.Error
                  "WebGPU is not supported in this browser. Please use Chrome 113+ or Edge 113+.")
       ∧ this' = this)
  ∧ (GpuUtils.gpu navigator = Some None →
       r = inl (GpuUtils.Error "Could not request WebGPU adapter. Check GPU drivers.")
       ∧ GpuUtils.device this' = GpuUtils.device this
       ∧ GpuUtils.queue this' = GpuUtils.queue this
       ∧ GpuUtils.adapter this' = None)
  ∧ (∀ a, GpuUtils.gpu navigator = Some (Some a) →
       GpuUtils.requestDevice a = None →
       r = inl GpuUtils.Rejection
       ∧ GpuUtils.device this' = GpuUtils.device this)
  ∧ (∀ a d, GpuUtils.gpu navigator = Some (Some a) →
       GpuUtils.requestDevice a = Some d →
       GpuUtils.requestAdapterInfo a = None →
       r = inl GpuUtils.Rejection
       ∧ GpuUtils.device this' = Some d).
Proof.
  intros r this'. unfold r, this', GpuUtils.init.
  destruct (GpuUtils.gpu navigator) as [[a|]|] eqn:Egpu; cbn [GpuUtils.adapter].
  - destruct (GpuUtils.requestDevice a) as [d|] eqn:Ed.
    + destruct (GpuUtils.requestAdapterInfo a) as [adapterInfo|] eqn:Ei;
        cbn [fst snd GpuUtils.device GpuUtils.queue GpuUtils.adapter].
      * split; [|split; [done|split; [done|split; [congruence|congruence]]]].
        intros info [= <-]. unfold GpuUtils.or_else.
        split; [repeat case_decide; done|].
        split; [by eexists|]. split; [by eexists|].
        exists a, adapterInfo. repeat case_decide; done.
      * split; [done|split; [done|split; [done|split; [congruence|]]]].
        intros a' d' [= <-] Hd _. split; [done|congruence].
    + cbn [fst snd GpuUtils.device]. split; [done|split; [done|split; [done|split]]].
      * intros a' [= <-] _. done.
      * intros a' d' [= <-] Hd. congruence.
  - cbn [fst snd GpuUtils.device GpuUtils.queue GpuUtils.adapter].
    split; [done|split; [done|split; [done|split; done]]].
  - cbn [fst snd]. split; [done|split; [done|split; [done|split; done]]].
Qed.

